(* ===== verification/_CoqProject ===== *)
-Q . S2P
Prelude.v
Float64.v
FloatRound.v
Rng.v
SparseSet.v
Entity.v
GoValues.v
Interning.v
Component.v
Store.v
Tags.v
Heap.v
Events.v
GoStrings.v
World.v
Snapshot.v
Scheduler.v
Parallel.v
Runtime.v
Lifecycle.v
Registry.v
JobQueue.v
MemoryBroker.v
Manager.v
ManagerRuns.v
Counter.v
Population.v
ModelRuns.v
Traffic.v
Queueing.v
DSystem.v
Logistics.v
Ecosystem.v
Economy.v
GoText.v
GoFlag.v
Base64.v
Identifiers.v
Password.v
Sqlc.v
Repository.v
Auth.v
Redis.v
RabbitMQ.v
Workers.v
Migrate.v
Api.v
Cli.v
Serving.v
Commands.v
TestDB.v
