(* ===== verification/Prelude.v ===== *)
(** * A verification library for the simulator engine

    The repository is a simulation platform written in Go.  An entity-component engine
    ([src/pkg/simulation]) steps a world of entities, components, tags, resources and events
    under a deterministic scheduler; random streams ([src/pkg/rng]) are derived from one seed;
    models ([src/examples]) plug into it; and a service layer ([src/internal]) registers models,
    creates and controls simulations, queues jobs, stores records, authenticates users and answers
    HTTP requests; four commands ([src/cmd]) put the parts together.  This library models the
    engine, all seven models, the service layer and the commands as executable definitions, and
    proves what makes them correct.

    ** Conventions

    A Go integer is a [Z] with its wrap-around written out ([u32], [i32], [u64], [i64]); a
    [float64] is a [spec_float] rounded to 53 bits; slices are lists, with the capacity kept where
    the code looks at it; maps are [gmap]s, and where Go's iteration order could matter it is an
    argument or a permutation.  A statement that can panic returns an [outcome], one that can fail
    a [result] or an [option error].  A method [m] of a type [T] is [T__m] where the bare name is
    taken.  Above every definition that translates code stands the place it translates.

    ** Files

    - [Prelude]: integers, panics, errors, bounded iteration, tactics and shared lemmas.
    - [Float64]: Go's floating-point numbers and the order of their comparisons.
    - [Rng]: [pkg/rng/rng.go] and [pkg/simulation/random.go] (splitmix64, bounded draws, floats,
      derived streams).
    - [SparseSet]: the dense/sparse index that entities and columns share, with its invariant.
    - [Entity]: [entity.go] (generational identifiers, free list, snapshot and restore).
    - [GoValues]: Go values of arbitrary types, [reflect.Type] and [encoding/json], as the class
      [GoRuntime] with the law [JsonRoundTrip], and a concrete instance [Toy].
    - [Interning]: the name tables of components and tags, as the class [NameTable].
    - [Component], [Store]: [component.go] (columns, the component store, equivalence of columns
      and stores with their [Proper] instances, JSON snapshots).
    - [Tags]: [tags.go] (tag registry and bitsets).
    - [Heap], [Events]: [container/heap] and [event.go] (the event order and queue).
    - [GoStrings]: byte-wise string comparison, [strings.Split], [strconv.Atoi].
    - [World]: [clock.go], [resource.go], [schedule.go], [world.go] and [pkg/model/model.go].
    - [Snapshot]: [snapshot.go] (provenance, checksum, validation, restore); the JSON encoder of a
      snapshot and SHA-256 are the class [Checksummer].
    - [Scheduler]: [system.go], [scheduler.go] (conflicts, dependency levels, cached entity sets,
      partitioning).
    - [Parallel]: interleavings of the shards of a level, and that they cannot be told apart.
    - [Runtime]: [executor.go], [runtime.go], [config.go], [state.go], [model.go] as a single
      caller uses them.
    - [Lifecycle]: the critical sections of [runtime.go] as a labelled transition system, for calls
      that overlap a background run, and for the callers that [Wait] for one.
    - [Registry]: [internal/registry/registry.go].
    - [JobQueue]: [internal/queue/queue.go], [internal/broker/broker.go] and the queues of
      [memory.go]; the function the queue gives to a broker ([job_delivery]) needs of it only the
      classes [Publisher] and [Delivery], and its life of a job is proved against the contract of a
      first-in, first-out broker ([Broker]), [JobCodec] and [Coord] with their laws; the in-memory
      broker is an instance.
    - [MemoryBroker]: the consumer loop and the deliveries of [internal/broker/memory.go].
    - [RabbitMQ]: [internal/broker/rabbitmq.go] over the calls of an AMQP client (the class
      [AmqpClient] with the laws [AmqpLaws], which leave room for other consumers), the job queue on
      it, and a client that is watched at every moment.
    - [Redis]: [internal/coord/redis.go], [internal/ratelimit/ratelimit.go] over the commands of a
      server (the class [RedisServer]); an instance of [Coord].
    - [Manager]: [internal/runner/manager.go] over a heap of simulations, against the classes
      [Persistence] and [RunConfigCodec].
    - [ManagerRuns]: histories of the manager and the books it keeps.
    - [Workers]: [internal/workers/runjob.go] and [service.go].
    - [Sqlc], [Repository]: [internal/persistence/sqlc] (queries, over a connection that works, is
      down or loses its answers, with the constraints of [migrations] on the tables) and
      [internal/persistence/store.go]; what is left to the server is the class [Postgres].
    - [Migrate]: [internal/database/migrate.go], where every call to the database may fail.
    - [Base64], [Password], [Auth]: [internal/auth] (encoding, password hashing, tokens,
      middlewares, accounts) against the classes [Argon2] and [Jwt].
    - [Api]: [internal/api] (handlers, middlewares, routes, responses, the timeout guard).
    - [Identifiers]: entity identifiers in JSON ([entity.go]) and random identifiers in
      hexadecimal ([newID] and [newSuffix] of [internal]).
    - [GoText], [GoFlag]: decimal text, trimming, splitting, and the [flag] package.
    - [Cli]: [cmd/cli/main.go], a client of [Api]; [net/url] is the class [NetURL] with [UrlLaws].
    - [Serving]: the middleware chain of [Api] with logging and tracing ([tracing.go]), and the
      client of [Cli] at the other end of the connection.
    - [Commands]: [cmd/api], [cmd/migrate], [cmd/worker] and what they wire
      ([internal/app/models.go], [metrics.go], [tracing.go], [database.go]).
    - [TestDB]: [internal/testutil/db.go].
    - [Counter]: [examples/counter/counter.go], a client of the scheduler's determinism.
    - [Traffic]: [examples/traffic/traffic.go] (network, light policies, movement).
    - [FloatRound], [Population], [ModelRuns]: bounds of rounded floats, worlds whose entities all
      have a component, and runs of whole models, shared by the other examples.
    - [Queueing], [DSystem], [Logistics], [Ecosystem], [Economy]: the other [examples].

    ** What the theorems show

    - Determinism.  Every interleaving of the shards of a level of non-conflicting, entity-local
      systems ends in the store of a sequential run ([Parallel], [Counter]); levels separate
      conflicting systems and shards cover the entities once ([Scheduler]); random streams of
      different identifiers differ, draws have full period, bounded draws terminate and are
      unbiased ([Rng]); serialised resources do not depend on map order ([World]).
    - Refinement.  Entity manager, column, tag store and event queue behave as a set of live
      identifiers, a finite map, a set of pairs and a calendar, for every sequence of calls
      within stated bounds; cached entity sets are not stale unless a restore failed half-way.
    - Snapshots.  Each part, and the whole world, is restored from its own snapshot when the JSON
      encoder accepts it; foreign or
      damaged snapshots are refused without a write; a run resumed from a snapshot reaches the
      state of an uninterrupted one; a replayed simulation starts as the created one did.
    - Runs.  [RunN] takes exactly [n] steps, bounded runs terminate, at no turn of a run does event
      time go backwards, [Pause] and [Stop] take effect within a step, stopped runs close.
    - Jobs.  A failing job is retried a bounded number of times and dead-lettered; a successful
      one is not repeated for a day when Redis answers; over RabbitMQ, without Redis, a message is at
      every moment with the server or its work is done; a worker computes what the manager
      would have and is seen alive while it renews its heartbeat ([JobQueue], [RabbitMQ], [Workers]).
    - Service layer.  The registry finds the latest version; the tables stay consistent; records
      follow the life of their simulation; the gauges of the manager balance; migrations reach a
      level whatever fails, and go back; the limiter lets exactly the first requests of a window
      through.
    - Access.  Registering, logging in and presenting the token works until the token expires;
      tokens are of one kind; changes need a permission, simulations of others are invisible, the
      answers of the lifecycle routes are determined by the state ([Auth], [Api]).
    - Processes.  The API serves only with an open database, the last schema and the configured
      parts; a command of the client with a plain identifier and a plain base makes the one request
      its endpoint expects; against the served API its lifecycle commands are the methods of the
      simulation ([Commands], [Cli], [Serving]).
    - Models.  Each model runs for any number of steps without an error or a panic.  The traffic
      model conserves vehicles and keeps them apart; the queueing model conserves customers; the
      distributed system accounts for its requests; logistics delivers every order; the ecosystem
      stays within its bounds; prices of the economy stay between floor and cap as long as they are
      numbers.
    - Deviations.  Where code and comment disagree, or the code does not do what it means to, a
      theorem exhibits it: [generation_wraps_around], [Destroy_reorders_iteration],
      [Column_ignores_generation], [NaN_event_breaks_order], [stale_identifiers_share_a_slot],
      [levels_precede_Initialize], [sharded_panic_fatal], [failed_Restore_keeps_revision],
      [overlapping_runs],
      [paused_run_closes], [Wait_loses_error], [newID_fallback_constant],
      [registry_key_collision], [replay_side_effects], [deleted_before_watched],
      [entry_cell_shared],
      [short_window_never_limits], [worker_ignores_unknown_version], [missing_down_forgotten],
      [interleaved_timeout_double], [foreign_and_missing_distinguishable],
      [delivery_order_visible], [carrying_capacity_exceeded], [overflow_defeats_cap],
      [crashed_job_swallowed], [unsettled_delivery_dropped], [late_consumer_waits],
      [failed_reconnect_is_final], [backoff_never_grows], [cli_refused_with_auth],
      [restart_with_admin_fails].

    ** Bounds and fuel

    Loops over data are structural.  [Uint64n]'s rejection loop is iterated at most [2^64] times,
    a bound written in binary, and proved to stop before; [container/heap] gets the length of the
    heap as fuel, proved enough; the run loop takes a number of turns, and the theorems state that
    [n + 1] suffice for [n] steps.  Refinements hold for fewer than [2^31 - 1] creations or
    insertions (the sparse arrays are [int32]) and fewer than [2^64] pushed events.

    The loops of the brokers and of the worker are run on a given sequence of deliveries or
    answers; runs of models take a number of ticks or events, which the theorems quantify over.
    The ecosystem creates entities every tick and is bounded by the ticks for which the 31-bit
    indices last.

    ** What is not modelled

    Mutexes guard calls that are modelled as atomic; goroutines appear as interleavings
    ([Parallel], [Lifecycle], the timeout guard of [Api]) and as explicit steps ([JobQueue],
    [Manager], [RabbitMQ]).  What a model that panics leaves behind is open (the class
    [Unwinding], about which nothing is assumed).  PostgreSQL, Redis, RabbitMQ, JWT signing, argon2id, SHA-256,
    [encoding/json], [net/url] and the connection pool are code outside the repository: what the
    modelled code relies on in them is stated as the laws of the classes above, each with a concrete
    instance, and the effect of an SQL script on the schema is an argument.  The laws claim no more
    than the documentation: values survive JSON when they are said to (ASCII text, compact documents,
    proper numbers), claims in Redis expire, other consumers may take messages of a queue.  The router library
    ([endpoint_of] and [Router] translate the route table) and its recovery middleware, the deadline
    of the timeout middleware, the metrics page, the durations that are observed and logged, publishing concurrently with the broker's
    wait for a delivery, and random bytes are arguments or left out.  A single caller's [Run] has a
    context that is not cancelled; cancellation is part of [Lifecycle]. *)

From stdpp Require Export base tactics option list gmap strings sorting.
From Stdlib Require Export ZArith Lia.

Global Set Default Goal Selector "!".

(** ** Go machine integers

    Every Go integer is a [Z]; the conversions below are the wrap-around of the
    fixed-width types.  [int] is 64 bits wide on every platform the engine targets. *)

Definition u8 (z : Z) : Z := (z mod 2 ^ 8)%Z.
Definition u32 (z : Z) : Z := (z mod 2 ^ 32)%Z.
Definition u64 (z : Z) : Z := (z mod 2 ^ 64)%Z.
Definition i32 (z : Z) : Z := ((z + 2 ^ 31) mod 2 ^ 32 - 2 ^ 31)%Z.
Definition i64 (z : Z) : Z := ((z + 2 ^ 63) mod 2 ^ 64 - 2 ^ 63)%Z.

#[global] Arguments u8 : simpl never.
#[global] Arguments u32 : simpl never.
#[global] Arguments u64 : simpl never.
#[global] Arguments i32 : simpl never.
#[global] Arguments i64 : simpl never.

Definition in_u32 (z : Z) : Prop := (0 ≤ z < 2 ^ 32)%Z.
Definition in_u64 (z : Z) : Prop := (0 ≤ z < 2 ^ 64)%Z.
Definition in_i64 (z : Z) : Prop := (- 2 ^ 63 ≤ z < 2 ^ 63)%Z.

(** [len(s)] of a slice, as a Go [int]. *)
Definition len {A} (l : list A) : Z := Z.of_nat (length l).

(** [time.Second], in nanoseconds. *)
Definition second : Z := 10 ^ 9.

(** ** Panics

    A Go statement either completes or panics; [outcome] keeps the two apart so that
    "never panics" is a statement about the model. *)

Inductive outcome (A : Type) : Type :=
  | Done (a : A)
  | Panic (why : string).
Arguments Done {A} a.
Arguments Panic {A} why.

Definition obind {A B} (m : outcome A) (k : A → outcome B) : outcome B :=
  match m with Done a => k a | Panic w => Panic w end.

Declare Scope go_scope.
Delimit Scope go_scope with go.
Notation "'let!' x := m 'in' k" := (obind m (λ x, k))
  (at level 10, x pattern, m at level 100, k at level 200) : go_scope.
Global Open Scope go_scope.

(** [s[i]] and [s[i] = v] with Go's bounds check. *)
Definition index {A} (l : list A) (i : Z) : outcome A :=
  if (0 <=? i)%Z then
    match l !! Z.to_nat i with
    | Some a => Done a
    | None => Panic "index out of range"
    end
  else Panic "index out of range".

Definition assign {A} (l : list A) (i : Z) (v : A) : outcome (list A) :=
  if ((0 <=? i) && (i <? len l))%Z then Done (<[Z.to_nat i := v]> l)
  else Panic "index out of range".

(** ** Errors as values

    The sentinel errors of the engine and the formatted ones; [Wrapped] is
    [fmt.Errorf("...: %w", err)], which [errors.Is] sees through. *)

Inductive error : Type :=
  | ErrAlreadyRunning
  | ErrNotRunning
  | ErrBadMode
  | ErrNotFound
  | ErrClosed
  | ErrCanceled
  | Errorf (msg : string)
  | Wrapped (context : string) (e : error).

Global Instance error_eq_dec : EqDecision error.
Proof. solve_decision. Defined.

Fixpoint errors_Is (e target : error) : bool :=
  if decide (e = target) then true
  else match e with Wrapped _ e' => errors_Is e' target | _ => false end.

(** [err.Error()].  The arguments that a format prints are left out of [Errorf]'s messages. *)
Fixpoint Error (e : error) : string :=
  match e with
  | ErrAlreadyRunning => "simulation: already running"
  | ErrNotRunning => "simulation: not running"
  | ErrBadMode => "simulation: model does not support configured mode"
  | ErrNotFound => "runner: simulation not found"
  | ErrClosed => "broker: closed"
  | ErrCanceled => "context canceled"
  | Errorf msg => msg
  | Wrapped context e => context +:+ ": " +:+ Error e
  end.

Inductive result (A : Type) : Type :=
  | Ok (a : A)
  | Err (e : error).
Arguments Ok {A} a.
Arguments Err {A} e.

Definition rbind {A B} (m : result A) (k : A → result B) : result B :=
  match m with Ok a => k a | Err e => Err e end.
Notation "'try!' x := m 'in' k" := (rbind m (λ x, k))
  (at level 10, x pattern, m at level 100, k at level 200) : go_scope.

Definition wrap_err {A} (context : string) (r : result A) : result A :=
  match r with Ok a => Ok a | Err e => Err (Wrapped context e) end.

(** ** Bounded iteration

    [iter_until p f s] applies [f] at most [p] times, stopping at the first [inr].
    The bound is binary, so that a bound of [2 ^ 64] can be written and evaluated. *)

Fixpoint iter_until {S R : Type} (p : positive) (f : S → S + R) (s : S) : S + R :=
  match p with
  | xH => f s
  | xO p' =>
      match iter_until p' f s with
      | inl s' => iter_until p' f s'
      | inr r => inr r
      end
  | xI p' =>
      match f s with
      | inl s' =>
          match iter_until p' f s' with
          | inl s'' => iter_until p' f s''
          | inr r => inr r
          end
      | inr r => inr r
      end
  end.

(** The same iteration with a unary bound, for reasoning. *)
Fixpoint iter_nat {S R : Type} (n : nat) (f : S → S + R) (s : S) : S + R :=
  match n with
  | O => inl s
  | S n' => match f s with inl s' => iter_nat n' f s' | inr r => inr r end
  end.

(** Folding a panicking body over a list, in order. *)
Fixpoint ofold {A S : Type} (f : S → A → outcome S) (s : S) (l : list A) : outcome S :=
  match l with
  | [] => Done s
  | a :: l' => let! s' := f s a in ofold f s' l'
  end.

(** Folding a fallible body over a list, in order, stopping at the first error. *)
Fixpoint rfold {A S : Type} (f : S → A → result S) (s : S) (l : list A) : result S :=
  match l with
  | [] => Ok s
  | a :: l' => try! s' := f s a in rfold f s' l'
  end.

(** ** Tactics and hints *)

Create HintDb sim.
Create Rewrite HintDb sim.

Ltac unfold_words := unfold u8, u32, u64, i32, i64, in_u32, in_u64, in_i64, len in *.

(** Machine arithmetic without overflow: expose the wraps, discharge the ranges. *)
Ltac word := unfold_words; rewrite ?Z.mod_small by lia; try lia.

(** Case analysis on every test of the goal or of a hypothesis. *)
Ltac case_tests :=
  repeat match goal with
  | |- context [decide ?P] => destruct (decide P)
  | |- context [(?a <=? ?b)%Z] => destruct (Z.leb_spec a b)
  | |- context [(?a <? ?b)%Z] => destruct (Z.ltb_spec a b)
  | |- context [(?a =? ?b)%Z] => destruct (Z.eqb_spec a b)
  | H : context [decide ?P] |- _ => destruct (decide P)
  | H : context [(?a <=? ?b)%Z] |- _ => destruct (Z.leb_spec a b)
  | H : context [(?a <? ?b)%Z] |- _ => destruct (Z.ltb_spec a b)
  | H : context [(?a =? ?b)%Z] |- _ => destruct (Z.eqb_spec a b)
  end.

(** Invert [Done]/[Ok] equations produced by the monads. *)
Ltac inv_done :=
  repeat match goal with
  | H : Done _ = Done _ |- _ => injection H as H
  | H : Ok _ = Ok _ |- _ => injection H as H
  | H : Done _ = Panic _ |- _ => discriminate H
  | H : Panic _ = Done _ |- _ => discriminate H
  | H : Ok _ = Err _ |- _ => discriminate H
  | H : Err _ = Ok _ |- _ => discriminate H
  end; subst.

(** Split a completed bind into its two halves. *)
Lemma obind_Done {A B} (m : outcome A) (k : A → outcome B) b :
  obind m k = Done b → ∃ a, m = Done a ∧ k a = Done b.
Proof. destruct m as [a|]; [|done]. intros H. by exists a. Qed.

Tactic Notation "inv_bind" hyp(H) "as" simple_intropattern(a) simple_intropattern(Ha) :=
  apply obind_Done in H as (a & Ha & H); cbv beta iota in H.

(** ** Shared lemmas *)

(** Inversion of a triple under [Done] that does not look inside the components. *)
Lemma Done3_inj {A B C} (a a' : A) (b b' : B) (c c' : C) :
  Done (a, b, c) = Done (a', b', c') → a = a' ∧ b = b' ∧ c = c'.
Proof. by intros [= -> -> ->]. Qed.

Section words.
Local Open Scope Z_scope.

Lemma u64_range z : in_u64 (u64 z).
Proof. unfold in_u64, u64. apply Z.mod_pos_bound. lia. Qed.

Lemma u32_range z : in_u32 (u32 z).
Proof. unfold in_u32, u32. apply Z.mod_pos_bound. lia. Qed.

Lemma u64_id z : in_u64 z → u64 z = z.
Proof. unfold in_u64, u64. intros. by apply Z.mod_small. Qed.

Lemma u32_id z : in_u32 z → u32 z = z.
Proof. unfold in_u32, u32. intros. by apply Z.mod_small. Qed.

Lemma i32_id z : - 2 ^ 31 ≤ z < 2 ^ 31 → i32 z = z.
Proof. unfold i32. intros. rewrite Z.mod_small by lia. lia. Qed.

Lemma i64_id z : in_i64 z → i64 z = z.
Proof. unfold i64, in_i64. intros. rewrite Z.mod_small by lia. lia. Qed.

Lemma u64_mod z : u64 (u64 z) = u64 z.
Proof. apply u64_id, u64_range. Qed.

Lemma u64_add_l a b : u64 (u64 a + b) = u64 (a + b).
Proof. unfold u64. by rewrite Zplus_mod_idemp_l. Qed.

Lemma u64_mul_l a b : u64 (u64 a * b) = u64 (a * b).
Proof. unfold u64. by rewrite Zmult_mod_idemp_l. Qed.

End words.
#[export] Hint Resolve u64_range u32_range : sim.
#[export] Hint Rewrite u64_mod u64_add_l u64_mul_l : sim.

Section slices.
Context {A : Type}.
Implicit Types (l : list A) (a : A) (i : Z).
Local Open Scope Z_scope.

Lemma len_app l l' : len (l ++ l') = len l + len l'.
Proof. unfold len. rewrite length_app. lia. Qed.

Lemma len_nonneg l : 0 ≤ len l.
Proof. unfold len. lia. Qed.

Lemma len_cons a l : len (a :: l) = len l + 1.
Proof. unfold len. simpl. lia. Qed.

Lemma index_Done l i a : index l i = Done a ↔ 0 ≤ i ∧ l !! Z.to_nat i = Some a.
Proof.
  unfold index. destruct (Z.leb_spec 0 i) as [Hi|Hi]; [|naive_solver lia].
  destruct (l !! Z.to_nat i) eqn:E; naive_solver.
Qed.

Lemma index_of_nat l (n : nat) a : l !! n = Some a → index l (Z.of_nat n) = Done a.
Proof. intros H. apply index_Done. rewrite Nat2Z.id. split; [lia|done]. Qed.

Lemma index_in_range l i : 0 ≤ i < len l → ∃ a, index l i = Done a.
Proof.
  unfold len. intros Hi. destruct (lookup_lt_is_Some_2 l (Z.to_nat i)) as [a Ha]; [lia|].
  exists a. apply index_Done. split; [lia|done].
Qed.

Lemma assign_in_range l i a : 0 ≤ i < len l → assign l i a = Done (<[Z.to_nat i := a]> l).
Proof.
  unfold assign. intros Hi.
  destruct (Z.leb_spec 0 i); [|lia]. by destruct (Z.ltb_spec i (len l)); [|lia].
Qed.

Lemma assign_Done l i a l' :
  assign l i a = Done l' ↔ 0 ≤ i < len l ∧ l' = <[Z.to_nat i := a]> l.
Proof.
  unfold assign. split.
  - destruct (Z.leb_spec 0 i), (Z.ltb_spec i (len l)); simpl; naive_solver lia.
  - intros [Hi ->]. destruct (Z.leb_spec 0 i), (Z.ltb_spec i (len l)); simpl; naive_solver lia.
Qed.

Lemma len_insert l (n : nat) a : len (<[n := a]> l) = len l.
Proof. unfold len. by rewrite length_insert. Qed.

End slices.
#[export] Hint Rewrite @len_app @len_insert @len_cons : sim.
#[export] Hint Resolve len_nonneg : sim.

Section iteration.
Context {S R : Type}.
Implicit Types (f : S → S + R) (s : S).

Lemma iter_nat_add n m f s :
  iter_nat (n + m) f s =
  match iter_nat n f s with inl s' => iter_nat m f s' | inr r => inr r end.
Proof. revert s. induction n as [|n IH]; intros s; simpl; [done|]. by destruct (f s). Qed.

Lemma iter_until_nat p f s : iter_until p f s = iter_nat (Pos.to_nat p) f s.
Proof.
  revert s. induction p as [p IH|p IH|]; intros s.
  - replace (Pos.to_nat p~1) with (1 + (Pos.to_nat p + Pos.to_nat p))%nat by lia.
    simpl. destruct (f s) as [s'|r]; [|done].
    rewrite iter_nat_add, <- IH. destruct (iter_until p f s'); [|done]. by rewrite <- IH.
  - replace (Pos.to_nat p~0) with (Pos.to_nat p + Pos.to_nat p)%nat by lia.
    simpl. rewrite iter_nat_add, <- IH. destruct (iter_until p f s); [|done]. by rewrite <- IH.
  - simpl. by destruct (f s).
Qed.

Lemma iter_nat_inr_mono n m f s r :
  iter_nat n f s = inr r → (n ≤ m)%nat → iter_nat m f s = inr r.
Proof.
  intros H Hle. replace m with (n + (m - n))%nat by lia. rewrite iter_nat_add. by rewrite H.
Qed.

(** An invariant of the body holds of the result. *)
Lemma iter_nat_ind (P : S → Prop) (Q : R → Prop) n f s :
  P s → (∀ s, P s → match f s with inl s' => P s' | inr r => Q r end) →
  match iter_nat n f s with inl s' => P s' | inr r => Q r end.
Proof.
  intros Hs Hf. revert s Hs. induction n as [|n IH]; intros s Hs; simpl; [done|].
  specialize (Hf s Hs). destruct (f s); [by apply IH|done].
Qed.

End iteration.

Lemma ofold_app {A S} (f : S → A → outcome S) s l1 l2 :
  ofold f s (l1 ++ l2) = (let! s' := ofold f s l1 in ofold f s' l2).
Proof.
  revert s. induction l1 as [|a l1 IH]; intros s; simpl; [done|].
  destruct (f s a); simpl; [apply IH|done].
Qed.

Lemma filter_ext_in {A} (P Q : A → Prop) `{∀ x, Decision (P x), ∀ x, Decision (Q x)} (l : list A) :
  (∀ x, x ∈ l → P x ↔ Q x) → filter P l = filter Q l.
Proof.
  induction l as [|x l IH]; intros Hl; [done|]. rewrite !filter_cons, IH by (intros; apply Hl; by right).
  specialize (Hl x ltac:(by left)). destruct (decide (P x)), (decide (Q x)); tauto.
Qed.

Lemma elem_of_concat {A} (ls : list (list A)) x : x ∈ concat ls ↔ ∃ u, u ∈ ls ∧ x ∈ u.
Proof.
  rewrite list_elem_of_In, in_concat.
  split; intros (u & Hu & Hx); exists u; by rewrite ?list_elem_of_In in *.
Qed.

(** Filtering by what holds everywhere. *)
Lemma filter_all {A} (P : A → Prop) `{∀ x, Decision (P x)} l : Forall P l → filter P l = l.
Proof. induction 1 as [|x l Hx _ IH]; [done|]. by rewrite filter_cons_True, IH. Qed.
