(* ===== verification/Float64.v ===== *)
(** * Go's [float64]

    The engine keeps simulation time in a [float64].  A value is a [spec_float] of the
    standard library (IEEE-754 binary64 without NaN payloads), an executable datatype, so
    that comparisons with NaN, infinities and signed zeros behave as they do in Go.
    The lemmas show that on numbers [<] is a strict weak order whose incomparability
    relation is [==]. *)

From Corelib Require Import SpecFloat.
From S2P Require Import Prelude.
Local Open Scope Z_scope.

Abbreviation float64 := spec_float.

Definition prec : Z := 53.
Definition emax : Z := 1024.

(** Go's [a < b], [a == b], [a >= b], [a <= 0] on [float64]; all are false on NaN. *)
Definition flt (a b : float64) : bool := SFltb a b.
Definition feq (a b : float64) : bool := SFeqb a b.
Definition fle (a b : float64) : bool := SFleb a b.

(** Go's [a + b], [a * b] and the conversion of an integer, rounded to nearest even. *)
Definition fadd (a b : float64) : float64 := SFadd prec emax a b.
Definition fmul (a b : float64) : float64 := SFmul prec emax a b.
Definition fdiv (a b : float64) : float64 := SFdiv prec emax a b.
Definition fsub (a b : float64) : float64 := SFsub prec emax a b.
Definition f64_of_Z (z : Z) : float64 := binary_normalize prec emax z 0 false.

Definition fzero : float64 := S754_zero false.
Definition fone : float64 := f64_of_Z 1.

(** [math.Max] and [math.Min]: an infinity wins over a NaN, a NaN over a number, and the zeros
    are ordered by their sign. *)
Definition fmax (x y : float64) : float64 :=
  match x, y with
  | S754_infinity false, _ | _, S754_infinity false => S754_infinity false
  | S754_nan, _ | _, S754_nan => S754_nan
  | S754_zero sx, S754_zero _ => if sx : bool then y else x
  | _, _ => if flt y x then x else y
  end.
Definition fmin (x y : float64) : float64 :=
  match x, y with
  | S754_infinity true, _ | _, S754_infinity true => S754_infinity true
  | S754_nan, _ | _, S754_nan => S754_nan
  | S754_zero sx, S754_zero _ => if sx : bool then x else y
  | _, _ => if flt x y then x else y
  end.

(** [int(f)] truncates towards zero.  Out of range (or for a NaN) the language leaves the result
    to the implementation; this is the one of amd64. *)
Definition i64_of_f64 (f : float64) : Z :=
  let t := match f with
           | S754_zero _ => Some 0%Z
           | S754_finite s m e =>
               let a := if (0 <=? e)%Z then (Z.pos m * 2 ^ e)%Z else (Z.pos m / 2 ^ (- e))%Z in
               Some (if s then (- a)%Z else a)
           | _ => None
           end in
  match t with
  | Some z => if ((- 2 ^ 63 <=? z) && (z <? 2 ^ 63))%Z then z else (- 2 ^ 63)%Z
  | None => (- 2 ^ 63)%Z
  end.

Definition is_number (a : float64) : bool :=
  match a with S754_nan => false | _ => true end.

(** ** Comparison as a lexicographic order

    A number is ranked by its class (negative infinity, negative, zero, positive,
    positive infinity), then its exponent, then its mantissa. *)

Definition fkey (a : float64) : Z * Z * Z :=
  match a with
  | S754_infinity true => (-2, 0, 0)
  | S754_finite true m e => (-1, - e, - Zpos m)
  | S754_zero _ => (0, 0, 0)
  | S754_finite false m e => (1, e, Zpos m)
  | S754_infinity false => (2, 0, 0)
  | S754_nan => (3, 0, 0)
  end.

Definition lexlt (x y : Z * Z * Z) : Prop :=
  let '(a1, b1, c1) := x in
  let '(a2, b2, c2) := y in
  a1 < a2 ∨ (a1 = a2 ∧ (b1 < b2 ∨ (b1 = b2 ∧ c1 < c2))).

Lemma SFcompare_key a b :
  is_number a → is_number b →
  match SFcompare a b with
  | Some Lt => lexlt (fkey a) (fkey b)
  | Some Eq => fkey a = fkey b
  | Some Gt => lexlt (fkey b) (fkey a)
  | None => False
  end.
Proof.
  destruct a as [sa|sa| |sa ma ea], b as [sb|sb| |sb mb eb]; intros Ha Hb; try done;
    try destruct sa; try destruct sb; simpl; try lia; try done.
  - destruct (Z.compare_spec ea eb) as [->| |]; [|lia..].
    change (Pos.compare_cont Eq ma mb) with (Pos.compare ma mb).
    destruct (Pos.compare_spec ma mb) as [->| |]; simpl; [done|lia..].
  - destruct (Z.compare_spec ea eb) as [->| |]; [|lia..].
    change (Pos.compare_cont Eq ma mb) with (Pos.compare ma mb).
    destruct (Pos.compare_spec ma mb) as [->| |]; simpl; [done|lia..].
Qed.

Lemma lexlt_irrefl x : ¬ lexlt x x.
Proof. destruct x as [[??]?]. simpl. lia. Qed.

Lemma lexlt_trans x y z : lexlt x y → lexlt y z → lexlt x z.
Proof. destruct x as [[??]?], y as [[??]?], z as [[??]?]. simpl. lia. Qed.

Lemma lexlt_total x y : lexlt x y ∨ x = y ∨ lexlt y x.
Proof.
  destruct x as [[a1 b1] c1], y as [[a2 b2] c2]. simpl.
  destruct (Z.lt_trichotomy a1 a2) as [|[->|]]; [lia| |lia].
  destruct (Z.lt_trichotomy b1 b2) as [|[->|]]; [lia| |lia].
  destruct (Z.lt_trichotomy c1 c2) as [|[->|]]; [lia|auto|lia].
Qed.

Lemma lexlt_asym x y : lexlt x y → ¬ lexlt y x.
Proof. intros H1 H2. by apply (lexlt_irrefl x), (lexlt_trans _ y). Qed.

Lemma lexlt_neq x y : lexlt x y → x ≠ y.
Proof. intros H ->. by apply lexlt_irrefl in H. Qed.

Lemma flt_key a b : is_number a → is_number b → flt a b = true ↔ lexlt (fkey a) (fkey b).
Proof.
  intros Ha Hb. pose proof (SFcompare_key a b Ha Hb) as H. unfold flt, SFltb.
  destruct (SFcompare a b) as [[]|]; [| | |done]; (split; [done|]); intros H'; try done.
  - by apply lexlt_neq in H'.
  - by apply lexlt_asym in H'.
Qed.

Lemma feq_key a b : is_number a → is_number b → feq a b = true ↔ fkey a = fkey b.
Proof.
  intros Ha Hb. pose proof (SFcompare_key a b Ha Hb) as H. unfold feq, SFeqb.
  destruct (SFcompare a b) as [[]|]; [| | |done]; (split; [done|]); intros H'; try done.
  - by apply lexlt_neq in H.
  - by apply lexlt_neq in H.
Qed.

Lemma fle_key a b :
  is_number a → is_number b → fle a b = true ↔ ¬ lexlt (fkey b) (fkey a).
Proof.
  intros Ha Hb. pose proof (SFcompare_key a b Ha Hb) as H. unfold fle, SFleb.
  destruct (SFcompare a b) as [[]|]; [| | |done]; (split; [|done]).
  - intros _ H'. by apply lexlt_neq in H'.
  - intros _ H'. by apply lexlt_asym in H'.
  - done.
Qed.

(** [<] on a NaN operand is false, so a NaN is never smaller than, nor equal to, anything. *)
Lemma flt_number a b : flt a b = true → is_number a ∧ is_number b.
Proof. destruct a, b; done. Qed.

Lemma feq_number a b : feq a b = true → is_number a ∧ is_number b.
Proof. destruct a, b; done. Qed.

Lemma flt_trans a b c : flt a b = true → flt b c = true → flt a c = true.
Proof.
  intros Hab Hbc. pose proof (flt_number _ _ Hab) as [??]. pose proof (flt_number _ _ Hbc) as [??].
  rewrite flt_key in * by done. by eapply lexlt_trans.
Qed.

Lemma flt_irrefl a : flt a a = false.
Proof.
  destruct (flt a a) eqn:E; [|done]. pose proof (flt_number _ _ E) as [??].
  rewrite flt_key in E by done. by apply lexlt_irrefl in E.
Qed.

Lemma fle_refl a : is_number a → fle a a = true.
Proof. intros Ha. apply fle_key; [done..|]. apply lexlt_irrefl. Qed.

Lemma fle_trans a b c : fle a b = true → fle b c = true → fle a c = true.
Proof.
  intros Hab Hbc. assert (is_number a ∧ is_number b ∧ is_number c) as (Ha & Hb & Hc) by (by destruct a, b, c).
  rewrite fle_key in * by done. intros Hca. destruct (lexlt_total (fkey b) (fkey a)) as [|[E|Hlt]]; [done|congruence|].
  apply Hbc. by eapply lexlt_trans.
Qed.

Lemma flt_fle a b : is_number a → is_number b → flt a b = negb (fle b a).
Proof.
  intros Ha Hb. destruct (fle b a) eqn:E; cbn.
  - apply fle_key in E; [|done..]. destruct (flt a b) eqn:E'; [|done]. by apply flt_key in E'.
  - destruct (flt a b) eqn:E'; [done|]. rewrite <- E. apply fle_key; [done..|]. intros H. apply flt_key in H; [|done..]. congruence.
Qed.

(** The maximum of two numbers is one of them, and not below either. *)
Lemma fmax_spec a b :
  is_number a → is_number b → (fmax a b = a ∨ fmax a b = b) ∧ fle a (fmax a b) = true ∧ fle b (fmax a b) = true.
Proof.
  intros Ha Hb.
  assert (fmax a b = (if flt b a then a else b) ∨ fmax a b = a ∧ fkey a = fkey b) as [->|[-> E]].
  { destruct a as [[]|[]| |[] ma ea], b as [[]|[]| |[] mb eb]; cbn; auto; done. }
  - rewrite flt_fle by done. destruct (fle a b) eqn:E; cbn; split_and!; auto; try by apply fle_refl.
    apply fle_key; [done..|]. intros Hlt. assert (fle a b = true); [|congruence].
    apply fle_key; [done..|]. by apply lexlt_asym.
  - split_and!; [auto|by apply fle_refl|]. apply fle_key; [done..|]. rewrite E. apply lexlt_irrefl.
Qed.

Lemma fmin_spec a b :
  is_number a → is_number b → (fmin a b = a ∨ fmin a b = b) ∧ fle (fmin a b) a = true ∧ fle (fmin a b) b = true.
Proof.
  intros Ha Hb.
  assert (fmin a b = (if flt a b then a else b) ∨ fmin a b = a ∧ fkey a = fkey b) as [->|[-> E]].
  { destruct a as [[]|[]| |[] ma ea], b as [[]|[]| |[] mb eb]; cbn; auto; done. }
  - rewrite flt_fle by done. destruct (fle b a) eqn:E; cbn; split_and!; auto; try by apply fle_refl.
    apply fle_key; [done..|]. intros Hlt. assert (fle b a = true); [|congruence].
    apply fle_key; [done..|]. by apply lexlt_asym.
  - split_and!; [auto|by apply fle_refl|]. apply fle_key; [done..|]. rewrite E. apply lexlt_irrefl.
Qed.
