(* ===== verification/FloatRound.v ===== *)
(** * Rounding of Go's [float64]

    Simulation time advances by sums and products of floating-point numbers.  This file shows
    what the engine and its models rely on: sums and products of non-negative numbers are
    non-negative numbers again, never NaN, and adding a delay to a time never gives an earlier
    time, however the result is rounded. *)

From Corelib Require Import SpecFloat.
From S2P Require Import Prelude Float64.
Local Open Scope Z_scope.

Abbreviation fexp := (SpecFloat.fexp prec emax).
Abbreviation emin := (-1074)%Z.

(** A non-negative number in the normal form of the format. *)
Definition duration (f : float64) : Prop :=
  valid_binary prec emax f = true ∧
  match f with
  | S754_zero _ | S754_infinity false | S754_finite false _ _ => True
  | _ => False
  end.

(** A positive one. *)
Definition positive_duration (f : float64) : Prop := duration f ∧ flt fzero f = true.

(** ** Digits and shifts *)

Lemma digits_log2 p : Zpos (digits2_pos p) = Z.log2 (Zpos p) + 1.
Proof.
  induction p as [p IH|p IH|]; cbn [digits2_pos]; [| |done].
  - rewrite Pos2Z.inj_xI, Pos2Z.inj_succ, IH, Z.log2_succ_double by lia. lia.
  - rewrite Pos2Z.inj_xO, Pos2Z.inj_succ, IH, Z.log2_double by lia. lia.
Qed.

Lemma digits_range p :
  2 ^ (Zpos (digits2_pos p) - 1) ≤ Zpos p < 2 ^ Zpos (digits2_pos p).
Proof.
  rewrite digits_log2, Z.add_simpl_r. pose proof (Z.log2_spec (Zpos p) ltac:(lia)) as H.
  by rewrite Z.add_1_r.
Qed.

Lemma digits_unique p d : 0 < d → 2 ^ (d - 1) ≤ Zpos p < 2 ^ d → Zpos (digits2_pos p) = d.
Proof.
  intros Hd Hp. rewrite digits_log2. apply Z.add_cancel_r with (p := -1).
  replace (Z.log2 (Zpos p) + 1 + -1) with (Z.log2 (Zpos p)) by lia.
  apply Z.log2_unique; [lia|]. replace (Z.succ (d + -1)) with d by lia. done.
Qed.

Lemma shl_align_shift p e e' :
  Zpos (shl_align p e e').1 = Zpos p * 2 ^ (Z.max 0 (e - e')) ∧ (shl_align p e e').2 = Z.min e e'.
Proof.
  unfold shl_align. destruct (e' - e) as [|d|d] eqn:E; cbn [fst snd].
  - replace (Z.max 0 (e - e')) with 0 by lia. rewrite Z.pow_0_r. split; lia.
  - replace (Z.max 0 (e - e')) with 0 by lia. rewrite Z.pow_0_r. split; lia.
  - replace (Z.max 0 (e - e')) with (Zpos d) by lia. split; [|lia]. clear E.
    induction d as [|d IH] using Pos.peano_ind; [cbn; lia|].
    rewrite Pos.iter_succ, Pos2Z.inj_xO, IH, Pos2Z.inj_succ, Z.pow_succ_r by lia. lia.
Qed.

Lemma iter_shr_m n mrs : 0 ≤ shr_m mrs → shr_m (SpecFloat.iter_pos shr_1 n mrs) = shr_m mrs / 2 ^ Zpos n.
Proof.
  assert (∀ mrs, 0 ≤ shr_m mrs → shr_m (shr_1 mrs) = shr_m mrs / 2) as H1.
  { intros [m r s] Hm. cbn in *. destruct m as [|[p|p|]|]; try done; cbn [shr_m].
    - rewrite Pos2Z.inj_xI. rewrite Z.add_comm, Z.mul_comm, Z.div_add by lia. done.
    - rewrite Pos2Z.inj_xO. rewrite Z.mul_comm, Z.div_mul by lia. done. }
  revert mrs. induction n as [n IH|n IH|]; intros mrs Hm; cbn [SpecFloat.iter_pos].
  - assert (0 ≤ shr_m mrs / 2) by (apply Z.div_pos; lia).
    rewrite !IH; rewrite ?IH, ?H1; rewrite ?H1; try done; try (apply Z.div_pos; [done|lia]).
    rewrite !Z.div_div by lia. f_equal.
    replace (Zpos n~1) with (1 + (Zpos n + Zpos n)) by lia. rewrite !Z.pow_add_r by lia. lia.
  - assert (0 ≤ shr_m mrs / 2 ^ Zpos n) by (apply Z.div_pos; lia).
    rewrite !IH; rewrite ?IH; try done.
    rewrite Z.div_div by lia. f_equal. rewrite <- Z.pow_add_r by lia. f_equal. lia.
  - by apply H1.
Qed.

(** ** Rounding a positive value *)

(** [mx * 2^ex ≤ m * 2^e], over a common exponent. *)
Definition le_value (mx ex m e : Z) : Prop :=
  ∀ k, k ≤ ex → k ≤ e → mx * 2 ^ (ex - k) ≤ m * 2 ^ (e - k).

Lemma le_value_at k mx ex m e :
  k ≤ ex → k ≤ e → mx * 2 ^ (ex - k) ≤ m * 2 ^ (e - k) → le_value mx ex m e.
Proof.
  intros Hx He Hle k' Hx' He'. apply Z.mul_le_mono_pos_r with (p := 2 ^ (k' - Z.min k k')).
  { apply Z.pow_pos_nonneg; lia. }
  rewrite <- !Z.mul_assoc, <- !Z.pow_add_r by lia.
  replace (ex - k' + (k' - Z.min k k')) with (ex - k + (k - Z.min k k')) by lia.
  replace (e - k' + (k' - Z.min k k')) with (e - k + (k - Z.min k k')) by lia.
  rewrite !Z.pow_add_r, !Z.mul_assoc by lia. apply Z.mul_le_mono_nonneg_r; [|done].
  apply Z.pow_nonneg; lia.
Qed.

Lemma le_value_trans m1 e1 m2 e2 m3 e3 :
  le_value m1 e1 m2 e2 → le_value m2 e2 m3 e3 → le_value m1 e1 m3 e3.
Proof.
  intros H12 H23. apply (le_value_at (Z.min e1 (Z.min e2 e3))); [lia..|].
  etransitivity; [apply H12; lia|apply H23; lia].
Qed.

Lemma fexp_eq e : fexp e = Z.max (e - 53) emin.
Proof. done. Qed.

Lemma canonical_iff m e :
  canonical_mantissa prec emax m e = true ↔
  emin ≤ e ∧ Zpos m < 2 ^ 53 ∧ (e = emin ∨ 2 ^ 52 ≤ Zpos m).
Proof.
  unfold canonical_mantissa. rewrite Z.eqb_eq. pose proof (digits_range m) as Hd.
  set (d := Zpos (digits2_pos m)) in *. assert (0 < d) as Hd0 by done. clearbody d.
  rewrite fexp_eq. split.
  - intros H. assert (d ≤ 53) as H53 by lia. split; [lia|]. split.
    + apply Z.lt_le_trans with (2 ^ d); [lia|]. by apply Z.pow_le_mono_r.
    + destruct (decide (e = emin)); [by left|right]. assert (d = 53) as -> by lia. lia.
  - intros (He & Hm & Hor). assert (d ≤ 53).
    { destruct (Z.le_gt_cases d 53); [done|]. assert (2 ^ 53 ≤ 2 ^ (d - 1)) by (apply Z.pow_le_mono_r; lia). lia. }
    destruct Hor as [->|Hn]; [lia|]. assert (53 ≤ d); [|lia].
    destruct (Z.le_gt_cases 53 d); [done|]. assert (2 ^ d ≤ 2 ^ 52) by (apply Z.pow_le_mono_r; lia). lia.
Qed.

(** The first shift of [binary_round_aux] keeps 53 digits. *)
Lemma shr_fexp_first m e :
  0 < m → e ≤ fexp (Zdigits2 m + e) →
  ∃ mrs, shr_fexp prec emax m e loc_Exact = (mrs, fexp (Zdigits2 m + e)) ∧
    shr_m mrs = m / 2 ^ (fexp (Zdigits2 m + e) - e).
Proof.
  intros Hm He. unfold shr_fexp, shr. destruct (fexp (Zdigits2 m + e) - e) as [|n|n] eqn:En; [| |lia].
  - eexists. split; [f_equal; lia|]. by rewrite Z.pow_0_r, Z.div_1_r.
  - eexists. split; [f_equal; lia|]. rewrite iter_shr_m by (cbn; lia). done.
Qed.

(** The second one only renormalises [2^53], and loses nothing. *)
Lemma shr_fexp_second m e :
  0 ≤ m ≤ 2 ^ 53 → emin ≤ e → (e = emin ∨ 2 ^ 52 ≤ m) →
  ∃ mrs e2, shr_fexp prec emax m e loc_Exact = (mrs, e2) ∧ e ≤ e2 ∧ shr_m mrs * 2 ^ (e2 - e) = m ∧
    match shr_m mrs with Zpos p => canonical_mantissa prec emax p e2 = true | Z0 => m = 0 | Zneg _ => False end.
Proof.
  intros [Hm0 Hm] He Hor. destruct (decide (m = 2 ^ 53)) as [->|Hne].
  - exists (Build_shr_record (2 ^ 52) false false), (e + 1). split_and!.
    + unfold shr_fexp, shr. change (Zdigits2 (2 ^ 53)) with 54. rewrite fexp_eq.
      replace (Z.max (54 + e - 53) emin - e) with 1 by lia. done.
    + lia.
    + replace (e + 1 - e) with 1 by lia. done.
    + change (shr_m _) with (Zpos 4503599627370496). apply canonical_iff. split; [lia|]. split; [done|by right].
  - assert (m = 0 ∨ ∃ p, m = Zpos p) as [->|[p ->]] by (destruct m; [by left|right; by eexists|lia]).
    { exists (Build_shr_record 0 false false), e. split_and!; [|lia|done|done].
      destruct Hor as [->|]; [done|lia]. }
    assert (canonical_mantissa prec emax p e = true) as Hc by (apply canonical_iff; split_and!; [lia|lia|done]).
    exists (Build_shr_record (Zpos p) false false), e. split_and!; [|lia|rewrite Z.sub_diag; cbn; lia|done].
    unfold canonical_mantissa in Hc. apply Z.eqb_eq in Hc. unfold shr_fexp. cbn [Zdigits2].
    by rewrite Hc, Z.sub_diag.
Qed.

Lemma first_shift_range m e :
  0 < m → e ≤ fexp (Zdigits2 m + e) →
  let e1 := fexp (Zdigits2 m + e) in let m1 := m / 2 ^ (e1 - e) in
  0 ≤ m1 < 2 ^ 53 ∧ (e1 = emin ∨ 2 ^ 52 ≤ m1).
Proof.
  intros Hm He e1 m1. destruct m as [|p|p]; [lia| |lia]. cbn [Zdigits2] in *.
  pose proof (digits_range p) as Hd. subst e1 m1. rewrite fexp_eq in *.
  set (d := Zpos (digits2_pos p)) in *. assert (0 < d) by done. clearbody d.
  set (s := Z.max (d + e - 53) emin - e) in *. assert (0 ≤ s) by lia. split; [split|].
  - apply Z.div_pos; lia.
  - apply Z.div_lt_upper_bound; [lia|]. apply Z.lt_le_trans with (2 ^ d); [lia|].
    rewrite <- Z.pow_add_r by lia. apply Z.pow_le_mono_r; lia.
  - destruct (decide (Z.max (d + e - 53) emin = emin)); [by left|right].
    apply Z.div_le_lower_bound; [apply Z.pow_pos_nonneg; lia|]. rewrite <- Z.pow_add_r by lia.
    replace (s + 52) with (d - 1) by lia. lia.
Qed.

(** Rounding gives zero, infinity or a number in normal form, not below the truncation. *)
Lemma round_aux_ok s m e :
  0 < m → e ≤ fexp (Zdigits2 m + e) →
  let e1 := fexp (Zdigits2 m + e) in let m1 := m / 2 ^ (e1 - e) in
  match binary_round_aux prec emax s m e loc_Exact with
  | S754_zero s' => s' = s ∧ m1 = 0
  | S754_infinity s' => s' = s
  | S754_finite s' m2 e2 =>
      s' = s ∧ bounded prec emax m2 e2 = true ∧ e1 ≤ e2 ∧ m1 ≤ Zpos m2 * 2 ^ (e2 - e1)
  | S754_nan => False
  end.
Proof.
  intros Hm He e1 m1. destruct (first_shift_range m e Hm He) as [Hr Hor]. fold e1 in Hr, Hor. fold m1 in Hr, Hor.
  unfold binary_round_aux. destruct (shr_fexp_first m e Hm He) as (mrs & -> & Hmrs). fold e1 in Hmrs. fold m1 in Hmrs.
  fold e1. rewrite Hmrs. clear Hmrs. set (l := loc_of_shr_record mrs). clearbody l.
  assert (∃ m', round_nearest_even m1 l = m' ∧ m1 ≤ m' ≤ m1 + 1) as (m' & -> & Hm').
  { eexists. split; [done|]. destruct l as [|[]]; cbn; try lia. destruct (Z.even m1); lia. }
  assert (emin ≤ e1) by (unfold e1; rewrite fexp_eq; lia).
  destruct (shr_fexp_second m' e1) as (mrs2 & e2 & -> & He2 & Hval & Hshape); [lia|done|lia|].
  destruct (shr_m mrs2) as [|p|p]; [split; [done|lia]| |done].
  destruct (Z.leb_spec e2 (emax - prec)); [|done]. split_and!; [done| |done|lia].
  unfold bounded. rewrite Hshape. cbn. by apply Z.leb_le.
Qed.

(** In normal form the order of the encodings is the order of the values. *)
Lemma canonical_order m1 e1 m2 e2 :
  canonical_mantissa prec emax m1 e1 = true → canonical_mantissa prec emax m2 e2 = true →
  le_value (Zpos m1) e1 (Zpos m2) e2 → ¬ lexlt (1, e2, Zpos m2) (1, e1, Zpos m1).
Proof.
  rewrite !canonical_iff. intros (Hl1 & Hu1 & Hn1) (Hl2 & Hu2 & Hn2) Hle.
  intros [?|[_ [Hlt|[-> Hlt]]]]; [lia| |].
  - specialize (Hle e2 ltac:(lia) ltac:(lia)). rewrite Z.sub_diag, Z.pow_0_r in Hle.
    assert (2 ^ 1 ≤ 2 ^ (e1 - e2)) by (apply Z.pow_le_mono_r; lia). nia.
  - specialize (Hle e1 ltac:(lia) ltac:(lia)). rewrite Z.sub_diag, Z.pow_0_r in Hle. lia.
Qed.

(** What is representable and not above a value is not above its rounding. *)
Lemma round_aux_lower mx ex m e :
  0 < m → e ≤ fexp (Zdigits2 m + e) → canonical_mantissa prec emax mx ex = true → le_value (Zpos mx) ex m e →
  let r := binary_round_aux prec emax false m e loc_Exact in
  duration r ∧ flt r (S754_finite false mx ex) = false.
Proof.
  intros Hm He Hc Hle r. pose proof (round_aux_ok false m e Hm He) as Hr. fold r in Hr. cbv zeta in Hr.
  destruct (first_shift_range m e Hm He) as [[Hm1 _] Hor].
  set (e1 := fexp (Zdigits2 m + e)) in *. set (m1 := m / 2 ^ (e1 - e)) in *.
  assert (le_value (Zpos mx) ex m1 e1) as Hval.
  { apply canonical_iff in Hc as (Hx & Hu & _). destruct (Z.le_gt_cases e1 ex) as [Hge|Hlt].
    - apply (le_value_at e1); [lia..|]. rewrite Z.sub_diag, Z.pow_0_r, Z.mul_1_r.
      apply Z.div_le_lower_bound; [lia|]. specialize (Hle e ltac:(lia) ltac:(lia)).
      rewrite Z.sub_diag, Z.pow_0_r, Z.mul_1_r in Hle.
      replace (ex - e) with ((e1 - e) + (ex - e1)) in Hle by lia. rewrite Z.pow_add_r in Hle by lia. lia.
    - apply (le_value_at ex); [lia..|]. rewrite Z.sub_diag, Z.pow_0_r, Z.mul_1_r.
      destruct Hor as [?|Hbig]; [lia|]. assert (2 ^ 1 ≤ 2 ^ (e1 - ex)) by (apply Z.pow_le_mono_r; lia). nia. }
  clearbody r m1 e1. destruct r as [s|s| |s m2 e2]; [| |done|].
  - destruct Hr as [-> ->]. specialize (Hval (Z.min ex e1) ltac:(lia) ltac:(lia)).
    assert (0 < 2 ^ (ex - Z.min ex e1)) by (apply Z.pow_pos_nonneg; lia). nia.
  - by subst s.
  - destruct Hr as (-> & Hb & He2 & Hm2). split; [done|]. pose proof Hb as [Hc2 _]%andb_true_iff.
    apply not_true_is_false. rewrite flt_key by done. apply canonical_order; [done|done|].
    eapply le_value_trans; [exact Hval|]. apply (le_value_at e1); [lia..|].
    by rewrite Z.sub_diag, Z.pow_0_r, Z.mul_1_r.
Qed.

Lemma binary_round_lower mx ex m e :
  canonical_mantissa prec emax mx ex = true → le_value (Zpos mx) ex (Zpos m) e →
  let r := binary_round prec emax false m e in
  duration r ∧ flt r (S754_finite false mx ex) = false.
Proof.
  intros Hc Hle. unfold binary_round. set (f := fexp (Zpos (digits2_pos m) + e)).
  destruct (shl_align_shift m e f) as [Hs1 Hs2]. destruct (shl_align m e f) as [mz ez]. cbn [fst snd] in Hs1, Hs2.
  subst ez. apply round_aux_lower; [lia| |done|].
  - assert (Zdigits2 (Zpos mz) = Zpos (digits2_pos m) + Z.max 0 (e - f)) as Hd.
    { cbn [Zdigits2]. apply digits_unique; [lia|]. pose proof (digits_range m) as Hm. rewrite Hs1.
      replace (Zpos (digits2_pos m) + Z.max 0 (e - f) - 1) with (Zpos (digits2_pos m) - 1 + Z.max 0 (e - f)) by lia.
      rewrite !Z.pow_add_r by lia. assert (0 < 2 ^ Z.max 0 (e - f)) by (apply Z.pow_pos_nonneg; lia). nia. }
    rewrite Hd. replace (_ + Z.min e f) with (Zpos (digits2_pos m) + e) by lia. fold f. lia.
  - eapply le_value_trans; [exact Hle|]. apply (le_value_at (Z.min e f)); [lia..|].
    rewrite Z.sub_diag, Z.pow_0_r, Hs1. replace (e - Z.min e f) with (Z.max 0 (e - f)) by lia. lia.
Qed.

(** ** Sums and products of durations *)

Lemma duration_number f : duration f → is_number f.
Proof. intros [_ H]. by destruct f as [|[]| |[]]. Qed.

(** Adding a duration to a time gives a time that is not earlier. *)
Lemma fadd_later x y : duration x → duration y → duration (fadd x y) ∧ flt (fadd x y) x = false.
Proof.
  intros [Hvx Hx] [Hvy Hy]. destruct x as [sx|[|]| |[|] mx ex], y as [sy|[|]| |[|] my ey]; try done.
  - by destruct sx, sy.
  - split; [done|]. apply flt_irrefl.
  - unfold fadd, SFadd. cbn [cond_Zopp]. set (ez := Z.min ex ey).
    destruct (shl_align_shift mx ex ez) as [Hmx _], (shl_align_shift my ey ez) as [Hmy _].
    destruct (_ + _) as [|m|m] eqn:Hs; [lia| |lia]. cbn [binary_normalize].
    apply binary_round_lower; [by apply andb_true_iff in Hvx as [? _]|].
    apply (le_value_at ez); [lia..|]. rewrite Z.sub_diag, Z.pow_0_r, Z.mul_1_r, <- Hs, Hmx.
    replace (Z.max 0 (ex - ez)) with (ex - ez) by lia. lia.
Qed.

Lemma fadd_duration x y : duration x → duration y → duration (fadd x y).
Proof. intros Hx Hy. by apply fadd_later. Qed.

(** The product of positive numbers. *)
Lemma fmul_duration x y : positive_duration x → positive_duration y → duration (fmul x y).
Proof.
  intros [[Hvx Hx] Hpx] [[Hvy Hy] Hpy]. destruct x as [sx|[|]| |[|] mx ex], y as [sy|[|]| |[|] my ey]; try done.
  apply andb_true_iff in Hvx as [Hcx _], Hvy as [Hcy _]. unfold fmul, SFmul. cbn [xorb].
  pose proof (proj1 (canonical_iff _ _) Hcx) as (Hex & Hux & Hnx).
  pose proof (proj1 (canonical_iff _ _) Hcy) as (Hey & Huy & Hny).
  assert (ex + ey ≤ fexp (Zdigits2 (Zpos (mx * my)) + (ex + ey))) as He.
  { rewrite fexp_eq. cbn [Zdigits2]. pose proof (digits_range (mx * my)) as Hd.
    set (d := Zpos (digits2_pos (mx * my))) in *. clearbody d.
    destruct (decide (ex = emin ∧ ey = emin)); [lia|]. assert (53 ≤ d); [|lia].
    destruct (Z.le_gt_cases 53 d); [done|]. assert (2 ^ d ≤ 2 ^ 52) by (apply Z.pow_le_mono_r; lia). nia. }
  pose proof (round_aux_ok false (Zpos (mx * my)) (ex + ey) ltac:(lia) He) as Hr. cbv zeta in Hr.
  destruct (binary_round_aux _ _ _ _ _ _); [done|by subst|done|]. by destruct Hr as (-> & ? & _).
Qed.

Lemma positive_add x y : positive_duration x → duration y → positive_duration (fadd x y).
Proof.
  intros [Hx Hp] Hy. destruct (fadd_later x y Hx Hy) as [Hd Hl]. split; [done|].
  destruct (fadd x y) as [s|[|]| |[|] m e] eqn:E; try by destruct Hd. exfalso.
  destruct x as [?|[|]| |[|] ? ?]; try done; by destruct Hx.
Qed.

Lemma f64_of_Z_duration z : 0 ≤ z → duration (f64_of_Z z).
Proof.
  intros Hz. unfold f64_of_Z. destruct z as [|p|p]; [done| |lia]. cbn [binary_normalize].
  apply (binary_round_lower 1 emin); [done|]. apply (le_value_at emin); [lia..|].
  rewrite Z.sub_diag, Z.pow_0_r. assert (0 < 2 ^ (0 - emin)) by done. lia.
Qed.

Lemma f64_of_Z_positive z : 0 < z → positive_duration (f64_of_Z z).
Proof.
  intros Hz. split; [apply f64_of_Z_duration; lia|].
  destruct z as [|p|p]; [lia| |lia]. unfold f64_of_Z. cbn [binary_normalize].
  destruct (binary_round_lower 1 emin p 0) as [Hd Hl]; [done| |].
  - apply (le_value_at emin); [lia..|].
    rewrite Z.sub_diag, Z.pow_0_r. assert (0 < 2 ^ (0 - emin)) by done. lia.
  - by destruct (binary_round _ _ _ _ _) as [s|[|]| |[|] m e]; try by destruct Hd.
Qed.

(** Every [float64] but NaN, in normal form. *)
Definition proper (f : float64) : Prop := valid_binary prec emax f = true ∧ is_number f.

Lemma proper_positive f : proper f → fle f fzero = false → positive_duration f.
Proof. intros [Hv Hn] Hle. by destruct f as [|[]| |[]]. Qed.
