(* ===== verification/Rng.v ===== *)
(** * The random streams: [pkg/rng] and [pkg/simulation/random.go]

    [splitmix64] with its bounded-range method, float conversion and stream derivation.
    States and outputs are [uint64] values kept in [Z] with the wraps of the code. *)

From Corelib Require Import SpecFloat.
From S2P Require Import Prelude Float64.
Local Open Scope Z_scope.

(** ** Definitions *)

Definition golden : Z := 0x9E3779B97F4A7C15.
Definition mul1 : Z := 0xBF58476D1CE4E5B9.
Definition mul2 : Z := 0x94D049BB133111EB.

(* pkg/rng/rng.go:22-25 RNG *)
Record RNG := mkRNG { state : Z }.

(* pkg/rng/rng.go:27-32 New *)
Definition New (seed : Z) : RNG := mkRNG seed.

(* pkg/rng/rng.go:34-36 RNG.State *)
Definition State (r : RNG) : Z := state r.

(* pkg/rng/rng.go:109-117 mix64 *)
Definition mix64 (z : Z) : Z :=
  let z := u64 (Z.lxor z (Z.shiftr z 30) * mul1) in
  let z := u64 (Z.lxor z (Z.shiftr z 27) * mul2) in
  Z.lxor z (Z.shiftr z 31).

(* pkg/rng/rng.go:38-45 RNG.Uint64 *)
Definition Uint64 (r : RNG) : Z * RNG :=
  let st := u64 (state r + golden) in
  let z := st in
  let z := u64 (Z.lxor z (Z.shiftr z 30) * mul1) in
  let z := u64 (Z.lxor z (Z.shiftr z 27) * mul2) in
  (Z.lxor z (Z.shiftr z 31), mkRNG st).

(** [bits.Mul64] of the standard library: the 128-bit product as (hi, lo). *)
Definition Mul64 (x y : Z) : Z * Z := (x * y / 2 ^ 64, u64 (x * y)).

(** One pass of the rejection loop of [Uint64n]. *)
Definition reject_step (n threshold : Z) (s : Z * Z * RNG) : (Z * Z * RNG) + (Z * RNG) :=
  let '(hi, lo, r) := s in
  if lo <? threshold then
    let '(x, r') := Uint64 r in
    let '(hi', lo') := Mul64 x n in
    inl (hi', lo', r')
  else inr (hi, r).

(* pkg/rng/rng.go:47-64 RNG.Uint64n *)
Definition Uint64n (r : RNG) (n : Z) : outcome (Z * RNG) :=
  if n =? 0 then Panic "rng: Uint64n called with zero bound"
  else
    let '(x, r1) := Uint64 r in
    let '(hi, lo) := Mul64 x n in
    if lo <? n then
      let threshold := u64 (- n) mod n in
      match iter_until (2 ^ 64 + 1)%positive (reject_step n threshold) (hi, lo, r1) with
      | inr res => Done res
      | inl _ => Panic "rejection loop bound exceeded"
      end
    else Done (hi, r1).

(* pkg/rng/rng.go:66-73 RNG.Int63n *)
Definition Int63n (r : RNG) (n : Z) : outcome (Z * RNG) :=
  if n <=? 0 then Panic "rng: Int63n called with non-positive bound"
  else let! (v, r') := Uint64n r (u64 n) in Done (i64 v, r').

(* pkg/rng/rng.go:75-78 RNG.Float64 *)
Definition Float64 (r : RNG) : float64 * RNG :=
  let '(x, r') := Uint64 r in
  (fmul (f64_of_Z (Z.shiftr x 11)) (SFdiv prec emax fone (f64_of_Z (Z.shiftl 1 53))), r').

(* pkg/rng/rng.go:80-85 RNG.Split *)
Definition Split (r : RNG) : RNG * RNG :=
  let '(x, r') := Uint64 r in (New x, r').

(** FNV-1a, 64 bits ([hash/fnv]); bytes are integers below 256. *)
Definition fnv_offset : Z := 14695981039346656037.
Definition fnv_prime : Z := 1099511628211.
Definition fnv_byte (h b : Z) : Z := u64 (Z.lxor h b * fnv_prime).
Definition fnv_Write (h : Z) (bs : list Z) : Z := foldl fnv_byte h bs.

(** [binary.LittleEndian.PutUint64]. *)
Definition le_bytes (v : Z) : list Z :=
  (λ i, Z.shiftr v (8 * Z.of_nat i) mod 256) <$> seq 0 8.

(** The byte stream [Derive] feeds to the hash. *)
Definition derive_bytes (seed : Z) (keys : list (list Z)) : list Z :=
  le_bytes seed ++ concat ((λ k, 0xff :: k) <$> keys).

(* pkg/rng/rng.go:87-100 Derive *)
Definition Derive (seed : Z) (keys : list (list Z)) : RNG :=
  let h := fnv_Write fnv_offset (le_bytes seed) in
  let h := foldl (λ h k, fnv_Write (fnv_Write h [0xff]) k) h keys in
  New h.

(* pkg/rng/rng.go:102-107 DeriveU64 *)
Definition DeriveU64 (seed stream : Z) : RNG :=
  New (Z.lxor (mix64 seed) (mix64 (u64 (stream + golden)))).

(* pkg/simulation/random.go:5-11 RandomStreams *)
Record RandomStreams := mkRandomStreams { rs_seed : Z }.

(* pkg/simulation/random.go:13-16 NewRandomStreams *)
Definition NewRandomStreams (seed : Z) : RandomStreams := mkRandomStreams seed.

(* pkg/simulation/random.go:18-19 RandomStreams.Seed *)
Definition RandomStreams__Seed (s : RandomStreams) : Z := rs_seed s.

(* pkg/simulation/random.go:21-26 RandomStreams.Stream *)
Definition RandomStreams__Stream (s : RandomStreams) (keys : list (list Z)) : RNG :=
  Derive (rs_seed s) keys.

(* pkg/simulation/random.go:28-32 RandomStreams.StreamU64 *)
Definition RandomStreams__StreamU64 (s : RandomStreams) (stream : Z) : RNG :=
  DeriveU64 (rs_seed s) stream.

(** The state after [k] draws. *)
Definition nth_state (r : RNG) (k : nat) : Z := u64 (state r + Z.of_nat k * golden).

(** ** The finalizer is a bijection *)

Definition mul1_inv : Z := 0x96de1b173f119089.
Definition mul2_inv : Z := 0x319642b2d24d8ec3.
Definition golden_inv : Z := 0xf1de83e19937733d.
(** The input that [mix64] sends to [2^64 - 1]. *)
Definition max_preimage : Z := 0xcf9a04affa6badc0.

Lemma u64_testbit a : in_u64 a ↔ 0 ≤ a ∧ ∀ i, 64 ≤ i → Z.testbit a i = false.
Proof.
  split.
  - intros [H0 H]. split; [done|]. intros i Hi.
    rewrite <- (Z.mod_small a (2 ^ 64)) by done. by apply Z.mod_pow2_bits_high.
  - intros [H0 H]. split; [done|].
    destruct (Z.eq_dec a 0) as [->|Hne]; [lia|].
    apply Z.log2_lt_pow2; [lia|].
    destruct (Z.lt_ge_cases (Z.log2 a) 64) as [|Hge]; [done|].
    pose proof (Z.bit_log2 a ltac:(lia)) as Hb. rewrite H in Hb by done. done.
Qed.

Lemma lxor_u64 a b : in_u64 a → in_u64 b → in_u64 (Z.lxor a b).
Proof.
  rewrite !u64_testbit. intros [? Ha] [? Hb]. split; [by apply Z.lxor_nonneg|].
  intros i Hi. rewrite Z.lxor_spec, Ha, Hb by done. done.
Qed.

Lemma shiftr_u64 a k : 0 ≤ k → in_u64 a → in_u64 (Z.shiftr a k).
Proof.
  rewrite !u64_testbit. intros Hk [? Ha]. split; [by apply Z.shiftr_nonneg|].
  intros i Hi. rewrite Z.shiftr_spec by lia. apply Ha. lia.
Qed.

Lemma xorshift_inj k a b :
  0 < k → in_u64 a → in_u64 b →
  Z.lxor a (Z.shiftr a k) = Z.lxor b (Z.shiftr b k) → a = b.
Proof.
  intros Hk Ha Hb Heq. apply u64_testbit in Ha as [_ Ha]. apply u64_testbit in Hb as [_ Hb].
  assert (∀ n i, 0 ≤ i → 64 - i ≤ Z.of_nat n → Z.testbit a i = Z.testbit b i) as Hbits.
  { induction n as [|n IH]; intros i Hi Hn; [rewrite Ha, Hb by lia; done|].
    assert (Z.testbit (Z.lxor a (Z.shiftr a k)) i = Z.testbit (Z.lxor b (Z.shiftr b k)) i)
      as Hi' by by rewrite Heq.
    rewrite !Z.lxor_spec, !Z.shiftr_spec, (IH (i + k)) in Hi' by lia.
    by destruct (Z.testbit a i), (Z.testbit b i), (Z.testbit b (i + k)). }
  apply Z.bits_inj'. intros i Hi. apply (Hbits 64%nat); lia.
Qed.

Lemma mul_odd_inj c cinv a b :
  u64 (c * cinv) = 1 → in_u64 a → in_u64 b → u64 (a * c) = u64 (b * c) → a = b.
Proof.
  intros Hc Ha Hb Heq.
  assert (∀ x, in_u64 x → u64 (u64 (x * c) * cinv) = x) as Hinv.
  { intros x Hx. autorewrite with sim. rewrite <- Z.mul_assoc, Z.mul_comm.
    rewrite <- u64_mul_l, Hc, Z.mul_1_l. by apply u64_id. }
  rewrite <- (Hinv a Ha), <- (Hinv b Hb). by rewrite Heq.
Qed.

Lemma mix64_range z : in_u64 z → in_u64 (mix64 z).
Proof. intros. apply lxor_u64; [|apply shiftr_u64; [lia|]]; apply u64_range. Qed.

Lemma mix64_injective a b : in_u64 a → in_u64 b → mix64 a = mix64 b → a = b.
Proof.
  unfold mix64. intros Ha Hb H.
  apply xorshift_inj in H; [|lia|apply u64_range..].
  apply (mul_odd_inj _ mul2_inv) in H;
    [|by vm_compute|apply lxor_u64; [|apply shiftr_u64; [lia|]]; apply u64_range..].
  apply xorshift_inj in H; [|lia|apply u64_range..].
  apply (mul_odd_inj _ mul1_inv) in H;
    [|by vm_compute|apply lxor_u64; [done|apply shiftr_u64; [lia|done]]..].
  by apply xorshift_inj in H.
Qed.

Lemma mix64_max : mix64 max_preimage = 2 ^ 64 - 1.
Proof. by vm_compute. Qed.

(** [golden] is odd, so the state walks through all of [0, 2^64). *)
Lemma nth_state_succ r k : nth_state (mkRNG (u64 (state r + golden))) k = nth_state r (S k).
Proof.
  unfold nth_state. simpl state. rewrite u64_add_l. f_equal. lia.
Qed.

Lemma nth_state_inj r i j :
  Z.of_nat i < 2 ^ 64 → Z.of_nat j < 2 ^ 64 → nth_state r i = nth_state r j → i = j.
Proof.
  unfold nth_state. intros Hi Hj H.
  assert (u64 (Z.of_nat i * golden) = u64 (Z.of_nat j * golden)) as H'.
  { transitivity (u64 (u64 (state r + Z.of_nat i * golden) + - state r)).
    - rewrite u64_add_l. f_equal. lia.
    - rewrite H, u64_add_l. f_equal. lia. }
  apply (mul_odd_inj _ golden_inv) in H'; [lia|by vm_compute|unfold in_u64; lia..].
Qed.

Lemma nth_state_surj r s :
  in_u64 s → ∃ k, Z.of_nat k < 2 ^ 64 ∧ nth_state r (S k) = s.
Proof.
  intros Hs. exists (Z.to_nat (u64 ((s - state r) * golden_inv - 1))).
  pose proof (u64_range ((s - state r) * golden_inv - 1)) as [??].
  split; [lia|]. unfold nth_state. rewrite Nat2Z.inj_succ, Z2Nat.id by lia.
  set (j := (s - state r) * golden_inv).
  assert (∃ q, u64 (j - 1) = j - 1 - 2 ^ 64 * q) as [q Hq].
  { exists ((j - 1) / 2 ^ 64). unfold u64. pose proof (Z.div_mod (j - 1) (2 ^ 64)). lia. }
  rewrite Hq.
  assert (golden_inv * golden = 1 + 2 ^ 64 * (golden_inv * golden / 2 ^ 64)) as Hg by by vm_compute.
  set (c := golden_inv * golden / 2 ^ 64) in Hg.
  replace (state r + Z.succ (j - 1 - 2 ^ 64 * q) * golden)
    with (s + ((s - state r) * c - q * golden) * 2 ^ 64).
  - unfold u64. rewrite Z.mod_add by lia. by apply u64_id.
  - transitivity (state r + (s - state r) * (golden_inv * golden) - 2 ^ 64 * q * golden).
    + rewrite Hg. ring.
    + unfold j. ring.
Qed.

(** [DeriveU64] gives every stream identifier its own stream: for one master seed, two
    different [uint64] identifiers never share a generator state. *)
Theorem DeriveU64_distinct seed a b :
  in_u64 a → in_u64 b → a ≠ b → DeriveU64 seed a ≠ DeriveU64 seed b.
Proof.
  intros Ha Hb Hne [= Heq]. apply Hne.
  assert (mix64 (u64 (a + golden)) = mix64 (u64 (b + golden))) as H.
  { rewrite <- (Z.lxor_0_l (mix64 _)), <- (Z.lxor_nilpotent (mix64 seed)), Z.lxor_assoc, Heq.
    by rewrite <- Z.lxor_assoc, Z.lxor_nilpotent, Z.lxor_0_l. }
  apply mix64_injective in H; [|apply u64_range..].
  assert (u64 (u64 (a + golden) - golden) = u64 (u64 (b + golden) - golden)) as H' by by rewrite H.
  unfold Z.sub in H'. rewrite !u64_add_l, <- !Z.add_assoc, Z.add_opp_diag_r, !Z.add_0_r in H'.
  by rewrite !u64_id in H'.
Qed.

Lemma DeriveU64_distinct_witness : DeriveU64 42 1 ≠ DeriveU64 42 2.
Proof. apply DeriveU64_distinct; [by vm_compute..|done]. Defined.

Lemma Uint64_output r k : fst (Uint64 (mkRNG (nth_state r k))) = mix64 (nth_state r (S k)).
Proof.
  change (fst (Uint64 (mkRNG (nth_state r k)))) with (mix64 (u64 (nth_state r k + golden))).
  f_equal. unfold nth_state. rewrite u64_add_l. f_equal. lia.
Qed.

(** The generator has full period: over any window of [2^64] consecutive draws the
    outputs of [Uint64] are pairwise different. *)
Theorem Uint64_full_period r i j :
  Z.of_nat i < 2 ^ 64 → Z.of_nat j < 2 ^ 64 → i ≠ j →
  fst (Uint64 (mkRNG (nth_state r i))) ≠ fst (Uint64 (mkRNG (nth_state r j))).
Proof.
  intros Hi Hj Hne H. apply Hne. rewrite !Uint64_output in H.
  apply mix64_injective in H; [|apply u64_range..].
  rewrite <- !nth_state_succ in H. by apply nth_state_inj in H.
Qed.

Lemma Uint64_full_period_witness :
  fst (Uint64 (mkRNG (nth_state (New 7) 0))) ≠ fst (Uint64 (mkRNG (nth_state (New 7) 5))).
Proof. by apply Uint64_full_period. Defined.

(** ** Bounded draws *)

Lemma threshold_eq n : 0 < n < 2 ^ 64 → u64 (- n) mod n = 2 ^ 64 mod n.
Proof.
  intros Hn. assert (u64 (- n) = 2 ^ 64 - n) as ->.
  { unfold u64. symmetry. apply Z.mod_unique with (-1); lia. }
  replace (2 ^ 64 - n) with (2 ^ 64 + (-1) * n) by lia. by rewrite Z.mod_add by lia.
Qed.

(** The largest draw is never rejected. *)
Lemma max_accepted n : 0 < n < 2 ^ 64 → u64 (- n) mod n ≤ u64 ((2 ^ 64 - 1) * n).
Proof.
  intros Hn. rewrite threshold_eq by done.
  assert (u64 ((2 ^ 64 - 1) * n) = 2 ^ 64 - n) as ->.
  { unfold u64. symmetry. apply Z.mod_unique with (n - 1); lia. }
  pose proof (Z.div_mod (2 ^ 64) n ltac:(lia)). pose proof (Z.mod_pos_bound (2 ^ 64) n ltac:(lia)).
  assert (1 ≤ 2 ^ 64 / n) by (apply Z.div_le_lower_bound; lia). nia.
Qed.

Lemma hi_bound n x : 0 < n → in_u64 x → 0 ≤ fst (Mul64 x n) < n.
Proof.
  intros Hn [??]. simpl. split; [apply Z.div_pos; nia|]. apply Z.div_lt_upper_bound; nia.
Qed.

(** The generator after [k] draws, and the (hi, lo) pair of its latest draw. *)
Definition after (r : RNG) (k : nat) : RNG := mkRNG (nth_state r k).
Definition hi_of (n : Z) (r : RNG) : Z := fst (Mul64 (mix64 (state r)) n).
Definition lo_of (n : Z) (r : RNG) : Z := snd (Mul64 (mix64 (state r)) n).
Definition loop_state (n : Z) (r : RNG) : Z * Z * RNG := (hi_of n r, lo_of n r, r).

Lemma after_0 r : in_u64 (state r) → after r 0 = r.
Proof.
  destruct r as [s]. intros Hs. unfold after, nth_state. simpl in *.
  f_equal. rewrite Z.add_0_r. by apply u64_id.
Qed.

Lemma after_S r k : after (snd (Uint64 r)) k = after r (S k).
Proof. unfold after. by rewrite <- nth_state_succ. Qed.

Lemma reject_step_loop n t r :
  reject_step n t (loop_state n r) =
  if lo_of n r <? t then inl (loop_state n (snd (Uint64 r))) else inr (hi_of n r, r).
Proof. done. Qed.

(** The rejection loop ends at the first accepted draw. *)
Lemma reject_loop n t k r :
  in_u64 (state r) → t ≤ lo_of n (after r k) →
  ∃ d, (d ≤ k)%nat ∧
    (∀ m, (S d ≤ m)%nat →
       iter_nat m (reject_step n t) (loop_state n r) = inr (hi_of n (after r d), after r d)) ∧
    t ≤ lo_of n (after r d) ∧ (∀ j, (j < d)%nat → lo_of n (after r j) < t).
Proof.
  revert r. induction k as [|k IH]; intros r Hr Hk.
  - exists 0%nat. split; [done|]. split; [|split; [done|lia]].
    intros m Hm. destruct m as [|m]; [lia|]. rewrite !after_0 in * by done.
    cbn [iter_nat]. rewrite reject_step_loop. by destruct (Z.ltb_spec (lo_of n r) t); [lia|].
  - destruct (Z.lt_ge_cases (lo_of n r) t) as [Hlt|Hge].
    + destruct (IH (snd (Uint64 r))) as (d & Hd & Hm & Ht & Hj);
        [apply u64_range|by rewrite after_S|].
      exists (S d). rewrite !after_S in *. split; [lia|]. split; [|split; [done|]].
      * intros m Hm'. destruct m as [|m]; [lia|]. cbn [iter_nat]. rewrite reject_step_loop.
        destruct (Z.ltb_spec (lo_of n r) t); [|lia]. apply Hm. lia.
      * intros j Hj'. destruct j as [|j]; [by rewrite after_0|]. rewrite <- after_S. apply Hj. lia.
    + exists 0%nat. rewrite after_0 by done. split; [lia|]. split; [|split; [done|lia]].
      intros m Hm. destruct m as [|m]; [lia|]. cbn [iter_nat]. rewrite reject_step_loop.
      by destruct (Z.ltb_spec (lo_of n r) t); [lia|].
Qed.

Lemma Uint64n_Done r n :
  0 < n < 2 ^ 64 →
  ∃ d v, Uint64n r n = Done (v, after r (S d)) ∧ 0 ≤ v < n ∧
    v = hi_of n (after r (S d)) ∧
    2 ^ 64 mod n ≤ lo_of n (after r (S d)) ∧
    (∀ j, (j < d)%nat → lo_of n (after r (S j)) < 2 ^ 64 mod n).
Proof.
  intros Hn. set (r1 := snd (Uint64 r)).
  destruct (nth_state_surj r max_preimage) as (k & Hk & Hpre); [by vm_compute|].
  destruct (reject_loop n (u64 (- n) mod n) k r1) as (d & Hd & Hm & Ht & Hj).
  { apply u64_range. }
  { unfold r1. rewrite after_S. unfold lo_of, after. simpl state. rewrite Hpre, mix64_max.
    by apply max_accepted. }
  assert (∀ v, in_u64 v → 0 ≤ fst (Mul64 (mix64 v) n) < n) as Hhi.
  { intros v Hv. apply hi_bound; [lia|by apply mix64_range]. }
  assert (Uint64n r n = Done (hi_of n (after r (S d)), after r (S d))) as Heq.
  { unfold Uint64n. destruct (Z.eqb_spec n 0); [lia|].
    change (let '(x, r2) := Uint64 r in _) with
      (if lo_of n r1 <? n then
         match iter_until (2 ^ 64 + 1)%positive (reject_step n (u64 (- n) mod n)) (loop_state n r1) with
         | inr res => Done res | inl _ => Panic "rejection loop bound exceeded" end
       else Done (hi_of n r1, r1)).
    rewrite <- after_S. fold r1. destruct (Z.ltb_spec (lo_of n r1) n) as [Hlt|Hge].
    - rewrite iter_until_nat, Hm; [done|]. rewrite Pos2Nat.inj_add. lia.
    - assert (d = 0%nat) as ->; [|by rewrite after_0 by apply u64_range].
      destruct d as [|d]; [done|]. specialize (Hj 0%nat ltac:(lia)).
      rewrite after_0 in Hj by apply u64_range.
      pose proof (Z.mod_pos_bound (u64 (- n)) n ltac:(lia)). lia. }
  exists d, (hi_of n (after r (S d))). unfold r1 in *.
  rewrite threshold_eq, after_S in * by done.
  split; [done|]. split; [apply Hhi, u64_range|]. split; [done|]. split; [done|].
  intros j Hj'. rewrite <- after_S. by apply Hj.
Qed.

(** [Uint64n] always returns: for every generator and every bound [0 < n < 2^64] the
    rejection loop stops, the value is below [n], and it is the multiply-shift image of the
    first draw that is not rejected (all earlier draws fall under the threshold). *)
Theorem Uint64n_total r n :
  0 < n < 2 ^ 64 →
  ∃ d v, Uint64n r n = Done (v, after r (S d)) ∧ 0 ≤ v < n ∧
    v = hi_of n (after r (S d)) ∧
    2 ^ 64 mod n ≤ lo_of n (after r (S d)) ∧
    (∀ j, (j < d)%nat → lo_of n (after r (S j)) < 2 ^ 64 mod n).
Proof. apply Uint64n_Done. Qed.

Lemma Uint64n_total_witness :
  ∃ d v, Uint64n (New 42) 1000 = Done (v, after (New 42) (S d)) ∧ 0 ≤ v < 1000 ∧
    v = hi_of 1000 (after (New 42) (S d)) ∧
    2 ^ 64 mod 1000 ≤ lo_of 1000 (after (New 42) (S d)) ∧
    (∀ j, (j < d)%nat → lo_of 1000 (after (New 42) (S j)) < 2 ^ 64 mod 1000).
Proof. apply Uint64n_total. lia. Defined.

(** The draws that are accepted with the value [v]: [2^64 / n] integers from here on. *)
Definition accepted_from (n v : Z) : Z := (v * 2 ^ 64 + 2 ^ 64 mod n + n - 1) / n.
Definition accepted (n v x : Z) : Prop := accepted_from n v ≤ x < accepted_from n v + 2 ^ 64 / n.

Lemma accepted_range n v : 0 < n < 2 ^ 64 → 0 ≤ v < n →
  0 ≤ accepted_from n v ∧ accepted_from n v + 2 ^ 64 / n ≤ 2 ^ 64.
Proof.
  intros Hn Hv. unfold accepted_from. set (t := 2 ^ 64 mod n). set (q := 2 ^ 64 / n).
  assert (2 ^ 64 = n * q + t) as Hq by (apply Z.div_mod; lia). assert (0 ≤ t < n) as Ht by (apply Z.mod_pos_bound; lia).
  split; [apply Z.div_pos; lia|]. set (base := (v * 2 ^ 64 + t + n - 1) / n).
  assert (base * n < v * 2 ^ 64 + t + n).
  { pose proof (Z.div_mod (v * 2 ^ 64 + t + n - 1) n ltac:(lia)) as H1. fold base in H1.
    pose proof (Z.mod_pos_bound (v * 2 ^ 64 + t + n - 1) n ltac:(lia)). lia. }
  nia.
Qed.

(** They are the draws that are not rejected and whose image is [v]. *)
Lemma accepted_spec n v x : 0 < n < 2 ^ 64 → in_u64 x →
  accepted n v x ↔ 2 ^ 64 mod n ≤ u64 (x * n) ∧ x * n / 2 ^ 64 = v.
Proof.
  intros Hn [Hx0 Hx]. unfold accepted, accepted_from. set (t := 2 ^ 64 mod n). set (q := 2 ^ 64 / n).
  assert (2 ^ 64 = n * q + t) as Hq by (apply Z.div_mod; lia). assert (0 ≤ t < n) as Ht by (apply Z.mod_pos_bound; lia).
  set (A := v * 2 ^ 64 + t). set (base := (A + n - 1) / n).
  assert (A ≤ base * n < A + n) as Hb.
  { pose proof (Z.div_mod (A + n - 1) n ltac:(lia)) as H1. fold base in H1.
    pose proof (Z.mod_pos_bound (A + n - 1) n ltac:(lia)). lia. }
  assert (x * n = 2 ^ 64 * (x * n / 2 ^ 64) + u64 (x * n)) as Hxn by (apply Z.div_mod; lia).
  pose proof (u64_range (x * n)) as [??]. split.
  - intros [??]. assert (A ≤ x * n < A + n * q) by nia. assert (x * n / 2 ^ 64 = v) as Hv by nia. split; [nia|done].
  - intros [Hge Hhi]. rewrite Hhi in Hxn. assert (A ≤ x * n < A + n * q) by nia. nia.
Qed.

(** The [j]-th draw of a generator. *)
Definition draw (r : RNG) (j : nat) : Z := mix64 (state (after r (S j))).

(** C11: bounded draws are unbiased: the values below [n] have intervals of [2^64 / n] draws each,
    all of the same size, and [Uint64n] returns the value whose interval holds the first draw that
    lies in any of them. *)
Theorem Uint64n_unbiased n :
  0 < n < 2 ^ 64 →
  ∃ base : Z → Z, (∀ v, 0 ≤ v < n → 0 ≤ base v ∧ base v + 2 ^ 64 / n ≤ 2 ^ 64) ∧
    ∀ r, ∃ v d, Uint64n r n = Done (v, after r (S d)) ∧ 0 ≤ v < n ∧ base v ≤ draw r d < base v + 2 ^ 64 / n ∧
      ∀ j v', (j < d)%nat → ¬ (base v' ≤ draw r j < base v' + 2 ^ 64 / n).
Proof.
  intros Hn. exists (accepted_from n). split; [intros v Hv; by apply accepted_range|]. intros r.
  destruct (Uint64n_Done r n Hn) as (d & v & Hu & Hv & Hhi & Hlo & Hj). exists v, d. split; [done|]. split; [done|].
  assert (∀ k, in_u64 (draw r k)) as Hdraw by (intros k; apply mix64_range, u64_range). split.
  - apply (accepted_spec n v (draw r d)); [done..|]. split; [exact Hlo|by rewrite Hhi].
  - intros j v' Hjd Hacc. apply (accepted_spec n v' (draw r j)) in Hacc as [Hge _]; [|done..].
    specialize (Hj j Hjd). unfold lo_of, draw, Mul64 in *. cbn [snd] in Hj. lia.
Qed.

Lemma Uint64n_unbiased_witness :
  ∃ v d, Uint64n (New 42) 1000 = Done (v, after (New 42) (S d)) ∧ 0 ≤ v < 1000.
Proof.
  destruct (Uint64n_unbiased 1000) as (base & _ & H); [lia|]. destruct (H (New 42)) as (v & d & Hu & Hv & _).
  exists v, d. split; [exact Hu|exact Hv].
Defined.

(** ** Floats in the unit interval *)

Lemma digits2_pos_size p : digits2_pos p = Pos.size p.
Proof. induction p; simpl; congruence. Qed.

Lemma digits2_pos_bound p : Zpos p < 2 ^ 53 → (1 ≤ Zpos (digits2_pos p) ≤ 53).
Proof.
  intros H. rewrite digits2_pos_size. split; [lia|].
  pose proof (Pos.size_le p) as Hs.
  destruct (Z.le_gt_cases (Zpos (Pos.size p)) 53) as [|Hgt]; [done|].
  assert (2 ^ 54 ≤ Zpos (2 ^ Pos.size p)).
  { rewrite Pos2Z.inj_pow. apply Z.pow_le_mono_r; lia. }
  lia.
Qed.

Lemma digits2_pos_shift p k : digits2_pos (Pos.iter xO p k) = (digits2_pos p + k)%positive.
Proof.
  induction k as [|k IH] using Pos.peano_ind; [simpl; lia|].
  rewrite Pos.iter_succ. simpl. rewrite IH. lia.
Qed.

(** A 53-bit mantissa in the exponent range needs no rounding. *)
Lemma shr_fexp_53 m e :
  digits2_pos m = 53%positive → -1074 ≤ e →
  shr_fexp prec emax (Zpos m) e loc_Exact = (Build_shr_record (Zpos m) false false, e).
Proof.
  intros Hm He. unfold shr_fexp, fexp, emin, prec, emax. cbn [Zdigits2]. rewrite Hm.
  replace (Z.max (53 + e - 53) (3 - 1024 - 53) - e) with 0 by lia. done.
Qed.

Lemma shr_fexp_105 m e :
  digits2_pos m = 53%positive → -1021 ≤ e →
  shr_fexp prec emax (Zpos (m * 4503599627370496)) (e - 105) loc_Exact
  = (Build_shr_record (Zpos m) false false, e - 53).
Proof.
  intros Hm He. unfold shr_fexp, fexp, emin, prec, emax. cbn [Zdigits2].
  rewrite Pos.mul_comm.
  change (4503599627370496 * m)%positive with (Pos.iter xO m 52).
  rewrite digits2_pos_shift, Hm.
  replace (Z.max (Z.pos (53 + 52) + (e - 105) - 53) (3 - 1024 - 53) - (e - 105)) with 52 by lia.
  cbn. f_equal. lia.
Qed.

Lemma binary_round_small p :
  Zpos p < 2 ^ 53 →
  ∃ m e, digits2_pos m = 53%positive ∧ -52 ≤ e ≤ 0 ∧
    binary_round prec emax false p 0 = S754_finite false m e.
Proof.
  intros Hp. pose proof (digits2_pos_bound p Hp) as Hd.
  set (e := Zpos (digits2_pos p) - 53).
  assert (∃ m, digits2_pos m = 53%positive ∧
            shl_align p 0 (fexp prec emax (Zpos (digits2_pos p) + 0)) = (m, e)) as (m & Hm & Hal).
  { unfold fexp, emin, prec, emax, shl_align.
    replace (Z.max (Z.pos (digits2_pos p) + 0 - 53) (3 - 1024 - 53) - 0) with e by lia.
    replace (Z.max (Z.pos (digits2_pos p) + 0 - 53) (3 - 1024 - 53)) with e by lia.
    destruct e as [|q|q] eqn:He; [|lia|].
    - exists p. split; [lia|done].
    - exists (Pos.iter xO p q). rewrite digits2_pos_shift. split; [lia|done]. }
  exists m, e. split; [done|]. split; [lia|].
  unfold binary_round. rewrite Hal. unfold binary_round_aux.
  rewrite shr_fexp_53 by (done || lia). cbn [shr_m loc_of_shr_record round_nearest_even].
  rewrite shr_fexp_53 by (done || lia). cbn [shr_m].
  unfold emax, prec. by destruct (Z.leb_spec e (1024 - 53)); [|lia].
Qed.

Lemma unit_scale : SFdiv prec emax fone (f64_of_Z (Z.shiftl 1 53)) = S754_finite false 4503599627370496 (-105).
Proof. by vm_compute. Qed.

Lemma Uint64_eq r :
  Uint64 r = (mix64 (u64 (state r + golden)), mkRNG (u64 (state r + golden))).
Proof. done. Qed.

Lemma Float64_eq r :
  fst (Float64 r) = fmul (f64_of_Z (Z.shiftr (mix64 (u64 (state r + golden))) 11))
                         (S754_finite false 4503599627370496 (-105)).
Proof. unfold Float64. rewrite unit_scale, Uint64_eq. cbn [fst]. done. Qed.

(** [Float64] returns a number of the half-open unit interval: never negative, never
    NaN, and strictly below one. *)
Theorem Float64_unit_interval r :
  let f := fst (Float64 r) in fle fzero f = true ∧ flt f fone = true.
Proof.
  intros f. subst f. rewrite Float64_eq.
  pose proof (mix64_range _ (u64_range (state r + golden))) as [Hx0 Hx].
  set (x := mix64 _) in *.
  assert (0 ≤ Z.shiftr x 11 < 2 ^ 53) as Hm.
  { rewrite Z.shiftr_div_pow2 by lia. split; [apply Z.div_pos; lia|].
    apply Z.div_lt_upper_bound; lia. }
  destruct (Z.shiftr x 11) as [|p|p]; [by vm_compute| |lia].
  destruct (binary_round_small p) as (m & e & Hd & He & Hbr); [lia|].
  unfold f64_of_Z. cbn [binary_normalize]. rewrite Hbr.
  unfold fmul. cbn [SFmul xorb]. unfold binary_round_aux.
  replace (e + -105) with (e - 105) by lia.
  rewrite shr_fexp_105 by (done || lia). cbn [shr_m loc_of_shr_record round_nearest_even].
  rewrite shr_fexp_53 by (done || lia). cbn [shr_m].
  unfold emax, prec. destruct (Z.leb_spec (e - 53) (1024 - 53)); [|lia].
  split; [done|]. apply flt_key; [done..|].
  replace (fkey fone) with (1, -52, 4503599627370496) by by vm_compute. simpl. lia.
Qed.

(** ** Named streams *)

(** No byte of a valid UTF-8 string is [0xff], the separator [Derive] writes before each key. *)
Definition no_sep (k : list Z) : Prop := 0xff ∉ k.

Lemma le_bytes_inj a b : in_u64 a → in_u64 b → le_bytes a = le_bytes b → a = b.
Proof.
  intros Ha Hb Heq. apply u64_testbit in Ha as [_ Ha]. apply u64_testbit in Hb as [_ Hb].
  apply Z.bits_inj'. intros j Hj.
  destruct (Z.lt_ge_cases j 64) as [Hlt|Hge]; [|by rewrite Ha, Hb].
  set (i := Z.to_nat (j / 8)).
  assert (j / 8 < 8) by (apply Z.div_lt_upper_bound; lia).
  assert (0 ≤ j / 8) by (apply Z.div_pos; lia).
  pose proof (Z.div_mod j 8 ltac:(lia)). pose proof (Z.mod_pos_bound j 8 ltac:(lia)).
  assert (∀ v, le_bytes v !! i = Some (Z.shiftr v (8 * Z.of_nat i) mod 256)) as Hl.
  { intros v. unfold le_bytes. rewrite list_lookup_fmap, lookup_seq_lt by lia. done. }
  assert (∀ v, Z.testbit v j = Z.testbit (Z.shiftr v (8 * Z.of_nat i) mod 2 ^ 8) (j mod 8)) as Hbit.
  { intros v. rewrite Z.mod_pow2_bits_low, Z.shiftr_spec by lia. f_equal. lia. }
  pose proof (Hl a) as Hla. rewrite Heq, Hl in Hla. injection Hla as Hla.
  rewrite !Hbit. change (2 ^ 8) with 256. by rewrite Hla.
Qed.

Lemma keys_bytes_inj (ks1 ks2 : list (list Z)) :
  Forall no_sep ks1 → Forall no_sep ks2 →
  concat ((λ k, 0xff :: k) <$> ks1) = concat ((λ k, 0xff :: k) <$> ks2) → ks1 = ks2.
Proof.
  intros H1. revert ks2. induction H1 as [|k1 ks1 Hk1 H1 IH]; intros ks2 H2 Heq.
  { by destruct H2. }
  destruct H2 as [|k2 ks2 Hk2 H2]; [done|]. rewrite !fmap_cons in Heq.
  cbn [concat app] in Heq. injection Heq as Heq.
  assert (k1 = k2 ∧ concat ((λ k, 0xff :: k) <$> ks1) = concat ((λ k, 0xff :: k) <$> ks2))
    as [-> Htl]; [|f_equal; by apply IH].
  assert (∀ ks : list (list Z), concat ((λ k, 0xff :: k) <$> ks) = [] ∨
            ∃ r, concat ((λ k, 0xff :: k) <$> ks) = 0xff :: r) as Hsep
    by (intros [|??]; simpl; eauto).
  revert Heq. generalize (Hsep ks1) (Hsep ks2).
  generalize (concat ((λ k, 0xff :: k) <$> ks1)) (concat ((λ k, 0xff :: k) <$> ks2)).
  clear -Hk1 Hk2. unfold no_sep in *. revert k2 Hk2.
  induction k1 as [|b k1 IH]; intros [|c k2] Hk2 t1 t2 Ht1 Ht2 Heq; simpl in *.
  - by split.
  - destruct Ht1 as [->|[r ->]]; [done|]. set_solver.
  - destruct Ht2 as [->|[r ->]]; [done|]. set_solver.
  - injection Heq as -> Heq. destruct (IH ltac:(set_solver) k2 ltac:(set_solver) t1 t2); naive_solver.
Qed.

Lemma fnv_Write_app h a b : fnv_Write h (a ++ b) = fnv_Write (fnv_Write h a) b.
Proof. apply foldl_app. Qed.

Lemma Derive_bytes seed keys : Derive seed keys = New (fnv_Write fnv_offset (derive_bytes seed keys)).
Proof.
  unfold Derive, derive_bytes. rewrite fnv_Write_app. f_equal.
  generalize (fnv_Write fnv_offset (le_bytes seed)).
  induction keys as [|k ks IH]; intros h; [done|].
  cbn [foldl fmap list_fmap concat]. rewrite IH.
  change ((255 :: k) ++ ?l) with ([255] ++ (k ++ l)). by rewrite !fnv_Write_app.
Qed.

(** [Derive] separates its keys: the state is the FNV-1a hash of a byte stream from which
    the seed and the whole key sequence can be read back (for keys without the byte [0xff],
    hence for all UTF-8 strings), so different keys never feed the hash the same input. *)
Theorem Derive_separates_keys s1 s2 ks1 ks2 :
  in_u64 s1 → in_u64 s2 → Forall no_sep ks1 → Forall no_sep ks2 → (s1, ks1) ≠ (s2, ks2) →
  ∃ b1 b2, b1 ≠ b2 ∧ Derive s1 ks1 = New (fnv_Write fnv_offset b1) ∧
           Derive s2 ks2 = New (fnv_Write fnv_offset b2).
Proof.
  intros Hs1 Hs2 Hk1 Hk2 Hne. exists (derive_bytes s1 ks1), (derive_bytes s2 ks2).
  split; [|by rewrite !Derive_bytes]. intros Heq. apply Hne.
  apply app_inj_1 in Heq as [Hs Hk]; [|done].
  f_equal; [by apply le_bytes_inj|by apply keys_bytes_inj].
Qed.

Lemma Derive_separates_keys_witness :
  ∃ b1 b2, b1 ≠ b2 ∧ Derive 1 [[97; 98]] = New (fnv_Write fnv_offset b1) ∧
           Derive 1 [[97]; [98]] = New (fnv_Write fnv_offset b2).
Proof.
  apply Derive_separates_keys; [by vm_compute..| | |done];
    repeat constructor; unfold no_sep; set_solver.
Defined.
