(* ===== verification/SparseSet.v ===== *)
(** * Sparse sets

    [EntityManager] and [Column] keep the same index: a dense slice of members and a sparse
    slice that maps an entity index to its dense position plus one, zero meaning absent.
    This file holds the theory of that index, shared by both components. *)

From S2P Require Import Prelude.
Local Open Scope Z_scope.

Section sparse_set.
Context {E : Type} (key : E → nat).
Implicit Types (sparse : list Z) (dense : list E).

(** The sparse slice is the exact inverse of the dense one. *)
Definition ss_ok (sparse : list Z) (dense : list E) : Prop :=
  (∀ pos e, dense !! pos = Some e → sparse !! key e = Some (Z.of_nat pos + 1)) ∧
  (∀ i s, sparse !! i = Some s → s ≠ 0 →
     ∃ pos e, dense !! pos = Some e ∧ key e = i ∧ s = Z.of_nat pos + 1).

(** Deleting position [pos] by moving the last member [m] into its place. *)
Definition swap_remove (dense : list E) (pos : nat) (m : E) : list E :=
  take (length dense - 1) (<[pos := m]> dense).

(** The index rebuilt from a dense slice: [for pos, e := range dense { sparse[key e] = pos+1 }]. *)
Definition ss_build (ekey : E → Z) (sparse : list Z) (dense : list E) : outcome (list Z) :=
  ofold (λ sp pe, assign sp (ekey pe.2) (i32 (Z.of_nat pe.1 + 1))) sparse (imap pair dense).

Lemma ss_nil n : ss_ok (replicate n 0) [].
Proof. split; [done|]. intros i s [-> _]%lookup_replicate. done. Qed.

Lemma ss_lookup_key sparse dense pos e :
  ss_ok sparse dense → dense !! pos = Some e → sparse !! key e = Some (Z.of_nat pos + 1).
Proof. intros [H _]. apply H. Qed.

Lemma ss_inj sparse dense i j e e' :
  ss_ok sparse dense → dense !! i = Some e → dense !! j = Some e' → key e = key e' → i = j.
Proof.
  intros Hok Hi Hj Hk. pose proof (ss_lookup_key _ _ _ _ Hok Hi) as H1.
  rewrite Hk, (ss_lookup_key _ _ _ _ Hok Hj) in H1. injection H1. lia.
Qed.

Lemma ss_NoDup sparse dense : ss_ok sparse dense → NoDup (key <$> dense).
Proof.
  intros Hok. apply NoDup_alt. intros i j k.
  rewrite !list_lookup_fmap, !fmap_Some. intros (e & Hi & ->) (e' & Hj & Hk).
  by eapply ss_inj.
Qed.

Lemma ss_absent sparse dense i e :
  ss_ok sparse dense → sparse !! i = Some 0 → e ∈ dense → key e ≠ i.
Proof.
  intros Hok Hi [pos He]%list_elem_of_lookup <-.
  rewrite (ss_lookup_key _ _ _ _ Hok He) in Hi. injection Hi. lia.
Qed.

Lemma ss_present sparse dense i s :
  ss_ok sparse dense → sparse !! i = Some s → s ≠ 0 →
  ∃ e, dense !! Z.to_nat (s - 1) = Some e ∧ key e = i ∧ 1 ≤ s ≤ len dense.
Proof.
  intros [_ H] Hi Hs. destruct (H i s Hi Hs) as (pos & e & Hp & Hk & ->).
  exists e. replace (Z.to_nat (Z.of_nat pos + 1 - 1)) with pos by lia.
  split; [done|]. split; [done|]. apply lookup_lt_Some in Hp. unfold len. lia.
Qed.

Lemma ss_key_lt sparse dense e : ss_ok sparse dense → e ∈ dense → (key e < length sparse)%nat.
Proof.
  intros Hok [pos He]%list_elem_of_lookup. eapply lookup_lt_Some, ss_lookup_key; eauto.
Qed.

Lemma ss_grow sparse dense n : ss_ok sparse dense → ss_ok (sparse ++ replicate n 0) dense.
Proof.
  intros [H1 H2]. split.
  - intros pos e He. by apply lookup_app_l_Some, H1.
  - intros i s [Hs|[_ [-> _]%lookup_replicate]]%lookup_app_Some Hne; [by apply H2|done].
Qed.

Lemma ss_add sparse dense e :
  ss_ok sparse dense → sparse !! key e = Some 0 →
  ss_ok (<[key e := len dense + 1]> sparse) (dense ++ [e]).
Proof.
  intros Hok Hfree. split.
  - intros pos e' [He|[Hle He]]%lookup_app_Some.
    + rewrite list_lookup_insert_ne; [by eapply ss_lookup_key|].
      intros Heq. by eapply ss_absent; [..|symmetry]; eauto using list_elem_of_lookup_2.
    + apply list_lookup_singleton_Some in He as [Hp ->].
      rewrite list_lookup_insert_eq by by eapply lookup_lt_Some.
      f_equal. unfold len. lia.
  - intros i s Hs Hne. destruct (decide (i = key e)) as [->|Hi].
    + rewrite list_lookup_insert_eq in Hs by by eapply lookup_lt_Some.
      injection Hs as <-. exists (length dense), e. split; [|done].
      rewrite lookup_app_r, Nat.sub_diag by lia. done.
    + rewrite list_lookup_insert_ne in Hs by done.
      destruct Hok as [_ H2]. destruct (H2 i s Hs Hne) as (pos & e' & Hp & Hk & ->).
      exists pos, e'. split; [by apply lookup_app_l_Some|done].
Qed.

Lemma swap_remove_lookup dense pos m p :
  (pos < length dense)%nat →
  swap_remove dense pos m !! p =
  if decide (p < length dense - 1)%nat then (if decide (p = pos) then Some m else dense !! p)
  else None.
Proof.
  intros Hpos. unfold swap_remove. case_decide as Hp.
  - rewrite lookup_take_lt by done. case_decide as Hpp.
    + subst. by apply list_lookup_insert_eq.
    + by apply list_lookup_insert_ne.
  - by apply lookup_take_ge; lia.
Qed.

Lemma ss_remove sparse dense pos e m :
  ss_ok sparse dense → dense !! pos = Some e → dense !! (length dense - 1)%nat = Some m →
  ss_ok (<[key e := 0]> (<[key m := Z.of_nat pos + 1]> sparse)) (swap_remove dense pos m).
Proof.
  intros Hok He Hm.
  pose proof (lookup_lt_Some _ _ _ He) as Hpos.
  assert (∀ p x, dense !! p = Some x → p ≠ pos → key x ≠ key e) as Hne
    by (intros p x Hx Hp Hk; apply Hp; by eapply ss_inj).
  assert (∀ p x, dense !! p = Some x → p ≠ (length dense - 1)%nat → key x ≠ key m) as Hnm
    by (intros p x Hx Hp Hk; apply Hp; by eapply ss_inj).
  assert (∀ p x, dense !! p = Some x → (key x < length sparse)%nat) as Hlt
    by (intros p x Hx; eapply lookup_lt_Some, ss_lookup_key; eauto).
  split.
  - intros p x. rewrite swap_remove_lookup by done. case_decide as Hp; [|done].
    case_decide as Hpp; intros Hx.
    + subst p. injection Hx as ->.
      rewrite list_lookup_insert_ne by (symmetry; eapply Hne; [exact Hm|lia]).
      by rewrite list_lookup_insert_eq by by eapply Hlt.
    + rewrite list_lookup_insert_ne by (symmetry; by eapply Hne).
      rewrite list_lookup_insert_ne by (symmetry; eapply Hnm; [exact Hx|lia]).
      by eapply ss_lookup_key.
  - intros i s Hs Hs0.
    destruct (decide (i = key e)) as [->|Hie].
    { rewrite list_lookup_insert_eq in Hs by (rewrite length_insert; by eapply Hlt). congruence. }
    rewrite list_lookup_insert_ne in Hs by done.
    destruct (decide (i = key m)) as [->|Him].
    + rewrite list_lookup_insert_eq in Hs by by eapply Hlt. injection Hs as <-.
      exists pos, m. rewrite swap_remove_lookup by done.
      destruct (decide (pos = length dense - 1)%nat) as [->|]; [congruence|].
      rewrite decide_True, decide_True by lia. done.
    + rewrite list_lookup_insert_ne in Hs by done.
      destruct Hok as [_ H2]. destruct (H2 i s Hs Hs0) as (p & x & Hx & Hk & ->).
      exists p, x. rewrite swap_remove_lookup by done.
      pose proof (lookup_lt_Some _ _ _ Hx).
      assert (p ≠ length dense - 1)%nat by congruence.
      assert (p ≠ pos)%nat by congruence.
      rewrite decide_True, decide_False by lia. done.
Qed.

Lemma swap_remove_perm dense pos e m :
  dense !! pos = Some e → dense !! (length dense - 1)%nat = Some m →
  dense ≡ₚ e :: swap_remove dense pos m.
Proof.
  intros He Hm. pose proof (lookup_lt_Some _ _ _ He) as Hpos.
  assert (dense = take (length dense - 1) dense ++ [m]) as Hd.
  { rewrite <- (take_drop (length dense - 1) dense) at 1. f_equal.
    rewrite (drop_S _ m) by done. by rewrite drop_ge by lia. }
  unfold swap_remove. destruct (decide (pos = length dense - 1)%nat) as [Hl|Hl].
  - assert (e = m) as -> by congruence. rewrite list_insert_id by congruence.
    rewrite Hd at 1. rewrite Permutation_app_comm. done.
  - rewrite take_insert_lt by lia. set (d := take _ _) in *.
    assert (d !! pos = Some e) as Hdp by (unfold d; rewrite lookup_take_lt by lia; done).
    rewrite Hd at 1.
    rewrite <- (take_drop_middle d pos e Hdp) at 1.
    rewrite insert_take_drop by by eapply lookup_lt_Some.
    rewrite <- app_assoc. simpl. rewrite <- Permutation_middle. f_equiv.
    rewrite (app_assoc _ _ [m]), Permutation_app_comm. simpl.
    by rewrite Permutation_middle.
Qed.

Lemma swap_remove_length dense pos m : length (swap_remove dense pos m) = (length dense - 1)%nat.
Proof. unfold swap_remove. rewrite length_take, length_insert. lia. Qed.

(** A dense slice has one index of a given length. *)
Lemma ss_unique sparse1 sparse2 dense :
  ss_ok sparse1 dense → ss_ok sparse2 dense → length sparse1 = length sparse2 →
  sparse1 = sparse2.
Proof.
  intros H1 H2 Hlen. apply list_eq. intros i.
  destruct (sparse1 !! i) as [s1|] eqn:E1; destruct (sparse2 !! i) as [s2|] eqn:E2; try done.
  - f_equal. destruct (decide (s1 = 0)) as [->|Hs1], (decide (s2 = 0)) as [->|Hs2]; try done.
    + destruct H2 as [_ H2]. destruct (H2 i s2 E2 Hs2) as (pos & e & Hp & <- & ->).
      rewrite (ss_lookup_key _ _ _ _ H1 Hp) in E1. injection E1. lia.
    + destruct H1 as [_ H1]. destruct (H1 i s1 E1 Hs1) as (pos & e & Hp & <- & ->).
      rewrite (ss_lookup_key _ _ _ _ H2 Hp) in E2. injection E2. lia.
    + destruct H1 as [_ H1]. destruct (H1 i s1 E1 Hs1) as (pos & e & Hp & <- & ->).
      rewrite (ss_lookup_key _ _ _ _ H2 Hp) in E2. by injection E2.
  - apply lookup_lt_Some in E1. apply lookup_ge_None in E2. lia.
  - apply lookup_lt_Some in E2. apply lookup_ge_None in E1. lia.
Qed.

(** Rebuilding the index from members with distinct keys succeeds. *)
Lemma ss_build_ok (ekey : E → Z) n dense :
  (∀ e, e ∈ dense → 0 ≤ ekey e < Z.of_nat n ∧ key e = Z.to_nat (ekey e)) →
  NoDup (key <$> dense) → len dense < 2 ^ 31 →
  ∃ sparse, ss_build ekey (replicate n 0) dense = Done sparse ∧ ss_ok sparse dense ∧
            length sparse = n.
Proof.
  unfold ss_build. induction dense as [|e dense IH] using rev_ind; intros Hk Hnd Hlen.
  - exists (replicate n 0). split; [done|]. split; [apply ss_nil|apply length_replicate].
  - rewrite fmap_app in Hnd. apply NoDup_app in Hnd as (Hnd & Hnotin & _).
    destruct IH as (sp & Hb & Hok & Hl).
    { intros x Hx. apply Hk. set_solver. }
    { done. }
    { rewrite len_app in Hlen. unfold len in *. simpl in *. lia. }
    destruct (Hk e) as [Hr Hke]; [set_solver|].
    assert (sp !! key e = Some 0) as Hfree.
    { destruct (lookup_lt_is_Some_2 sp (key e)) as [s Hs]; [lia|]. rewrite Hs. f_equal.
      destruct (decide (s = 0)) as [|Hs0]; [done|].
      destruct (ss_present _ _ _ _ Hok Hs Hs0) as (x & Hx & Hkx & _).
      exfalso. apply (Hnotin (key e)); [|set_solver].
      rewrite <- Hkx. apply list_elem_of_fmap_2. by eapply list_elem_of_lookup_2. }
    rewrite imap_app, ofold_app, Hb. cbn [obind imap ofold fst snd].
    rewrite assign_in_range by (unfold len; lia). cbn [obind].
    eexists. split; [done|]. rewrite length_insert. split; [|done].
    rewrite <- Hke, i32_id.
    + replace (Z.of_nat ((length dense + 0)%nat) + 1) with (len dense + 1) by (unfold len; lia).
      by apply ss_add.
    + rewrite len_app in Hlen. unfold len in *. simpl in *. lia.
Qed.

End sparse_set.
