(* ===== verification/Entity.v ===== *)
(** * Entities: [pkg/simulation/entity.go]

    [EntityManager] allocates generational entity identifiers over a sparse set.  The
    operations return the manager, the world revision after the [bump] callback, and the
    Go result; an index out of range is a panic. *)

From S2P Require Import Prelude SparseSet.
Local Open Scope Z_scope.

(** ** Definitions *)

(** [EntityID] is a [uint64]: index in the high half, generation in the low half. *)
Abbreviation EntityID := Z (only parsing).

(* pkg/simulation/entity.go:15-16 EntityID.Index *)
Definition Index (e : EntityID) : Z := u32 (Z.shiftr e 32).

(* pkg/simulation/entity.go:18-19 EntityID.Version *)
Definition Version (e : EntityID) : Z := u32 e.

(** [EntityID(uint64(index)<<32 | uint64(version))], the construction inside [Create]. *)
Definition mkEntityID (index version : Z) : EntityID :=
  Z.lor (u64 (Z.shiftl index 32)) version.

(** The structural-revision callback ([World.bump]). *)
(* pkg/simulation/world.go:49-49 World.bump *)
Definition bump (rev : Z) : Z := u64 (rev + 1).

(* pkg/simulation/entity.go:45-62 EntityManager *)
Record EntityManager := mkEM {
  em_versions : list Z;
  em_sparse : list Z;
  em_dense : list EntityID;
  em_free : list Z;
  em_next : Z;
  em_count : Z;
}.

(* pkg/simulation/entity.go:64-70 NewEntityManager *)
Definition NewEntityManager : EntityManager := mkEM [0] [0] [] [] 0 0.

(** Index selection of [Create]: pop the free list, or take [next] and append zeros to
    [versions] and [sparse] until the index is in range. *)
Definition alloc_index (m : EntityManager) : Z * EntityManager :=
  match last (em_free m) with
  | Some index =>
      (index, mkEM (em_versions m) (em_sparse m) (em_dense m)
                   (take (length (em_free m) - 1) (em_free m)) (em_next m) (em_count m))
  | None =>
      let index := em_next m in
      let grow := replicate (Z.to_nat (index + 1 - len (em_versions m))) 0 in
      (index, mkEM (em_versions m ++ grow) (em_sparse m ++ grow) (em_dense m)
                   (em_free m) (u32 (em_next m + 1)) (em_count m))
  end.

(* pkg/simulation/entity.go:72-101 EntityManager.Create *)
Definition EntityManager__Create (m : EntityManager) (rev : Z)
  : outcome (EntityManager * Z * EntityID) :=
  let '(idx, m1) := alloc_index m in
  let! v := index (em_versions m1) idx in
  let! versions := assign (em_versions m1) idx (u32 (v + 1)) in
  let! version := index versions idx in
  let id := mkEntityID idx version in
  let pos := len (em_dense m1) in
  let! sparse := assign (em_sparse m1) idx (i32 (pos + 1)) in
  Done (mkEM versions sparse (em_dense m1 ++ [id]) (em_free m1) (em_next m1) (em_count m1 + 1),
        bump rev, id).

(* pkg/simulation/entity.go:110-116 EntityManager.aliveLocked *)
Definition aliveLocked (m : EntityManager) (id : EntityID) : outcome bool :=
  let idx := Index id in
  if len (em_versions m) <=? idx then Done false
  else
    let! v := index (em_versions m) idx in
    if v =? Version id then
      let! s := index (em_sparse m) idx in Done (negb (s =? 0))
    else Done false.

(* pkg/simulation/entity.go:103-108 EntityManager.Alive *)
Definition EntityManager__Alive (m : EntityManager) (id : EntityID) : outcome bool :=
  aliveLocked m id.

(* pkg/simulation/entity.go:118-143 EntityManager.Destroy *)
Definition EntityManager__Destroy (m : EntityManager) (rev : Z) (id : EntityID)
  : outcome (EntityManager * Z * bool) :=
  let! alive := aliveLocked m id in
  if negb alive then Done (m, rev, false)
  else
    let idx := Index id in
    let! s := index (em_sparse m) idx in
    let pos := s - 1 in
    let lst := len (em_dense m) - 1 in
    let! (dense, sparse) :=
      (if pos =? lst then Done (em_dense m, em_sparse m)
       else
         let! moved := index (em_dense m) lst in
         let! dense := assign (em_dense m) pos moved in
         let! sparse := assign (em_sparse m) (Index moved) (i32 (pos + 1)) in
         Done (dense, sparse)) in
    let! sparse := assign sparse idx 0 in
    Done (mkEM (em_versions m) sparse (take (Z.to_nat lst) dense) (em_free m ++ [idx])
               (em_next m) (em_count m - 1),
          bump rev, true).

(* pkg/simulation/entity.go:145-155 EntityManager.Each *)
Definition EntityManager__Each {S} (m : EntityManager) (fn : S → EntityID → S) (s : S) : S :=
  foldl fn s (em_dense m).

(* pkg/simulation/entity.go:157-164 EntityManager.IDs *)
Definition EntityManager__IDs (m : EntityManager) : list EntityID := em_dense m.

(* pkg/simulation/entity.go:166-174 entityManagerState *)
Record entityManagerState := mkEMS {
  ems_Dense : list EntityID;
  ems_Next : Z;
  ems_Free : list Z;
  ems_Versions : list Z;
}.

(* pkg/simulation/entity.go:176-185 EntityManager.snapshot *)
Definition EntityManager__snapshot (m : EntityManager) : entityManagerState :=
  mkEMS (em_dense m) (em_next m) (em_free m) (em_versions m).

(* pkg/simulation/entity.go:187-199 EntityManager.restore *)
Definition EntityManager__restore (s : entityManagerState) : outcome EntityManager :=
  let sparse := replicate (length (ems_Versions s)) 0 in
  let! sparse := ss_build Index sparse (ems_Dense s) in
  Done (mkEM (ems_Versions s) sparse (ems_Dense s) (ems_Free s) (ems_Next s)
             (len (ems_Dense s))).

(* pkg/simulation/entity.go:201-206 EntityManager.Len *)
Definition EntityManager__Len (m : EntityManager) : Z := em_count m.

(** ** Invariant *)

(** Position of an entity's index in [versions] and [sparse]. *)
Definition eidx (e : EntityID) : nat := Z.to_nat (Index e).

Record em_inv (m : EntityManager) : Prop := {
  inv_ss : ss_ok eidx (em_sparse m) (em_dense m);
  inv_len : length (em_sparse m) = length (em_versions m);
  inv_next : 0 ≤ em_next m ≤ len (em_versions m);
  inv_next32 : em_next m < 2 ^ 32;
  inv_count : em_count m = len (em_dense m);
  inv_versions : ∀ i v, em_versions m !! i = Some v → in_u32 v;
  inv_live : ∀ e, e ∈ em_dense m →
    in_u64 e ∧ Index e < em_next m ∧ em_versions m !! eidx e = Some (Version e);
  inv_zero : ∀ i v, em_versions m !! i = Some v → em_next m ≤ Z.of_nat i → v = 0;
  inv_free_nodup : NoDup (em_free m);
  inv_free : ∀ i, i ∈ em_free m → 0 ≤ i < em_next m ∧ em_sparse m !! Z.to_nat i = Some 0;
  inv_used : ∀ i, 0 ≤ i < em_next m → em_sparse m !! Z.to_nat i = Some 0 → i ∈ em_free m;
}.

(** [id] has been returned by some [Create]. *)
Definition issued (m : EntityManager) (id : EntityID) : Prop :=
  in_u64 id ∧ Index id < em_next m ∧
  ∃ v, em_versions m !! eidx id = Some v ∧ 1 ≤ Version id ≤ v.

(** No 32-bit quantity of the manager is about to overflow. *)
Definition has_room (m : EntityManager) : Prop :=
  em_next m < 2 ^ 32 - 1 ∧ len (em_dense m) < 2 ^ 31 - 1 ∧
  ∀ i v, em_versions m !! i = Some v → v < 2 ^ 32 - 1.

(** ** Identifier arithmetic *)

Lemma mkEntityID_sum i v : in_u32 i → in_u32 v → mkEntityID i v = i * 2 ^ 32 + v.
Proof.
  intros Hi Hv. unfold mkEntityID.
  rewrite u64_id by (rewrite Z.shiftl_mul_pow2 by lia; unfold_words; lia).
  rewrite <- Z.shiftl_mul_pow2 by lia. rewrite <- Z.add_lor_land.
  assert (Z.land (Z.shiftl i 32) v = 0) as ->; [|lia].
  apply Z.bits_inj'. intros j Hj. rewrite Z.land_spec, Z.bits_0.
  destruct (Z.lt_ge_cases j 32) as [Hlt|Hge].
  - by rewrite Z.shiftl_spec_low by lia.
  - rewrite <- (Z.mod_small v (2 ^ 32)) by done.
    rewrite Z.mod_pow2_bits_high by lia. apply andb_false_r.
Qed.

Lemma in_u64_split e : in_u64 e → e = Index e * 2 ^ 32 + Version e.
Proof.
  intros [H0 H1]. unfold Index, Version. rewrite Z.shiftr_div_pow2 by lia.
  rewrite u32_id.
  - unfold u32. pose proof (Z.div_mod e (2 ^ 32)). lia.
  - split; [apply Z.div_pos; lia|]. apply Z.div_lt_upper_bound; lia.
Qed.

Lemma Index_range e : in_u32 (Index e).
Proof. apply u32_range. Qed.

Lemma Version_range e : in_u32 (Version e).
Proof. apply u32_range. Qed.

Lemma EntityID_eq a b : in_u64 a → in_u64 b → Index a = Index b → Version a = Version b → a = b.
Proof. intros Ha Hb Hi Hv. rewrite (in_u64_split a), (in_u64_split b) by done. congruence. Qed.

Lemma mkEntityID_spec i v :
  in_u32 i → in_u32 v →
  in_u64 (mkEntityID i v) ∧ Index (mkEntityID i v) = i ∧ Version (mkEntityID i v) = v.
Proof.
  intros Hi Hv. rewrite mkEntityID_sum by done. unfold in_u32 in *.
  split; [unfold in_u64; lia|]. unfold Index, Version.
  rewrite Z.shiftr_div_pow2, Z.div_add_l, Z.div_small by lia.
  split; [rewrite u32_id; unfold in_u32; lia|].
  unfold u32. rewrite Z.add_comm, Z.mod_add, Z.mod_small by lia. done.
Qed.

#[local] Hint Resolve Index_range Version_range : sim.

Lemma eidx_Z e : Z.of_nat (eidx e) = Index e.
Proof. unfold eidx. pose proof (Index_range e) as []. lia. Qed.

Lemma eidx_inj a b : eidx a = eidx b → Index a = Index b.
Proof. rewrite <- !eidx_Z. congruence. Qed.

(** ** Liveness is membership of the dense slice *)

Lemma aliveLocked_spec m id :
  em_inv m → in_u64 id → aliveLocked m id = Done (bool_decide (id ∈ em_dense m)).
Proof.
  intros Hinv Hid. unfold aliveLocked. pose proof (Index_range id) as [Hi0 Hi1].
  destruct (Z.leb_spec (len (em_versions m)) (Index id)) as [Hge|Hlt].
  { rewrite bool_decide_false; [done|]. intros Hin.
    apply (ss_key_lt eidx _ _ _ (inv_ss _ Hinv)) in Hin.
    rewrite (inv_len _ Hinv) in Hin. unfold len, eidx in *. lia. }
  destruct (index_in_range (em_versions m) (Index id)) as [v Hv]; [lia|].
  destruct (index_in_range (em_sparse m) (Index id)) as [s Hs];
    [unfold len in *; rewrite (inv_len _ Hinv); lia|].
  rewrite Hv, Hs. simpl obind. apply index_Done in Hv as [_ Hv]. apply index_Done in Hs as [_ Hs].
  destruct (Z.eqb_spec v (Version id)) as [->|Hne].
  - destruct (Z.eqb_spec s 0) as [->|Hs0]; simpl negb.
    + rewrite bool_decide_false; [done|]. intros Hin.
      by apply (ss_absent eidx _ _ _ _ (inv_ss _ Hinv) Hs) in Hin.
    + rewrite bool_decide_true; [done|].
      destruct (ss_present eidx _ _ _ _ (inv_ss _ Hinv) Hs Hs0) as (e & He & Hk & _).
      assert (e ∈ em_dense m) as Hin by by eapply list_elem_of_lookup_2.
      destruct (inv_live _ Hinv e Hin) as (He64 & _ & Hve).
      replace id with e; [done|].
      apply EntityID_eq; [done..|by apply eidx_inj|].
      rewrite Hk in Hve. unfold eidx in Hve. congruence.
  - rewrite bool_decide_false; [done|]. intros Hin. apply Hne.
    destruct (inv_live _ Hinv id Hin) as (_ & _ & Hve). unfold eidx in Hve. congruence.
Qed.

(** ** Allocation *)

Ltac em_simpl := cbn [em_versions em_sparse em_dense em_free em_next em_count] in *.

(** Growing the version table with zeros and taking the next index issues nothing. *)
Lemma issued_grow m vs sp d f c id :
  em_inv m → (∀ i v, vs !! i = Some v → v = 0 ∨ em_versions m !! i = Some v) →
  (∀ i v, em_versions m !! i = Some v → vs !! i = Some v) →
  issued (mkEM vs sp d f (em_next m + 1) c) id ↔ issued m id.
Proof.
  intros Hinv Hv Hv'. unfold issued. em_simpl. split.
  - intros (Hid & Hlt & v & [->|Hvi]%Hv & Hv1); [lia|]. split; [done|]. split; [|by eauto].
    destruct (Z.lt_ge_cases (Index id) (em_next m)) as [|Hge]; [done|].
    assert (v = 0) by (eapply (inv_zero _ Hinv); [done|rewrite eidx_Z; done]). lia.
  - intros (Hid & Hlt & v & Hvi & Hv1). split; [done|]. split; [lia|]. exists v. split; [by apply Hv'|done].
Qed.

(** [alloc_index] leaves the manager as if the chosen index were on top of the free list. *)
Lemma alloc_index_spec m idx m1 :
  em_inv m → em_next m < 2 ^ 32 - 1 → alloc_index m = (idx, m1) →
  let m0 := mkEM (em_versions m1) (em_sparse m1) (em_dense m1) (em_free m1 ++ [idx])
                 (em_next m1) (em_count m1) in
  em_inv m0 ∧ em_dense m0 = em_dense m ∧ (∀ id, issued m0 id ↔ issued m id) ∧
  em_next m0 ≤ em_next m + 1 ∧
  (∀ i v, em_versions m0 !! i = Some v → v = 0 ∨ em_versions m !! i = Some v).
Proof.
  intros Hinv Hnext. unfold alloc_index. destruct (last (em_free m)) as [i|] eqn:Hlast.
  - intros [= -> <-]. em_simpl.
    assert (em_free m = take (length (em_free m) - 1) (em_free m) ++ [idx]) as <-.
    { apply last_Some in Hlast as [l' ->]. rewrite length_app. simpl.
      replace (length l' + 1 - 1)%nat with (length l') by lia. by rewrite take_app_length. }
    destruct m; simpl in *. split; [done|]. split; [done|]. split; [done|]. split; [lia|]. auto.
  - apply last_None in Hlast. intros [= <- <-]. em_simpl. rewrite Hlast.
    set (g := replicate _ _).
    assert (length (em_sparse m ++ g) = length (em_versions m ++ g)) as Hl
      by (rewrite !length_app, (inv_len _ Hinv); done).
    pose proof (inv_next _ Hinv) as [Hn0 Hn1].
    assert (u32 (em_next m + 1) = em_next m + 1) as Hn by (apply u32_id; unfold in_u32; lia).
    assert (em_next m + 1 ≤ len (em_versions m ++ g)) as Hlen.
    { rewrite len_app. unfold g, len. rewrite length_replicate. unfold len in Hn1. lia. }
    assert (∀ i v, (em_versions m ++ g) !! i = Some v → v = 0 ∨ em_versions m !! i = Some v) as Hv.
    { intros i v [Hv|[_ [-> _]%lookup_replicate]]%lookup_app_Some; auto. }
    assert (∀ i, em_next m ≤ Z.of_nat i → (i < length (em_sparse m ++ g))%nat →
              (em_sparse m ++ g) !! i = Some 0) as Hfresh.
    { intros i Hi Hlt. destruct (lookup_lt_is_Some_2 _ _ Hlt) as [s Hs]. rewrite Hs. f_equal.
      destruct (decide (s = 0)) as [|Hs0]; [done|].
      destruct (ss_present eidx _ _ _ _ (ss_grow _ _ _ _ (inv_ss _ Hinv)) Hs Hs0) as (e & He & Hk & _).
      destruct (inv_live _ Hinv e) as (_ & He' & _); [by eapply list_elem_of_lookup_2|].
      rewrite <- Hk, eidx_Z in Hi. lia. }
    rewrite Hn. split; [|split; [done|split; [|split; [lia|done]]]].
    + constructor; em_simpl.
      * apply ss_grow, Hinv.
      * done.
      * lia.
      * lia.
      * apply Hinv.
      * intros i v [->|Hi]%Hv; [by vm_compute|by eapply Hinv].
      * intros e He. destruct (inv_live _ Hinv e He) as (? & ? & Hve).
        split; [done|]. split; [lia|]. by apply lookup_app_l_Some.
      * intros i v [->|Hi]%Hv Hle; [done|]. eapply Hinv; [done|lia].
      * apply NoDup_singleton.
      * intros i ->%list_elem_of_singleton. split; [lia|].
        apply Hfresh; [lia|]. rewrite Hl. unfold len in Hlen. lia.
      * intros i Hi Hsi. apply list_elem_of_singleton.
        destruct (decide (i = em_next m)) as [|Hne]; [done|exfalso].
        assert (i ∈ em_free m) as Hin; [|by rewrite Hlast in Hin; apply not_elem_of_nil in Hin].
        apply (inv_used _ Hinv); [lia|].
        rewrite lookup_app_l in Hsi; [done|]. rewrite (inv_len _ Hinv). unfold len in Hn1. lia.
    + intros id. apply issued_grow; [done..|]. intros i v Hi. by apply lookup_app_l_Some.
Qed.

(** Turning the top of the free list into a live entity of the next generation. *)
Definition create_at (m : EntityManager) (f : list Z) (idx v : Z) : EntityManager :=
  mkEM (<[Z.to_nat idx := v + 1]> (em_versions m))
       (<[Z.to_nat idx := len (em_dense m) + 1]> (em_sparse m))
       (em_dense m ++ [mkEntityID idx (v + 1)]) f (em_next m) (em_count m + 1).

Section create_at.
Context (m : EntityManager) (f : list Z) (idx v : Z).
Hypotheses (Hinv : em_inv m) (Hfree : em_free m = f ++ [idx])
           (Hv : em_versions m !! Z.to_nat idx = Some v) (Hv1 : v < 2 ^ 32 - 1).

Lemma top_range : 0 ≤ idx < em_next m ∧ em_sparse m !! Z.to_nat idx = Some 0.
Proof using Hinv Hfree. apply (inv_free _ Hinv). rewrite Hfree. apply elem_of_app. right. apply list_elem_of_singleton. reflexivity. Qed.

Lemma create_at_id :
  in_u64 (mkEntityID idx (v + 1)) ∧ Index (mkEntityID idx (v + 1)) = idx ∧
  Version (mkEntityID idx (v + 1)) = v + 1 ∧ eidx (mkEntityID idx (v + 1)) = Z.to_nat idx.
Proof.
  destruct top_range as [Hr _]. pose proof (inv_next32 _ Hinv).
  pose proof (inv_versions _ Hinv _ _ Hv) as [??].
  destruct (mkEntityID_spec idx (v + 1)) as (? & Hi & ?); [unfold in_u32; lia..|].
  unfold eidx. rewrite Hi. auto.
Qed.

Lemma create_at_inv : em_inv (create_at m f idx v).
Proof.
  destruct top_range as [Hr Hs]. destruct create_at_id as (Hid & Hi & Hver & He).
  pose proof (inv_free_nodup _ Hinv) as Hnd. rewrite Hfree in Hnd.
  apply NoDup_app in Hnd as (Hnd & Hnf & _).
  pose proof (inv_versions _ Hinv _ _ Hv) as [Hv0 _].
  constructor; unfold create_at; em_simpl.
  - rewrite <- He. apply ss_add; [apply Hinv|by rewrite He].
  - rewrite !length_insert. apply Hinv.
  - rewrite len_insert. apply Hinv.
  - apply Hinv.
  - rewrite len_app, (inv_count _ Hinv). done.
  - intros i w [( <- & <- & _)|[_ Hw]]%list_lookup_insert_Some;
      [unfold in_u32; lia|by eapply Hinv].
  - intros e [He'| ->%list_elem_of_singleton]%elem_of_app.
    + destruct (inv_live _ Hinv e He') as (? & ? & Hve). split; [done|]. split; [done|].
      rewrite list_lookup_insert_ne; [done|]. intros Heq.
      by apply (ss_absent eidx _ _ _ _ (inv_ss _ Hinv) Hs) in He'.
    + rewrite Hi, He, Hver. split; [done|]. split; [lia|].
      apply list_lookup_insert_eq. by eapply lookup_lt_Some.
  - intros i w [( <- & _ & _)|[_ Hw]]%list_lookup_insert_Some Hle; [lia|by eapply Hinv].
  - done.
  - intros i Hin. destruct (inv_free _ Hinv i) as [? Hsi]; [rewrite Hfree; set_solver|].
    split; [done|]. rewrite list_lookup_insert_ne; [done|]. intros Heq.
    assert (i = idx) as -> by lia. apply (Hnf idx); set_solver.
  - intros i Hir Hsi. destruct (decide (i = idx)) as [->|Hne].
    + rewrite list_lookup_insert_eq in Hsi by by eapply lookup_lt_Some.
      injection Hsi. unfold len. lia.
    + rewrite list_lookup_insert_ne in Hsi by lia.
      assert (i ∈ f ++ [idx]) as Hin by (rewrite <- Hfree; by apply (inv_used _ Hinv)).
      set_solver.
Qed.

Lemma create_at_fresh : ¬ issued m (mkEntityID idx (v + 1)).
Proof.
  destruct create_at_id as (Hid & Hi & Hver & He). unfold issued. rewrite He, Hver.
  intros (_ & _ & w & Hw & ?). rewrite Hv in Hw. injection Hw. lia.
Qed.

Lemma create_at_issued id :
  issued (create_at m f idx v) id ↔ issued m id ∨ id = mkEntityID idx (v + 1).
Proof.
  destruct create_at_id as (Hid & Hi & Hver & He). destruct top_range as [Hr _].
  pose proof (inv_versions _ Hinv _ _ Hv) as [Hv0 _].
  unfold issued, create_at. em_simpl. split.
  - intros (H64 & Hlt & w & [(Heq & Hw & _)|[Hne Hw]]%list_lookup_insert_Some & Hle).
    + destruct (decide (Version id = v + 1)) as [Hvv|Hvv].
      * right. apply EntityID_eq; [done..|rewrite Hi|congruence].
        rewrite <- eidx_Z, <- Heq. lia.
      * left. split; [done|]. split; [done|]. exists v. rewrite <- Heq. split; [done|lia].
    + left. eauto.
  - intros [(H64 & Hlt & w & Hw & Hle)| ->].
    + split; [done|]. split; [done|]. destruct (decide (eidx id = Z.to_nat idx)) as [Heq|Hne].
      * exists (v + 1). rewrite Heq in *. rewrite list_lookup_insert_eq by by eapply lookup_lt_Some.
        split; [done|]. rewrite Hv in Hw. injection Hw as <-. lia.
      * exists w. by rewrite list_lookup_insert_ne by done.
    + split; [done|]. split; [lia|]. exists (v + 1). rewrite He, Hver.
      rewrite list_lookup_insert_eq by by eapply lookup_lt_Some. split; [done|lia].
Qed.
End create_at.

(** [Create] on every branch: it never panics while there is room, appends one fresh
    identifier and keeps the invariant. *)
Lemma Create_spec m rev :
  em_inv m → has_room m →
  ∃ m' id, EntityManager__Create m rev = Done (m', bump rev, id) ∧ em_inv m' ∧
    em_dense m' = em_dense m ++ [id] ∧ in_u64 id ∧ id ≠ 0 ∧ ¬ issued m id ∧
    (∀ id', issued m' id' ↔ issued m id' ∨ id' = id) ∧
    em_next m' ≤ em_next m + 1 ∧
    (∀ i v', em_versions m' !! i = Some v' → v' ≤ 1 ∨ ∃ v, em_versions m !! i = Some v ∧ v' ≤ v + 1).
Proof.
  intros Hinv (Hnext & Hdense & Hver). unfold EntityManager__Create.
  destruct (alloc_index m) as [idx m1] eqn:Ha.
  destruct (alloc_index_spec m idx m1 Hinv Hnext Ha) as (Hinv0 & Hd & Hiss & Hn & Hvs).
  set (m0 := mkEM _ _ _ _ _ _) in *.
  destruct (top_range m0 (em_free m1) idx Hinv0 eq_refl) as [Hr Hs].
  assert (idx < len (em_versions m1)) as Hlt by (pose proof (inv_next _ Hinv0); unfold m0 in *; em_simpl; lia).
  destruct (index_in_range (em_versions m1) idx) as [v Hv]; [lia|].
  rewrite Hv. cbn [obind]. apply index_Done in Hv as [_ Hv].
  assert (v < 2 ^ 32 - 1) as Hv1 by (destruct (Hvs _ _ Hv) as [->|H]; [lia|by eapply Hver]).
  pose proof (inv_versions _ Hinv0 _ _ Hv) as [Hv0 _].
  rewrite (u32_id (v + 1)) by (unfold in_u32; lia).
  rewrite assign_in_range by lia. cbn [obind].
  rewrite (proj2 (index_Done _ _ (v + 1))).
  2: { split; [lia|]. apply list_lookup_insert_eq. by eapply lookup_lt_Some. }
  cbn [obind]. change (em_dense m1) with (em_dense m0). rewrite i32_id.
  2: { rewrite Hd. unfold len in *. lia. }
  rewrite assign_in_range by (pose proof (inv_len _ Hinv0); unfold m0, len in *; em_simpl; lia).
  cbn [obind]. eexists _, _. split; [done|].
  destruct (create_at_id m0 (em_free m1) idx v) as (Hid & _ & Hidv & _); [done..|].
  split; [by apply (create_at_inv m0 (em_free m1) idx v)|]. split; [em_simpl; by rewrite Hd|].
  split; [done|]. split; [intros Hz; rewrite Hz in Hidv; unfold Version, u32 in Hidv; rewrite Z.mod_0_l in Hidv; lia|].
  split; [rewrite <- Hiss; by apply (create_at_fresh m0 (em_free m1))|].
  split; [intros id'; rewrite <- Hiss; by apply (create_at_issued m0 (em_free m1))|].
  split; [done|]. em_simpl.
  intros i v' [( <- & <- & _)|[_ Hw]]%list_lookup_insert_Some.
  - destruct (Hvs _ _ Hv) as [->|H]; [left; lia|right; eauto with lia].
  - destruct (Hvs _ _ Hw) as [->|H]; [left; lia|right; eauto with lia].
Qed.

(** ** Reclamation *)

(** Killing the entity at dense position [pos], with [moved] the last live entity. *)
Definition destroy_at (m : EntityManager) (id moved : EntityID) (pos : nat) : EntityManager :=
  mkEM (em_versions m)
       (<[eidx id := 0]> (<[eidx moved := Z.of_nat pos + 1]> (em_sparse m)))
       (swap_remove (em_dense m) pos moved) (em_free m ++ [Index id]) (em_next m) (em_count m - 1).

Lemma destroy_at_inv m id moved pos :
  em_inv m → em_dense m !! pos = Some id → em_dense m !! (length (em_dense m) - 1)%nat = Some moved →
  em_inv (destroy_at m id moved pos).
Proof.
  intros Hinv Hid Hmv. pose proof (swap_remove_perm _ _ _ _ Hid Hmv) as Hperm.
  pose proof (inv_ss _ Hinv) as Hss. pose proof (lookup_lt_Some _ _ _ Hid) as Hpos.
  pose proof (list_elem_of_lookup_2 _ _ _ Hid) as Hin.
  pose proof (list_elem_of_lookup_2 _ _ _ Hmv) as Hinm.
  pose proof (ss_lookup_key eidx _ _ _ _ Hss Hid) as Hsid.
  pose proof (ss_lookup_key eidx _ _ _ _ Hss Hmv) as Hsmv.
  destruct (inv_live _ Hinv id Hin) as (Hid64 & Hidn & Hidv).
  pose proof (Index_range id) as [Hi0 _].
  constructor; unfold destroy_at; em_simpl.
  - by apply ss_remove.
  - rewrite !length_insert. apply Hinv.
  - apply Hinv.
  - apply Hinv.
  - unfold len. rewrite swap_remove_length, (inv_count _ Hinv). unfold len. lia.
  - apply Hinv.
  - intros e He. apply (inv_live _ Hinv). rewrite Hperm. by right.
  - apply Hinv.
  - apply NoDup_app. split; [apply Hinv|]. split; [|apply NoDup_singleton].
    intros i Hi ->%list_elem_of_singleton. destruct (inv_free _ Hinv _ Hi) as [_ Hz].
    unfold eidx in Hsid. rewrite Hsid in Hz. injection Hz. lia.
  - intros i [Hi| ->%list_elem_of_singleton]%elem_of_app.
    + destruct (inv_free _ Hinv _ Hi) as [Hr Hz]. split; [done|].
      rewrite list_lookup_insert_ne, list_lookup_insert_ne; [done|..]; intros Heq.
      * rewrite <- Heq, Hsmv in Hz. injection Hz. lia.
      * rewrite <- Heq, Hsid in Hz. injection Hz. lia.
    + split; [lia|]. apply list_lookup_insert_eq. rewrite length_insert. by eapply lookup_lt_Some.
  - intros i Hr Hz. apply elem_of_app.
    destruct (decide (i = Index id)) as [->|Hne]; [right; by apply list_elem_of_singleton|left].
    apply (inv_used _ Hinv); [done|].
    rewrite list_lookup_insert_ne in Hz by (unfold eidx; lia).
    apply list_lookup_insert_Some in Hz as [(_ & Hz & _)|[_ Hz]]; [lia|done].
Qed.

Lemma Destroy_live m rev id :
  em_inv m → in_u64 id → id ∈ em_dense m → len (em_dense m) < 2 ^ 31 →
  ∃ m', EntityManager__Destroy m rev id = Done (m', bump rev, true) ∧ em_inv m' ∧
    em_dense m ≡ₚ id :: em_dense m' ∧ em_versions m' = em_versions m ∧ em_next m' = em_next m.
Proof.
  intros Hinv H64 Hin Hlen. unfold EntityManager__Destroy.
  rewrite aliveLocked_spec, bool_decide_true by done. cbn [obind negb].
  apply list_elem_of_lookup in Hin as [pos Hpos].
  pose proof (lookup_lt_Some _ _ _ Hpos) as Hlt.
  destruct (lookup_lt_is_Some_2 (em_dense m) (length (em_dense m) - 1)) as [moved Hmv]; [lia|].
  pose proof (inv_ss _ Hinv) as Hss.
  pose proof (ss_lookup_key eidx _ _ _ _ Hss Hpos) as Hs.
  pose proof (ss_lookup_key eidx _ _ _ _ Hss Hmv) as Hsm.
  pose proof (lookup_lt_Some _ _ _ Hs) as Hslt. pose proof (lookup_lt_Some _ _ _ Hsm) as Hsmlt.
  exists (destroy_at m id moved pos).
  split; [|split; [by apply destroy_at_inv|split; [by apply swap_remove_perm|done]]].
  rewrite <- (eidx_Z id). rewrite (index_of_nat _ _ _ Hs). cbn [obind].
  replace (Z.of_nat pos + 1 - 1) with (Z.of_nat pos) by lia.
  replace (Z.to_nat (len (em_dense m) - 1)) with (length (em_dense m) - 1)%nat by (unfold len; lia).
  assert (∀ sp, length sp = length (em_sparse m) →
    assign sp (Z.of_nat (eidx id)) 0 = Done (<[eidx id := 0]> sp)) as Has.
  { intros sp Hl. rewrite assign_in_range by (unfold len; lia). by rewrite Nat2Z.id. }
  unfold destroy_at, swap_remove. rewrite (eidx_Z id).
  destruct (Z.eqb_spec (Z.of_nat pos) (len (em_dense m) - 1)) as [Heq|Hne]; cbn [obind].
  - assert (pos = length (em_dense m) - 1)%nat as -> by (unfold len in Heq; lia).
    assert (moved = id) as -> by congruence.
    rewrite <- (eidx_Z id), Has by done. cbn [obind].
    rewrite (list_insert_id (em_dense m)) by done.
    by rewrite (list_insert_id (em_sparse m) (eidx id) _ Hs).
  - rewrite (proj2 (index_Done _ _ moved)).
    2: { split; [unfold len; lia|]. by replace (Z.to_nat _) with (length (em_dense m) - 1)%nat by (unfold len; lia). }
    cbn [obind]. rewrite assign_in_range by (unfold len; lia). cbn [obind].
    rewrite <- (eidx_Z moved), assign_in_range by (unfold len; lia). cbn [obind].
    rewrite <- (eidx_Z id), !Nat2Z.id, i32_id by (unfold len in *; lia).
    rewrite Has by by rewrite length_insert. done.
Qed.

Lemma Destroy_dead m rev id :
  em_inv m → in_u64 id → id ∉ em_dense m → EntityManager__Destroy m rev id = Done (m, rev, false).
Proof.
  intros Hinv H64 Hin. unfold EntityManager__Destroy.
  by rewrite aliveLocked_spec, bool_decide_false by done.
Qed.

Lemma NewEntityManager_inv : em_inv NewEntityManager.
Proof.
  constructor; unfold NewEntityManager; em_simpl; try done.
  - apply (ss_nil eidx 1).
  - intros [|i] v; [by intros [= <-]|done].
  - intros e []%not_elem_of_nil.
  - intros [|i] v; [by intros [= <-]|done].
  - apply NoDup_nil_2.
  - intros i []%not_elem_of_nil.
  - intros i Hi. lia.
Qed.

(** ** Operation sequences and their abstract specification *)

Inductive em_op := OpCreate | OpDestroy (id : EntityID).
Inductive em_ret := RetId (id : EntityID) | RetBool (b : bool).

#[global] Instance em_op_eq_dec : EqDecision em_op.
Proof. solve_decision. Defined.

Definition em_exec (m : EntityManager) (rev : Z) (op : em_op)
  : outcome (EntityManager * Z * em_ret) :=
  match op with
  | OpCreate => let! (m', rev', id) := EntityManager__Create m rev in Done (m', rev', RetId id)
  | OpDestroy id =>
      let! (m', rev', b) := EntityManager__Destroy m rev id in Done (m', rev', RetBool b)
  end.

Fixpoint em_run (m : EntityManager) (rev : Z) (ops : list em_op)
  : outcome (EntityManager * Z * list em_ret) :=
  match ops with
  | [] => Done (m, rev, [])
  | op :: ops' =>
      let! (m1, rev1, r) := em_exec m rev op in
      let! (m2, rev2, rs) := em_run m1 rev1 ops' in
      Done (m2, rev2, r :: rs)
  end.

Definition valid_op (op : em_op) : Prop :=
  match op with OpCreate => True | OpDestroy id => in_u64 id end.

Definition creates (ops : list em_op) : Z :=
  len (filter (λ op, op = OpCreate) ops).

(** What the manager promises: a set of live identifiers and the set of all identifiers
    ever handed out; a new identifier is always outside the second. *)
Record ids := mkIds { live : gset EntityID; used : gset EntityID }.

Inductive ids_step : ids → em_op → em_ret → ids → Prop :=
  | ids_create s id :
      id ∉ used s → id ≠ 0 →
      ids_step s OpCreate (RetId id) (mkIds ({[id]} ∪ live s) ({[id]} ∪ used s))
  | ids_destroy s id :
      id ∈ live s → ids_step s (OpDestroy id) (RetBool true) (mkIds (live s ∖ {[id]}) (used s))
  | ids_destroy_dead s id :
      id ∉ live s → ids_step s (OpDestroy id) (RetBool false) s.

Inductive ids_steps : ids → list em_op → list em_ret → ids → Prop :=
  | ids_steps_nil s : ids_steps s [] [] s
  | ids_steps_cons s1 s2 s3 op ops r rs :
      ids_step s1 op r s2 → ids_steps s2 ops rs s3 → ids_steps s1 (op :: ops) (r :: rs) s3.

(** The refinement relation, with [n] an upper bound on the number of creations so far. *)
Record em_refines (n : Z) (m : EntityManager) (s : ids) : Prop := {
  ref_inv : em_inv m;
  ref_live : live s = list_to_set (em_dense m);
  ref_used : ∀ id, id ∈ used s ↔ issued m id;
  ref_next : em_next m ≤ n;
  ref_dense : len (em_dense m) ≤ n;
  ref_versions : ∀ i v, em_versions m !! i = Some v → v ≤ n;
}.

Lemma em_refines_room n m s : em_refines n m s → n < 2 ^ 31 - 1 → has_room m.
Proof.
  intros Href Hn. split; [|split].
  - pose proof (ref_next _ _ _ Href). lia.
  - pose proof (ref_dense _ _ _ Href). lia.
  - intros i v Hv. pose proof (ref_versions _ _ _ Href i v Hv). lia.
Qed.

Lemma em_dense_NoDup m : em_inv m → NoDup (em_dense m).
Proof. intros Hinv. eapply NoDup_fmap_1, ss_NoDup, Hinv. Qed.

Lemma em_exec_refines n m rev s op :
  em_refines n m s → 0 ≤ n < 2 ^ 31 - 1 → valid_op op →
  ∃ m' rev' r s', em_exec m rev op = Done (m', rev', r) ∧ ids_step s op r s' ∧
    em_refines (if decide (op = OpCreate) then n + 1 else n) m' s'.
Proof.
  intros Href Hn Hop. pose proof (ref_inv _ _ _ Href) as Hinv.
  pose proof (ref_dense _ _ _ Href) as Hd. destruct op as [|id]; cbn [em_exec].
  - destruct (Create_spec m rev Hinv) as (m' & id & -> & Hinv' & Hdense & H64 & Hz & Hfr & Hiss & Hnx & Hvs);
      [eapply em_refines_room; [exact Href|lia]|].
    cbn [obind]. eexists m', _, _, _. split; [done|].
    assert (id ∉ used s) as Hnu by by rewrite (ref_used _ _ _ Href).
    split; [by apply ids_create|]. rewrite decide_True by done. constructor; cbn [live used].
    + done.
    + rewrite Hdense, (ref_live _ _ _ Href), list_to_set_app_L. rewrite (union_comm_L {[id]}). f_equal. cbn. by rewrite union_empty_r_L.
    + intros id'. rewrite Hiss, elem_of_union, elem_of_singleton, (ref_used _ _ _ Href). tauto.
    + pose proof (ref_next _ _ _ Href). lia.
    + rewrite Hdense, len_app. unfold len in *. simpl. lia.
    + intros i v' Hv'. destruct (Hvs i v' Hv') as [?|(v & Hv & ?)]; [lia|].
      pose proof (ref_versions _ _ _ Href i v Hv). lia.
  - rewrite decide_False by done. destruct (decide (id ∈ em_dense m)) as [Hin|Hin].
    + destruct (Destroy_live m rev id) as (m' & -> & Hinv' & Hp & Hv' & Hn'); [done..|lia|].
      cbn [obind]. eexists m', _, _, _. split; [done|].
      split; [apply ids_destroy; rewrite (ref_live _ _ _ Href); by apply elem_of_list_to_set|].
      pose proof (em_dense_NoDup m Hinv) as Hnd. rewrite Hp in Hnd.
      apply NoDup_cons in Hnd as [Hnot _].
      constructor; cbn [live used].
      * done.
      * rewrite (ref_live _ _ _ Href). apply set_eq. intros x.
        rewrite elem_of_difference, !elem_of_list_to_set, Hp, elem_of_cons, elem_of_singleton.
        naive_solver.
      * intros id'. rewrite (ref_used _ _ _ Href). unfold issued. by rewrite Hv', Hn'.
      * rewrite Hn'. apply (ref_next _ _ _ Href).
      * apply Permutation_length in Hp. unfold len in *. simpl in Hp. lia.
      * rewrite Hv'. apply (ref_versions _ _ _ Href).
    + rewrite Destroy_dead by done. cbn [obind]. eexists m, _, _, s. split; [done|].
      split; [|done]. apply ids_destroy_dead. rewrite (ref_live _ _ _ Href).
      by rewrite elem_of_list_to_set.
Qed.

Lemma creates_cons op ops :
  creates (op :: ops) = (if decide (op = OpCreate) then 1 else 0) + creates ops.
Proof. unfold creates. rewrite filter_cons. case_decide; unfold len; simpl; lia. Qed.

Lemma creates_nonneg ops : 0 ≤ creates ops.
Proof. unfold creates, len. lia. Qed.

Lemma em_run_refines ops n m rev s :
  em_refines n m s → 0 ≤ n → n + creates ops < 2 ^ 31 - 1 → Forall valid_op ops →
  ∃ m' rev' rs s', em_run m rev ops = Done (m', rev', rs) ∧ ids_steps s ops rs s' ∧
    em_refines (n + creates ops) m' s'.
Proof.
  intros Href Hn Hb Hv. revert n m rev s Href Hn Hb.
  induction Hv as [|op ops Hop Hv IH]; intros n m rev s Href Hn Hb.
  - exists m, rev, [], s. split; [done|]. split; [constructor|].
    unfold creates. simpl. by rewrite Z.add_0_r.
  - pose proof (creates_nonneg ops). rewrite creates_cons in *.
    destruct (em_exec_refines n m rev s op Href) as (m1 & rev1 & r & s1 & Hex & Hst & Href1);
      [split; [done|]; destruct (decide (op = OpCreate)); lia|done|].
    destruct (IH (if decide (op = OpCreate) then n + 1 else n) m1 rev1 s1 Href1)
      as (m2 & rev2 & rs & s2 & Hrun & Hsts & Href2); [case_decide; lia..|].
    exists m2, rev2, (r :: rs), s2. simpl. rewrite Hex. cbn [obind]. rewrite Hrun. cbn [obind].
    split; [done|]. split; [by econstructor|].
    destruct (decide (op = OpCreate)).
    + by replace (n + (1 + creates ops)) with (n + 1 + creates ops) by lia.
    + by replace (n + (0 + creates ops)) with (n + creates ops) by lia.
Qed.

Lemma New_refines : em_refines 0 NewEntityManager (mkIds ∅ ∅).
Proof.
  constructor; try done.
  - apply NewEntityManager_inv.
  - intros id. cbn [used]. split; [by intros ?%not_elem_of_empty|].
    unfold issued, NewEntityManager. em_simpl. intros (_ & Hlt & _).
    pose proof (Index_range id) as []. lia.
  - intros [|i] v; [by intros [= <-]|done].
Qed.

Lemma Alive_refines n m s id :
  em_refines n m s → in_u64 id → EntityManager__Alive m id = Done (bool_decide (id ∈ live s)).
Proof.
  intros Href H64. unfold EntityManager__Alive. rewrite aliveLocked_spec by (done || apply Href).
  f_equal. apply bool_decide_ext. by rewrite (ref_live _ _ _ Href), elem_of_list_to_set.
Qed.

(** C4: the entity manager implements its abstract specification: every sequence of
    [Create]/[Destroy] calls with fewer than [2^31 - 1] creations runs without a panic,
    returns what the specification allows (a never-used non-zero identifier from [Create],
    liveness of the target from [Destroy]), and ends with [Alive] and [Len] describing
    exactly the specification's live set. *)
Theorem EntityManager_refines_ids ops :
  creates ops < 2 ^ 31 - 1 → Forall valid_op ops →
  ∃ m rev rs s, em_run NewEntityManager 0 ops = Done (m, rev, rs) ∧
    ids_steps (mkIds ∅ ∅) ops rs s ∧
    (∀ id, in_u64 id → EntityManager__Alive m id = Done (bool_decide (id ∈ live s))) ∧
    EntityManager__Len m = Z.of_nat (size (live s)).
Proof.
  intros Hb Hv.
  destruct (em_run_refines ops 0 NewEntityManager 0 _ New_refines) as (m & rev & rs & s & Hrun & Hst & Href);
    [lia..|done|].
  exists m, rev, rs, s. split; [done|]. split; [done|].
  split; [intros id Hid; by eapply Alive_refines|].
  pose proof (ref_inv _ _ _ Href) as Hinv. unfold EntityManager__Len.
  rewrite (inv_count _ Hinv), (ref_live _ _ _ Href).
  by rewrite size_list_to_set by by apply em_dense_NoDup.
Qed.

Lemma EntityManager_refines_ids_witness :
  ∃ m rev rs s,
    em_run NewEntityManager 0 [OpCreate; OpCreate; OpDestroy 1; OpCreate] = Done (m, rev, rs) ∧
    ids_steps (mkIds ∅ ∅) [OpCreate; OpCreate; OpDestroy 1; OpCreate] rs s ∧
    (∀ id, in_u64 id → EntityManager__Alive m id = Done (bool_decide (id ∈ live s))) ∧
    EntityManager__Len m = Z.of_nat (size (live s)).
Proof. apply EntityManager_refines_ids; [by vm_compute|repeat constructor; by vm_compute]. Defined.

(** A dead identifier that was once handed out stays dead. *)
Lemma ids_steps_stale s ops rs s' id :
  ids_steps s ops rs s' → id ∈ used s → id ∉ live s → id ∉ live s'.
Proof.
  induction 1 as [|s1 s2 s3 op ops r rs Hst _ IH]; [done|].
  intros Hu Hl. destruct Hst as [s i Hi _|s i Hi|s i Hi]; apply IH; cbn [live used]; set_solver.
Qed.

Lemma ids_steps_used s ops rs s' id :
  ids_steps s ops rs s' → RetId id ∈ rs → id ∈ used s'.
Proof.
  induction 1 as [|s1 s2 s3 op ops r rs Hst Hsts IH]; [by intros ?%not_elem_of_nil|].
  intros [<-|Hin]%elem_of_cons; [|by apply IH]. inversion Hst; subst.
  assert (∀ s s' ops rs, ids_steps s ops rs s' → used s ⊆ used s') as Hmono.
  { clear. induction 1 as [|s1 s2 s3 op ops r rs Hst _ IH]; [done|].
    etrans; [|exact IH]. destruct Hst; cbn [used]; set_solver. }
  eapply Hmono; [exact Hsts|]. cbn [used]. set_solver.
Qed.

(** C5: stale identifiers are never resurrected: an identifier returned by some [Create] and
    found dead afterwards is dead after every later sequence of calls, as long as fewer than
    [2^31 - 1] entities are created in all, even though its index is recycled. *)
Theorem stale_id_never_alive ops1 ops2 m1 rev1 rs1 m2 rev2 rs2 id :
  creates (ops1 ++ ops2) < 2 ^ 31 - 1 → Forall valid_op ops1 → Forall valid_op ops2 →
  em_run NewEntityManager 0 ops1 = Done (m1, rev1, rs1) → RetId id ∈ rs1 → in_u64 id →
  EntityManager__Alive m1 id = Done false →
  em_run m1 rev1 ops2 = Done (m2, rev2, rs2) →
  EntityManager__Alive m2 id = Done false.
Proof.
  intros Hb Hv1 Hv2 Hr1 Hin H64 Hd Hr2.
  unfold creates in Hb. rewrite filter_app, len_app in Hb.
  fold (creates ops1) (creates ops2) in Hb. pose proof (creates_nonneg ops1). pose proof (creates_nonneg ops2).
  destruct (em_run_refines ops1 0 NewEntityManager 0 _ New_refines)
    as (m & rev & rs & s1 & Hrun & Hst1 & Href1); [lia..|done|].
  rewrite Hr1 in Hrun. injection Hrun as <- <- <-.
  destruct (em_run_refines ops2 _ m1 rev1 s1 Href1) as (m & rev & rs & s2 & Hrun & Hst2 & Href2); [lia..|done|].
  rewrite Hr2 in Hrun. injection Hrun as <- <- <-.
  rewrite (Alive_refines _ _ _ _ Href1 H64) in Hd. injection Hd as Hd.
  apply bool_decide_eq_false in Hd.
  rewrite (Alive_refines _ _ _ _ Href2 H64). f_equal. apply bool_decide_eq_false.
  eapply ids_steps_stale; [exact Hst2| |done]. by eapply ids_steps_used.
Qed.

Lemma stale_id_never_alive_witness :
  ∃ m1 rev1 rs1 m2 rev2 rs2,
    em_run NewEntityManager 0 [OpCreate; OpDestroy 1] = Done (m1, rev1, rs1) ∧
    em_run m1 rev1 [OpCreate] = Done (m2, rev2, rs2) ∧
    EntityManager__Alive m2 1 = Done false.
Proof.
  eexists _, _, _, _, _, _. split; [vm_compute; reflexivity|]. split; [vm_compute; reflexivity|].
  refine (stale_id_never_alive [OpCreate; OpDestroy 1] [OpCreate] _ _ _ _ _ _ 1 _ _ _ eq_refl _ _ eq_refl eq_refl);
    [by vm_compute|repeat constructor; by vm_compute|repeat constructor|set_solver|by vm_compute].
Defined.

(** ** Snapshots *)

Lemma EntityManager_restore_same m :
  em_inv m → len (em_dense m) < 2 ^ 31 →
  EntityManager__restore (EntityManager__snapshot m) = Done m.
Proof.
  intros Hinv Hlen. unfold EntityManager__restore, EntityManager__snapshot.
  cbn [ems_Dense ems_Versions ems_Free ems_Next].
  destruct (ss_build_ok eidx Index (length (em_versions m)) (em_dense m)) as (sp & -> & Hok & Hl).
  - intros e He. pose proof (ss_key_lt eidx _ _ _ (inv_ss _ Hinv) He) as Hk.
    rewrite (inv_len _ Hinv) in Hk. split; [|done]. rewrite <- eidx_Z. lia.
  - by eapply ss_NoDup, inv_ss.
  - done.
  - cbn [obind]. f_equal. destruct m as [vs sp' d f n c]. em_simpl. f_equal.
    + eapply ss_unique; [done|apply Hinv|]. rewrite Hl. symmetry. apply (inv_len _ Hinv).
    + symmetry. apply (inv_count _ Hinv).
Qed.

(** Restoring a snapshot reproduces the whole allocation state: live entities and their
    order, generations, free list and next index, with the sparse index rebuilt exactly, so
    every later [Create] and [Destroy] behaves as in the original manager. *)
Theorem EntityManager_restore_snapshot m :
  em_inv m → len (em_dense m) < 2 ^ 31 →
  EntityManager__restore (EntityManager__snapshot m) = Done m.
Proof. apply EntityManager_restore_same. Qed.

Definition em_example : EntityManager :=
  mkEM [2; 1] [2; 1] [mkEntityID 1 1; mkEntityID 0 2] [] 2 2.

Lemma EntityManager_restore_snapshot_witness :
  EntityManager__restore (EntityManager__snapshot em_example) = Done em_example.
Proof.
  apply EntityManager_restore_snapshot; [|by vm_compute].
  destruct (em_run_refines [OpCreate; OpCreate; OpDestroy 1; OpCreate] 0 NewEntityManager 0 _ New_refines)
    as (m & rev & rs & s & Hrun & _ & Href); [by vm_compute..|repeat constructor; by vm_compute|].
  vm_compute in Hrun. injection Hrun as <- <- <-. exact (ref_inv _ _ _ Href).
Defined.

(** ** Limits of the documented guarantees *)

(** [k] rounds of creating and destroying the entity of index 0. *)
Fixpoint recycle_ops (from : Z) (k : nat) : list em_op :=
  match k with
  | O => []
  | S k' => OpCreate :: OpDestroy (mkEntityID 0 from) :: recycle_ops (from + 1) k'
  end.

Definition recycled (v : Z) : EntityManager := mkEM [v] [0] [] [0] 1 0.

Lemma recycle_round v rev :
  0 ≤ v < 2 ^ 32 - 1 →
  em_run (recycled v) rev [OpCreate; OpDestroy (mkEntityID 0 (v + 1))]
  = Done (recycled (v + 1), bump (bump rev), [RetId (mkEntityID 0 (v + 1)); RetBool true]).
Proof.
  intros Hv. destruct (mkEntityID_spec 0 (v + 1)) as (_ & Hi & Hver); [unfold in_u32; lia..|].
  assert (EntityManager__Create (recycled v) rev =
          Done (mkEM [u32 (v + 1)] [1] [mkEntityID 0 (u32 (v + 1))] [] 1 1, bump rev,
                mkEntityID 0 (u32 (v + 1)))) as Hc by reflexivity.
  rewrite u32_id in Hc by (unfold in_u32; lia). cbn [em_run em_exec]. rewrite Hc. cbn [obind].
  unfold EntityManager__Destroy, aliveLocked. cbn [em_versions em_sparse em_dense].
  rewrite Hi, Hver. change (len [v + 1] <=? 0) with false. cbv iota.
  change (index [v + 1] 0) with (Done (v + 1)). cbn [obind]. by rewrite Z.eqb_refl.
Qed.

Lemma em_run_app m rev ops1 ops2 :
  em_run m rev (ops1 ++ ops2) =
  (let! (m1, rev1, rs1) := em_run m rev ops1 in
   let! (m2, rev2, rs2) := em_run m1 rev1 ops2 in Done (m2, rev2, rs1 ++ rs2)).
Proof.
  revert m rev. induction ops1 as [|op ops1 IH]; intros m rev; simpl.
  - by destruct (em_run m rev ops2) as [[[??]?]|].
  - destruct (em_exec m rev op) as [[[m1 rev1] r]|]; simpl; [|done]. rewrite IH.
    destruct (em_run m1 rev1 ops1) as [[[m2 rev2] rs]|]; simpl; [|done].
    by destruct (em_run m2 rev2 ops2) as [[[??]?]|].
Qed.

Lemma recycle_run k v rev :
  0 ≤ v → v + Z.of_nat k < 2 ^ 32 →
  ∃ rev' rs, em_run (recycled v) rev (recycle_ops (v + 1) k) = Done (recycled (v + Z.of_nat k), rev', rs).
Proof.
  revert v rev. induction k as [|k IH]; intros v rev Hv Hk.
  - exists rev, []. simpl. by rewrite Z.add_0_r.
  - change (recycle_ops (v + 1) (S k)) with
      ([OpCreate; OpDestroy (mkEntityID 0 (v + 1))] ++ recycle_ops (v + 1 + 1) k).
    rewrite em_run_app, recycle_round by lia. cbn [obind].
    destruct (IH (v + 1) (bump (bump rev))) as (rev' & rs & ->); [lia..|].
    eexists _, _. cbn [obind]. by replace (v + 1 + Z.of_nat k) with (v + Z.of_nat (S k)) by lia.
Qed.

Lemma wrap_round r :
  em_run (recycled (2 ^ 32 - 1)) r [OpCreate; OpDestroy 0; OpCreate]
  = Done (mkEM [1] [1] [1] [] 1 1, bump (bump (bump r)), [RetId 0; RetBool true; RetId 1]).
Proof. reflexivity. Qed.

Lemma first_round :
  em_run NewEntityManager 0 [OpCreate; OpDestroy 1] = Done (recycled 1, 2, [RetId 1; RetBool true]).
Proof. vm_compute. reflexivity. Qed.

(** The generation counter is 32 bits wide and wraps: there is a sequence of calls that
    returns the identifier [1] twice, with the entity destroyed in between, so a stale
    identifier held across it denotes the new entity. *)
Theorem generation_wraps_around :
  ∃ ops m rev rs, em_run NewEntityManager 0 (OpCreate :: OpDestroy 1 :: ops ++ [OpCreate])
    = Done (m, rev, RetId 1 :: RetBool true :: rs ++ [RetId 1]).
Proof.
  set (k := Z.to_nat (2 ^ 32 - 2)).
  exists (recycle_ops 2 k ++ [OpCreate; OpDestroy 0]).
  assert (em_run NewEntityManager 0 [OpCreate; OpDestroy 1]
          = Done (recycled 1, 2, [RetId 1; RetBool true])) as H1 by apply first_round.
  destruct (recycle_run k 1 2) as (rev' & rs & H2); [lia..|].
  replace (1 + Z.of_nat k) with (2 ^ 32 - 1) in H2 by lia.
  assert (∀ r, em_run (recycled (2 ^ 32 - 1)) r [OpCreate; OpDestroy 0; OpCreate]
     = Done (mkEM [1] [1] [1] [] 1 1, bump (bump (bump r)), [RetId 0; RetBool true; RetId 1])) as H3.
  { apply wrap_round. }
  exists (mkEM [1] [1] [1] [] 1 1), (bump (bump (bump rev'))), (rs ++ [RetId 0; RetBool true]).
  change (OpCreate :: OpDestroy 1 :: ?l) with ([OpCreate; OpDestroy 1] ++ l).
  rewrite em_run_app, H1. cbn [obind].
  rewrite <- app_assoc, em_run_app. change (2 : Z) with (1 + 1) at 2. rewrite H2. cbn [obind].
  change ([OpCreate; OpDestroy 0] ++ [OpCreate]) with [OpCreate; OpDestroy 0; OpCreate].
  rewrite H3. cbn [obind]. by rewrite <- app_assoc.
Qed.

(** The dense slice is not kept in creation order: destroying the oldest of three
    entities moves the newest one to the front of the iteration order. *)
Theorem Destroy_reorders_iteration :
  ∃ m rev rs a b c, em_run NewEntityManager 0 [OpCreate; OpCreate; OpCreate; OpDestroy 1]
    = Done (m, rev, [RetId a; RetId b; RetId c; rs]) ∧ EntityManager__IDs m = [c; b].
Proof. eexists _, _, _, _, _, _. split; [vm_compute; reflexivity|reflexivity]. Qed.
