(* ===== verification/GoValues.v ===== *)
(** * Go values, types and JSON

    Components, resources and event payloads are Go values of arbitrary types, which the
    engine handles through generics, [reflect] and [encoding/json] without looking inside.
    [GoRuntime] names what the engine uses of them; [JsonRoundTrip] is the documented
    behaviour of [encoding/json] the engine relies on (a value whose fields are exported
    decodes, at its own type, to itself; an envelope gives back its two fields).  Slices are lists: nil and empty are identified. *)

From Stdlib Require Import Ascii.
From S2P Require Import Prelude.

(** Encoded JSON ([json.RawMessage], [[]byte]). *)
Abbreviation rawJSON := string (only parsing).

Class GoRuntime := {
  value : Type;                                        (** a Go value *)
  gotype : Type;                                       (** [reflect.Type] *)
  gotype_eq_dec :: EqDecision gotype;
  gotype_countable :: Countable gotype;
  typeOf : value → gotype;                             (** [reflect.TypeOf] *)
  typeString : gotype → string;                        (** [reflect.Type.String] *)
  zeroOf : gotype → value;                             (** [var zero T] *)
  json_Marshal : value → result rawJSON;
  json_Unmarshal : gotype → rawJSON → result value;
  json_MarshalSlice : gotype → list value → result rawJSON;
  json_UnmarshalSlice : gotype → rawJSON → result (list value);
  rawValue : rawJSON → value;                          (** a [json.RawMessage] held in an [any] *)
  json_MarshalEnvelope : string → rawJSON → result rawJSON;      (** a [payloadEnvelope] *)
  json_UnmarshalEnvelope : rawJSON → result (string * rawJSON);
}.

(** The values that survive a JSON round trip. *)
Class JsonRoundTrip (R : GoRuntime) (marshalable : value → Prop) := {
  json_value_round_trip v :
    marshalable v →
    ∃ raw, json_Marshal v = Ok raw ∧ raw ≠ ""%string ∧ json_Unmarshal (typeOf v) raw = Ok v;
  json_slice_round_trip t vs :
    Forall marshalable vs → Forall (λ v, typeOf v = t) vs →
    ∃ raw, json_MarshalSlice t vs = Ok raw ∧ json_UnmarshalSlice t raw = Ok vs;
  json_envelope_round_trip name v data :
    json_Marshal v = Ok data →
    ∃ raw, json_MarshalEnvelope name data = Ok raw ∧ raw ≠ ""%string ∧
           json_UnmarshalEnvelope raw = Ok (name, data);
}.

(** ** A concrete runtime

    Booleans of one registered type beside raw messages, with a one-character encoding: the
    classes above have an instance, on which witnesses evaluate. *)

Module Toy.

Definition enc (b : bool) : ascii := if b then "t"%char else "f"%char.
Definition dec (c : ascii) : bool := Ascii.eqb c "t"%char.

Fixpoint dec_all (s : string) : list bool :=
  match s with EmptyString => [] | String c s' => dec c :: dec_all s' end.

Fixpoint enc_all (l : list (bool + string)) : string :=
  match l with
  | [] => EmptyString
  | inl b :: l' => String (enc b) (enc_all l')
  | inr _ :: l' => enc_all l'
  end.

(** An envelope: every character of the name behind a mark, an end mark, the data. *)
Fixpoint enc_env (name data : string) : string :=
  match name with
  | EmptyString => String "." data
  | String c name' => String "," (String c (enc_env name' data))
  end.

Fixpoint dec_env (raw : string) : option (string * string) :=
  match raw with
  | String "." data => Some (EmptyString, data)
  | String "," (String c raw') =>
      match dec_env raw' with Some (n, d) => Some (String c n, d) | None => None end
  | _ => None
  end.

#[global] Instance runtime : GoRuntime := {
  value := bool + string;
  gotype := bool;
  typeOf v := match v with inl _ => true | inr _ => false end;
  typeString t := if t then "toy.Bool"%string else "json.RawMessage"%string;
  zeroOf t := if t then inl false else inr EmptyString;
  json_Marshal v := match v with inl b => Ok (String (enc b) EmptyString) | inr s => Ok s end;
  json_Unmarshal t raw :=
    match t, raw with
    | true, String c EmptyString => Ok (inl (dec c))
    | true, _ => Err (Errorf "invalid character")
    | false, s => Ok (inr s)
    end;
  json_MarshalSlice _ vs := Ok (enc_all vs);
  json_UnmarshalSlice _ raw := Ok (inl <$> dec_all raw);
  rawValue := inr;
  json_MarshalEnvelope n d := Ok (enc_env n d);
  json_UnmarshalEnvelope raw :=
    match dec_env raw with Some p => Ok p | None => Err (Errorf "invalid character") end;
}.

Definition marshalable (v : value) : Prop := match v with inl _ => True | inr _ => False end.

Lemma dec_enc b : dec (enc b) = b.
Proof. by destruct b. Qed.

Lemma dec_env_enc n d : dec_env (enc_env n d) = Some (n, d).
Proof. induction n as [|c n IH]; simpl; [done|]. by rewrite IH. Qed.

#[global] Instance runtime_round_trip : JsonRoundTrip runtime marshalable.
Proof.
  split.
  - intros [b|s] Hm; [|done]. exists (String (enc b) EmptyString). split; [done|].
    split; [done|]. simpl. by rewrite dec_enc.
  - intros t vs Hm _. exists (enc_all vs). split; [done|]. simpl. f_equal.
    induction Hm as [|[b|s] vs Hv _ IH]; [done| |done]. simpl. rewrite dec_enc. by f_equal.
  - intros name v data _. exists (enc_env name data). split; [done|].
    split; [by destruct name|]. simpl. by rewrite dec_env_enc.
Qed.
End Toy.
