(* ===== verification/Interning.v ===== *)
(** * Name tables

    [ComponentStore] and [TagRegistry] intern names the same way: a slice of names in
    registration order and a map from a name to its position.  This file holds the theory of
    that pair and the interface through which clients use either table. *)

From S2P Require Import Prelude.
Local Open Scope Z_scope.

(** The map is exactly the inverse of the slice, and the slice fits the 32-bit identifiers. *)
Definition intern_ok (names : list string) (byName : gmap string Z) : Prop :=
  len names ≤ 2 ^ 32 ∧
  ∀ n i, byName !! n = Some i ↔ ∃ k, i = Z.of_nat k ∧ names !! k = Some n.

(** [for i, n := range names { byName[n] = i }]. *)
Definition intern_rebuild (names : list string) : gmap string Z :=
  foldl (λ m kn, <[kn.2 := u32 (Z.of_nat kn.1)]> m) ∅ (imap pair names).

Lemma intern_nil : intern_ok [] ∅.
Proof. split; [done|]. intros n i. rewrite lookup_empty. naive_solver. Qed.

Lemma intern_unique names byName i j n :
  intern_ok names byName → names !! i = Some n → names !! j = Some n → i = j.
Proof.
  intros [_ H] Hi Hj.
  assert (byName !! n = Some (Z.of_nat i)) as H1 by (apply H; eauto).
  assert (byName !! n = Some (Z.of_nat j)) as H2 by (apply H; eauto).
  rewrite H1 in H2. injection H2. lia.
Qed.

Lemma intern_NoDup names byName : intern_ok names byName → NoDup names.
Proof. intros H. apply NoDup_alt. intros i j n. by eapply intern_unique. Qed.

Lemma intern_fresh names byName n :
  intern_ok names byName → byName !! n = None → n ∉ names.
Proof.
  intros [_ H] Hn [k Hk]%list_elem_of_lookup.
  assert (byName !! n = Some (Z.of_nat k)) by (apply H; eauto). congruence.
Qed.

Lemma intern_add names byName n :
  intern_ok names byName → byName !! n = None → len names < 2 ^ 32 →
  intern_ok (names ++ [n]) (<[n := u32 (len names)]> byName).
Proof.
  intros Hok Hn Hlen. pose proof (intern_fresh _ _ _ Hok Hn) as Hf. destruct Hok as [_ H].
  assert (u32 (len names) = len names) as -> by (apply u32_id; unfold in_u32, len in *; lia).
  split; [rewrite len_app; unfold len in *; simpl; lia|].
  intros m i. destruct (decide (n = m)) as [<-|Hne].
  - rewrite lookup_insert_eq. split.
    + intros [= <-]. exists (length names). split; [done|]. by apply list_lookup_middle.
    + intros (k & -> & [Hk|[Hge Hk]]%lookup_app_Some).
      { exfalso. apply Hf. by eapply list_elem_of_lookup_2. }
      apply list_lookup_singleton_Some in Hk as [Hk _]. f_equal. unfold len. lia.
  - rewrite lookup_insert_ne, H by done. split; intros (k & -> & Hk); exists k; split; try done.
    + by apply lookup_app_l_Some.
    + apply lookup_app_Some in Hk as [Hk|[_ [_ Hk]%list_lookup_singleton_Some]]; congruence.
Qed.

Lemma intern_rebuild_snoc names n :
  intern_rebuild (names ++ [n]) = <[n := u32 (len names)]> (intern_rebuild names).
Proof.
  unfold intern_rebuild. rewrite imap_app, foldl_app. simpl. by rewrite Nat.add_0_r.
Qed.

(** Rebuilding the map of a table from its names gives back the same map. *)
Lemma intern_rebuild_ok names :
  NoDup names → len names ≤ 2 ^ 32 → intern_ok names (intern_rebuild names).
Proof.
  induction names as [|n names IH] using rev_ind; intros Hnd Hlen; [apply intern_nil|].
  rewrite len_app in Hlen. assert (len [n] = 1) as E by done. rewrite E in Hlen.
  apply NoDup_app in Hnd as (Hnd & Hnot & _).
  rewrite intern_rebuild_snoc. specialize (IH Hnd ltac:(lia)).
  apply intern_add; [done| |lia].
  destruct (intern_rebuild names !! n) as [i|] eqn:Ei; [|done].
  destruct IH as [_ IH]. apply IH in Ei as (k & _ & Hk).
  destruct (Hnot n (list_elem_of_lookup_2 _ _ _ Hk)). by left.
Qed.

Lemma intern_map_unique names m1 m2 : intern_ok names m1 → intern_ok names m2 → m1 = m2.
Proof.
  intros [_ H1] [_ H2]. apply map_eq. intros n. apply option_eq. intros i. by rewrite H1, H2.
Qed.

Lemma intern_rebuild_same names byName :
  intern_ok names byName → intern_rebuild names = byName.
Proof.
  intros H. eapply intern_map_unique; [|done].
  apply intern_rebuild_ok; [by eapply intern_NoDup|apply H].
Qed.

(** ** The interface of a name table

    What [ComponentStore] and [TagRegistry] promise: registering returns an identifier in
    range under which [Name] finds the name, registering again returns the same identifier
    and changes nothing, and no registration changes an identifier handed out before. *)
Class NameTable (T : Type) := {
  nt_ok : T → Prop;
  nt_register : T → string → T * Z;
  nt_name : T → Z → outcome string;
  nt_size : T → Z;
  nt_size_nonneg t : 0 ≤ nt_size t;
  nt_register_spec t n :
    nt_ok t → nt_size t < 2 ^ 32 →
    let '(t', id) := nt_register t n in
    nt_ok t' ∧ 0 ≤ id < nt_size t' ∧ nt_size t ≤ nt_size t' ≤ nt_size t + 1 ∧
    nt_name t' id = Done n ∧ nt_register t' n = (t', id) ∧
    (∀ i, 0 ≤ i < nt_size t → nt_name t' i = nt_name t i);
}.

(** Registering a list of names in order, as [Build] functions do. *)
Fixpoint register_all `{NameTable T} (t : T) (ns : list string) : T * list Z :=
  match ns with
  | [] => (t, [])
  | n :: ns' =>
      let '(t1, id) := nt_register t n in
      let '(t2, ids) := register_all t1 ns' in (t2, id :: ids)
  end.

Section client.
Context `{NameTable T}.

Lemma register_all_spec ns t :
  nt_ok t → nt_size t + len ns ≤ 2 ^ 32 →
  let '(t', ids) := register_all t ns in
  nt_ok t' ∧ nt_size t ≤ nt_size t' ≤ nt_size t + len ns ∧
  (∀ i, 0 ≤ i < nt_size t → nt_name t' i = nt_name t i) ∧
  Forall2 (λ n id, nt_name t' id = Done n) ns ids.
Proof.
  revert t. induction ns as [|n ns IH]; intros t Ht Hlen; cbn [register_all].
  { split; [done|]. split; [unfold len; simpl; lia|]. done. }
  rewrite len_cons in *. pose proof (len_nonneg ns).
  pose proof (nt_register_spec t n Ht ltac:(lia)) as Hr.
  destruct (nt_register t n) as [t1 id]. destruct Hr as (Ht1 & Hid & Hsz & Hname & _ & Hstab).
  specialize (IH t1 Ht1 ltac:(lia)). destruct (register_all t1 ns) as [t2 ids].
  destruct IH as (Ht2 & Hsz2 & Hstab2 & Hall). split; [done|]. split; [lia|]. split.
  - intros i Hi. rewrite Hstab2 by lia. apply Hstab. lia.
  - constructor; [|done]. by rewrite Hstab2.
Qed.

(** Distinct names get distinct identifiers, and [Name] recovers each of them. *)
Lemma register_all_inj ns t i j n m id :
  nt_ok t → nt_size t + len ns ≤ 2 ^ 32 →
  ns !! i = Some n → ns !! j = Some m →
  (register_all t ns).2 !! i = Some id → (register_all t ns).2 !! j = Some id → n = m.
Proof.
  intros Ht Hlen Hn Hm Hi Hj. pose proof (register_all_spec ns t Ht Hlen) as Hs.
  destruct (register_all t ns) as [t' ids]. destruct Hs as (_ & _ & _ & Hall). simpl in *.
  pose proof (Forall2_lookup_lr _ _ _ _ _ _ Hall Hn Hi) as H1.
  pose proof (Forall2_lookup_lr _ _ _ _ _ _ Hall Hm Hj) as H2. simpl in *. congruence.
Qed.
End client.

(** ** The laws, once for every table that is a pair of names and map *)

Definition intern (names : list string) (byName : gmap string Z) (n : string)
  : list string * gmap string Z * Z :=
  match byName !! n with
  | Some id => (names, byName, id)
  | None => (names ++ [n], <[n := u32 (len names)]> byName, u32 (len names))
  end.

Definition intern_name (names : list string) (id : Z) : outcome string :=
  if len names <=? id then Done ""%string else index names id.

Lemma intern_name_prefix names names' i :
  names `prefix_of` names' → 0 ≤ i < len names → intern_name names' i = intern_name names i.
Proof.
  intros [l ->] Hi. unfold intern_name. rewrite len_app. pose proof (len_nonneg l).
  destruct (Z.leb_spec (len names + len l) i), (Z.leb_spec (len names) i); try lia.
  unfold index. destruct (0 <=? i); [|done]. by rewrite lookup_app_l by (unfold len in *; lia).
Qed.

Lemma intern_spec names byName n :
  intern_ok names byName → len names < 2 ^ 32 →
  let '(names', byName', id) := intern names byName n in
  intern_ok names' byName' ∧ 0 ≤ id < len names' ∧ len names ≤ len names' ≤ len names + 1 ∧
  intern_name names' id = Done n ∧ intern names' byName' n = (names', byName', id) ∧
  (∀ i, 0 ≤ i < len names → intern_name names' i = intern_name names i).
Proof.
  intros Hok Hlen.
  assert (∀ ns k, ns !! k = Some n → intern_name ns (Z.of_nat k) = Done n ∧
      0 ≤ Z.of_nat k < len ns) as Hname.
  { intros ns k Hk. pose proof (lookup_lt_Some _ _ _ Hk). unfold intern_name, len.
    destruct (Z.leb_spec (Z.of_nat (length ns)) (Z.of_nat k)); [lia|].
    split; [by apply index_of_nat|lia]. }
  unfold intern at 1. destruct (byName !! n) as [id|] eqn:E.
  - pose proof E as (k & -> & Hk)%Hok. destruct (Hname _ _ Hk).
    split_and!; try done; try lia. unfold intern. by rewrite E.
  - pose proof (intern_add _ _ _ Hok E Hlen) as Hadd.
    assert ((names ++ [n]) !! length names = Some n) as Hk by by apply list_lookup_middle.
    destruct (Hname _ _ Hk) as [Hn1 Hn2].
    rewrite len_app in *. change (len [n]) with 1 in *.
    assert (u32 (len names) = Z.of_nat (length names)) as Hu
      by (apply u32_id; unfold in_u32, len in *; lia).
    rewrite Hu in *. split_and!; try done; try lia.
    + unfold intern. by rewrite lookup_insert_eq.
    + intros i Hi. apply intern_name_prefix; [by apply prefix_app_r|done].
Qed.
