(* ===== verification/Component.v ===== *)
(** * Components: [pkg/simulation/component.go]

    [Column] is a struct-of-arrays column over a sparse set; [ComponentStore] names columns
    and binds each to one Go type.  A [*Column[T]] obtained from the store is the pair of the
    store and the component identifier. *)

From S2P Require Import Prelude SparseSet Entity GoValues.
Local Open Scope Z_scope.

(** ** Slices with a capacity *)

(** A Go [[]int32]: the backing array up to the capacity, and the length. *)
Record gslice := mkSlice { sl_arr : list Z; sl_len : nat }.

Definition sl_view (s : gslice) : list Z := take (sl_len s) (sl_arr s).
Definition sl_cap (s : gslice) : Z := len (sl_arr s).
Definition sl_size (s : gslice) : Z := Z.of_nat (sl_len s).
Definition sl_make (n cap : Z) : gslice := mkSlice (replicate (Z.to_nat cap) 0) (Z.to_nat n).
Definition sl_nil : gslice := mkSlice [] 0.

Definition sl_index (s : gslice) (i : Z) : outcome Z := index (sl_view s) i.
Definition sl_assign (s : gslice) (i v : Z) : outcome gslice :=
  if (0 <=? i) && (i <? sl_size s) then Done (mkSlice (<[Z.to_nat i := v]> (sl_arr s)) (sl_len s))
  else Panic "index out of range".

(** [copy(dst, src)] where [dst] is at least as long as [src]. *)
Definition sl_copy (dst src : gslice) : gslice :=
  mkSlice (sl_view src ++ drop (sl_len src) (sl_arr dst)) (sl_len dst).

(** [clear(s[from:])]. *)
Definition sl_clear_from (s : gslice) (from : nat) : gslice :=
  mkSlice (take from (sl_arr s) ++ replicate (sl_len s - from) 0 ++ drop (sl_len s) (sl_arr s))
          (sl_len s).

(* pkg/simulation/component.go:358-378 growInt32 *)
Definition growInt32 (s : gslice) (idx : Z) : gslice :=
  let target := idx + 1 in
  if target <=? sl_size s then s
  else if target <=? sl_cap s then
    let old := sl_len s in
    let s := mkSlice (sl_arr s) (Z.to_nat target) in
    sl_clear_from s old
  else
    let newCap := sl_cap s * 2 in
    let newCap := if newCap <? target then target else newCap in
    let ns := sl_make target newCap in
    sl_copy ns s.

(** ** Columns *)

Section column.
Context {V : Type}.

(* pkg/simulation/component.go:174-188 Column *)
Record Column := mkCol {
  col_sparse : gslice;
  col_dense : list EntityID;
  col_data : list V;
}.

Definition newColumn : Column := mkCol sl_nil [] [].

(* pkg/simulation/component.go:190-208 Column.Set *)
Definition Column__Set (c : Column) (rev : Z) (e : EntityID) (v : V) : outcome (Column * Z) :=
  let idx := Index e in
  let sparse := if sl_size (col_sparse c) <=? idx then growInt32 (col_sparse c) idx
                else col_sparse c in
  let! s := sl_index sparse idx in
  if s =? 0 then
    let! sparse := sl_assign sparse idx (i32 (len (col_data c) + 1)) in
    Done (mkCol sparse (col_dense c ++ [e]) (col_data c ++ [v]), bump rev)
  else
    let! data := assign (col_data c) (s - 1) v in
    Done (mkCol sparse (col_dense c) data, rev).

(** The presence test shared by the accessors: [int(idx) >= len(sparse) || sparse[idx] == 0]. *)
Definition slot (c : Column) (e : EntityID) : outcome Z :=
  let idx := Index e in
  if sl_size (col_sparse c) <=? idx then Done 0 else sl_index (col_sparse c) idx.

(* pkg/simulation/component.go:210-220 Column.Get *)
Definition Column__Get (c : Column) (e : EntityID) : outcome (option V) :=
  let! s := slot c e in
  if s =? 0 then Done None
  else let! v := index (col_data c) (s - 1) in Done (Some v).

(* pkg/simulation/component.go:222-229 Column.MustGet *)
Definition Column__MustGet (c : Column) (e : EntityID) : outcome V :=
  let! r := Column__Get c e in
  match r with Some v => Done v | None => Panic "simulation: component not present" end.

(* pkg/simulation/component.go:231-237 Column.Has *)
Definition Column__Has (c : Column) (e : EntityID) : outcome bool :=
  let! s := slot c e in Done (negb (s =? 0)).

(* pkg/simulation/component.go:239-262 Column.Remove *)
Definition Column__Remove (c : Column) (rev : Z) (e : EntityID) : outcome (Column * Z * bool) :=
  let idx := Index e in
  let! s := slot c e in
  if s =? 0 then Done (c, rev, false)
  else
    let pos := s - 1 in
    let lst := len (col_data c) - 1 in
    let! (sparse, dense, data) :=
      (if pos =? lst then Done (col_sparse c, col_dense c, col_data c)
       else
         let! moved := index (col_dense c) lst in
         let! w := index (col_data c) lst in
         let! data := assign (col_data c) pos w in
         let! dense := assign (col_dense c) pos moved in
         let! sparse := sl_assign (col_sparse c) (Index moved) (i32 (pos + 1)) in
         Done (sparse, dense, data)) in
    let! sparse := sl_assign sparse idx 0 in
    Done (mkCol sparse (take (Z.to_nat lst) dense) (take (Z.to_nat lst) data), bump rev, true).

(* pkg/simulation/component.go:264-276 Column.Each *)
Definition Column__Each {S} (c : Column) (fn : S → EntityID → V → S) (s : S) : S :=
  foldl (λ s ev, fn s ev.1 ev.2) s (zip (col_dense c) (col_data c)).

(* pkg/simulation/component.go:278-283 Column.Len *)
Definition Column__Len (c : Column) : Z := len (col_data c).

(* pkg/simulation/component.go:285-297 Column.GetShard *)
Definition Column__GetShard (c : Column) (e : EntityID) : outcome (option V) :=
  let! s := slot c e in
  if s =? 0 then Done None
  else let! v := index (col_data c) (s - 1) in Done (Some v).

(* pkg/simulation/component.go:299-309 Column.SetShard *)
Definition Column__SetShard (c : Column) (e : EntityID) (v : V) : outcome Column :=
  let! s := slot c e in
  if s =? 0 then
    Panic "simulation: SetShard on absent component (membership change in parallel section)"
  else
    let! data := assign (col_data c) (s - 1) v in
    Done (mkCol (col_sparse c) (col_dense c) data).

(* pkg/simulation/component.go:311-319 Column.entityIDs *)
Definition Column__entityIDs (c : Column) : list EntityID := col_dense c.

(** The column [restoreJSON] installs once the values are decoded: members, values and the
    index rebuilt over [maxIdx + 1] entries. *)
Definition column_of_lists (entities : list EntityID) (vs : list V) : outcome Column :=
  let maxIdx := foldl (λ acc e, if acc <? Index e then Index e else acc) 0 entities in
  let! sparse := ss_build Index (replicate (Z.to_nat (maxIdx + 1)) 0) entities in
  Done (mkCol (mkSlice sparse (length sparse)) entities vs).

End column.
Arguments Column V : clear implicits.

(** ** The component store *)

Section store.
Context `{R : GoRuntime}.

(* pkg/simulation/component.go:321-329 Column.snapshotJSON *)
Definition Column__snapshotJSON (t : gotype) (c : Column value)
  : result (list EntityID * rawJSON) :=
  try! data := json_MarshalSlice t (col_data c) in Ok (col_dense c, data).

(* pkg/simulation/component.go:331-356 Column.restoreJSON *)
Definition Column__restoreJSON (t : gotype) (c : Column value) (entities : list EntityID)
    (data : rawJSON) : outcome (Column value * result unit) :=
  match json_UnmarshalSlice t data with
  | Err e => Done (c, Err e)
  | Ok vs =>
      if negb (len vs =? len entities) then
        Done (c, Err (Errorf "simulation: component restore length mismatch"))
      else let! c' := column_of_lists entities vs in Done (c', Ok tt)
  end.

(* pkg/simulation/component.go:14-24 ComponentStore *)
Record ComponentStore := mkCS {
  cs_names : list string;
  cs_byName : gmap string Z;
  cs_cols : gmap Z (gotype * Column value);
}.

(* pkg/simulation/component.go:26-32 NewComponentStore *)
Definition NewComponentStore : ComponentStore := mkCS [] ∅ ∅.

(* pkg/simulation/component.go:34-47 ComponentStore.Register *)
Definition ComponentStore__Register (s : ComponentStore) (name : string) : ComponentStore * Z :=
  match cs_byName s !! name with
  | Some id => (s, id)
  | None =>
      let id := u32 (len (cs_names s)) in
      (mkCS (cs_names s ++ [name]) (<[name := id]> (cs_byName s)) (cs_cols s), id)
  end.

(* pkg/simulation/component.go:49-57 ComponentStore.Name *)
Definition ComponentStore__Name (s : ComponentStore) (id : Z) : outcome string :=
  if len (cs_names s) <=? id then Done ""%string else index (cs_names s) id.

(* pkg/simulation/component.go:59-80 columnOf *)
Definition columnOf (t : gotype) (s : ComponentStore) (id : Z) (create : bool)
  : outcome (ComponentStore * option Z) :=
  match cs_cols s !! id with
  | Some (t', _) =>
      if decide (t' = t) then Done (s, Some id) else Panic "interface conversion"
  | None =>
      if negb create then Done (s, None)
      else Done (mkCS (cs_names s) (cs_byName s) (<[id := (t, newColumn)]> (cs_cols s)), Some id)
  end.

(* pkg/simulation/component.go:82-87 ColumnOf *)
Definition ColumnOf (t : gotype) (s : ComponentStore) (id : Z)
  : outcome (ComponentStore * option Z) := columnOf t s id true.

(* pkg/simulation/component.go:89-95 RegisterComponent *)
Definition RegisterComponent (t : gotype) (s : ComponentStore) (name : string)
  : outcome (ComponentStore * Z) :=
  let '(s1, id) := ComponentStore__Register s name in
  let! (s2, _) := columnOf t s1 id true in Done (s2, id).

(* pkg/simulation/component.go:97-111 ComponentStore.Entities *)
Definition ComponentStore__Entities (s : ComponentStore) (id : Z) : list EntityID :=
  match cs_cols s !! id with
  | None => []
  | Some (_, c) => Column__entityIDs c
  end.

(* pkg/simulation/snapshot.go:21-28 componentSnapshot *)
Record componentSnapshot := mkCSnap {
  csn_Name : string;
  csn_Entities : list EntityID;
  csn_Values : rawJSON;
}.

(** The snapshot of the component of one identifier, appended to the output. *)
Definition snapshot_component (s : ComponentStore) (out : list componentSnapshot)
    (idname : nat * string) : result (list componentSnapshot) :=
  match cs_cols s !! Z.of_nat idname.1 with
  | None => Ok out
  | Some (t, c) =>
      try! (entities, values) :=
        wrap_err "simulation: snapshot component" (Column__snapshotJSON t c) in
      Ok (out ++ [mkCSnap idname.2 entities values])
  end.

(* pkg/simulation/component.go:121-148 ComponentStore.Snapshot *)
Definition ComponentStore__Snapshot (s : ComponentStore) : result (list componentSnapshot) :=
  rfold (snapshot_component s) [] (imap pair (cs_names s)).

(* pkg/simulation/component.go:150-172 ComponentStore.Restore *)
Fixpoint ComponentStore__Restore (s : ComponentStore) (snaps : list componentSnapshot)
  : outcome (ComponentStore * result unit) :=
  match snaps with
  | [] => Done (s, Ok tt)
  | snap :: snaps' =>
      match cs_byName s !! csn_Name snap with
      | None => Done (s, Err (Errorf "simulation: unknown component in snapshot"))
      | Some id =>
          match cs_cols s !! id with
          | None => Done (s, Err (Errorf "simulation: component not restorable"))
          | Some (t, c) =>
              let! (c', r) := Column__restoreJSON t c (csn_Entities snap) (csn_Values snap) in
              let s' := mkCS (cs_names s) (cs_byName s) (<[id := (t, c')]> (cs_cols s)) in
              match r with
              | Err e => Done (s', Err (Wrapped "simulation: restore component" e))
              | Ok _ => ComponentStore__Restore s' snaps'
              end
          end
      end
  end.

(** An update of the column of identifier [id] through a pointer to it. *)
Definition with_column {A} (s : ComponentStore) (id : Z)
    (f : Column value → outcome (Column value * A)) : outcome (ComponentStore * A) :=
  match cs_cols s !! id with
  | None => Panic "nil pointer dereference"
  | Some (t, c) =>
      let! (c', a) := f c in
      Done (mkCS (cs_names s) (cs_byName s) (<[id := (t, c')]> (cs_cols s)), a)
  end.

End store.

(** ** Growing the sparse slice *)

Definition sl_wf (s : gslice) : Prop := (sl_len s ≤ length (sl_arr s))%nat.

Lemma sl_view_length s : sl_wf s → length (sl_view s) = sl_len s.
Proof. intros H. unfold sl_view. rewrite length_take. unfold sl_wf in H. lia. Qed.

(** [growInt32] computes plain zero extension whatever the spare capacity: the old
    contents are kept, every newly visible element is zero (also when the backing array held
    stale values there), and the result can index [idx]. *)
Theorem growInt32_zero_extends s idx :
  sl_wf s → 0 ≤ idx →
  sl_wf (growInt32 s idx) ∧
  sl_view (growInt32 s idx)
  = sl_view s ++ replicate (Z.to_nat (idx + 1) - sl_len s)%nat 0.
Proof.
  intros Hwf Hidx. unfold growInt32, sl_wf, sl_size, sl_cap, len in *.
  destruct (Z.leb_spec (idx + 1) (Z.of_nat (sl_len s))) as [Hle|Hgt].
  { split; [done|]. replace (Z.to_nat (idx + 1) - sl_len s)%nat with 0%nat by lia.
    by rewrite app_nil_r. }
  destruct (Z.leb_spec (idx + 1) (Z.of_nat (length (sl_arr s)))) as [Hcap|Hcap].
  - unfold sl_clear_from. cbn [sl_arr sl_len]. split.
    + rewrite !length_app, length_take, length_replicate, length_drop. lia.
    + unfold sl_view. cbn [sl_arr sl_len]. rewrite app_assoc, take_app_le.
      * apply take_ge. rewrite length_app, length_take, length_replicate. lia.
      * rewrite length_app, length_take, length_replicate. lia.
  - set (nc := if _ <? _ then _ else _).
    assert (idx + 1 ≤ nc) as Hnc
      by (unfold nc; destruct (Z.ltb_spec (Z.of_nat (length (sl_arr s)) * 2) (idx + 1)); lia).
    unfold sl_copy, sl_make. cbn [sl_arr sl_len]. rewrite drop_replicate.
    pose proof (sl_view_length s Hwf) as Hl. split.
    + rewrite length_app, Hl, length_replicate. lia.
    + unfold sl_view at 1. cbn [sl_arr sl_len].
      rewrite take_app_ge, take_replicate by lia. rewrite Hl. do 2 f_equal. lia.
Qed.

Lemma growInt32_zero_extends_witness :
  sl_wf (growInt32 (mkSlice [7; 8; 9; 9] 2) 3) ∧
  sl_view (growInt32 (mkSlice [7; 8; 9; 9] 2) 3) = [7; 8] ++ replicate 2 0.
Proof. apply (growInt32_zero_extends (mkSlice [7; 8; 9; 9] 2) 3); [unfold sl_wf; simpl; lia|lia]. Defined.

Lemma sl_assign_view s i v :
  sl_wf s → 0 ≤ i < sl_size s →
  ∃ s', sl_assign s i v = Done s' ∧ sl_wf s' ∧ sl_view s' = <[Z.to_nat i := v]> (sl_view s).
Proof.
  unfold sl_assign, sl_size, sl_wf. intros Hwf Hi.
  destruct (Z.leb_spec 0 i), (Z.ltb_spec i (Z.of_nat (sl_len s))); try lia. simpl.
  eexists. split; [done|]. cbn [sl_arr sl_len]. rewrite length_insert. split; [done|].
  unfold sl_view. cbn [sl_arr sl_len]. by rewrite take_insert_lt by lia.
Qed.

(** ** The column refines a finite map *)

Section column_theory.
Context {V : Type}.
Implicit Types (c : Column V) (M : gmap nat (EntityID * V)) (e : EntityID) (v : V).

Record col_inv c : Prop := {
  cinv_wf : sl_wf (col_sparse c);
  cinv_ss : ss_ok eidx (sl_view (col_sparse c)) (col_dense c);
  cinv_data : length (col_data c) = length (col_dense c);
}.

(** Abstractly, a column maps an entity *index* to the identifier it was first set with and
    to its value. *)
Record col_refines c M : Prop := {
  cref_inv : col_inv c;
  cref_map : ∀ i e v, M !! i = Some (e, v) ↔
    ∃ pos, col_dense c !! pos = Some e ∧ col_data c !! pos = Some v ∧ eidx e = i;
}.

Lemma col_refines_find c M e :
  col_refines c M →
  match M !! eidx e with
  | Some (e0, v) => ∃ pos, col_dense c !! pos = Some e0 ∧ col_data c !! pos = Some v ∧
      eidx e0 = eidx e ∧ sl_view (col_sparse c) !! eidx e = Some (Z.of_nat pos + 1)
  | None => ∀ s, sl_view (col_sparse c) !! eidx e = Some s → s = 0
  end.
Proof.
  intros [[Hwf Hss Hd] HM]. destruct (M !! eidx e) as [[e0 v]|] eqn:E.
  - apply HM in E as (pos & He & Hv & Hk). exists pos. split; [done|]. split; [done|].
    split; [done|]. rewrite <- Hk. by eapply ss_lookup_key.
  - intros s Hs. destruct (decide (s = 0)) as [|Hs0]; [done|exfalso].
    destruct (ss_present eidx _ _ _ _ Hss Hs Hs0) as (e0 & He & Hk & _).
    destruct (lookup_lt_is_Some_2 (col_data c) (Z.to_nat (s - 1))) as [v Hv].
    { rewrite Hd. by eapply lookup_lt_Some. }
    assert (M !! eidx e = Some (e0, v)) as HMe by (apply HM; eauto). congruence.
Qed.

Lemma slot_refines c M e :
  col_refines c M →
  match M !! eidx e with
  | Some (e0, v) => ∃ pos, slot c e = Done (Z.of_nat pos + 1) ∧ col_dense c !! pos = Some e0 ∧
      col_data c !! pos = Some v ∧ eidx e0 = eidx e
  | None => slot c e = Done 0
  end.
Proof.
  intros Href. pose proof (col_refines_find c M e Href) as Hf.
  pose proof (sl_view_length _ (cinv_wf _ (cref_inv _ _ Href))) as Hl.
  unfold slot, sl_size, sl_index. rewrite <- eidx_Z.
  destruct (M !! eidx e) as [[e0 v]|].
  - destruct Hf as (pos & He & Hv & Hk & Hs). exists pos.
    pose proof (lookup_lt_Some _ _ _ Hs).
    destruct (Z.leb_spec (Z.of_nat (sl_len (col_sparse c))) (Z.of_nat (eidx e))); [lia|].
    split; [by apply index_of_nat|done].
  - destruct (Z.leb_spec (Z.of_nat (sl_len (col_sparse c))) (Z.of_nat (eidx e))); [done|].
    destruct (lookup_lt_is_Some_2 (sl_view (col_sparse c)) (eidx e)) as [s Hs]; [lia|].
    rewrite (index_of_nat _ _ _ Hs). f_equal. by apply Hf.
Qed.

Lemma Get_refines c M e :
  col_refines c M → Column__Get c e = Done (snd <$> M !! eidx e).
Proof.
  intros Href. unfold Column__Get. pose proof (slot_refines c M e Href) as Hs.
  destruct (M !! eidx e) as [[e0 v]|].
  - destruct Hs as (pos & -> & _ & Hv & _). cbn [obind].
    destruct (Z.eqb_spec (Z.of_nat pos + 1) 0); [lia|].
    replace (Z.of_nat pos + 1 - 1) with (Z.of_nat pos) by lia.
    by rewrite (index_of_nat _ _ _ Hv).
  - rewrite Hs. done.
Qed.

Lemma Has_refines c M e :
  col_refines c M → Column__Has c e = Done (bool_decide (is_Some (M !! eidx e))).
Proof.
  intros Href. unfold Column__Has. pose proof (slot_refines c M e Href) as Hs.
  destruct (M !! eidx e) as [[e0 v]|].
  - destruct Hs as (pos & -> & _). cbn [obind].
    by destruct (Z.eqb_spec (Z.of_nat pos + 1) 0); [lia|].
  - rewrite Hs. done.
Qed.

(** Overwriting the value at one dense position. *)
Lemma col_overwrite c M e e0 v v0 pos :
  col_refines c M → col_dense c !! pos = Some e0 → col_data c !! pos = Some v0 →
  eidx e0 = eidx e → ∀ sp, sl_wf sp → ss_ok eidx (sl_view sp) (col_dense c) →
  col_refines (mkCol sp (col_dense c) (<[pos := v]> (col_data c))) (<[eidx e := (e0, v)]> M).
Proof.
  intros Href Hpe Hpv Hk sp Hwf Hss. split; [split|]; cbn [col_sparse col_dense col_data].
  - done.
  - done.
  - rewrite length_insert. apply Href.
  - intros i e' v'. rewrite lookup_insert_Some. split.
    + intros [[<- [= <- <-]]|[Hne HM]].
      * exists pos. split; [done|]. split; [|done].
        apply list_lookup_insert_eq. by eapply lookup_lt_Some.
      * apply (cref_map _ _ Href) in HM as (p & Hp & Hv & Hi). exists p. split; [done|].
        split; [|done]. rewrite list_lookup_insert_ne; [done|].
        intros <-. rewrite Hpe in Hp. injection Hp as <-. congruence.
    + intros (p & Hp & Hv & Hi). destruct (decide (p = pos)) as [->|Hne].
      * left. rewrite Hpe in Hp. injection Hp as <-.
        rewrite list_lookup_insert_eq in Hv by by eapply lookup_lt_Some.
        injection Hv as <-. split; [congruence|done].
      * right. rewrite list_lookup_insert_ne in Hv by done. split.
        -- intros Heq. apply Hne. eapply (ss_inj eidx); [apply Href|exact Hp|exact Hpe|congruence].
        -- apply (cref_map _ _ Href). eauto.
Qed.

(** Appending an entity that is not in the column. *)
Lemma col_append c M e v :
  col_refines c M → M !! eidx e = None → ∀ sp, sl_wf sp → ss_ok eidx (sl_view sp) (col_dense c ++ [e]) →
  col_refines (mkCol sp (col_dense c ++ [e]) (col_data c ++ [v])) (<[eidx e := (e, v)]> M).
Proof.
  intros Href HM0 sp Hwf Hss. pose proof (cref_inv _ _ Href) as [_ _ Hd].
  split; [split|]; cbn [col_sparse col_dense col_data]; [done|done|rewrite !length_app; simpl; lia|].
  intros i e' v'. rewrite lookup_insert_Some. split.
  - intros [[<- [= <- <-]]|[Hne HM]].
    + exists (length (col_dense c)). rewrite !lookup_app_r, Hd, Nat.sub_diag by lia. done.
    + apply (cref_map _ _ Href) in HM as (p & Hp & Hpv & Hi). exists p.
      split; [by apply lookup_app_l_Some|]. split; [by apply lookup_app_l_Some|done].
  - intros (p & Hp & Hpv & Hi). apply lookup_app_Some in Hp as [Hp|[Hge Hp]].
    + right. apply lookup_app_Some in Hpv as [Hpv|[Hge _]]; [|apply lookup_lt_Some in Hp; lia].
      split; [|apply (cref_map _ _ Href); eauto].
      intros Heq. assert (M !! eidx e = Some (e', v')) by (apply (cref_map _ _ Href); exists p; split; [done|]; split; [done|congruence]).
      congruence.
    + left. apply list_lookup_singleton_Some in Hp as [Hp ->]. split; [done|].
      rewrite lookup_app_r in Hpv by lia. replace (p - length (col_data c))%nat with 0%nat in Hpv by lia.
      injection Hpv as ->. done.
Qed.

(** Who a value written for [e] is filed under. *)
Definition owner M e : EntityID := match M !! eidx e with Some (e0, _) => e0 | None => e end.

Lemma Set_refines c M rev e v :
  col_refines c M → len (col_dense c) < 2 ^ 31 - 1 →
  ∃ c', Column__Set c rev e v
        = Done (c', match M !! eidx e with Some _ => rev | None => bump rev end) ∧
    col_refines c' (<[eidx e := (owner M e, v)]> M) ∧
    len (col_dense c') = len (col_dense c) + match M !! eidx e with Some _ => 0 | None => 1 end ∧
    col_dense c' = col_dense c ++ match M !! eidx e with Some _ => [] | None => [e] end.
Proof.
  intros Href Hlen. pose proof (cref_inv _ _ Href) as [Hwf Hss Hd].
  pose proof (sl_view_length _ Hwf) as Hl. pose proof (Index_range e) as [Hi0 _].
  unfold Column__Set.
  set (sp := if _ <=? _ then _ else _).
  assert (sl_wf sp ∧ ∃ k, sl_view sp = sl_view (col_sparse c) ++ replicate k 0 ∧
            (eidx e < length (sl_view sp))%nat) as (Hwf' & k & Hv & Hlt).
  { unfold sp, sl_size. destruct (Z.leb_spec (Z.of_nat (sl_len (col_sparse c))) (Index e)).
    - destruct (growInt32_zero_extends (col_sparse c) (Index e)) as [? Hg]; [done..|].
      split; [done|]. eexists. split; [exact Hg|]. rewrite Hg, length_app, length_replicate, Hl.
      unfold eidx. lia.
    - split; [done|]. exists 0%nat. simpl. rewrite app_nil_r. split; [done|].
      rewrite Hl. unfold eidx. lia. }
  assert (ss_ok eidx (sl_view sp) (col_dense c)) as Hss' by (rewrite Hv; by apply ss_grow).
  destruct (lookup_lt_is_Some_2 _ _ Hlt) as [s Hs].
  unfold sl_index. rewrite <- eidx_Z, (index_of_nat _ _ _ Hs). cbn [obind].
  pose proof (col_refines_find c M e Href) as Hf. unfold owner.
  destruct (M !! eidx e) as [[e0 w]|] eqn:EM.
  - destruct Hf as (pos & Hpe & Hpw & Hk & Hsp).
    assert (s = Z.of_nat pos + 1) as ->.
    { rewrite Hv in Hs. rewrite lookup_app_l in Hs by by eapply lookup_lt_Some. congruence. }
    destruct (Z.eqb_spec (Z.of_nat pos + 1) 0); [lia|].
    rewrite assign_in_range by (apply lookup_lt_Some in Hpw; unfold len; lia). cbn [obind].
    replace (Z.to_nat (Z.of_nat pos + 1 - 1)) with pos by lia.
    eexists. split; [done|]. cbn [col_dense]. rewrite app_nil_r, Z.add_0_r.
    split; [by eapply col_overwrite|done].
  - assert (s = 0) as ->.
    { rewrite Hv in Hs. apply lookup_app_Some in Hs as [Hs|[_ [-> _]%lookup_replicate]]; [by apply Hf|done]. }
    cbn [Z.eqb]. destruct (sl_assign_view sp (Z.of_nat (eidx e)) (i32 (len (col_data c) + 1)))
      as (sp' & -> & Hwf'' & Hv'); [done|unfold sl_size; rewrite sl_view_length in Hlt by done; lia|].
    cbn [obind]. eexists. split; [done|]. cbn [col_dense].
    split; [|split; [rewrite len_app; unfold len; simpl; lia|done]].
    rewrite Nat2Z.id, i32_id in Hv' by (unfold len in *; lia).
    apply col_append; [done..|]. rewrite Hv'. unfold len. rewrite Hd. by apply ss_add.
Qed.

Lemma SetShard_refines c M e v :
  col_refines c M →
  match M !! eidx e with
  | Some (e0, _) => ∃ c', Column__SetShard c e v = Done c' ∧
      col_refines c' (<[eidx e := (e0, v)]> M) ∧ col_dense c' = col_dense c
  | None => ∃ w, Column__SetShard c e v = Panic w
  end.
Proof.
  intros Href. unfold Column__SetShard. pose proof (slot_refines c M e Href) as Hs.
  destruct (M !! eidx e) as [[e0 w]|].
  - destruct Hs as (pos & -> & Hpe & Hpw & Hk). cbn [obind].
    destruct (Z.eqb_spec (Z.of_nat pos + 1) 0); [lia|].
    rewrite assign_in_range by (apply lookup_lt_Some in Hpw; unfold len; lia). cbn [obind].
    replace (Z.to_nat (Z.of_nat pos + 1 - 1)) with pos by lia.
    eexists. split; [done|]. split; [|done]. eapply col_overwrite; try done; apply Href.
  - rewrite Hs. cbn [obind]. by eexists.
Qed.

(** Dropping one dense position by moving the last one over it deletes its index. *)
Lemma col_delete c M e0 moved w wl pos sp :
  col_refines c M → col_dense c !! pos = Some e0 → col_data c !! pos = Some w →
  col_dense c !! (length (col_dense c) - 1)%nat = Some moved →
  col_data c !! (length (col_data c) - 1)%nat = Some wl → sl_wf sp →
  sl_view sp = <[eidx e0 := 0]> (<[eidx moved := Z.of_nat pos + 1]> (sl_view (col_sparse c))) →
  col_refines (mkCol sp (swap_remove (col_dense c) pos moved) (swap_remove (col_data c) pos wl))
              (delete (eidx e0) M).
Proof.
  intros Href Hpe Hpw Hmv Hwl Hwf' Hv'. pose proof (cref_inv _ _ Href) as [Hwf Hss Hd].
  pose proof (lookup_lt_Some _ _ _ Hpe) as Hlt.
  split; [split|]; cbn [col_sparse col_dense col_data].
  - done.
  - rewrite Hv'. by apply ss_remove.
  - rewrite !swap_remove_length. lia.
  - intros i e' v'. rewrite lookup_delete_Some, (cref_map _ _ Href). split.
    + intros [Hne (p & Hp & Hpv & Hi)]. assert (p ≠ pos) by congruence.
      pose proof (lookup_lt_Some _ _ _ Hp).
      destruct (decide (p = length (col_dense c) - 1)%nat) as [->|Hl].
      * exists pos. rewrite !swap_remove_lookup by lia. rewrite !decide_True by lia.
        rewrite Hmv in Hp. rewrite <- Hd, Hwl in Hpv. injection Hp as <-. injection Hpv as <-. done.
      * exists p. rewrite !swap_remove_lookup by lia. repeat case_decide; try lia. done.
    + intros (p & Hp & Hpv & Hi). rewrite swap_remove_lookup in Hp by lia. rewrite swap_remove_lookup in Hpv by lia.
      destruct (decide (p < length (col_dense c) - 1)%nat) as [Hpl|]; [|done].
      rewrite decide_True in Hpv by lia. destruct (decide (p = pos)) as [->|Hpp].
      * injection Hp as ->. injection Hpv as ->. split.
        -- intros Heq. assert (length (col_dense c) - 1 = pos)%nat; [|lia].
           eapply (ss_inj eidx); [done..|congruence].
        -- exists (length (col_dense c) - 1)%nat. rewrite <- Hd at 2. done.
      * split; [|by eauto]. intros Heq. apply Hpp. eapply (ss_inj eidx); [done..|congruence].
Qed.

(** What [Remove] computes on a present entity. *)
Lemma Remove_exec c rev e e0 moved w wl pos :
  col_inv c → len (col_dense c) < 2 ^ 31 → slot c e = Done (Z.of_nat pos + 1) → eidx e0 = eidx e →
  col_dense c !! pos = Some e0 → col_data c !! pos = Some w →
  col_dense c !! (length (col_dense c) - 1)%nat = Some moved →
  col_data c !! (length (col_data c) - 1)%nat = Some wl →
  ∃ sp, sl_wf sp ∧
    sl_view sp = <[eidx e0 := 0]> (<[eidx moved := Z.of_nat pos + 1]> (sl_view (col_sparse c))) ∧
    Column__Remove c rev e
    = Done (mkCol sp (swap_remove (col_dense c) pos moved) (swap_remove (col_data c) pos wl),
            bump rev, true).
Proof.
  intros [Hwf Hss Hd] Hlen Hslot Hk Hpe Hpw Hmv Hwl. unfold Column__Remove. rewrite Hslot.
  cbn [obind]. pose proof (lookup_lt_Some _ _ _ Hpe) as Hlt.
  destruct (Z.eqb_spec (Z.of_nat pos + 1) 0); [lia|].
  replace (Z.of_nat pos + 1 - 1) with (Z.of_nat pos) by lia.
  pose proof (ss_lookup_key eidx _ _ _ _ Hss Hpe) as Hse.
  pose proof (ss_lookup_key eidx _ _ _ _ Hss Hmv) as Hsm.
  pose proof (lookup_lt_Some _ _ _ Hse). pose proof (lookup_lt_Some _ _ _ Hsm).
  rewrite sl_view_length in * by done.
  unfold swap_remove. rewrite <- (eidx_Z e), <- Hk, Hd.
  replace (Z.to_nat (len (col_data c) - 1)) with (length (col_dense c) - 1)%nat by (unfold len; lia).
  destruct (Z.eqb_spec (Z.of_nat pos) (len (col_data c) - 1)) as [Heq|Hne]; cbn [obind].
  - assert (pos = length (col_dense c) - 1)%nat as -> by (unfold len in Heq; lia).
    rewrite Hd in Hwl. assert (moved = e0) as -> by congruence.
    destruct (sl_assign_view (col_sparse c) (Z.of_nat (eidx e0)) 0) as (sp & -> & Hw & Hv);
      [done|unfold sl_size; lia|].
    exists sp. rewrite Nat2Z.id in Hv. split; [done|].
    rewrite (list_insert_id (sl_view (col_sparse c)) (eidx e0) _ Hse). split; [done|]. cbn [obind].
    by rewrite (list_insert_id (col_dense c)), (list_insert_id (col_data c)) by done.
  - assert (Z.to_nat (len (col_data c) - 1) = length (col_dense c) - 1)%nat as Hn by (unfold len; lia).
    rewrite (proj2 (index_Done (col_dense c) (len (col_data c) - 1) moved))
      by (rewrite Hn; split; [unfold len; lia|done]).
    rewrite (proj2 (index_Done (col_data c) (len (col_data c) - 1) wl))
      by (rewrite Hn, <- Hd; split; [unfold len; lia|done]).
    cbn [obind]. rewrite assign_in_range by (unfold len; lia). cbn [obind].
    rewrite assign_in_range by (unfold len; lia). cbn [obind].
    rewrite i32_id by (unfold len in *; lia). rewrite <- (eidx_Z moved).
    destruct (sl_assign_view (col_sparse c) (Z.of_nat (eidx moved)) (Z.of_nat pos + 1))
      as (sp1 & -> & Hw1 & Hv1); [done|unfold sl_size; lia|]. cbn [obind].
    assert (sl_size sp1 = sl_size (col_sparse c)) as Hsz.
    { unfold sl_size. rewrite <- (sl_view_length sp1), Hv1, length_insert by done.
      by rewrite sl_view_length. }
    destruct (sl_assign_view sp1 (Z.of_nat (eidx e0)) 0) as (sp & -> & Hw & Hv);
      [done|rewrite Hsz; unfold sl_size; lia|].
    exists sp. rewrite Nat2Z.id in Hv, Hv1. rewrite Hv1 in Hv.
    split; [done|]. split; [done|]. cbn [obind]. by rewrite !Nat2Z.id.
Qed.

Lemma Remove_refines c M rev e :
  col_refines c M → len (col_dense c) < 2 ^ 31 →
  match M !! eidx e with
  | Some (e0, _) => ∃ c', Column__Remove c rev e = Done (c', bump rev, true) ∧
      col_refines c' (delete (eidx e) M) ∧ len (col_dense c') = len (col_dense c) - 1 ∧
      col_dense c ≡ₚ e0 :: col_dense c'
  | None => Column__Remove c rev e = Done (c, rev, false)
  end.
Proof.
  intros Href Hlen. pose proof (slot_refines c M e Href) as Hs.
  pose proof (cinv_data _ (cref_inv _ _ Href)) as Hd.
  destruct (M !! eidx e) as [[e0 w]|]; [|unfold Column__Remove; by rewrite Hs].
  destruct Hs as (pos & Hslot & Hpe & Hpw & Hk). pose proof (lookup_lt_Some _ _ _ Hpe).
  destruct (lookup_lt_is_Some_2 (col_dense c) (length (col_dense c) - 1)) as [moved Hmv]; [lia|].
  destruct (lookup_lt_is_Some_2 (col_data c) (length (col_data c) - 1)) as [wl Hwl]; [lia|].
  destruct (Remove_exec c rev e e0 moved w wl pos) as (sp & Hwf & Hv & ->);
    [apply Href|done..|].
  eexists. split; [done|]. cbn [col_dense]. rewrite <- Hk. split; [by eapply col_delete|].
  split; [unfold len; rewrite swap_remove_length; lia|by apply swap_remove_perm].
Qed.

Lemma newColumn_refines : col_refines newColumn ∅.
Proof.
  split; [split|]; cbn.
  - unfold sl_wf. simpl. lia.
  - apply (ss_nil eidx 0).
  - done.
  - intros i e v. rewrite lookup_empty. naive_solver.
Qed.
End column_theory.

(** ** Sequences of column operations *)

Section column_runs.
Context {V : Type}.

Inductive col_op :=
  | CSet (e : EntityID) (v : V)
  | CGet (e : EntityID)
  | CHas (e : EntityID)
  | CRemove (e : EntityID)
  | CGetShard (e : EntityID)
  | CSetShard (e : EntityID) (v : V).

Inductive col_ret := RUnit | RVal (v : option V) | RBool (b : bool).

Definition col_exec (c : Column V) (rev : Z) (op : col_op) : outcome (Column V * Z * col_ret) :=
  match op with
  | CSet e v => let! (c', rev') := Column__Set c rev e v in Done (c', rev', RUnit)
  | CGet e => let! r := Column__Get c e in Done (c, rev, RVal r)
  | CHas e => let! b := Column__Has c e in Done (c, rev, RBool b)
  | CRemove e => let! (c', rev', b) := Column__Remove c rev e in Done (c', rev', RBool b)
  | CGetShard e => let! r := Column__GetShard c e in Done (c, rev, RVal r)
  | CSetShard e v => let! c' := Column__SetShard c e v in Done (c', rev, RUnit)
  end.

Fixpoint col_run (c : Column V) (rev : Z) (ops : list col_op) : outcome (Column V * Z * list col_ret) :=
  match ops with
  | [] => Done (c, rev, [])
  | op :: ops' =>
      let! (c1, rev1, r) := col_exec c rev op in
      let! (c2, rev2, rs) := col_run c1 rev1 ops' in Done (c2, rev2, r :: rs)
  end.

(** The specification: a map from entity indices; [None] is the panic of [SetShard]. *)
Definition map_exec (M : gmap nat (EntityID * V)) (op : col_op)
  : option (gmap nat (EntityID * V) * col_ret) :=
  match op with
  | CSet e v => Some (<[eidx e := (owner M e, v)]> M, RUnit)
  | CGet e | CGetShard e => Some (M, RVal (snd <$> M !! eidx e))
  | CHas e => Some (M, RBool (bool_decide (is_Some (M !! eidx e))))
  | CRemove e => Some (delete (eidx e) M, RBool (bool_decide (is_Some (M !! eidx e))))
  | CSetShard e v =>
      match M !! eidx e with
      | Some (e0, _) => Some (<[eidx e := (e0, v)]> M, RUnit)
      | None => None
      end
  end.

Fixpoint map_run (M : gmap nat (EntityID * V)) (ops : list col_op)
  : option (gmap nat (EntityID * V) * list col_ret) :=
  match ops with
  | [] => Some (M, [])
  | op :: ops' =>
      match map_exec M op with
      | Some (M1, r) =>
          match map_run M1 ops' with Some (M2, rs) => Some (M2, r :: rs) | None => None end
      | None => None
      end
  end.

Definition sets (ops : list col_op) : Z :=
  len (List.filter (λ op, match op with CSet _ _ => true | _ => false end) ops).

Lemma col_exec_refines c M rev op :
  col_refines c M → len (col_dense c) < 2 ^ 31 - 1 →
  match map_exec M op with
  | Some (M', r) => ∃ c' rev', col_exec c rev op = Done (c', rev', r) ∧ col_refines c' M' ∧
      len (col_dense c') ≤ len (col_dense c) + sets [op]
  | None => ∃ w, col_exec c rev op = Panic w
  end.
Proof.
  intros Href Hlen.
  assert (sets [op] = match op with CSet _ _ => 1 | _ => 0 end) as -> by by destruct op.
  destruct op as [e v|e|e|e|e|e v]; cbn [map_exec col_exec].
  - destruct (Set_refines c M rev e v Href Hlen) as (c' & -> & Href' & Hl & _).
    eexists _, _. split; [reflexivity|]. split; [done|]. rewrite Hl. destruct (M !! eidx e); lia.
  - rewrite (Get_refines c M e Href). eexists _, _. split; [reflexivity|]. split; [done|lia].
  - rewrite (Has_refines c M e Href). eexists _, _. split; [reflexivity|]. split; [done|lia].
  - pose proof (Remove_refines c M rev e Href ltac:(lia)) as Hr.
    destruct (M !! eidx e) as [[e0 v]|] eqn:EM.
    + destruct Hr as (c' & -> & Href' & Hl & _). eexists _, _. split; [reflexivity|]. split; [done|lia].
    + rewrite Hr. eexists _, _. split; [reflexivity|]. rewrite delete_id by done. split; [done|lia].
  - change (Column__GetShard c e) with (Column__Get c e). rewrite (Get_refines c M e Href).
    eexists _, _. split; [reflexivity|]. split; [done|lia].
  - pose proof (SetShard_refines c M e v Href) as Hs. destruct (M !! eidx e) as [[e0 w]|].
    + destruct Hs as (c' & -> & Href' & Hd). eexists _, _. split; [reflexivity|]. split; [done|].
      rewrite Hd. lia.
    + destruct Hs as [w ->]. by eexists.
Qed.

Lemma sets_cons op ops : sets (op :: ops) = sets [op] + sets ops.
Proof. unfold sets, len. destruct op; simpl; lia. Qed.

Lemma col_run_refines ops c M rev :
  col_refines c M → len (col_dense c) + sets ops < 2 ^ 31 - 1 →
  match map_run M ops with
  | Some (M', rs) => ∃ c' rev', col_run c rev ops = Done (c', rev', rs) ∧ col_refines c' M'
  | None => ∃ w, col_run c rev ops = Panic w
  end.
Proof.
  revert c M rev. induction ops as [|op ops IH]; intros c M rev Href Hlen.
  - eexists _, _. split; [done|done].
  - rewrite sets_cons in Hlen. assert (0 ≤ sets ops) by (unfold sets, len; lia).
    assert (0 ≤ sets [op]) by (unfold sets, len; lia).
    pose proof (col_exec_refines c M rev op Href ltac:(lia)) as He. cbn [map_run col_run].
    destruct (map_exec M op) as [[M1 r]|]; [|by destruct He as [w ->]; eexists].
    destruct He as (c1 & rev1 & -> & Href1 & Hl). cbn [obind].
    specialize (IH c1 M1 rev1 Href1 ltac:(lia)).
    destruct (map_run M1 ops) as [[M2 rs]|].
    + destruct IH as (c2 & rev2 & -> & Href2). eexists _, _. split; [done|done].
    + destruct IH as [w ->]. by eexists.
Qed.

(** C6: a column behaves as a finite map from entity indices: every sequence of [Set], [Get],
    [Has], [Remove], [GetShard] and [SetShard] calls with fewer than [2^31 - 1] [Set]s returns
    exactly what the map returns, and panics exactly when [SetShard] hits an absent entity. *)
Theorem Column_refines_map (ops : list col_op) rev :
  sets ops < 2 ^ 31 - 1 →
  match map_run ∅ ops with
  | Some (M, rs) => ∃ c rev', col_run newColumn rev ops = Done (c, rev', rs) ∧ col_refines c M
  | None => ∃ w, col_run newColumn rev ops = Panic w
  end.
Proof. intros Hb. by apply col_run_refines; [apply newColumn_refines|]. Qed.
End column_runs.
Arguments col_op V : clear implicits.
Arguments col_ret V : clear implicits.

Lemma Column_refines_map_witness :
  ∃ c rev', col_run newColumn 0 [CSet 1 10; CSet 4294967297 20; CRemove 1; CGet 4294967297]
    = Done (c, rev', [RUnit; RUnit; RBool true; RVal (Some 20)]) ∧
    col_refines c (delete 0%nat (<[1%nat := (4294967297, 20)]> (<[0%nat := (1, 10)]> ∅))).
Proof.
  apply (Column_refines_map [CSet 1 10; CSet 4294967297 20; CRemove 1; CGet 4294967297] 0).
  by vm_compute.
Defined.

(** A column ignores the generation half of an identifier: once index 0 is recycled, the
    stale identifier [1] reads the value of its successor [2], and the column keeps listing
    the stale identifier instead of the live one. *)
Theorem Column_ignores_generation :
  Index 1 = Index 2 ∧ Version 1 ≠ Version 2 ∧
  ∃ c rev, col_run newColumn 0 [CSet 1 10; CSet 2 20; CGet 1]
    = Done (c, rev, [RUnit; RUnit; RVal (Some 20)]) ∧ Column__entityIDs c = [1].
Proof. split; [done|]. split; [done|]. eexists _, _. split; [vm_compute; reflexivity|reflexivity]. Qed.
