(* ===== verification/Store.v ===== *)
(** * The component store: registration, equivalence and snapshots

    The store is a name table; two columns are equivalent when they hold the same members in
    the same order with the same values, whatever the spare capacity of their index; a
    snapshot does not distinguish equivalent stores, and restoring one gives an equivalent
    store back. *)

From S2P Require Import Prelude SparseSet Entity GoValues Interning Component.
Local Open Scope Z_scope.

(** ** The store is a name table *)

Section registry.
Context `{R : GoRuntime}.

Lemma ComponentStore__Register_intern (s : ComponentStore) n :
  ComponentStore__Register s n =
  let '(names, byName, id) := intern (cs_names s) (cs_byName s) n in
  (mkCS names byName (cs_cols s), id).
Proof.
  unfold ComponentStore__Register, intern. destruct s as [names byName cols]. simpl.
  by destruct (byName !! n).
Qed.

#[global] Program Instance ComponentStore_NameTable : NameTable ComponentStore := {
  nt_ok s := intern_ok (cs_names s) (cs_byName s);
  nt_register := ComponentStore__Register;
  nt_name := ComponentStore__Name;
  nt_size s := len (cs_names s);
}.
Next Obligation. intros t. apply len_nonneg. Qed.
Next Obligation.
  intros [names byName cols] n Hok Hlen. rewrite ComponentStore__Register_intern. cbn in *.
  pose proof (intern_spec names byName n Hok Hlen) as Hs.
  destruct (intern names byName n) as [[names' byName'] id].
  destruct Hs as (? & ? & ? & ? & Hagain & ?). do 4 (split; [done|]).
  split; [|done]. rewrite ComponentStore__Register_intern. cbn. by rewrite Hagain.
Qed.
End registry.

(** ** Equivalent columns *)

Section equivalence.
Context {V : Type}.
Implicit Types (c : Column V).

#[global] Instance column_equiv : Equiv (Column V) := λ c1 c2,
  col_dense c1 = col_dense c2 ∧ col_data c1 = col_data c2.

#[global] Instance column_equivalence : Equivalence (≡@{Column V}).
Proof.
  split.
  - by intros c.
  - intros c1 c2 [? ?]. by split.
  - intros c1 c2 c3 [? ?] [? ?]. split; congruence.
Qed.

#[global] Instance Column_Len_proper : Proper ((≡) ==> (=)) (Column__Len (V := V)).
Proof. intros c1 c2 [_ H]. unfold Column__Len. by rewrite H. Qed.

#[global] Instance Column_entityIDs_proper : Proper ((≡) ==> (=)) (Column__entityIDs (V := V)).
Proof. by intros c1 c2 [H _]. Qed.

#[global] Instance Column_Each_proper {S} (fn : S → EntityID → V → S) :
  Proper ((≡) ==> (=) ==> (=)) (λ c, Column__Each c fn).
Proof. intros c1 c2 [H1 H2] s1 s2 ->. unfold Column__Each. by rewrite H1, H2. Qed.

(** A column has one abstraction. *)
Lemma col_refines_exists c : col_inv c → ∃ M, col_refines c M.
Proof.
  intros Hinv. pose proof Hinv as [_ Hss Hd].
  exists (list_to_map ((λ ev, (eidx ev.1, ev)) <$> zip (col_dense c) (col_data c))).
  split; [done|]. intros i e v. rewrite <- elem_of_list_to_map.
  - rewrite list_elem_of_fmap. split.
    + intros ([e' v'] & [= -> <- <-] & [pos Hp]%list_elem_of_lookup).
      apply lookup_zip_Some in Hp as [??]. eauto.
    + intros (pos & He & Hv & <-). exists (e, v). split; [done|].
      apply list_elem_of_lookup. exists pos. by apply lookup_zip_Some.
  - rewrite <- list_fmap_compose.
    replace (fst ∘ _) with (eidx ∘ fst (A := EntityID) (B := V)) by done.
    rewrite list_fmap_compose, fst_zip by lia. by eapply ss_NoDup.
Qed.

Lemma col_equiv_refines c1 c2 M : c1 ≡ c2 → col_inv c2 → col_refines c1 M → col_refines c2 M.
Proof. intros [Hd Hv] Hinv [_ HM]. split; [done|]. intros i e v. by rewrite HM, Hd, Hv. Qed.

(** The data of a column is determined by its members and its abstraction. *)
Lemma col_refines_equiv c1 c2 M :
  col_refines c1 M → col_refines c2 M → col_dense c1 = col_dense c2 → c1 ≡ c2.
Proof.
  intros [Hi1 HM1] [Hi2 HM2] Hd. split; [done|]. apply list_eq_same_length with (length (col_data c1)).
  - by rewrite (cinv_data _ Hi1), (cinv_data _ Hi2), Hd.
  - done.
  - intros pos v1 v2 _ Hv1 Hv2. pose proof (lookup_lt_Some _ _ _ Hv1) as Hlt.
    rewrite (cinv_data _ Hi1) in Hlt.
    destruct (lookup_lt_is_Some_2 _ _ Hlt) as [e He].
    assert (M !! eidx e = Some (e, v1)) as E1 by (apply HM1; eauto).
    assert (M !! eidx e = Some (e, v2)) as E2 by (apply HM2; rewrite <- Hd; eauto).
    congruence.
Qed.

Lemma Remove_dense c rev e c' rev' :
  col_inv c → len (col_dense c) < 2 ^ 31 → Column__Remove c rev e = Done (c', rev', true) →
  ∃ pos e0 moved, col_dense c !! pos = Some e0 ∧ eidx e0 = eidx e ∧
    col_dense c !! (length (col_dense c) - 1)%nat = Some moved ∧
    col_dense c' = swap_remove (col_dense c) pos moved.
Proof.
  intros Hinv Hlen HR. destruct (col_refines_exists c Hinv) as [M Href].
  pose proof (slot_refines c M e Href) as Hs.
  destruct (M !! eidx e) as [[e0 w]|] eqn:EM.
  - destruct Hs as (pos & Hslot & Hpe & Hpw & Hk). pose proof (lookup_lt_Some _ _ _ Hpe).
    pose proof (cinv_data _ Hinv) as Hd.
    destruct (lookup_lt_is_Some_2 (col_dense c) (length (col_dense c) - 1)) as [moved Hmv]; [lia|].
    destruct (lookup_lt_is_Some_2 (col_data c) (length (col_data c) - 1)) as [wl Hwl]; [lia|].
    destruct (Remove_exec c rev e e0 moved w wl pos) as (sp & _ & _ & Heq); [done..|].
    rewrite HR in Heq. apply Done3_inj in Heq as (-> & _ & _). by exists pos, e0, moved.
  - unfold Column__Remove in HR. by rewrite Hs in HR.
Qed.

(** Removal reorders equal dense slices in the same way. *)
Lemma Remove_dense_equal c1 c2 rev e c1' c2' rev1 rev2 :
  col_inv c1 → col_inv c2 → col_dense c1 = col_dense c2 → len (col_dense c1) < 2 ^ 31 →
  Column__Remove c1 rev e = Done (c1', rev1, true) → Column__Remove c2 rev e = Done (c2', rev2, true) →
  col_dense c1' = col_dense c2'.
Proof.
  intros H1 H2 Hd Hb X1 X2. assert (len (col_dense c2) < 2 ^ 31) as Hb2 by (by rewrite <- Hd).
  destruct (Remove_dense c1 rev e c1' rev1 H1 Hb X1) as (p1 & a1 & m1 & P1 & K1 & L1 & ->).
  destruct (Remove_dense c2 rev e c2' rev2 H2 Hb2 X2) as (p2 & a2 & m2 & P2 & K2 & L2 & ->).
  rewrite <- Hd in *. assert (p1 = p2) as -> by (eapply (ss_inj eidx); [apply (cinv_ss _ H1)|done|done|congruence]).
  by assert (m1 = m2) as -> by congruence.
Qed.

(** Equivalent columns stay equivalent under every operation, with the same results. *)
Lemma col_exec_equiv c1 c2 rev op :
  col_inv c1 → col_inv c2 → c1 ≡ c2 → len (col_dense c1) < 2 ^ 31 - 1 →
  (∃ c1' c2' rev1 r, col_exec c1 rev op = Done (c1', rev1, r) ∧
     (∃ rev2, col_exec c2 rev op = Done (c2', rev2, r)) ∧
     col_inv c1' ∧ col_inv c2' ∧ c1' ≡ c2') ∨
  (∃ w1 w2, col_exec c1 rev op = Panic w1 ∧ col_exec c2 rev op = Panic w2).
Proof.
  intros H1 H2 Heq Hlen. destruct (col_refines_exists c1 H1) as [M Href1].
  pose proof (col_equiv_refines c1 c2 M Heq H2 Href1) as Href2. pose proof Heq as [Hd Hv].
  assert (len (col_dense c2) < 2 ^ 31 - 1) as Hlen2 by (rewrite <- Hd; exact Hlen).
  assert (len (col_dense c1) < 2 ^ 31) as Hb1 by lia.
  assert (len (col_dense c2) < 2 ^ 31) as Hb2 by lia.
  pose proof (col_exec_refines c1 M rev op Href1 Hlen) as E1.
  pose proof (col_exec_refines c2 M rev op Href2 Hlen2) as E2.
  destruct (map_exec M op) as [[M' r]|]; [left|right].
  2: { destruct E1 as [w1 ->], E2 as [w2 ->]. by exists w1, w2. }
  destruct E1 as (c1' & rev1 & E1 & R1 & _), E2 as (c2' & rev2 & E2 & R2 & _).
  exists c1', c2', rev1, r. split; [done|]. split; [by exists rev2|].
  split; [apply R1|]. split; [apply R2|]. eapply col_refines_equiv; [done|done|].
  destruct op as [e v|e|e|e|e|e v]; cbn [col_exec] in E1, E2.
  - destruct (Set_refines c1 M rev e v Href1 Hlen) as (x1 & X1 & _ & _ & D1).
    destruct (Set_refines c2 M rev e v Href2 Hlen2) as (x2 & X2 & _ & _ & D2).
    rewrite X1 in E1. rewrite X2 in E2. cbn [obind] in E1, E2. apply Done3_inj in E1 as (<- & _ & _).
    apply Done3_inj in E2 as (<- & _ & _). rewrite D1, D2, Hd. reflexivity.
  - rewrite (Get_refines c1 M e Href1) in E1. rewrite (Get_refines c2 M e Href2) in E2.
    cbn [obind] in E1, E2. apply Done3_inj in E1 as (<- & _ & _). apply Done3_inj in E2 as (<- & _ & _). exact Hd.
  - rewrite (Has_refines c1 M e Href1) in E1. rewrite (Has_refines c2 M e Href2) in E2.
    cbn [obind] in E1, E2. apply Done3_inj in E1 as (<- & _ & _). apply Done3_inj in E2 as (<- & _ & _). exact Hd.
  - destruct (Column__Remove c1 rev e) as [[[x1 rv1] b1]|] eqn:X1; [|done].
    destruct (Column__Remove c2 rev e) as [[[x2 rv2] b2]|] eqn:X2; [|done].
    cbn [obind] in E1, E2. apply Done3_inj in E1 as (-> & _ & <-). apply Done3_inj in E2 as (-> & _ & [= ->]).
    pose proof (Remove_refines c1 M rev e Href1 Hb1) as Q1.
    pose proof (Remove_refines c2 M rev e Href2 Hb2) as Q2.
    destruct (M !! eidx e) as [[e0 v0]|].
    + destruct b1; [|exfalso; destruct Q1 as (? & Q1 & _); rewrite X1 in Q1; discriminate].
      by eapply (Remove_dense_equal c1 c2).
    + rewrite X1 in Q1. rewrite X2 in Q2. apply Done3_inj in Q1 as (-> & _ & _). apply Done3_inj in Q2 as (-> & _ & _). exact Hd.
  - change (Column__GetShard c1 e) with (Column__Get c1 e) in E1.
    change (Column__GetShard c2 e) with (Column__Get c2 e) in E2.
    rewrite (Get_refines c1 M e Href1) in E1. rewrite (Get_refines c2 M e Href2) in E2.
    cbn [obind] in E1, E2. apply Done3_inj in E1 as (<- & _ & _). apply Done3_inj in E2 as (<- & _ & _). exact Hd.
  - pose proof (SetShard_refines c1 M e v Href1) as S1.
    pose proof (SetShard_refines c2 M e v Href2) as S2. destruct (M !! eidx e) as [[e0 w]|].
    + destruct S1 as (x1 & X1 & _ & D1), S2 as (x2 & X2 & _ & D2).
      rewrite X1 in E1. rewrite X2 in E2. cbn [obind] in E1, E2.
      apply Done3_inj in E1 as (<- & _ & _). apply Done3_inj in E2 as (<- & _ & _). by rewrite D1, D2.
    + destruct S1 as [w X1]. by rewrite X1 in E1.
Qed.
End equivalence.

(** ** Restoring a column *)

Lemma maxIdx_bound (es : list EntityID) acc :
  (∀ e, e ∈ es → Index e ≤ foldl (λ acc e, if acc <? Index e then Index e else acc) acc es) ∧
  acc ≤ foldl (λ acc e, if acc <? Index e then Index e else acc) acc es.
Proof.
  revert acc. induction es as [|x es IH]; intros acc; cbn [foldl]; [split; [set_solver|lia]|].
  destruct (IH (if acc <? Index x then Index x else acc)) as [H1 H2].
  destruct (Z.ltb_spec acc (Index x)); (split; [|lia]); intros e [->|He]%elem_of_cons;
    [lia|by apply H1|lia|by apply H1].
Qed.

Lemma column_of_lists_ok {V} (c : Column V) :
  col_inv c → len (col_dense c) < 2 ^ 31 →
  ∃ c', column_of_lists (col_dense c) (col_data c) = Done c' ∧ col_inv c' ∧ c' ≡ c.
Proof.
  intros [Hwf Hss Hd] Hlen. unfold column_of_lists.
  set (mx := foldl _ 0 _). pose proof (maxIdx_bound (col_dense c) 0) as [Hmax H0]. fold mx in Hmax, H0.
  destruct (ss_build_ok eidx Index (Z.to_nat (mx + 1)) (col_dense c)) as (sp & -> & Hok & Hl).
  - intros e He. specialize (Hmax e He). pose proof (Index_range e) as [Hi0 Hi1]. split; [lia|done].
  - by eapply ss_NoDup.
  - done.
  - cbn [obind]. eexists. split; [done|]. split; [|done]. split; cbn.
    + unfold sl_wf. cbn. lia.
    + unfold sl_view. cbn. by rewrite take_ge.
    + done.
Qed.

(** ** Snapshots of a store *)

Section store_snapshots.
Context `{R : GoRuntime}.
Implicit Types (s : ComponentStore).

#[global] Instance store_equiv : Equiv ComponentStore := λ s1 s2,
  cs_names s1 = cs_names s2 ∧ cs_byName s1 = cs_byName s2 ∧
  ∀ id, option_relation (λ x y : gotype * Column value, x.1 = y.1 ∧ x.2 ≡ y.2)
          (λ _, False) (λ _, False) (cs_cols s1 !! id) (cs_cols s2 !! id).

#[global] Instance store_equivalence : Equivalence (≡@{ComponentStore}).
Proof.
  split.
  - intros s. split; [done|]. split; [done|]. intros id.
    destruct (cs_cols s !! id) as [[t c]|]; [|done]. split; [done|reflexivity].
  - intros s1 s2 (H1 & H2 & H3). split; [done|]. split; [done|]. intros id. specialize (H3 id).
    destruct (cs_cols s1 !! id) as [[]|], (cs_cols s2 !! id) as [[]|]; try done.
    destruct H3. split; [done|by symmetry].
  - intros s1 s2 s3 (H1 & H2 & H3) (G1 & G2 & G3). split; [congruence|]. split; [congruence|].
    intros id. specialize (H3 id). specialize (G3 id).
    destruct (cs_cols s1 !! id) as [[]|], (cs_cols s2 !! id) as [[]|],
      (cs_cols s3 !! id) as [[]|]; try done.
    destruct H3, G3. split; [congruence|by etransitivity].
Qed.

#[global] Instance Column_snapshotJSON_proper t :
  Proper ((≡) ==> (=)) (Column__snapshotJSON t).
Proof. intros c1 c2 [H1 H2]. unfold Column__snapshotJSON. by rewrite H1, H2. Qed.

#[global] Instance ComponentStore_Entities_proper :
  Proper ((≡) ==> (=) ==> (=)) ComponentStore__Entities.
Proof.
  intros s1 s2 (_ & _ & H) id ? <-. specialize (H id). unfold ComponentStore__Entities.
  destruct (cs_cols s1 !! id) as [[t c]|], (cs_cols s2 !! id) as [[t' c']|]; try done.
  destruct H as [_ H]. by rewrite H.
Qed.

Lemma rfold_ext {A S} (f g : S → A → result S) l st :
  (∀ st a, f st a = g st a) → rfold f st l = rfold g st l.
Proof.
  intros H. revert st. induction l as [|a l IH]; intros st; simpl; [done|].
  rewrite H. destruct (g st a); simpl; [apply IH|done].
Qed.

(** Equivalent stores have the same snapshot. *)
#[global] Instance ComponentStore_Snapshot_proper :
  Proper ((≡) ==> (=)) ComponentStore__Snapshot.
Proof.
  intros s1 s2 (H1 & _ & H). unfold ComponentStore__Snapshot. rewrite H1. apply rfold_ext.
  intros out [k n]. unfold snapshot_component. cbn. specialize (H (Z.of_nat k)).
  destruct (cs_cols s1 !! _) as [[t c]|], (cs_cols s2 !! _) as [[t' c']|]; try done.
  destruct H as [Ht H]. cbn in Ht, H. subst t'. by rewrite H.
Qed.

(** A store a model can build: unique names, well-formed columns, at registered names only. *)
Record store_inv s : Prop := {
  si_names : intern_ok (cs_names s) (cs_byName s);
  si_cols : ∀ id t c, cs_cols s !! id = Some (t, c) →
    0 ≤ id < len (cs_names s) ∧ col_inv c ∧ len (col_dense c) < 2 ^ 31;
}.

(** Two stores with the same components, as built by the same [Initialize]. *)
Definition same_schema s1 s2 : Prop :=
  cs_names s1 = cs_names s2 ∧ cs_byName s1 = cs_byName s2 ∧
  ∀ id, fst <$> cs_cols s1 !! id = fst <$> cs_cols s2 !! id.

Context {marshalable : value → Prop} {J : JsonRoundTrip R marshalable}.

Definition store_marshalable s : Prop :=
  ∀ id t c, cs_cols s !! id = Some (t, c) →
    Forall marshalable (col_data c) ∧ Forall (λ v, typeOf v = t) (col_data c).

Lemma restoreJSON_ok t c c0 :
  col_inv c → len (col_dense c) < 2 ^ 31 →
  Forall marshalable (col_data c) → Forall (λ v, typeOf v = t) (col_data c) →
  ∃ raw, Column__snapshotJSON t c = Ok (col_dense c, raw) ∧
  ∃ c', Column__restoreJSON t c0 (col_dense c) raw = Done (c', Ok tt) ∧ col_inv c' ∧ c' ≡ c.
Proof using J.
  intros Hinv Hlen Hm Ht. destruct (json_slice_round_trip t (col_data c) Hm Ht) as (raw & Hs & Hu).
  exists raw. unfold Column__snapshotJSON, Column__restoreJSON. rewrite Hs, Hu. split; [done|].
  assert (len (col_data c) = len (col_dense c)) as -> by (unfold len; by rewrite (cinv_data _ Hinv)).
  rewrite Z.eqb_refl. cbn [negb]. destruct (column_of_lists_ok c Hinv Hlen) as (c' & -> & Hc').
  by exists c'.
Qed.

(** The store after the components of the first [k] names were restored from [s]. *)
Definition partly s (k : nat) s' : Prop :=
  cs_names s' = cs_names s ∧ cs_byName s' = cs_byName s ∧
  ∀ id, option_relation (λ x y : gotype * Column value, x.1 = y.1 ∧
            (0 ≤ id < Z.of_nat k → col_inv x.2 ∧ x.2 ≡ y.2))
          (λ _, False) (λ _, False) (cs_cols s' !! id) (cs_cols s !! id).

Lemma restore_loop s k ns s' acc :
  store_inv s → store_marshalable s → drop k (cs_names s) = ns → partly s k s' →
  ∃ snaps, rfold (snapshot_component s) acc (imap (λ i n, ((k + i)%nat, n)) ns) = Ok (acc ++ snaps) ∧
  ∃ s'', ComponentStore__Restore s' snaps = Done (s'', Ok tt) ∧
         partly s (k + length ns) s''.
Proof using J.
  intros Hinv Hm. revert k s' acc. induction ns as [|n ns IH]; intros k s' acc Hdrop Hp.
  { exists []. rewrite app_nil_r. split; [done|]. exists s'. rewrite Nat.add_0_r. by split. }
  assert (cs_names s !! k = Some n) as Hn.
  { pose proof (lookup_drop (cs_names s) k 0) as E. rewrite Hdrop, Nat.add_0_r in E. by symmetry. }
  assert (drop (S k) (cs_names s) = ns) as Hdrop'.
  { rewrite (drop_S _ n) in Hdrop by done. by injection Hdrop. }
  rewrite imap_cons. cbn [rfold]. rewrite Nat.add_0_r.
  assert (imap ((λ i m, ((k + i)%nat, m)) ∘ S) ns = imap (λ i m, ((S k + i)%nat, m)) ns) as ->.
  { apply imap_ext. intros i m _. simpl. by rewrite Nat.add_succ_r. }
  replace (k + length (n :: ns))%nat with (S k + length ns)%nat by (simpl; lia).
  unfold snapshot_component at 1. cbn [fst snd]. pose proof Hp as (Hp1 & Hp2 & Hp3).
  pose proof (Hp3 (Z.of_nat k)) as Hk.
  destruct (cs_cols s !! Z.of_nat k) as [[t c]|] eqn:Ec.
  - destruct (cs_cols s' !! Z.of_nat k) as [[t' c0]|] eqn:Ec'; [|done].
    destruct Hk as [Et _]. cbn in Et. subst t'.
    destruct (si_cols _ Hinv _ _ _ Ec) as (_ & Hci & Hcl).
    destruct (Hm _ _ _ Ec) as [Hm1 Hm2].
    destruct (restoreJSON_ok t c c0 Hci Hcl Hm1 Hm2) as (raw & -> & c' & Hr & Hci' & Heq).
    cbn [wrap_err rbind].
    set (s1 := mkCS (cs_names s') (cs_byName s') (<[Z.of_nat k := (t, c')]> (cs_cols s'))).
    destruct (IH (S k) s1 (acc ++ [mkCSnap n (col_dense c) raw]) Hdrop')
      as (snaps & -> & s'' & Hrest & Hp'').
    { split; [done|]. split; [done|]. intros id. cbn [s1 cs_cols].
      destruct (decide (id = Z.of_nat k)) as [->|Hne].
      - rewrite lookup_insert_eq, Ec. split; [done|]. intros _. by split.
      - rewrite lookup_insert_ne by done. specialize (Hp3 id).
        destruct (cs_cols s' !! id), (cs_cols s !! id); try done.
        destruct Hp3 as [? Himp]. split; [done|]. intros ?. apply Himp. lia. }
    exists (mkCSnap n (col_dense c) raw :: snaps). rewrite <- app_assoc. split; [done|].
    exists s''. split; [|done]. cbn [ComponentStore__Restore csn_Name csn_Entities csn_Values].
    assert (cs_byName s' !! n = Some (Z.of_nat k)) as ->
      by (rewrite Hp2; apply (si_names _ Hinv); eauto).
    rewrite Ec', Hr. cbn [obind]. exact Hrest.
  - apply (IH (S k) s' acc Hdrop'). split; [done|]. split; [done|]. intros id.
    specialize (Hp3 id). destruct (decide (id = Z.of_nat k)) as [->|Hne].
    { rewrite Ec in *. by destruct (cs_cols s' !! Z.of_nat k). }
    destruct (cs_cols s' !! id), (cs_cols s !! id); try done.
    destruct Hp3 as [? Himp]. split; [done|]. intros ?. apply Himp. lia.
Qed.

Lemma ComponentStore_restore_same s s0 :
  store_inv s → store_marshalable s → same_schema s0 s →
  ∃ snaps s', ComponentStore__Snapshot s = Ok snaps ∧
    ComponentStore__Restore s0 snaps = Done (s', Ok tt) ∧ s' ≡ s.
Proof using J.
  intros Hinv Hm (S1 & S2 & S3).
  destruct (restore_loop s 0 (cs_names s) s0 []) as (snaps & Hs & s' & Hr & H1 & H2 & H3).
  - done.
  - done.
  - done.
  - split; [done|]. split; [done|]. intros id. specialize (S3 id).
    destruct (cs_cols s0 !! id) as [[]|], (cs_cols s !! id) as [[]|]; try done.
    cbn in S3. injection S3 as ->. split; [done|]. intros ?. lia.
  - exists snaps, s'. split; [|split; [done|]].
    + unfold ComponentStore__Snapshot. exact Hs.
    + split; [done|]. split; [done|]. intros id. specialize (H3 id).
      destruct (cs_cols s' !! id) as [[t' c']|], (cs_cols s !! id) as [[t c]|] eqn:Ec; try done.
      destruct H3 as [Ht Himp]. split; [done|]. apply Himp.
      destruct (si_cols _ Hinv _ _ _ Ec) as (Hid & _). unfold len in Hid. lia.
Qed.

(** Restoring the snapshot of a component store into a store with the same schema
    succeeds and gives an equivalent store (the same members, in the same order, with the same
    values in every column), whose own snapshot is again the same. *)
Theorem ComponentStore_restore_snapshot s s0 :
  store_inv s → store_marshalable s → same_schema s0 s →
  ∃ snaps s', ComponentStore__Snapshot s = Ok snaps ∧
    ComponentStore__Restore s0 snaps = Done (s', Ok tt) ∧ s' ≡ s ∧
    ComponentStore__Snapshot s' = Ok snaps.
Proof using J.
  intros Hinv Hm Hs. destruct (ComponentStore_restore_same s s0 Hinv Hm Hs) as (sn & s' & H1 & H2 & H3).
  exists sn, s'. split; [done|]. split; [done|]. split; [done|]. by rewrite H3.
Qed.
End store_snapshots.

Lemma toy_column_inv {V} (v : V) : col_inv (mkCol (mkSlice [1] 1) [1] [v]).
Proof.
  pose proof (Set_refines newColumn ∅ 0 1 v newColumn_refines) as (c & Hc & Href & _).
  { vm_compute. reflexivity. }
  vm_compute in Hc. injection Hc as <- . apply Href.
Qed.

(** A store with one boolean component held by the entity of index 0. *)
Definition toy_store : ComponentStore (R := Toy.runtime) :=
  mkCS ["flag"%string] {["flag"%string := 0]}
       {[0 := (true, mkCol (mkSlice [1] 1) [1] [inl true])]}.

Lemma toy_store_inv : store_inv toy_store.
Proof.
  split.
  - split; [done|]. intros n i. unfold toy_store. cbn. rewrite lookup_singleton_Some. split.
    + intros [<- <-]. by exists 0%nat.
    + intros ([|k] & -> & [= <-]). done.
  - intros id t c. unfold toy_store. cbn. rewrite lookup_singleton_Some. intros [<- [= <- <-]].
    split; [done|]. split; [apply toy_column_inv|done].
Qed.

Lemma ComponentStore_restore_snapshot_witness :
  ∃ snaps s', ComponentStore__Snapshot toy_store = Ok snaps ∧
    ComponentStore__Restore toy_store snaps = Done (s', Ok tt) ∧ s' ≡ toy_store ∧
    ComponentStore__Snapshot s' = Ok snaps.
Proof.
  apply (ComponentStore_restore_snapshot (R := Toy.runtime) (marshalable := Toy.marshalable));
    [apply toy_store_inv| |done].
  intros id t c. unfold toy_store. cbn. rewrite lookup_singleton_Some. intros [<- [= <- <-]].
  repeat constructor.
Defined.
