(* ===== verification/Tags.v ===== *)
(** * Tags: [pkg/simulation/tags.go]

    [TagRegistry] interns tag names; [TagStore] keeps a growable bitset of tags per entity.
    Both copy on snapshot and restore, so slices are values here. *)

From S2P Require Import Prelude Interning Entity.
Local Open Scope Z_scope.

(** ** The registry *)

(* pkg/simulation/tags.go:10-16 TagRegistry *)
Record TagRegistry := mkTR { tr_names : list string; tr_byName : gmap string Z }.

(* pkg/simulation/tags.go:18-21 NewTagRegistry *)
Definition NewTagRegistry : TagRegistry := mkTR [] ∅.

(* pkg/simulation/tags.go:23-34 TagRegistry.Register *)
Definition TagRegistry__Register (t : TagRegistry) (name : string) : TagRegistry * Z :=
  match tr_byName t !! name with
  | Some id => (t, id)
  | None =>
      let id := u32 (len (tr_names t)) in
      (mkTR (tr_names t ++ [name]) (<[name := id]> (tr_byName t)), id)
  end.

(* pkg/simulation/tags.go:36-44 TagRegistry.Name *)
Definition TagRegistry__Name (t : TagRegistry) (tag : Z) : outcome string :=
  if len (tr_names t) <=? tag then Done ""%string else index (tr_names t) tag.

(* pkg/simulation/tags.go:46-51 TagRegistry.snapshot *)
Definition TagRegistry__snapshot (t : TagRegistry) : list string := tr_names t.

(* pkg/simulation/tags.go:53-62 TagRegistry.restore *)
Definition TagRegistry__restore (t : TagRegistry) (names : list string) : TagRegistry :=
  mkTR names (foldl (λ m kn, <[kn.2 := u32 (Z.of_nat kn.1)]> m) ∅ (imap pair names)).

(** ** The store *)

(* pkg/simulation/tags.go:64-70 TagStore *)
Record TagStore := mkTS { ts_sets : gmap EntityID (list Z) }.

(* pkg/simulation/tags.go:72-75 NewTagStore *)
Definition NewTagStore : TagStore := mkTS ∅.

(** [s.sets[e]], nil when absent. *)
Definition words_of (s : TagStore) (e : EntityID) : list Z := default [] (ts_sets s !! e).

(* pkg/simulation/tags.go:77-91 TagStore.Add *)
Definition TagStore__Add (s : TagStore) (e : EntityID) (tag : Z) : outcome TagStore :=
  let word := tag / 64 in
  let bit := tag mod 64 in
  let words := words_of s e in
  let words :=
    if len words <=? word then
      words ++ replicate (Z.to_nat (word + 1) - length words) 0
    else words in
  let! w := index words word in
  let! words := assign words word (Z.lor w (u64 (Z.shiftl 1 bit))) in
  Done (mkTS (<[e := words]> (ts_sets s))).

(* pkg/simulation/tags.go:93-105 TagStore.Remove *)
Definition TagStore__Remove (s : TagStore) (e : EntityID) (tag : Z) : outcome TagStore :=
  match ts_sets s !! e with
  | None => Done s
  | Some words =>
      let word := tag / 64 in
      if word <? len words then
        let! w := index words word in
        let! words := assign words word (Z.ldiff w (u64 (Z.shiftl 1 (tag mod 64)))) in
        Done (mkTS (<[e := words]> (ts_sets s)))
      else Done s
  end.

(* pkg/simulation/tags.go:107-117 TagStore.Has *)
Definition TagStore__Has (s : TagStore) (e : EntityID) (tag : Z) : outcome bool :=
  match ts_sets s !! e with
  | None => Done false
  | Some words =>
      let word := tag / 64 in
      if word <? len words then
        let! w := index words word in
        Done (negb (Z.land w (u64 (Z.shiftl 1 (tag mod 64))) =? 0))
      else Done false
  end.

(* pkg/simulation/tags.go:119-124 TagStore.RemoveEntity *)
Definition TagStore__RemoveEntity (s : TagStore) (e : EntityID) : TagStore :=
  mkTS (delete e (ts_sets s)).

(* pkg/simulation/tags.go:126-135 TagStore.snapshot *)
Definition TagStore__snapshot (s : TagStore) : gmap EntityID (list Z) := ts_sets s.

(* pkg/simulation/tags.go:137-145 TagStore.restore *)
Definition TagStore__restore (s : TagStore) (sets : gmap EntityID (list Z)) : TagStore :=
  mkTS sets.

(** ** The registry is a name table *)

Lemma TagRegistry__Register_intern t n :
  TagRegistry__Register t n =
  let '(names, byName, id) := intern (tr_names t) (tr_byName t) n in (mkTR names byName, id).
Proof.
  unfold TagRegistry__Register, intern. destruct t as [names byName]. simpl.
  by destruct (byName !! n).
Qed.

#[global] Program Instance TagRegistry_NameTable : NameTable TagRegistry := {
  nt_ok t := intern_ok (tr_names t) (tr_byName t);
  nt_register := TagRegistry__Register;
  nt_name := TagRegistry__Name;
  nt_size t := len (tr_names t);
}.
Next Obligation. intros t. apply len_nonneg. Qed.
Next Obligation.
  intros [names byName] n Hok Hlen. rewrite TagRegistry__Register_intern. cbn in *.
  pose proof (intern_spec names byName n Hok Hlen) as Hs.
  destruct (intern names byName n) as [[names' byName'] id].
  destruct Hs as (? & ? & ? & ? & Hagain & ?). do 4 (split; [done|]).
  split; [|done]. rewrite TagRegistry__Register_intern. cbn. by rewrite Hagain.
Qed.

(** ** The store refines a relation between entities and tags *)

(** Membership read directly off the bitset. *)
Definition has_bit (words : list Z) (tag : Z) : bool :=
  match words !! Z.to_nat (tag / 64) with
  | Some w => Z.testbit w (tag mod 64)
  | None => false
  end.

Definition tags_rel (s : TagStore) (e : EntityID) (tag : Z) : bool := has_bit (words_of s e) tag.

Lemma bit_mask tag : u64 (Z.shiftl 1 (tag mod 64)) = 2 ^ (tag mod 64).
Proof.
  pose proof (Z.mod_pos_bound tag 64 ltac:(lia)). rewrite Z.shiftl_1_l. apply u64_id.
  split; [apply Z.pow_nonneg; lia|apply Z.pow_lt_mono_r; lia].
Qed.

Lemma land_pow2_testbit w b :
  0 ≤ b → negb (Z.land w (2 ^ b) =? 0) = Z.testbit w b.
Proof.
  intros Hb. destruct (Z.testbit w b) eqn:E.
  - destruct (Z.eqb_spec (Z.land w (2 ^ b)) 0) as [H|H]; [|done].
    assert (Z.testbit (Z.land w (2 ^ b)) b = true) as Ht
      by (rewrite Z.land_spec, E, Z.pow2_bits_true by lia; done).
    by rewrite H, Z.bits_0 in Ht.
  - assert (Z.land w (2 ^ b) = 0) as ->; [|done]. apply Z.bits_inj'. intros n Hn.
    rewrite Z.land_spec, Z.bits_0, Z.pow2_bits_eqb by lia.
    destruct (Z.eqb_spec b n) as [<-|]; [by rewrite E|by rewrite andb_false_r].
Qed.

(** Tag numbers split into a word and a bit without collision. *)
Lemma tag_split t t' : 0 ≤ t → 0 ≤ t' →
  Z.to_nat (t / 64) = Z.to_nat (t' / 64) → t mod 64 = t' mod 64 → t = t'.
Proof.
  intros H H' Hd Hm. apply Z2Nat.inj in Hd; [|apply Z.div_pos; lia..].
  rewrite (Z.div_mod t 64), (Z.div_mod t' 64) by lia. lia.
Qed.

Lemma has_bit_set words w tag t' :
  0 ≤ tag → 0 ≤ t' → words !! Z.to_nat (tag / 64) = Some w →
  has_bit (<[Z.to_nat (tag / 64) := Z.lor w (2 ^ (tag mod 64))]> words) t'
  = (t' =? tag) || has_bit words t'.
Proof.
  intros Ht Ht' Hw. unfold has_bit.
  pose proof (Z.mod_pos_bound tag 64 ltac:(lia)). pose proof (Z.mod_pos_bound t' 64 ltac:(lia)).
  destruct (decide (Z.to_nat (t' / 64) = Z.to_nat (tag / 64))) as [E|Hne].
  - rewrite E, list_lookup_insert_eq, Hw by (by eapply lookup_lt_Some).
    rewrite Z.lor_spec, Z.pow2_bits_eqb by lia. rewrite orb_comm. f_equal.
    destruct (Z.eqb_spec t' tag) as [->|Hn]; [apply Z.eqb_refl|].
    apply Z.eqb_neq. intros Hm. by apply Hn, tag_split.
  - rewrite list_lookup_insert_ne by done.
    destruct (Z.eqb_spec t' tag) as [->|_]; [done|done].
Qed.

Lemma has_bit_clear words w tag t' :
  0 ≤ tag → 0 ≤ t' → words !! Z.to_nat (tag / 64) = Some w →
  has_bit (<[Z.to_nat (tag / 64) := Z.ldiff w (2 ^ (tag mod 64))]> words) t'
  = negb (t' =? tag) && has_bit words t'.
Proof.
  intros Ht Ht' Hw. unfold has_bit.
  pose proof (Z.mod_pos_bound tag 64 ltac:(lia)). pose proof (Z.mod_pos_bound t' 64 ltac:(lia)).
  destruct (decide (Z.to_nat (t' / 64) = Z.to_nat (tag / 64))) as [E|Hne].
  - rewrite E, list_lookup_insert_eq, Hw by (by eapply lookup_lt_Some).
    rewrite Z.ldiff_spec, Z.pow2_bits_eqb by lia. rewrite andb_comm. f_equal. f_equal.
    destruct (Z.eqb_spec t' tag) as [->|Hn]; [apply Z.eqb_refl|].
    apply Z.eqb_neq. intros Hm. by apply Hn, tag_split.
  - rewrite list_lookup_insert_ne by done.
    destruct (Z.eqb_spec t' tag) as [->|_]; [done|done].
Qed.

Lemma has_bit_pad words n tag : has_bit (words ++ replicate n 0) tag = has_bit words tag.
Proof.
  unfold has_bit. destruct (words !! Z.to_nat (tag / 64)) as [w|] eqn:E.
  - by rewrite (lookup_app_l_Some _ _ _ _ E).
  - rewrite lookup_app, E. destruct (replicate n 0 !! _) as [z|] eqn:Ez; [|done].
    apply lookup_replicate in Ez as [-> _]. apply Z.bits_0.
Qed.

Lemma words_of_insert m e ws e' :
  words_of (mkTS (<[e := ws]> m)) e' = if decide (e = e') then ws else default [] (m !! e').
Proof. unfold words_of. simpl. rewrite lookup_insert. by destruct (decide (e = e')). Qed.

Lemma Has_correct s e tag : 0 ≤ tag → TagStore__Has s e tag = Done (tags_rel s e tag).
Proof.
  intros Ht. unfold TagStore__Has, tags_rel, has_bit, words_of.
  destruct (ts_sets s !! e) as [words|]; [simpl|done].
  pose proof (Z.div_pos tag 64 Ht ltac:(lia)).
  destruct (Z.ltb_spec (tag / 64) (len words)) as [Hlt|Hge].
  - destruct (index_in_range words (tag / 64)) as [w Hw]; [lia|]. rewrite Hw. cbn [obind].
    apply index_Done in Hw as [_ Hw]. rewrite Hw, bit_mask, land_pow2_testbit; [done|].
    apply Z.mod_pos_bound. lia.
  - by rewrite lookup_ge_None_2 by (unfold len in *; lia).
Qed.

Lemma Add_correct s e tag :
  0 ≤ tag → ∃ s', TagStore__Add s e tag = Done s' ∧
  ∀ e' t', 0 ≤ t' →
    tags_rel s' e' t' = (bool_decide (e' = e) && (t' =? tag)) || tags_rel s e' t'.
Proof.
  intros Ht. unfold TagStore__Add. pose proof (Z.div_pos tag 64 Ht ltac:(lia)) as Hd.
  set (words := if _ <=? _ then _ else _).
  assert (∀ t', has_bit words t' = has_bit (words_of s e) t') as Hw.
  { intros t'. unfold words. destruct (_ <=? _); [apply has_bit_pad|done]. }
  assert (0 ≤ tag / 64 < len words) as Hr.
  { unfold words. destruct (Z.leb_spec (len (words_of s e)) (tag / 64)); [|lia].
    unfold len in *. rewrite length_app, length_replicate. lia. }
  clearbody words. destruct (index_in_range words (tag / 64) Hr) as [w Hi].
  rewrite Hi. cbn [obind]. rewrite assign_in_range by done. cbn [obind].
  apply index_Done in Hi as [_ Hi]. eexists. split; [done|].
  intros e' t' Ht'. unfold tags_rel at 1. rewrite words_of_insert, bit_mask.
  destruct (decide (e = e')) as [<-|Hne].
  - rewrite has_bit_set, Hw by done. by rewrite bool_decide_eq_true_2.
  - rewrite bool_decide_eq_false_2 by congruence. done.
Qed.

Lemma Remove_correct s e tag :
  0 ≤ tag → ∃ s', TagStore__Remove s e tag = Done s' ∧
  ∀ e' t', 0 ≤ t' →
    tags_rel s' e' t' = negb (bool_decide (e' = e) && (t' =? tag)) && tags_rel s e' t'.
Proof.
  intros Ht. unfold TagStore__Remove. pose proof (Z.div_pos tag 64 Ht ltac:(lia)) as Hd.
  assert (tags_rel s e tag = false → ∀ e' t', 0 ≤ t' →
    tags_rel s e' t' = negb (bool_decide (e' = e) && (t' =? tag)) && tags_rel s e' t') as Hno.
  { intros Hf e' t' _. destruct (Z.eqb_spec t' tag) as [->|]; [|by rewrite andb_false_r].
    destruct (bool_decide (e' = e)) eqn:Eb; [|done].
    apply bool_decide_eq_true_1 in Eb as ->. by rewrite Hf. }
  unfold tags_rel, has_bit, words_of in Hno.
  destruct (ts_sets s !! e) as [words|] eqn:Es;
    [|eexists; split; [done|]; apply Hno; done].
  destruct (Z.ltb_spec (tag / 64) (len words)) as [Hlt|Hge];
    [|eexists; split; [done|]; apply Hno; simpl;
      by rewrite lookup_ge_None_2 by (unfold len in *; lia)].
  destruct (index_in_range words (tag / 64)) as [w Hi]; [lia|]. rewrite Hi. cbn [obind].
  rewrite assign_in_range by lia. cbn [obind]. apply index_Done in Hi as [_ Hi].
  eexists. split; [done|]. intros e' t' Ht'. unfold tags_rel at 1.
  rewrite words_of_insert, bit_mask. destruct (decide (e = e')) as [<-|Hne].
  - rewrite has_bit_clear by done. rewrite bool_decide_eq_true_2 by done. cbn [andb].
    unfold tags_rel, words_of. by rewrite Es.
  - rewrite bool_decide_eq_false_2 by congruence. done.
Qed.

Lemma RemoveEntity_correct s e e' t' :
  tags_rel (TagStore__RemoveEntity s e) e' t' = negb (bool_decide (e' = e)) && tags_rel s e' t'.
Proof.
  unfold tags_rel, words_of, TagStore__RemoveEntity. simpl.
  destruct (decide (e' = e)) as [->|Hne].
  - rewrite lookup_delete_eq, bool_decide_eq_true_2 by done. simpl. unfold has_bit.
    by rewrite lookup_nil.
  - by rewrite lookup_delete_ne, bool_decide_eq_false_2 by congruence.
Qed.

(** ** Sequences of operations *)

Inductive tag_op :=
  | TAdd (e : EntityID) (tag : Z)
  | TRemove (e : EntityID) (tag : Z)
  | THas (e : EntityID) (tag : Z)
  | TRemoveEntity (e : EntityID).

Definition tag_exec (s : TagStore) (op : tag_op) : outcome (TagStore * option bool) :=
  match op with
  | TAdd e t => let! s' := TagStore__Add s e t in Done (s', None)
  | TRemove e t => let! s' := TagStore__Remove s e t in Done (s', None)
  | THas e t => let! b := TagStore__Has s e t in Done (s, Some b)
  | TRemoveEntity e => Done (TagStore__RemoveEntity s e, None)
  end.

Fixpoint tag_run (s : TagStore) (ops : list tag_op) : outcome (TagStore * list (option bool)) :=
  match ops with
  | [] => Done (s, [])
  | op :: ops' =>
      let! (s1, r) := tag_exec s op in
      let! (s2, rs) := tag_run s1 ops' in Done (s2, r :: rs)
  end.

(** The specification: a finite set of (entity, tag) pairs. *)
Definition set_exec (S : gset (EntityID * Z)) (op : tag_op)
  : gset (EntityID * Z) * option bool :=
  match op with
  | TAdd e t => ({[(e, t)]} ∪ S, None)
  | TRemove e t => (S ∖ {[(e, t)]}, None)
  | THas e t => (S, Some (bool_decide ((e, t) ∈ S)))
  | TRemoveEntity e => (filter (λ p, p.1 ≠ e) S, None)
  end.

Fixpoint set_run (S : gset (EntityID * Z)) (ops : list tag_op)
  : gset (EntityID * Z) * list (option bool) :=
  match ops with
  | [] => (S, [])
  | op :: ops' =>
      let '(S1, r) := set_exec S op in let '(S2, rs) := set_run S1 ops' in (S2, r :: rs)
  end.

Definition op_ok (op : tag_op) : Prop :=
  match op with TAdd _ t | TRemove _ t | THas _ t => 0 ≤ t | TRemoveEntity _ => True end.

Definition tags_refine (s : TagStore) (S : gset (EntityID * Z)) : Prop :=
  ∀ e t, 0 ≤ t → tags_rel s e t = bool_decide ((e, t) ∈ S).

Lemma tag_exec_refines s S op :
  tags_refine s S → op_ok op →
  ∃ s', tag_exec s op = Done (s', (set_exec S op).2) ∧ tags_refine s' (set_exec S op).1.
Proof.
  intros Href Hop. destruct op as [e t|e t|e t|e]; cbn in *.
  - destruct (Add_correct s e t Hop) as (s' & -> & Hs'). eexists. split; [done|].
    intros e' t' Ht'. rewrite Hs', Href by done.
    destruct (Z.eqb_spec t' t), (bool_decide_reflect (e' = e)),
      (bool_decide_reflect ((e', t') ∈ S)), (bool_decide_reflect ((e', t') ∈ {[(e, t)]} ∪ S));
      set_solver.
  - destruct (Remove_correct s e t Hop) as (s' & -> & Hs'). eexists. split; [done|].
    intros e' t' Ht'. rewrite Hs', Href by done.
    destruct (Z.eqb_spec t' t), (bool_decide_reflect (e' = e)),
      (bool_decide_reflect ((e', t') ∈ S)), (bool_decide_reflect ((e', t') ∈ S ∖ {[(e, t)]}));
      set_solver.
  - rewrite Has_correct, Href by done. eexists. split; [done|done].
  - eexists. split; [done|]. intros e' t' Ht'. rewrite RemoveEntity_correct, Href by done.
    destruct (bool_decide_reflect (e' = e)), (bool_decide_reflect ((e', t') ∈ S)),
      (bool_decide_reflect ((e', t') ∈ filter (λ p, p.1 ≠ e) S)); set_solver.
Qed.

Lemma tag_run_refines ops s S :
  tags_refine s S → Forall op_ok ops →
  ∃ s', tag_run s ops = Done (s', (set_run S ops).2) ∧ tags_refine s' (set_run S ops).1.
Proof.
  revert s S. induction ops as [|op ops IH]; intros s S Href Hops.
  { by exists s. }
  inversion_clear Hops as [|? ? Hop Hops']. cbn [tag_run set_run].
  destruct (tag_exec_refines s S op Href Hop) as (s1 & -> & Href1). cbn [obind].
  destruct (set_exec S op) as [S1 r]. cbn in *.
  destruct (IH s1 S1 Href1 Hops') as (s2 & -> & Href2). cbn [obind].
  destruct (set_run S1 ops) as [S2 rs]. cbn in *. by exists s2.
Qed.

(** C35: the growable bitsets implement a set of (entity, tag) pairs: any sequence of [Add],
    [Remove], [Has] and [RemoveEntity] calls completes without a panic and every [Has] answers
    membership in that set, for tags on both sides of a word boundary. *)
Theorem TagStore_refines_set (ops : list tag_op) :
  Forall op_ok ops →
  ∃ s, tag_run NewTagStore ops = Done (s, (set_run ∅ ops).2) ∧ tags_refine s (set_run ∅ ops).1.
Proof.
  intros Hops. apply tag_run_refines; [|done]. intros e t _.
  unfold tags_rel, words_of, has_bit. simpl. by rewrite bool_decide_eq_false_2.
Qed.

Lemma TagStore_refines_set_witness :
  ∃ s, tag_run NewTagStore [TAdd 1 64; TAdd 1 0; TRemove 1 64; THas 1 0; THas 1 64]
       = Done (s, [None; None; None; Some true; Some false]) ∧
       tags_refine s (set_run ∅ [TAdd 1 64; TAdd 1 0; TRemove 1 64; THas 1 0; THas 1 64]).1.
Proof.
  apply (TagStore_refines_set [TAdd 1 64; TAdd 1 0; TRemove 1 64; THas 1 0; THas 1 64]).
  repeat constructor; simpl; lia.
Defined.

(** Restoring a tag registry from its own snapshot gives back the registry, the name map
    included, and every identifier keeps its name. *)
Theorem TagRegistry_restore_snapshot (t t' : TagRegistry) :
  nt_ok t → TagRegistry__restore t' (TagRegistry__snapshot t) = t.
Proof.
  intros Hok. destruct t as [names byName]. unfold TagRegistry__restore, TagRegistry__snapshot.
  simpl. f_equal. by apply (intern_rebuild_same names byName).
Qed.

Lemma TagRegistry_restore_snapshot_witness :
  let t := (register_all NewTagRegistry ["server"; "blocked"]%string).1 in
  TagRegistry__restore NewTagRegistry (TagRegistry__snapshot t) = t.
Proof.
  apply (TagRegistry_restore_snapshot _ NewTagRegistry).
  pose proof (register_all_spec ["server"; "blocked"]%string NewTagRegistry intern_nil ltac:(done)) as H.
  destruct (register_all _ _). apply H.
Defined.
