(* ===== verification/Heap.v ===== *)
(** * Binary heaps: Go's [container/heap]

    The event queue keeps its events in a slice ordered by [container/heap].  This file models
    [heap.Push] and [heap.Pop] over an arbitrary [Less] and proves that they implement a
    priority queue, for orders that are total only on a subset of the elements (events whose
    time is a number). *)

From S2P Require Import Prelude.

Section heap.
Context {A : Type} (less : A → A → bool).
Implicit Types (h l : list A) (a b : A).

(** ** The algorithms *)

Definition Less h (i j : Z) : outcome bool :=
  let! a := index h i in let! b := index h j in Done (less a b).

Definition Swap h (i j : Z) : outcome (list A) :=
  let! a := index h i in
  let! b := index h j in
  let! h := assign h i b in
  assign h j a.

(** [heap.up]; the loop runs at most [j] times, which the fuel bounds. *)
Fixpoint up (fuel : nat) h (j : Z) : outcome (list A) :=
  match fuel with
  | O => Panic "out of fuel"
  | S fuel =>
      let i := Z.quot (j - 1) 2 in
      if (i =? j)%Z then Done h
      else
        let! lt := Less h j i in
        if negb lt then Done h
        else let! h := Swap h i j in up fuel h i
  end.

(** [heap.down(h, i, n)]. *)
Fixpoint down (fuel : nat) h (i n : Z) : outcome (list A) :=
  match fuel with
  | O => Panic "out of fuel"
  | S fuel =>
      let j1 := (2 * i + 1)%Z in
      if (n <=? j1)%Z then Done h
      else
        let j2 := (j1 + 1)%Z in
        let! r := (if (j2 <? n)%Z then Less h j2 j1 else Done false) in
        let j := if r then j2 else j1 in
        let! lt := Less h j i in
        if negb lt then Done h
        else let! h := Swap h i j in down fuel h j n
  end.

(** [heap.Push(h, x)]: append, then sift up. *)
Definition heap_Push h (x : A) : outcome (list A) :=
  up (S (length h)) (h ++ [x]) (len (h ++ [x]) - 1).

(** [heap.Pop(h)]: swap the root with the last element, sift down, cut the last element. *)
Definition heap_Pop h : outcome (list A * A) :=
  let n := (len h - 1)%Z in
  let! h := Swap h 0 n in
  let! h := down (length h) h 0 n in
  let! x := index h n in
  Done (take (Z.to_nat n) h, x).

(** ** The heap property *)

Definition parent (i : nat) : nat := ((i - 1) / 2)%nat.

(** Element [i] does not come after element [j]. *)
Definition le_at h (i j : nat) : Prop :=
  ∀ a b, h !! i = Some a → h !! j = Some b → less b a = false.

Definition heap_ok h : Prop := ∀ i, 0 < i → le_at h (parent i) i.

(** A heap but for element [j], which may be too small. *)
Definition up_ok h (j : nat) : Prop :=
  (∀ i, 0 < i → i ≠ j → le_at h (parent i) i) ∧
  (∀ c, 0 < c → parent c = j → 0 < j → le_at h (parent j) c).

(** The prefix of length [n] is a heap but for element [i], which may be too large. *)
Definition down_ok h (i n : nat) : Prop :=
  (∀ k, 0 < k < n → parent k ≠ i → le_at h (parent k) k) ∧
  (∀ c, 0 < c < n → parent c = i → 0 < i → le_at h (parent i) c).

Lemma parent_lt i : 0 < i → parent i < i.
Proof. unfold parent. intros. pose proof (Nat.div_lt_upper_bound (i - 1) 2 i). lia. Qed.

Lemma parent_children p i : 0 < i → parent i = p ↔ i = 2 * p + 1 ∨ i = 2 * p + 2.
Proof.
  unfold parent. intros Hi. pose proof (Nat.div_mod_eq (i - 1) 2).
  pose proof (Nat.mod_upper_bound (i - 1) 2). lia.
Qed.

Definition tr (i j k : nat) : nat := if decide (k = i) then j else if decide (k = j) then i else k.

Lemma Swap_spec h i j :
  i < length h → j < length h →
  ∃ h', Swap h (Z.of_nat i) (Z.of_nat j) = Done h' ∧ h' ≡ₚ h ∧ ∀ k, h' !! k = h !! tr i j k.
Proof.
  intros Hi Hj. destruct (lookup_lt_is_Some_2 h i Hi) as [a Ha].
  destruct (lookup_lt_is_Some_2 h j Hj) as [b Hb]. unfold Swap.
  rewrite (index_of_nat _ _ _ Ha), (index_of_nat _ _ _ Hb). cbn [obind].
  rewrite assign_in_range by (unfold len; lia). cbn [obind].
  rewrite assign_in_range by (unfold len; rewrite length_insert; lia). rewrite !Nat2Z.id.
  eexists. split; [done|]. split; [by apply Permutation_insert_swap|].
  intros k. unfold tr. destruct (decide (k = j)) as [->|Hkj].
  - rewrite list_lookup_insert_eq by (rewrite length_insert; lia).
    destruct (decide (j = i)) as [->|]; congruence.
  - rewrite list_lookup_insert_ne by done. destruct (decide (k = i)) as [->|Hki].
    + rewrite list_lookup_insert_eq by lia. by rewrite Hb.
    + by rewrite list_lookup_insert_ne.
Qed.

Lemma Less_spec h i j a b :
  h !! i = Some a → h !! j = Some b →
  Less h (Z.of_nat i) (Z.of_nat j) = Done (less a b).
Proof. intros Ha Hb. unfold Less. by rewrite (index_of_nat _ _ _ Ha), (index_of_nat _ _ _ Hb). Qed.

(** ** Correctness under an order total on [P] *)

Context (P : A → Prop).
Hypothesis less_asym : ∀ a b, P a → P b → less a b = true → less b a = false.
Hypothesis le_trans : ∀ a b c, P a → P b → P c →
  less b a = false → less c b = false → less c a = false.

Lemma less_refl a : P a → less a a = false.
Proof using less_asym.
  intros Ha. destruct (less a a) eqn:E; [|done]. by rewrite (less_asym a a Ha Ha E) in E.
Qed.

Lemma le_at_trans h i j k :
  Forall P h → j < length h → le_at h i j → le_at h j k → le_at h i k.
Proof using le_trans.
  intros HP Hj Hij Hjk a c Ha Hc. destruct (lookup_lt_is_Some_2 h j Hj) as [b Hb].
  rewrite Forall_lookup in HP. eapply (le_trans a b c); eauto.
Qed.

Ltac tr_cases := unfold tr in *; repeat case_decide; subst; try lia; eauto.

(** One turn of [up] repairs the parent and moves the defect there. *)
Lemma up_step h h' j :
  Forall P h → 0 < j → j < length h → up_ok h j →
  (∃ a b, h !! j = Some a ∧ h !! parent j = Some b ∧ less a b = true) →
  (∀ k, h' !! k = h !! tr (parent j) j k) → up_ok h' (parent j).
Proof using less_asym le_trans.
  intros HP Hj Hjl [H1 H2] (a & b & Ha & Hb & Hab) Hsw.
  pose proof (parent_lt j Hj) as Hp.
  assert (P a ∧ P b) as [HPa HPb] by (rewrite Forall_lookup in HP; eauto).
  split.
  - intros i Hi Hne x y Hx Hy. rewrite Hsw in Hx, Hy.
    destruct (decide (i = j)) as [->|Hij].
    { assert (x = a ∧ y = b) as [-> ->] by (tr_cases; split; congruence). by apply less_asym. }
    destruct (decide (parent i = parent j)) as [E|E].
    { assert (x = a) as -> by (rewrite E in Hx; tr_cases; congruence).
      assert (h !! i = Some y) as Hy' by (revert Hy; tr_cases).
      eapply (le_trans a b y); eauto; [by rewrite Forall_lookup in HP; eauto|].
      apply (H1 i Hi Hij); [by rewrite E|done]. }
    destruct (decide (parent i = j)) as [E'|E'].
    { assert (x = b) as -> by (rewrite E' in Hx; tr_cases; congruence).
      assert (h !! i = Some y) as Hy' by (revert Hy; tr_cases).
      by apply (H2 i Hi E' Hj). }
    apply (H1 i Hi Hij); [revert Hx|revert Hy]; tr_cases.
  - intros c Hc Hpc Hpj x y Hx Hy. rewrite Hsw in Hx, Hy.
    pose proof (parent_lt _ Hpj) as Hpp. pose proof (parent_lt _ Hc).
    assert (h !! parent (parent j) = Some x) as Hx' by (revert Hx; tr_cases).
    assert (less b x = false) as Hxb by (by eapply (H1 (parent j)); eauto; lia).
    destruct (decide (c = j)) as [->|Hcj].
    { assert (y = b) as -> by (revert Hy; tr_cases; congruence). done. }
    assert (h !! c = Some y) as Hy' by (revert Hy; tr_cases).
    rewrite Forall_lookup in HP. eapply (le_trans x b y); eauto.
    apply (H1 c Hc Hcj); [by rewrite Hpc|done].
Qed.

Lemma up_parent j : (Z.quot (Z.of_nat j - 1) 2 = Z.of_nat (parent j))%Z.
Proof.
  unfold parent. destruct j as [|j]; [done|].
  rewrite Nat2Z.inj_div. replace (Z.of_nat (S j - 1)) with (Z.of_nat (S j) - 1)%Z by lia.
  apply Z.quot_div_nonneg; lia.
Qed.

Lemma up_correct fuel h j :
  j < fuel → Forall P h → j < length h → up_ok h j →
  ∃ h', up fuel h (Z.of_nat j) = Done h' ∧ h' ≡ₚ h ∧ heap_ok h'.
Proof using less_asym le_trans.
  revert h j. induction fuel as [|fuel IH]; intros h j Hf HP Hj Hok; [lia|].
  cbn [up]. rewrite up_parent. destruct (Z.eqb_spec (Z.of_nat (parent j)) (Z.of_nat j)) as [E|E].
  { exists h. split; [done|]. split; [done|]. intros i Hi. destruct (decide (i = j)) as [->|].
    - pose proof (parent_lt j Hi). lia.
    - by apply Hok. }
  assert (0 < j) as Hj0 by (destruct j; [unfold parent in E; simpl in E|]; lia).
  pose proof (parent_lt j Hj0) as Hp.
  destruct (lookup_lt_is_Some_2 h j Hj) as [a Ha].
  destruct (lookup_lt_is_Some_2 h (parent j)) as [b Hb]; [lia|].
  rewrite (Less_spec _ _ _ _ _ Ha Hb). cbn [obind]. destruct (less a b) eqn:Eab; cbn [negb].
  - destruct (Swap_spec h (parent j) j) as (h1 & -> & Hperm & Hsw); [lia|lia|]. cbn [obind].
    destruct (IH h1 (parent j)) as (h' & Hup & Hperm' & Hok').
    + lia.
    + by rewrite Hperm.
    + rewrite (Permutation_length Hperm). lia.
    + eapply up_step; eauto 6.
    + exists h'. split; [done|]. split; [by rewrite Hperm'|done].
  - exists h. split; [done|]. split; [done|]. intros i Hi. destruct (decide (i = j)) as [->|].
    + intros x y Hx Hy. congruence.
    + by apply Hok.
Qed.

Lemma heap_Push_correct h x :
  Forall P h → P x → heap_ok h →
  ∃ h', heap_Push h x = Done h' ∧ h' ≡ₚ x :: h ∧ heap_ok h'.
Proof using less_asym le_trans.
  intros HP Hx Hok. unfold heap_Push.
  replace (len (h ++ [x]) - 1)%Z with (Z.of_nat (length h))
    by (unfold len; rewrite length_app; simpl; lia).
  destruct (up_correct (S (length h)) (h ++ [x]) (length h)) as (h' & -> & Hperm & Hok').
  - lia.
  - apply Forall_app. auto.
  - rewrite length_app. simpl. lia.
  - assert (∀ i j, le_at h i j → i < length h → j < length h → le_at (h ++ [x]) i j) as Hlift.
    { intros i j Hle Hi Hj a b. rewrite !lookup_app_l by lia. apply Hle. }
    split.
    + intros i Hi Hne. pose proof (parent_lt i Hi). destruct (decide (i < length h)).
      { apply Hlift; [by apply Hok|lia|lia]. }
      intros a b _ Hb. apply lookup_lt_Some in Hb. rewrite length_app in Hb. simpl in Hb. lia.
    + intros c Hc Hpc. pose proof (parent_lt c Hc). intros _ a b _ Hb.
      apply lookup_lt_Some in Hb. rewrite length_app in Hb. simpl in Hb. lia.
  - exists h'. split; [done|]. split; [|done]. rewrite Hperm. by rewrite Permutation_app_comm.
Qed.

(** Appending an element that already is in place leaves the slice as it is. *)
Lemma heap_Push_in_place h x : heap_ok (h ++ [x]) → heap_Push h x = Done (h ++ [x]).
Proof using Type.
  intros Hok. unfold heap_Push.
  replace (len (h ++ [x]) - 1)%Z with (Z.of_nat (length h))
    by (unfold len; rewrite length_app; simpl; lia).
  cbn [up]. rewrite up_parent. destruct (Z.eqb_spec (Z.of_nat (parent (length h))) (Z.of_nat (length h))) as [|E];
    [done|].
  assert (0 < length h) as Hj0 by (destruct h; [done|simpl; lia]).
  pose proof (parent_lt _ Hj0) as Hp.
  assert ((h ++ [x]) !! length h = Some x) as Ha by by apply list_lookup_middle.
  destruct (lookup_lt_is_Some_2 (h ++ [x]) (parent (length h))) as [b Hb];
    [rewrite length_app; lia|].
  rewrite (Less_spec _ _ _ _ _ Ha Hb). cbn [obind]. by rewrite (Hok _ Hj0 _ _ Hb Ha).
Qed.

Lemma heap_ok_app_l h1 h2 : heap_ok (h1 ++ h2) → heap_ok h1.
Proof using Type.
  intros Hok i Hi a b Ha Hb.
  apply (Hok i Hi); [by apply lookup_app_l_Some|by apply lookup_app_l_Some].
Qed.

(** The root of a heap comes first. *)
Lemma heap_root h r x :
  Forall P h → heap_ok h → h !! 0 = Some r → x ∈ h → less x r = false.
Proof using less_asym le_trans.
  intros HP Hok Hr [i Hi]%list_elem_of_lookup. revert x Hi.
  induction (lt_wf i) as [i _ IH]. intros x Hi. rewrite Forall_lookup in HP.
  destruct (decide (i = 0)) as [->|Hne].
  - assert (x = r) as -> by congruence. eapply less_refl; eauto.
  - pose proof (parent_lt i ltac:(lia)) as Hp. pose proof (lookup_lt_Some _ _ _ Hi).
    destruct (lookup_lt_is_Some_2 h (parent i)) as [b Hb]; [lia|].
    eapply (le_trans r b x); eauto. eapply (Hok i); eauto. lia.
Qed.

(** One turn of [down] repairs element [i] and moves the defect to its smaller child. *)
Lemma down_step h h' i j n :
  n ≤ length h → Forall P h → 0 < j < n → parent j = i → down_ok h i n →
  (∀ k, 0 < k < n → parent k = i → le_at h j k) →
  (∃ a b, h !! i = Some a ∧ h !! j = Some b ∧ less b a = true) →
  (∀ k, h' !! k = h !! tr i j k) → down_ok h' j n.
Proof using less_asym le_trans.
  intros Hn HP Hj Hpj [H1 H2] Hsib (a & b & Ha & Hb & Hba) Hsw.
  pose proof (parent_lt j ltac:(lia)) as Hij.
  assert (P a ∧ P b) as [HPa HPb] by (rewrite Forall_lookup in HP; eauto).
  split.
  - intros k Hk Hne x y Hx Hy. rewrite Hsw in Hx, Hy. pose proof (parent_lt k ltac:(lia)) as Hkp.
    destruct (decide (k = j)) as [->|Hkj].
    { assert (x = b ∧ y = a) as [-> ->] by (rewrite Hpj in Hx; tr_cases; split; congruence).
      by apply less_asym. }
    destruct (decide (k = i)) as [->|Hki].
    { assert (h !! parent i = Some x) as Hx' by (revert Hx; tr_cases).
      assert (y = b) as -> by (revert Hy; tr_cases; congruence).
      eapply (H2 j); eauto; lia. }
    assert (h !! k = Some y) as Hy' by (revert Hy; tr_cases).
    destruct (decide (parent k = i)) as [E|E].
    { assert (x = b) as -> by (rewrite E in Hx; tr_cases; congruence).
      by apply (Hsib k Hk E). }
    apply (H1 k Hk E); [revert Hx; tr_cases|done].
  - intros c Hc Hpc _ x y Hx Hy. rewrite Hsw in Hx, Hy. pose proof (parent_lt c ltac:(lia)).
    assert (x = b) as -> by (rewrite Hpj in Hx; tr_cases; congruence).
    assert (h !! c = Some y) as Hy' by (revert Hy; tr_cases).
    apply (H1 c Hc); [lia|by rewrite Hpc|done].
Qed.

(** The child [down] compares with: the smaller one. *)
Lemma down_child h i n j1 j2 r :
  j1 = 2 * i + 1 → j2 = 2 * i + 2 → j1 < n → n ≤ length h → Forall P h →
  (if (Z.of_nat j2 <? Z.of_nat n)%Z then Less h (Z.of_nat j2) (Z.of_nat j1) else Done false)
  = Done r →
  let j := if r then j2 else j1 in
  0 < j < n ∧ parent j = i ∧ ∀ k, 0 < k < n → parent k = i → le_at h j k.
Proof using less_asym.
  intros Ej1 Ej2 Hj1 Hn HP Hr j. rewrite Forall_lookup in HP.
  assert (0 < j) as Hj0 by (unfold j; destruct r; lia).
  assert (parent j = i) as Hpj
    by (apply parent_children; [done|]; unfold j; destruct r; [right|left]; lia).
  destruct (lookup_lt_is_Some_2 h j1) as [b1 Hb1]; [lia|].
  destruct (Z.ltb_spec (Z.of_nat j2) (Z.of_nat n)) as [Hlt|Hge].
  - destruct (lookup_lt_is_Some_2 h j2) as [b2 Hb2]; [lia|].
    rewrite (Less_spec _ _ _ _ _ Hb2 Hb1) in Hr. injection Hr as Hr.
    split; [unfold j; destruct r; lia|]. split; [done|].
    intros k Hk Hpk x y Hx Hy. apply parent_children in Hpk; [|lia].
    assert (k = j1 ∨ k = j2) as [->| ->] by lia; unfold j in Hx; destruct r.
    + assert (x = b2 ∧ y = b1) as [-> ->] by (split; congruence). apply less_asym; eauto.
    + assert (y = x) as -> by congruence. eapply less_refl; eauto.
    + assert (y = x) as -> by congruence. eapply less_refl; eauto.
    + assert (x = b1 ∧ y = b2) as [-> ->] by (split; congruence). done.
  - injection Hr as <-. split; [unfold j; lia|]. split; [done|].
    intros k Hk Hpk x y Hx Hy. apply parent_children in Hpk; [|lia].
    assert (k = j1) as -> by lia. assert (y = x) as -> by (unfold j in Hx; congruence).
    eapply less_refl; eauto.
Qed.

Lemma down_correct fuel h i n :
  n - i < fuel → n ≤ length h → Forall P h → down_ok h i n →
  ∃ h', down fuel h (Z.of_nat i) (Z.of_nat n) = Done h' ∧ h' ≡ₚ h ∧
    (∀ k, 0 < k < n → le_at h' (parent k) k) ∧ (∀ k, n ≤ k → h' !! k = h !! k).
Proof using less_asym le_trans.
  revert h i. induction fuel as [|fuel IH]; intros h i Hf Hn HP Hok.
  { lia. }
  cbn [down].
  replace (2 * Z.of_nat i + 1)%Z with (Z.of_nat (2 * i + 1)) by lia.
  replace (Z.of_nat (2 * i + 1) + 1)%Z with (Z.of_nat (2 * i + 2)) by lia.
  destruct (Z.leb_spec (Z.of_nat n) (Z.of_nat (2 * i + 1))) as [Hle|Hlt].
  { exists h. split; [done|]. split; [done|]. split; [|done]. intros k Hk.
    apply Hok; [done|]. intros [?|?]%parent_children; lia. }
  destruct (if (Z.of_nat (2 * i + 2) <? Z.of_nat n)%Z then _ else _) as [r|w] eqn:Er; last first.
  { exfalso. destruct (Z.ltb_spec (Z.of_nat (2 * i + 2)) (Z.of_nat n)); [|done].
    destruct (lookup_lt_is_Some_2 h (2 * i + 2)) as [b2 Hb2]; [lia|].
    destruct (lookup_lt_is_Some_2 h (2 * i + 1)) as [b1 Hb1]; [lia|].
    by rewrite (Less_spec _ _ _ _ _ Hb2 Hb1) in Er. }
  cbn [obind].
  destruct (down_child h i n (2 * i + 1) (2 * i + 2) r) as (Hj & Hpj & Hsib);
    [lia|lia|lia|done|done|done|].
  replace (if r then Z.of_nat (2 * i + 2) else Z.of_nat (2 * i + 1))
    with (Z.of_nat (if r then 2 * i + 2 else 2 * i + 1)) by by destruct r.
  set (j := if r then 2 * i + 2 else 2 * i + 1) in *. clearbody j.
  pose proof (parent_lt j ltac:(lia)) as Hij.
  destruct (lookup_lt_is_Some_2 h i) as [a Ha]; [lia|].
  destruct (lookup_lt_is_Some_2 h j) as [b Hb]; [lia|].
  rewrite (Less_spec _ _ _ _ _ Hb Ha). cbn [obind]. destruct (less b a) eqn:Eba; cbn [negb].
  - destruct (Swap_spec h i j) as (h1 & -> & Hperm & Hsw); [lia|lia|]. cbn [obind].
    destruct (IH h1 j) as (h' & Hd & Hperm' & Hok' & Hrest).
    + lia.
    + rewrite (Permutation_length Hperm). lia.
    + by rewrite Hperm.
    + eapply down_step; eauto 6.
    + exists h'. split; [done|]. split; [by rewrite Hperm'|]. split; [done|].
      intros k Hk. rewrite Hrest, Hsw by done. f_equal. unfold tr. repeat case_decide; lia.
  - exists h. split; [done|]. split; [done|]. split; [|done]. intros k Hk.
    destruct (decide (parent k = i)) as [E|E]; [|by apply Hok].
    rewrite E. eapply (le_at_trans h i j k); [done|lia| |by apply Hsib].
    intros x y Hx Hy. assert (x = a ∧ y = b) as [-> ->] by (split; congruence). done.
Qed.

Lemma heap_Pop_correct r h :
  Forall P (r :: h) → heap_ok (r :: h) →
  ∃ h', heap_Pop (r :: h) = Done (h', r) ∧ h' ≡ₚ h ∧ heap_ok h'.
Proof using less_asym le_trans.
  intros HP Hok. unfold heap_Pop. set (h0 := r :: h) in *.
  assert (length h0 = S (length h)) as Hlen by done.
  replace (len h0 - 1)%Z with (Z.of_nat (length h)) by (unfold len; lia).
  destruct (Swap_spec h0 0 (length h)) as (h1 & Hs & Hperm & Hsw); [lia|lia|].
  change (Z.of_nat 0) with 0%Z in Hs. rewrite Hs. cbn [obind]. clear Hs.
  destruct (down_correct (length h1) h1 0 (length h)) as (h2 & Hd & Hperm2 & Hok2 & Hrest).
  - rewrite (Permutation_length Hperm). lia.
  - rewrite (Permutation_length Hperm). lia.
  - by rewrite Hperm.
  - split; [|lia]. intros k Hk Hpk x y Hx Hy. rewrite Hsw in Hx, Hy.
    pose proof (parent_lt k ltac:(lia)).
    apply (Hok k ltac:(lia)); [revert Hx|revert Hy]; tr_cases.
  - change (Z.of_nat 0) with 0%Z in Hd. rewrite Hd. cbn [obind].
    assert (h2 !! length h = Some r) as Hr.
    { rewrite Hrest, Hsw by done. unfold tr. repeat case_decide; subst; try done; try lia.
      unfold h0. destruct h; done. }
    rewrite (index_of_nat _ _ _ Hr). cbn [obind]. rewrite Nat2Z.id.
    assert (length h2 = S (length h)) as Hl2 by by rewrite Hperm2, Hperm.
    eexists. split; [done|]. split.
    + assert (h2 = take (length h) h2 ++ [r]) as E.
      { rewrite <- (take_drop (length h) h2) at 1. f_equal.
        rewrite (drop_S _ r) by done. by rewrite drop_ge by lia. }
      rewrite Hperm in Hperm2. rewrite E in Hperm2. unfold h0 in Hperm2.
      rewrite (Permutation_app_comm _ [r]) in Hperm2. by apply Permutation_cons_inv in Hperm2.
    + intros k Hk x y Hx Hy. apply lookup_take_Some in Hx as [Hx _].
      apply lookup_take_Some in Hy as [Hy ?]. eapply Hok2; eauto.
Qed.

(** ** Sorted lists, the specification *)

(** Insertion after every element that does not come after [x]. *)
Fixpoint insert_sorted (x : A) (l : list A) : list A :=
  match l with
  | [] => [x]
  | y :: l' => if less x y then x :: l else y :: insert_sorted x l'
  end.

Definition sort_by (l : list A) : list A := foldl (λ acc x, insert_sorted x acc) [] l.

Definition le (a b : A) : Prop := less b a = false.

Lemma insert_sorted_perm x l : insert_sorted x l ≡ₚ x :: l.
Proof using Type.
  induction l as [|y l IH]; simpl; [done|]. destruct (less x y); [done|].
  rewrite IH. by rewrite Permutation_swap.
Qed.

Lemma insert_sorted_sorted x l :
  P x → Forall P l → StronglySorted le l → StronglySorted le (insert_sorted x l).
Proof using less_asym le_trans.
  intros Hx. induction l as [|y l IH]; intros HP Hs; simpl.
  { repeat constructor. }
  inversion_clear HP as [|? ? Hy HP']. apply StronglySorted_cons in Hs as [Hy' Hs].
  destruct (less x y) eqn:E.
  - apply StronglySorted_cons. split; [|by apply StronglySorted_cons].
    constructor; [by apply less_asym|]. rewrite Forall_forall in *. intros z Hz.
    apply (le_trans x y z); [done|done|by apply HP'|by apply less_asym|by apply Hy'].
  - apply StronglySorted_cons. split; [|by apply IH]. rewrite insert_sorted_perm.
    by constructor.
Qed.

Lemma sort_by_perm l : sort_by l ≡ₚ l.
Proof using Type.
  unfold sort_by. rewrite <- (app_nil_r l) at 2. generalize (@nil A) as acc.
  induction l as [|x l IH]; intros acc; simpl; [done|].
  rewrite IH, insert_sorted_perm. by rewrite Permutation_middle.
Qed.

Lemma sort_by_sorted l : Forall P l → StronglySorted le (sort_by l).
Proof using less_asym le_trans.
  unfold sort_by. intros HP. assert (Forall P (@nil A)) as HP0 by done.
  assert (StronglySorted le []) as Hs by constructor. revert HP0 Hs.
  generalize (@nil A) as acc. induction l as [|x l IH]; intros acc HPa Hs; simpl; [done|].
  inversion_clear HP as [|? ? Hx HP']. apply IH; [done| |by apply insert_sorted_sorted].
  rewrite insert_sorted_perm. by constructor.
Qed.

(** Removing everything in order, as repeated [Pop]s do. *)
Fixpoint drain (fuel : nat) (h : list A) : outcome (list A) :=
  match fuel, h with
  | _, [] => Done []
  | O, _ => Panic "out of fuel"
  | S fuel, _ => let! (h', x) := heap_Pop h in let! xs := drain fuel h' in Done (x :: xs)
  end.

Lemma drain_correct h :
  Forall P h → heap_ok h →
  ∃ xs, drain (length h) h = Done xs ∧ xs ≡ₚ h ∧ StronglySorted le xs.
Proof using less_asym le_trans.
  remember (length h) as n eqn:En. revert h En. induction n as [|n IH]; intros [|r h] En HP Hok; try done.
  { exists []. split; [done|]. split; [done|constructor]. }
  cbn [drain]. destruct (heap_Pop_correct r h HP Hok) as (h' & -> & Hperm & Hok'). cbn [obind].
  pose proof HP as [Hr HPh]%Forall_cons.
  destruct (IH h') as (xs & -> & Hpx & Hs).
  - rewrite (Permutation_length Hperm). simpl in En. lia.
  - by rewrite Hperm.
  - done.
  - exists (r :: xs). split; [done|]. split; [by rewrite Hpx, Hperm|].
    apply StronglySorted_cons. split; [|done]. rewrite Hpx, Hperm, Forall_forall. intros x Hx.
    apply (heap_root (r :: h) r x HP Hok eq_refl). by right.
Qed.
End heap.
