(* ===== verification/Events.v ===== *)
(** * The event queue: [pkg/simulation/event.go]

    Events ordered by time, then priority (descending), then scheduling order, kept in a
    binary heap; the queue's snapshot and the encoding of payloads. *)

From S2P Require Import Prelude Float64 Entity GoValues Heap.
Local Open Scope Z_scope.

Section events.
Context `{R : GoRuntime}.

(* pkg/simulation/event.go:12-36 Event *)
Record Event := mkEvent {
  ev_ID : Z;
  ev_Type : string;
  ev_Time : float64;
  ev_Priority : Z;
  ev_Seq : Z;
  ev_Source : EntityID;
  ev_Target : EntityID;
  ev_Payload : option value;
}.

(* pkg/simulation/event.go:38-50 eventLess *)
Definition eventLess (a b : Event) : bool :=
  if negb (feq (ev_Time a) (ev_Time b)) then flt (ev_Time a) (ev_Time b)
  else if negb (ev_Priority a =? ev_Priority b) then ev_Priority b <? ev_Priority a
  else if negb (ev_Seq a =? ev_Seq b) then ev_Seq a <? ev_Seq b
  else ev_ID a <? ev_ID b.

(* pkg/simulation/event.go:60-67 EventQueue *)
Record EventQueue := mkQ { q_h : list Event; q_next : Z; q_seq : Z }.

(* pkg/simulation/event.go:69-72 NewEventQueue *)
Definition NewEventQueue : EventQueue := mkQ [] 0 0.

(** The identifier and sequence number [Push] gives the event. *)
Definition stamp (next seq : Z) (e : Event) : Event * Z * Z :=
  let '(id, next) := if ev_ID e =? 0 then (u64 (next + 1), u64 (next + 1)) else (ev_ID e, next) in
  let seq := u64 (seq + 1) in
  (mkEvent id (ev_Type e) (ev_Time e) (ev_Priority e) seq (ev_Source e) (ev_Target e)
     (ev_Payload e), next, seq).

(* pkg/simulation/event.go:74-88 EventQueue.Push *)
Definition EventQueue__Push (q : EventQueue) (e : Event) : outcome (EventQueue * Event) :=
  let '(e, next, seq) := stamp (q_next q) (q_seq q) e in
  let! h := heap_Push eventLess (q_h q) e in
  Done (mkQ h next seq, e).

(* pkg/simulation/event.go:90-94 EventQueue.pushRaw *)
Definition EventQueue__pushRaw (q : EventQueue) (e : Event) : outcome EventQueue :=
  let! h := heap_Push eventLess (q_h q) e in Done (mkQ h (q_next q) (q_seq q)).

(* pkg/simulation/event.go:96-109 eventSnapshot *)
Record eventSnapshot := mkES {
  es_ID : Z;
  es_Type : string;
  es_Time : float64;
  es_Priority : Z;
  es_Seq : Z;
  es_Source : EntityID;
  es_Target : EntityID;
  es_Payload : rawJSON;
}.

(* pkg/simulation/event.go:111-117 eventQueueState *)
Record eventQueueState := mkQS { qs_Events : list eventSnapshot; qs_NextID : Z; qs_Seq : Z }.

(* pkg/simulation/event.go:126-141 marshalPayload *)
Definition marshalPayload (p : option value) (types : gmap string gotype) : result rawJSON :=
  match p with
  | None => Ok ""%string
  | Some v =>
      let name := typeString (typeOf v) in
      match types !! name with
      | Some _ => try! data := json_Marshal v in json_MarshalEnvelope name data
      | None => json_Marshal v
      end
  end.

(* pkg/simulation/event.go:143-162 unmarshalPayload *)
Definition unmarshalPayload (raw : rawJSON) (types : gmap string gotype) : result (option value) :=
  if decide (raw = ""%string) then Ok None
  else
    match json_UnmarshalEnvelope raw with
    | Ok (name, data) =>
        if decide (name = ""%string) then Ok (Some (rawValue raw))
        else
          match types !! name with
          | None => Err (Errorf "simulation: snapshot payload type is not registered")
          | Some t => try! v := wrap_err "simulation: decode payload" (json_Unmarshal t data) in
                      Ok (Some v)
          end
    | Err _ => Ok (Some (rawValue raw))
    end.

(** The snapshot of one event. *)
Definition snapshot_event (types : gmap string gotype) (acc : list eventSnapshot) (e : Event)
  : result (list eventSnapshot) :=
  try! payload := match ev_Payload e with
                  | None => Ok ""%string
                  | Some _ => marshalPayload (ev_Payload e) types
                  end in
  Ok (acc ++ [mkES (ev_ID e) (ev_Type e) (ev_Time e) (ev_Priority e) (ev_Seq e)
                (ev_Source e) (ev_Target e) payload]).

(* pkg/simulation/event.go:164-189 EventQueue.snapshot *)
Definition EventQueue__snapshot (q : EventQueue) (types : gmap string gotype)
  : result eventQueueState :=
  try! events := rfold (snapshot_event types) [] (q_h q) in
  Ok (mkQS events (q_next q) (q_seq q)).

(** The loop of [restore]: an error leaves the events pushed so far in the queue. *)
Fixpoint restore_events (q : EventQueue) (types : gmap string gotype) (l : list eventSnapshot)
  : outcome (EventQueue * result unit) :=
  match l with
  | [] => Done (q, Ok tt)
  | es :: l' =>
      match unmarshalPayload (es_Payload es) types with
      | Err e => Done (q, Err e)
      | Ok payload =>
          let! q := EventQueue__pushRaw q
            (mkEvent (es_ID es) (es_Type es) (es_Time es) (es_Priority es) (es_Seq es)
               (es_Source es) (es_Target es) payload) in
          restore_events q types l'
      end
  end.

(* pkg/simulation/event.go:191-214 EventQueue.restore *)
Definition EventQueue__restore (q : EventQueue) (st : eventQueueState) (types : gmap string gotype)
  : outcome (EventQueue * result unit) :=
  restore_events (mkQ [] (qs_NextID st) (qs_Seq st)) types (qs_Events st).

(* pkg/simulation/event.go:216-224 EventQueue.Peek *)
Definition EventQueue__Peek (q : EventQueue) : option Event := q_h q !! 0%nat.

(* pkg/simulation/event.go:226-234 EventQueue.Pop *)
Definition EventQueue__Pop (q : EventQueue) : outcome (EventQueue * option Event) :=
  if len (q_h q) =? 0 then Done (q, None)
  else let! (h, e) := heap_Pop eventLess (q_h q) in
       Done (mkQ h (q_next q) (q_seq q), Some e).

(* pkg/simulation/event.go:236-241 EventQueue.Len *)
Definition EventQueue__Len (q : EventQueue) : Z := len (q_h q).

(* pkg/simulation/event.go:243-251 EventQueue.PeekAll *)
Definition EventQueue__PeekAll (q : EventQueue) : list Event := sort_by eventLess (q_h q).

End events.

(** ** The firing order *)

Section order.
Context `{R : GoRuntime}.
Implicit Types a b c e : Event.

Definition timed (e : Event) : Prop := is_number (ev_Time e).

(** The order as a lexicographic order on integers. *)
Definition ev_before (a b : Event) : Prop :=
  lexlt (fkey (ev_Time a)) (fkey (ev_Time b)) ∨
  (fkey (ev_Time a) = fkey (ev_Time b) ∧
   lexlt (- ev_Priority a, ev_Seq a, ev_ID a) (- ev_Priority b, ev_Seq b, ev_ID b)).

Lemma eventLess_before a b : timed a → timed b → eventLess a b = true ↔ ev_before a b.
Proof.
  unfold timed. intros Ha Hb. unfold eventLess, ev_before.
  destruct (feq (ev_Time a) (ev_Time b)) eqn:Eq; cbn [negb].
  - apply feq_key in Eq; [|done..]. rewrite Eq. unfold lexlt at 2.
    assert (¬ lexlt (fkey (ev_Time b)) (fkey (ev_Time b))) by apply lexlt_irrefl.
    destruct (Z.eqb_spec (ev_Priority a) (ev_Priority b)), (Z.eqb_spec (ev_Seq a) (ev_Seq b));
      cbn [negb]; rewrite Z.ltb_lt; intuition lia.
  - assert (fkey (ev_Time a) ≠ fkey (ev_Time b)) as Hne.
    { intros H. apply feq_key in H; [|done..]. congruence. }
    rewrite flt_key by done. tauto.
Qed.

Lemma ev_before_trans a b c : ev_before a b → ev_before b c → ev_before a c.
Proof.
  unfold ev_before. intros [H1|[E1 H1]] [H2|[E2 H2]].
  - left. by eapply lexlt_trans.
  - left. by rewrite <- E2.
  - left. by rewrite E1.
  - right. split; [congruence|by eapply lexlt_trans].
Qed.

Lemma ev_before_irrefl a : ¬ ev_before a a.
Proof. intros [H|[_ H]]; by apply lexlt_irrefl in H. Qed.

Lemma ev_before_total a b : ev_before a b ∨ ev_before b a ∨ (ev_Seq a = ev_Seq b ∧ ev_ID a = ev_ID b).
Proof.
  unfold ev_before. destruct (lexlt_total (fkey (ev_Time a)) (fkey (ev_Time b))) as [|[E|]]; [auto| |auto].
  destruct (lexlt_total (- ev_Priority a, ev_Seq a, ev_ID a) (- ev_Priority b, ev_Seq b, ev_ID b))
    as [|[E'|]]; [auto 6| |auto 6].
  injection E' as ???. right. right. done.
Qed.

Lemma eventLess_asym a b : timed a → timed b → eventLess a b = true → eventLess b a = false.
Proof.
  intros Ha Hb Hab. destruct (eventLess b a) eqn:E; [|done].
  apply eventLess_before in Hab, E; try done.
  destruct (ev_before_irrefl a). by eapply ev_before_trans.
Qed.

Lemma eventLess_false a b : timed a → timed b →
  eventLess b a = false ↔ ev_before a b ∨ ¬ ev_before b a.
Proof.
  intros Ha Hb. rewrite <- not_true_iff_false, eventLess_before by done. split; [tauto|].
  intros [H1|H1] H2; [|done]. destruct (ev_before_irrefl a). by eapply ev_before_trans.
Qed.

Lemma eventLe_trans a b c : timed a → timed b → timed c →
  eventLess b a = false → eventLess c b = false → eventLess c a = false.
Proof.
  intros Ha Hb Hc Hab Hbc. destruct (eventLess c a) eqn:E; [|done].
  apply eventLess_before in E; [|done..].
  rewrite <- not_true_iff_false, eventLess_before in Hab, Hbc by done.
  destruct (lexlt_total (fkey (ev_Time a)) (fkey (ev_Time b))) as [H|[H|H]];
    [|  |destruct Hab; by left].
  - destruct Hbc. unfold ev_before in *. destruct E as [E|[E _]].
    + left. by eapply lexlt_trans.
    + left. by rewrite E.
  - destruct (lexlt_total (- ev_Priority a, ev_Seq a, ev_ID a)
                          (- ev_Priority b, ev_Seq b, ev_ID b)) as [H'|[H'|H']].
    + destruct Hbc. eapply ev_before_trans; [exact E|]. by right.
    + destruct Hbc. unfold ev_before in *. by rewrite <- H, <- H'.
    + destruct Hab. by right.
Qed.

(** Two events neither of which comes first carry the same sequence number. *)
Lemma eventLe_antisym a b : timed a → timed b →
  eventLess b a = false → eventLess a b = false → ev_Seq a = ev_Seq b.
Proof.
  intros Ha Hb Hab Hba. rewrite <- not_true_iff_false, eventLess_before in Hab, Hba by done.
  destruct (ev_before_total a b) as [?|[?|[? _]]]; done.
Qed.

(** On events whose times are numbers, [eventLess] is a strict total order up to the
    sequence number and identifier: irreflexive, transitive, and any two events that differ
    there are ordered one way or the other. *)
Theorem eventLess_strict_total a b c :
  timed a → timed b → timed c →
  eventLess a a = false ∧
  (eventLess a b = true → eventLess b c = true → eventLess a c = true) ∧
  ((ev_Seq a, ev_ID a) ≠ (ev_Seq b, ev_ID b) → xorb (eventLess a b) (eventLess b a) = true).
Proof.
  intros Ha Hb Hc. split; [|split].
  - rewrite <- not_true_iff_false, eventLess_before by done. apply ev_before_irrefl.
  - rewrite !eventLess_before by done. apply ev_before_trans.
  - intros Hne. destruct (eventLess a b) eqn:E.
    + by rewrite (eventLess_asym a b).
    + destruct (eventLess b a) eqn:E'; [done|].
      rewrite <- not_true_iff_false, eventLess_before in E, E' by done.
      destruct (ev_before_total a b) as [?|[?|[H1 H2]]]; [done|done|].
      by rewrite H1, H2 in Hne.
Qed.
End order.

Definition demo_event `{R : GoRuntime} (t : float64) (prio seq : Z) : Event :=
  mkEvent seq "demo" t prio seq 0 0 None.

Lemma eventLess_strict_total_witness :
  let a := demo_event (R := Toy.runtime) fone 5 1 in
  let b := demo_event fone 3 2 in
  let c := demo_event (f64_of_Z 2) 9 3 in
  eventLess a a = false ∧
  (eventLess a b = true → eventLess b c = true → eventLess a c = true) ∧
  ((ev_Seq a, ev_ID a) ≠ (ev_Seq b, ev_ID b) → xorb (eventLess a b) (eventLess b a) = true).
Proof. apply (eventLess_strict_total (R := Toy.runtime)); vm_compute; reflexivity. Defined.

(** ** The queue refines a sorted list *)

Section refinement.
Context `{R : GoRuntime}.
Implicit Types (q : EventQueue) (s : list Event) (e : Event).

Inductive ev_op :=
  | QPush (e : Event)
  | QPop
  | QPeek
  | QLen
  | QPeekAll.

Inductive ev_ret :=
  | RPushed (e : Event)
  | REvent (e : option Event)
  | RLen (n : Z)
  | RAll (l : list Event).

Definition ev_exec q (op : ev_op) : outcome (EventQueue * ev_ret) :=
  match op with
  | QPush e => let! (q', e') := EventQueue__Push q e in Done (q', RPushed e')
  | QPop => let! (q', e) := EventQueue__Pop q in Done (q', REvent e)
  | QPeek => Done (q, REvent (EventQueue__Peek q))
  | QLen => Done (q, RLen (EventQueue__Len q))
  | QPeekAll => Done (q, RAll (EventQueue__PeekAll q))
  end.

Fixpoint ev_run q (ops : list ev_op) : outcome (EventQueue * list ev_ret) :=
  match ops with
  | [] => Done (q, [])
  | op :: ops' =>
      let! (q1, r) := ev_exec q op in
      let! (q2, rs) := ev_run q1 ops' in Done (q2, r :: rs)
  end.

(** The specification: the pending events in firing order. *)
Record sorted_queue := mkSQ { sq_events : list Event; sq_next : Z; sq_seq : Z }.

Definition spec_exec (sq : sorted_queue) (op : ev_op) : sorted_queue * ev_ret :=
  match op with
  | QPush e =>
      let '(e', next, seq) := stamp (sq_next sq) (sq_seq sq) e in
      (mkSQ (insert_sorted eventLess e' (sq_events sq)) next seq, RPushed e')
  | QPop => (mkSQ (tail (sq_events sq)) (sq_next sq) (sq_seq sq), REvent (head (sq_events sq)))
  | QPeek => (sq, REvent (head (sq_events sq)))
  | QLen => (sq, RLen (len (sq_events sq)))
  | QPeekAll => (sq, RAll (sq_events sq))
  end.

(** The queue's invariant: a heap of timed events with distinct sequence numbers below the
    counter. *)
Record q_inv q : Prop := {
  qi_heap : heap_ok eventLess (q_h q);
  qi_timed : Forall timed (q_h q);
  qi_nodup : NoDup (ev_Seq <$> q_h q);
  qi_seq : Forall (λ e, 0 ≤ ev_Seq e ≤ q_seq q) (q_h q);
}.

Record q_refines q (sq : sorted_queue) : Prop := {
  qr_inv : q_inv q;
  qr_perm : sq_events sq ≡ₚ q_h q;
  qr_sorted : StronglySorted (le eventLess) (sq_events sq);
  qr_next : sq_next sq = q_next q;
  qr_seq : sq_seq sq = q_seq q;
}.

Lemma NoDup_key_eq (l : list Event) a b :
  NoDup (ev_Seq <$> l) → a ∈ l → b ∈ l → ev_Seq a = ev_Seq b → a = b.
Proof.
  intros Hnd [i Hi]%list_elem_of_lookup [j Hj]%list_elem_of_lookup E.
  assert (i = j) as ->; [|congruence].
  eapply (NoDup_lookup _ i j (ev_Seq a) Hnd); rewrite list_lookup_fmap; [by rewrite Hi|].
  rewrite Hj. simpl. by rewrite E.
Qed.

(** Sorted arrangements of the same events agree. *)
Lemma sorted_unique (l1 l2 : list Event) :
  Forall timed l1 → NoDup (ev_Seq <$> l1) → l1 ≡ₚ l2 →
  StronglySorted (le eventLess) l1 → StronglySorted (le eventLess) l2 → l1 = l2.
Proof.
  intros HT Hnd Hp H1 H2. eapply StronglySorted_unique_strong; [|done|done|done].
  intros a b Ha Hb Hab Hba. rewrite <- Hp in Hb. rewrite Forall_forall in HT.
  eapply NoDup_key_eq; eauto. apply eventLe_antisym; auto.
Qed.

Lemma Push_refines q sq e :
  q_refines q sq → timed e → q_seq q < 2 ^ 64 - 1 → 0 ≤ q_seq q →
  ∃ q', EventQueue__Push q e = Done (q', (stamp (q_next q) (q_seq q) e).1.1) ∧
    q_refines q' (spec_exec sq (QPush e)).1 ∧
    (spec_exec sq (QPush e)).2 = RPushed (stamp (q_next q) (q_seq q) e).1.1 ∧
    q_seq q' = q_seq q + 1.
Proof.
  intros [Hinv Hperm Hsort Hn Hs] Ht Hlt H0. unfold EventQueue__Push, spec_exec.
  rewrite Hn, Hs. destruct (stamp (q_next q) (q_seq q) e) as [[e' next] seq] eqn:Est.
  assert (timed e' ∧ ev_Seq e' = q_seq q + 1 ∧ seq = q_seq q + 1) as (Ht' & Hes & Hseq).
  { unfold stamp in Est. assert (u64 (q_seq q + 1) = q_seq q + 1) as E by (apply u64_id; split; lia).
    rewrite E in Est. destruct (ev_ID e =? 0); injection Est as <- <- <-; done. }
  destruct Hinv as [Hheap HT Hnd Hb].
  destruct (heap_Push_correct eventLess timed eventLess_asym eventLe_trans (q_h q) e' HT Ht' Hheap)
    as (h' & -> & Hp' & Hheap'). cbn [obind].
  exists (mkQ h' next seq). split; [done|]. split; [|split; [done|done]].
  split; cbn [q_h q_next q_seq sq_events sq_next sq_seq fst]; [|..].
  - split; cbn [q_h q_seq]; [done|by rewrite Hp'; constructor| |].
    + rewrite Hp'. apply NoDup_cons. split; [|done]. intros Hin.
      apply list_elem_of_fmap in Hin as (x & Hx & Hxin). rewrite Forall_forall in Hb.
      specialize (Hb x Hxin). simpl in Hb. lia.
    + rewrite Hp'. constructor; [lia|]. eapply Forall_impl; [done|]. simpl. lia.
  - rewrite insert_sorted_perm, Hperm. by rewrite Hp'.
  - apply (insert_sorted_sorted eventLess timed eventLess_asym eventLe_trans); [done| |done].
    by rewrite Hperm.
  - done.
  - done.
Qed.

(** The head of the sorted list is the root of the heap. *)
Lemma head_root q sq : q_refines q sq → head (sq_events sq) = q_h q !! 0%nat.
Proof.
  intros [[Hheap HT Hnd _] Hperm Hsort _ _]. destruct (q_h q) as [|r h] eqn:Eh.
  { by apply Permutation_nil_r in Hperm as ->. }
  destruct (sq_events sq) as [|m s] eqn:Es; [by apply Permutation_nil_l in Hperm|]. simpl. f_equal.
  apply StronglySorted_cons in Hsort as [Hm _].
  assert (m ∈ r :: h) as Hmin by (rewrite <- Hperm; by left).
  assert (r ∈ m :: s) as Hrin by (rewrite Hperm; by left).
  rewrite Forall_forall in HT.
  eapply NoDup_key_eq; [done|done|by left|].
  apply eventLe_antisym; [auto|apply HT; by left| |].
  - apply elem_of_cons in Hrin as [->|Hrin].
    + apply (less_refl eventLess timed eventLess_asym). apply HT. by left.
    + rewrite Forall_forall in Hm. by apply Hm.
  - apply (heap_root eventLess timed eventLess_asym eventLe_trans (r :: h)); [|done|done|done].
    by apply Forall_forall.
Qed.

Lemma Pop_refines q sq :
  q_refines q sq →
  ∃ q', EventQueue__Pop q = Done (q', head (sq_events sq)) ∧
    q_refines q' (spec_exec sq QPop).1 ∧ q_seq q' = q_seq q.
Proof.
  intros Href. pose proof (head_root q sq Href) as Hhead.
  destruct Href as [[Hheap HT Hnd Hb] Hperm Hsort Hn Hs].
  unfold EventQueue__Pop. rewrite Hhead. destruct (q_h q) as [|r h] eqn:Eh.
  { exists q. split; [done|]. split; [|done].
    apply Permutation_nil_r in Hperm. split; cbn; rewrite ?Hperm, ?Eh; try done; [|constructor].
    split; rewrite ?Eh; done. }
  assert ((len (r :: h) =? 0) = false) as -> by (apply Z.eqb_neq; unfold len; simpl; lia).
  destruct (heap_Pop_correct eventLess timed eventLess_asym eventLe_trans r h HT Hheap)
    as (h' & -> & Hp' & Hheap'). cbn [obind].
  exists (mkQ h' (q_next q) (q_seq q)). split; [done|]. split; [|done].
  destruct (sq_events sq) as [|m s] eqn:Es; [by apply Permutation_nil_l in Hperm|].
  simpl in Hhead. injection Hhead as ->. apply Permutation_cons_inv in Hperm.
  apply StronglySorted_cons in Hsort as [_ Hsort].
  apply Forall_cons in HT as [_ HT]. apply Forall_cons in Hb as [_ Hb].
  apply NoDup_cons in Hnd as [_ Hnd].
  split; cbn; rewrite ?Es; cbn; [|by rewrite Hp'|done|done|done].
  split; cbn; [done|by rewrite Hp'..].
Qed.

Lemma PeekAll_refines q sq : q_refines q sq → EventQueue__PeekAll q = sq_events sq.
Proof.
  intros [[Hheap HT Hnd _] Hperm Hsort _ _]. unfold EventQueue__PeekAll.
  apply sorted_unique.
  - by rewrite (sort_by_perm eventLess).
  - by rewrite (sort_by_perm eventLess).
  - rewrite Hperm. apply sort_by_perm.
  - by apply (sort_by_sorted eventLess timed eventLess_asym eventLe_trans).
  - done.
Qed.

Definition op_timed (op : ev_op) : Prop := match op with QPush e => timed e | _ => True end.

Lemma ev_exec_refines q sq op :
  q_refines q sq → op_timed op → 0 ≤ q_seq q < 2 ^ 64 - 1 →
  ∃ q', ev_exec q op = Done (q', (spec_exec sq op).2) ∧ q_refines q' (spec_exec sq op).1 ∧
    q_seq q ≤ q_seq q' ≤ q_seq q + 1.
Proof.
  intros Href Hop Hseq. destruct op as [e| | | |]; cbn [ev_exec].
  - destruct (Push_refines q sq e Href Hop) as (q' & -> & Href' & Hr & Hs); [lia|lia|]. cbn [obind].
    exists q'. rewrite Hr. split; [done|]. split; [done|lia].
  - destruct (Pop_refines q sq Href) as (q' & -> & Href' & Hs). cbn [obind].
    exists q'. split; [done|]. split; [done|lia].
  - exists q. unfold EventQueue__Peek. rewrite <- (head_root q sq Href).
    split; [done|]. split; [done|lia].
  - exists q. cbn [spec_exec fst snd]. unfold EventQueue__Len, len.
    rewrite (Permutation_length (qr_perm _ _ Href)). split; [done|]. split; [done|lia].
  - exists q. rewrite (PeekAll_refines q sq Href). split; [done|]. split; [done|lia].
Qed.

Lemma empty_refines : q_refines NewEventQueue (mkSQ [] 0 0).
Proof.
  split; [|done|constructor|done|done].
  split; cbn; [|constructor|constructor|constructor]. intros i Hi a b Ha. by rewrite lookup_nil in Ha.
Qed.

(** *** The firing order, stated without [eventLess] *)

(** [a] is due before [b]: earlier, or at the same time with the higher priority. *)
Definition due_before (a b : Event) : bool :=
  flt (ev_Time a) (ev_Time b) || (feq (ev_Time a) (ev_Time b) && (ev_Priority b <? ev_Priority a)).

(** A new event goes behind all pending ones except those it is due before. *)
Fixpoint schedule e s : list Event :=
  match s with
  | [] => [e]
  | x :: s' => if due_before e x then e :: s else x :: schedule e s'
  end.

(** The pending events in firing order, the last identifier given and the number of pushes; no
    counter wraps around. *)
Record calendar := mkCal { cal_events : list Event; cal_next : Z; cal_pushes : Z }.

Definition cal_exec (c : calendar) (op : ev_op) : calendar * ev_ret :=
  match op with
  | QPush e =>
      let next := if ev_ID e =? 0 then cal_next c + 1 else cal_next c in
      let e' := mkEvent (if ev_ID e =? 0 then next else ev_ID e) (ev_Type e) (ev_Time e) (ev_Priority e)
                  (cal_pushes c + 1) (ev_Source e) (ev_Target e) (ev_Payload e) in
      (mkCal (schedule e' (cal_events c)) next (cal_pushes c + 1), RPushed e')
  | QPop => (mkCal (tail (cal_events c)) (cal_next c) (cal_pushes c), REvent (head (cal_events c)))
  | QPeek => (c, REvent (head (cal_events c)))
  | QLen => (c, RLen (len (cal_events c)))
  | QPeekAll => (c, RAll (cal_events c))
  end.

Fixpoint cal_run (c : calendar) (ops : list ev_op) : calendar * list ev_ret :=
  match ops with
  | [] => (c, [])
  | op :: ops' =>
      let '(c1, r) := cal_exec c op in
      let '(c2, rs) := cal_run c1 ops' in (c2, r :: rs)
  end.

(** Against an event scheduled earlier, [eventLess] decides by time and priority alone. *)
Lemma eventLess_due e x :
  timed e → timed x → ev_Seq x < ev_Seq e → eventLess e x = due_before e x.
Proof.
  unfold timed. intros He Hx Hseq. unfold eventLess, due_before.
  destruct (feq (ev_Time e) (ev_Time x)) eqn:Eq; cbn [negb andb]; [|by rewrite orb_false_r].
  apply feq_key in Eq; [|done..].
  assert (flt (ev_Time e) (ev_Time x) = false) as ->.
  { apply not_true_iff_false. rewrite flt_key by done. rewrite Eq. apply lexlt_irrefl. }
  destruct (Z.eqb_spec (ev_Priority e) (ev_Priority x)) as [->|]; cbn [negb orb]; [|done].
  rewrite Z.ltb_irrefl. destruct (Z.eqb_spec (ev_Seq e) (ev_Seq x)); [lia|]. cbn [negb].
  destruct (Z.ltb_spec (ev_Seq e) (ev_Seq x)); [lia|done].
Qed.

Lemma insert_sorted_schedule e s :
  timed e → Forall timed s → Forall (λ x, ev_Seq x < ev_Seq e) s → insert_sorted eventLess e s = schedule e s.
Proof.
  intros He. induction s as [|x s IH]; intros Ht Hs; [done|]. apply Forall_cons in Ht as [Hx Ht].
  apply Forall_cons in Hs as [Hsx Hs]. cbn. by rewrite eventLess_due, IH.
Qed.

Definition as_sorted (c : calendar) : sorted_queue := mkSQ (cal_events c) (cal_next c) (cal_pushes c).

Lemma cal_exec_spec q c op :
  q_refines q (as_sorted c) → op_timed op → 0 ≤ cal_next c ≤ cal_pushes c → cal_pushes c < 2 ^ 64 - 1 →
  spec_exec (as_sorted c) op = (as_sorted (cal_exec c op).1, (cal_exec c op).2) ∧
  0 ≤ cal_next (cal_exec c op).1 ≤ cal_pushes (cal_exec c op).1 ∧
  cal_pushes (cal_exec c op).1 ≤ cal_pushes c + 1.
Proof.
  intros Href Hop Hn Hp. destruct op as [e| | | |]; try (split; [done|cbn; lia]).
  destruct Href as [[_ HT _ Hb] Hperm _ _ Hs]. cbn in Hs, Hperm. rewrite <- Hperm in HT, Hb. rewrite <- Hs in Hb.
  unfold cal_exec, spec_exec, stamp, as_sorted. cbn [sq_next sq_seq sq_events].
  assert (∀ e', timed e' → ev_Seq e' = cal_pushes c + 1 →
    insert_sorted eventLess e' (cal_events c) = schedule e' (cal_events c)) as Hins.
  { intros e' Ht Hseq. apply insert_sorted_schedule; [done|done|].
    eapply Forall_impl; [exact Hb|]. cbn. intros x Hx. lia. }
  rewrite !u64_id by (split; lia). destruct (ev_ID e =? 0); cbn; (split; [by rewrite Hins|lia]).
Qed.

Lemma cal_run_refines ops q c :
  q_refines q (as_sorted c) → Forall op_timed ops → 0 ≤ cal_next c ≤ cal_pushes c → cal_pushes c + len ops < 2 ^ 64 →
  ∃ q', ev_run q ops = Done (q', (cal_run c ops).2) ∧ q_refines q' (as_sorted (cal_run c ops).1).
Proof.
  revert q c. induction ops as [|op ops IH]; intros q c Href Hops Hn Hlen; [by exists q|].
  apply Forall_cons in Hops as [Hop Hops]. rewrite len_cons in Hlen. pose proof (len_nonneg ops).
  destruct (cal_exec_spec q c op Href Hop Hn) as (Hspec & Hn' & Hp'); [lia|].
  destruct (ev_exec_refines q (as_sorted c) op Href Hop) as (q1 & He & Href1 & _).
  { pose proof (qr_seq _ _ Href) as E. cbn in E. lia. }
  rewrite Hspec in He, Href1. cbn [ev_run cal_run]. rewrite He. cbn [obind fst snd] in *.
  destruct (cal_exec c op) as [c1 r]. cbn [fst snd] in *.
  destruct (IH q1 c1 Href1 Hops Hn') as (q2 & -> & Href2); [lia|]. cbn [obind].
  exists q2. by destruct (cal_run c1 ops).
Qed.

(** C7: the event queue is a calendar: a list of the pending events in which a new event is put
    behind all those it is not due before, where an event is due before another if its time is
    earlier or, at equal times, its priority higher.  Every sequence of fewer than [2^64] calls of
    [Push], [Pop], [Peek], [Len] and [PeekAll] in which no pushed time is NaN returns what the
    calendar returns: events fire in time order, ties by descending priority, and remaining ties
    first scheduled, first fired. *)
Theorem EventQueue_refines_sorted (ops : list ev_op) :
  Forall op_timed ops → len ops < 2 ^ 64 →
  ∃ q, ev_run NewEventQueue ops = Done (q, (cal_run (mkCal [] 0 0) ops).2) ∧
       q_h q ≡ₚ cal_events (cal_run (mkCal [] 0 0) ops).1.
Proof.
  intros Hops Hlen. destruct (cal_run_refines ops NewEventQueue (mkCal [] 0 0)) as (q & Hr & Href);
    [apply empty_refines|done|done|done|]. exists q. split; [done|]. by rewrite <- (qr_perm _ _ Href).
Qed.
End refinement.

Lemma EventQueue_refines_sorted_witness :
  let ev t prio := demo_event (R := Toy.runtime) t prio 0 in
  let ops := [QPush (ev (f64_of_Z 2) 0); QPush (ev fone 0); QPush (ev fone 7); QPop; QPeekAll] in
  let stamped t prio n := mkEvent (R := Toy.runtime) n "demo" t prio n 0 0 None in
  ∃ q, ev_run NewEventQueue ops
       = Done (q, [RPushed (stamped (f64_of_Z 2) 0 1); RPushed (stamped fone 0 2); RPushed (stamped fone 7 3);
                   REvent (Some (stamped fone 7 3)); RAll [stamped fone 0 2; stamped (f64_of_Z 2) 0 1]]).
Proof.
  destruct (EventQueue_refines_sorted (R := Toy.runtime)
    [QPush (demo_event (f64_of_Z 2) 0 0); QPush (demo_event fone 0 0); QPush (demo_event fone 7 0); QPop; QPeekAll])
    as (q & Hq & _); [repeat constructor|vm_compute; reflexivity|].
  exists q. exact Hq.
Defined.

(** [eventLess] is documented as a total order, but an event whose time is NaN breaks the
    heap: with the times 2, NaN, 3, 1 queued, [Pop] fires the event at 2 before the one at 1. *)
Theorem NaN_event_breaks_order :
  let ev t := demo_event (R := Toy.runtime) t 0 0 in
  ∃ q e,
    ev_run NewEventQueue [QPush (ev (f64_of_Z 2)); QPush (ev SpecFloat.S754_nan);
                          QPush (ev (f64_of_Z 3)); QPush (ev fone); QPop]
    = Done (q, e) ∧
    last e = Some (REvent (Some (mkEvent 1 "demo" (f64_of_Z 2) 0 1 0 0 None))) ∧
    flt fone (f64_of_Z 2) = true.
Proof. eexists _, _. split; [vm_compute; reflexivity|]. split; vm_compute; reflexivity. Qed.

(** ** Snapshots *)

Section snapshots.
Context `{R : GoRuntime} {marshalable : value → Prop} {J : JsonRoundTrip R marshalable}.
Context (types : gmap string gotype).

(** A payload that survives a snapshot: none, or a value of a registered type. *)
Definition payload_ok (p : option value) : Prop :=
  match p with
  | None => True
  | Some v => marshalable v ∧ typeString (typeOf v) ≠ ""%string ∧
              types !! typeString (typeOf v) = Some (typeOf v)
  end.

Lemma payload_round_trip p :
  payload_ok p → ∃ raw, marshalPayload p types = Ok raw ∧ unmarshalPayload raw types = Ok p.
Proof using J.
  destruct p as [v|]; [|by exists ""%string]. intros (Hm & Hname & Ht).
  unfold marshalPayload. rewrite Ht.
  destruct (json_value_round_trip v Hm) as (data & Hdata & _ & Hun). rewrite Hdata. cbn [rbind].
  destruct (json_envelope_round_trip (typeString (typeOf v)) v data Hdata) as (raw & -> & Hne & Henv).
  exists raw. split; [done|]. unfold unmarshalPayload. rewrite decide_False by done.
  rewrite Henv, decide_False by done. rewrite Ht, Hun. done.
Qed.

Definition restored (es : eventSnapshot) (e : Event) : Prop :=
  (es_ID es, es_Type es, es_Time es, es_Priority es, es_Seq es, es_Source es, es_Target es)
  = (ev_ID e, ev_Type e, ev_Time e, ev_Priority e, ev_Seq e, ev_Source e, ev_Target e) ∧
  unmarshalPayload (es_Payload es) types = Ok (ev_Payload e).

Lemma snapshot_events_ok h acc :
  Forall (λ e, payload_ok (ev_Payload e)) h →
  ∃ l, rfold (snapshot_event types) acc h = Ok (acc ++ l) ∧ Forall2 restored l h.
Proof using J.
  revert acc. induction h as [|e h IH]; intros acc Hh.
  { exists []. by rewrite app_nil_r. }
  apply Forall_cons in Hh as [He Hh]. cbn [rfold]. unfold snapshot_event at 1.
  destruct (payload_round_trip (ev_Payload e) He) as (raw & Hm & Hun).
  assert (match ev_Payload e with None => Ok ""%string
          | Some _ => marshalPayload (ev_Payload e) types end = Ok raw) as ->.
  { destruct (ev_Payload e); [done|]. cbn in Hm. congruence. }
  cbn [rbind]. destruct (IH (acc ++ [mkES (ev_ID e) (ev_Type e) (ev_Time e) (ev_Priority e)
    (ev_Seq e) (ev_Source e) (ev_Target e) raw]) Hh) as (l & -> & Hl).
  eexists (_ :: l). rewrite <- app_assoc. split; [done|]. constructor; [|done].
  by split.
Qed.

Lemma restore_events_ok l pre h next seq :
  heap_ok eventLess (pre ++ h) → Forall2 restored l h →
  restore_events (mkQ pre next seq) types l = Done (mkQ (pre ++ h) next seq, Ok tt).
Proof using Type.
  intros Hok Hl. revert pre Hok. induction Hl as [|es e l h He _ IH]; intros pre Hok.
  { by rewrite app_nil_r. }
  cbn [restore_events]. destruct He as [Heq ->]. injection Heq as -> -> -> -> -> -> ->.
  unfold EventQueue__pushRaw. cbn [q_h q_next q_seq].
  assert (mkEvent (ev_ID e) (ev_Type e) (ev_Time e) (ev_Priority e) (ev_Seq e) (ev_Source e)
    (ev_Target e) (ev_Payload e) = e) as -> by by destruct e.
  rewrite heap_Push_in_place.
  - cbn [obind]. rewrite IH; [by rewrite <- app_assoc|]. by rewrite <- app_assoc.
  - eapply (heap_ok_app_l _ _ h). by rewrite <- app_assoc.
Qed.

Lemma EventQueue_restore_same q q0 :
  heap_ok eventLess (q_h q) → Forall (λ e, payload_ok (ev_Payload e)) (q_h q) →
  ∃ st, EventQueue__snapshot q types = Ok st ∧
        EventQueue__restore q0 st types = Done (q, Ok tt).
Proof using J.
  intros Hok Hp. unfold EventQueue__snapshot.
  destruct (snapshot_events_ok (q_h q) [] Hp) as (l & -> & Hl). cbn [rbind app].
  eexists. split; [done|]. unfold EventQueue__restore. cbn.
  rewrite (restore_events_ok l [] (q_h q)) by done. by destruct q.
Qed.

(** Restoring the snapshot of a queue gives back the very same heap slice and counters
    (re-inserting a heap's slice in order moves nothing), for payloads that are nil or of a
    registered type. *)
Theorem EventQueue_restore_snapshot q q0 :
  q_inv q → Forall (λ e, payload_ok (ev_Payload e)) (q_h q) →
  ∃ st, EventQueue__snapshot q types = Ok st ∧
        EventQueue__restore q0 st types = Done (q, Ok tt).
Proof using J. intros [Hok _ _ _]. by apply EventQueue_restore_same. Qed.
End snapshots.

Definition toy_types : gmap string bool := {["toy.Bool"%string := true]}.

Definition toy_queue : EventQueue (R := Toy.runtime) :=
  mkQ [mkEvent 1 "a" fone 0 1 0 0 (Some (inl true)); mkEvent 2 "b" (f64_of_Z 2) 0 2 0 0 None] 2 2.

Lemma EventQueue_restore_snapshot_witness :
  ∃ st, EventQueue__snapshot toy_queue toy_types = Ok st ∧
        EventQueue__restore NewEventQueue st toy_types = Done (toy_queue, Ok tt).
Proof.
  apply (EventQueue_restore_snapshot (R := Toy.runtime) toy_types toy_queue NewEventQueue).
  - split; cbn.
    + intros [|[|[|i]]] Hi; [lia| |done|done]. intros a b [= <-] [= <-]. vm_compute. reflexivity.
    + repeat constructor.
    + repeat constructor; set_solver.
    + repeat constructor; cbn; lia.
  - repeat constructor; done.
Defined.
