(* ===== verification/GoStrings.v ===== *)
(** * Go strings

    Byte-wise comparison of strings and the parts of [strings] and [strconv] the code uses. *)

From Stdlib Require Import Ascii.
From S2P Require Import Prelude.

(** Texts of ASCII characters only, which every encoding of a string as JSON keeps. *)
Fixpoint ascii_text (s : string) : bool :=
  match s with
  | EmptyString => true
  | String c s => (N_of_ascii c <? 128)%N && ascii_text s
  end.

(** Go's [a < b] on strings: lexicographic on bytes. *)
Fixpoint string_lt (a b : string) : bool :=
  match a, b with
  | _, EmptyString => false
  | EmptyString, String _ _ => true
  | String c a', String d b' =>
      if (N_of_ascii c <? N_of_ascii d)%N then true
      else if (N_of_ascii d <? N_of_ascii c)%N then false
      else string_lt a' b'
  end.

Lemma string_lt_asym a b : string_lt a b = true → string_lt b a = false.
Proof.
  revert b. induction a as [|c a IH]; intros [|d b]; simpl; try done.
  destruct (N.ltb_spec (N_of_ascii c) (N_of_ascii d)), (N.ltb_spec (N_of_ascii d) (N_of_ascii c));
    try done; [lia|]. apply IH.
Qed.

Lemma string_lt_irrefl a : string_lt a a = false.
Proof. destruct (string_lt a a) eqn:E; [|done]. by rewrite (string_lt_asym a a E) in E. Qed.

Lemma string_le_trans a b c :
  string_lt b a = false → string_lt c b = false → string_lt c a = false.
Proof.
  revert b c. induction a as [|x a IH]; intros [|y b] [|z c]; simpl; try done.
  destruct (N.ltb_spec (N_of_ascii y) (N_of_ascii x)), (N.ltb_spec (N_of_ascii x) (N_of_ascii y)),
    (N.ltb_spec (N_of_ascii z) (N_of_ascii y)), (N.ltb_spec (N_of_ascii y) (N_of_ascii z)),
    (N.ltb_spec (N_of_ascii z) (N_of_ascii x)), (N.ltb_spec (N_of_ascii x) (N_of_ascii z));
    try done; try lia. apply IH.
Qed.

Lemma string_lt_trichotomy a b : string_lt a b = false → string_lt b a = false → a = b.
Proof.
  revert b. induction a as [|c a IH]; intros [|d b]; simpl; try done.
  destruct (N.ltb_spec (N_of_ascii c) (N_of_ascii d)), (N.ltb_spec (N_of_ascii d) (N_of_ascii c));
    try done. intros H1 H2. f_equal; [|by apply IH].
  rewrite <- (ascii_N_embedding c), <- (ascii_N_embedding d). f_equal. lia.
Qed.

(** ** [strings] and [strconv] *)

(** [strings.Split(s, sep)] for a one-byte separator. *)
Fixpoint split_on (sep : ascii) (s : string) : list string :=
  match s with
  | EmptyString => [EmptyString]
  | String c s' =>
      if Ascii.eqb c sep then EmptyString :: split_on sep s'
      else match split_on sep s' with
           | [] => [String c EmptyString]
           | p :: ps => String c p :: ps
           end
  end.

(** [s[:strings.IndexAny(s, chars)]], or [s] when none of the characters occurs. *)
Fixpoint cut_any (stop : ascii → bool) (s : string) : string :=
  match s with
  | EmptyString => EmptyString
  | String c s' => if stop c then EmptyString else String c (cut_any stop s')
  end.

Definition digit_val (c : ascii) : option Z :=
  let n := Z.of_N (N_of_ascii c) in
  if (48 <=? n)%Z && (n <=? 57)%Z then Some (n - 48)%Z else None.

Fixpoint digits_val (acc : Z) (s : string) : option Z :=
  match s with
  | EmptyString => Some acc
  | String c s' =>
      match digit_val c with
      | Some d => digits_val (acc * 10 + d)%Z s'
      | None => None
      end
  end.

(** The digits of a number, at least one. *)
Definition parse_nat (s : string) : option Z :=
  match s with EmptyString => None | _ => digits_val 0 s end.

(** [strconv.Atoi]: an optional sign, digits, and a value that fits an [int]. *)
Definition Atoi (s : string) : option Z :=
  let r := match s with
           | String "-" s' => match parse_nat s' with Some v => Some (- v)%Z | None => None end
           | String "+" s' => parse_nat s'
           | _ => parse_nat s
           end in
  match r with
  | Some v => if (- 2 ^ 63 <=? v)%Z && (v <? 2 ^ 63)%Z then Some v else None
  | None => None
  end.
