(* ===== verification/World.v ===== *)
(** * The world: [clock.go], [resource.go], [schedule.go], [world.go], [pkg/model/model.go]

    [World] gathers the entity manager, the component store, resources, tags, the event queue,
    the clock and the random streams, and counts structural revisions. *)

From S2P Require Import Prelude Float64 Rng Entity GoValues GoStrings Interning Component Tags Heap.
From S2P Require Import Events.
Local Open Scope Z_scope.

(** ** Modes and metadata *)

(** A [Mode] is a [uint8]. *)
Abbreviation Mode := Z (only parsing).
(* pkg/model/model.go:7-15 Mode *)
Definition ModeTick : Mode := 0.
Definition ModeEvent : Mode := 1.

(* pkg/model/model.go:17-26 Mode.String *)
Definition Mode__String (m : Mode) : string :=
  if m =? ModeTick then "tick" else if m =? ModeEvent then "event" else "unknown".

(* pkg/model/model.go:28-43 Metadata *)
Record ModelMetadata := mkModelMeta {
  mm_ID : string;
  mm_Name : string;
  mm_Version : string;
  mm_Description : string;
  mm_Mode : Mode;
}.

(** ** The clock *)

(* pkg/simulation/clock.go:5-13 Clock *)
Record Clock := mkClock { clk_tick : Z; clk_time : float64 }.

(* pkg/simulation/clock.go:15-16 NewClock *)
Definition NewClock : Clock := mkClock 0 fzero.
(* pkg/simulation/clock.go:18-23 Clock.Tick *)
Definition Clock__Tick (c : Clock) : Z := clk_tick c.
(* pkg/simulation/clock.go:25-30 Clock.Time *)
Definition Clock__Time (c : Clock) : float64 := clk_time c.
(* pkg/simulation/clock.go:32-37 Clock.Advance *)
Definition Clock__Advance (c : Clock) : Clock := mkClock (u64 (clk_tick c + 1)) (clk_time c).
(* pkg/simulation/clock.go:39-44 Clock.AdvanceTime *)
Definition Clock__AdvanceTime (c : Clock) (t : float64) : Clock := mkClock (clk_tick c) t.
(* pkg/simulation/clock.go:46-53 Clock.Set *)
Definition Clock__Set (c : Clock) (tick : Z) (t : float64) : Clock := mkClock tick t.

Section world.
Context `{R : GoRuntime}.

(** ** Resources *)

(* pkg/simulation/resource.go:11-22 ResourceRegistry *)
Record ResourceRegistry := mkRR {
  rr_resources : gmap gotype value;
  rr_types : gmap string gotype;
}.

(* pkg/simulation/resource.go:24-30 NewResourceRegistry *)
Definition NewResourceRegistry : ResourceRegistry := mkRR ∅ ∅.

(* pkg/simulation/resource.go:32-39 SetResource *)
Definition SetResource (r : ResourceRegistry) (v : value) : ResourceRegistry :=
  let t := typeOf v in
  mkRR (<[t := v]> (rr_resources r)) (<[typeString t := t]> (rr_types r)).

(* pkg/simulation/resource.go:41-51 GetResource *)
Definition GetResource (t : gotype) (r : ResourceRegistry) : outcome (value * bool) :=
  match rr_resources r !! t with
  | None => Done (zeroOf t, false)
  | Some v => if decide (typeOf v = t) then Done (v, true) else Panic "interface conversion"
  end.

(* pkg/simulation/resource.go:53-62 GetOrCreateResource *)
Definition GetOrCreateResource (t : gotype) (r : ResourceRegistry)
  : outcome (ResourceRegistry * value) :=
  let! (v, ok) := GetResource t r in
  if ok : bool then Done (r, v)
  else let zero := zeroOf t in Done (SetResource r zero, zero).

(* pkg/simulation/snapshot.go:37-42 resourceSnapshot *)
Record resourceSnapshot := mkRS { rsn_Type : string; rsn_Value : rawJSON }.

(** [snapshot] on the items in the order the map iteration produced them. *)
Definition snapshot_items (items : list (gotype * value)) : result (list resourceSnapshot) :=
  rfold (λ out it, try! b := wrap_err "simulation: snapshot resource" (json_Marshal it.2) in
                   Ok (out ++ [mkRS (typeString it.1) b])) []
        (sort_by (λ a b : gotype * value, string_lt (typeString a.1) (typeString b.1)) items).

(* pkg/simulation/resource.go:64-90 ResourceRegistry.snapshot *)
Definition ResourceRegistry__snapshot (r : ResourceRegistry) : result (list resourceSnapshot) :=
  snapshot_items (map_to_list (rr_resources r)).

(** The loop of [restore]: an error leaves the resources decoded so far. *)
Fixpoint restore_resources (r : ResourceRegistry) (snaps : list resourceSnapshot)
  : ResourceRegistry * result unit :=
  match snaps with
  | [] => (r, Ok tt)
  | sn :: snaps' =>
      match rr_types r !! rsn_Type sn with
      | None => (r, Err (Errorf "simulation: snapshot contains unknown resource type"))
      | Some t =>
          match json_Unmarshal t (rsn_Value sn) with
          | Err e => (r, Err (Wrapped "simulation: decode resource" e))
          | Ok v => restore_resources (mkRR (<[t := v]> (rr_resources r)) (rr_types r)) snaps'
          end
      end
  end.

(* pkg/simulation/resource.go:92-111 ResourceRegistry.restore *)
Definition ResourceRegistry__restore (r : ResourceRegistry) (snaps : list resourceSnapshot)
  : ResourceRegistry * result unit :=
  restore_resources (mkRR ∅ (rr_types r)) snaps.

(** ** The world *)

(* pkg/simulation/world.go:11-19 Metadata *)
Record Metadata := mkMeta {
  md_SimulationID : string;
  md_ModelID : string;
  md_ModelVersion : string;
  md_Seed : Z;
  md_Mode : Mode;
}.

(* pkg/simulation/world.go:21-47 World *)
Record World := mkWorld {
  w_ID : string;
  w_Entities : EntityManager;
  w_Components : ComponentStore;
  w_Resources : ResourceRegistry;
  w_Tags : TagRegistry;
  w_TagStore : TagStore;
  w_Events : EventQueue;
  w_Clock : Clock;
  w_Random : RandomStreams;
  w_Meta : Metadata;
  w_revision : Z;
  w_payloadTypes : gmap string gotype;
}.

(** Field updates. *)
Definition set_Entities (w : World) m rev : World :=
  mkWorld (w_ID w) m (w_Components w) (w_Resources w) (w_Tags w) (w_TagStore w) (w_Events w)
    (w_Clock w) (w_Random w) (w_Meta w) rev (w_payloadTypes w).
Definition set_Components (w : World) c rev : World :=
  mkWorld (w_ID w) (w_Entities w) c (w_Resources w) (w_Tags w) (w_TagStore w) (w_Events w)
    (w_Clock w) (w_Random w) (w_Meta w) rev (w_payloadTypes w).
Definition set_Resources (w : World) r : World :=
  mkWorld (w_ID w) (w_Entities w) (w_Components w) r (w_Tags w) (w_TagStore w) (w_Events w)
    (w_Clock w) (w_Random w) (w_Meta w) (w_revision w) (w_payloadTypes w).
Definition set_Tags (w : World) t : World :=
  mkWorld (w_ID w) (w_Entities w) (w_Components w) (w_Resources w) t (w_TagStore w) (w_Events w)
    (w_Clock w) (w_Random w) (w_Meta w) (w_revision w) (w_payloadTypes w).
Definition set_TagStore (w : World) t : World :=
  mkWorld (w_ID w) (w_Entities w) (w_Components w) (w_Resources w) (w_Tags w) t (w_Events w)
    (w_Clock w) (w_Random w) (w_Meta w) (w_revision w) (w_payloadTypes w).
Definition set_Events (w : World) q : World :=
  mkWorld (w_ID w) (w_Entities w) (w_Components w) (w_Resources w) (w_Tags w) (w_TagStore w) q
    (w_Clock w) (w_Random w) (w_Meta w) (w_revision w) (w_payloadTypes w).
Definition set_Clock (w : World) c : World :=
  mkWorld (w_ID w) (w_Entities w) (w_Components w) (w_Resources w) (w_Tags w) (w_TagStore w)
    (w_Events w) c (w_Random w) (w_Meta w) (w_revision w) (w_payloadTypes w).
Definition set_Meta (w : World) m rev : World :=
  mkWorld (w_ID w) (w_Entities w) (w_Components w) (w_Resources w) (w_Tags w) (w_TagStore w)
    (w_Events w) (w_Clock w) (w_Random w) m rev (w_payloadTypes w).
Definition set_payloadTypes (w : World) p : World :=
  mkWorld (w_ID w) (w_Entities w) (w_Components w) (w_Resources w) (w_Tags w) (w_TagStore w)
    (w_Events w) (w_Clock w) (w_Random w) (w_Meta w) (w_revision w) p.

(* pkg/simulation/world.go:51-52 World.Revision *)
Definition World__Revision (w : World) : Z := w_revision w.

(* pkg/simulation/world.go:54-64 World.RegisterPayloadType *)
Definition World__RegisterPayloadType (w : World) (example : value) : World :=
  let t := typeOf example in
  set_payloadTypes w (<[typeString t := t]> (w_payloadTypes w)).

(* pkg/simulation/world.go:66-74 World.payloadTypeSet *)
Definition World__payloadTypeSet (w : World) : gmap string gotype := w_payloadTypes w.

(* pkg/simulation/world.go:76-93 NewWorld *)
Definition NewWorld (id : string) (seed : Z) : World :=
  mkWorld id NewEntityManager NewComponentStore NewResourceRegistry NewTagRegistry NewTagStore
    NewEventQueue NewClock (NewRandomStreams seed) (mkMeta "" "" "" 0 0) 0 ∅.

(** [w.Entities.Create()] and [Destroy], with the revision callback [NewWorld] installs. *)
Definition World__Create (w : World) : outcome (World * EntityID) :=
  let! (m, rev, id) := EntityManager__Create (w_Entities w) (w_revision w) in
  Done (set_Entities w m rev, id).

Definition World__Destroy (w : World) (id : EntityID) : outcome (World * bool) :=
  let! (m, rev, b) := EntityManager__Destroy (w_Entities w) (w_revision w) id in
  Done (set_Entities w m rev, b).

(** [Column.Set] and [Column.Remove] on the column of [cid], with the same callback. *)
Definition World__SetComponent (w : World) (cid : Z) (e : EntityID) (v : value) : outcome World :=
  let! (cs, rev) := with_column (w_Components w) cid (λ c, Column__Set c (w_revision w) e v) in
  Done (set_Components w cs rev).

Definition World__RemoveComponent (w : World) (cid : Z) (e : EntityID) : outcome (World * bool) :=
  let! (cs, rb) := with_column (w_Components w) cid
    (λ c, let! (c', rev, b) := Column__Remove c (w_revision w) e in Done (c', (rev, b))) in
  Done (set_Components w cs rb.1, rb.2).

(** ** Scheduling helpers *)

Definition push_event (w : World) (e : Event) : outcome (World * Event) :=
  let! (q, e') := EventQueue__Push (w_Events w) e in Done (set_Events w q, e').

(* pkg/simulation/schedule.go:7-12 World.ScheduleAt *)
Definition ScheduleAt (w : World) (t : float64) (typ : string) (payload : option value)
  : outcome (World * Event) := push_event w (mkEvent 0 typ t 0 0 0 0 payload).

(* pkg/simulation/schedule.go:14-18 World.ScheduleAtPriority *)
Definition ScheduleAtPriority (w : World) (t : float64) (priority : Z) (typ : string)
    (payload : option value) : outcome (World * Event) :=
  push_event w (mkEvent 0 typ t priority 0 0 0 payload).

(* pkg/simulation/schedule.go:20-24 World.ScheduleIn *)
Definition ScheduleIn (w : World) (delay : float64) (typ : string) (payload : option value)
  : outcome (World * Event) :=
  push_event w (mkEvent 0 typ (fadd (Clock__Time (w_Clock w)) delay) 0 0 0 0 payload).

(* pkg/simulation/schedule.go:26-31 World.ScheduleNow *)
Definition ScheduleNow (w : World) (typ : string) (payload : option value)
  : outcome (World * Event) :=
  push_event w (mkEvent 0 typ (Clock__Time (w_Clock w)) 0 0 0 0 payload).

End world.

(** ** Resources: the snapshot does not depend on map iteration order *)

Section resources.
Context `{R : GoRuntime}.
Implicit Types (r : ResourceRegistry) (items : list (gotype * value)).

Definition item_lt (a b : gotype * value) : bool := string_lt (typeString a.1) (typeString b.1).

(** Every stored value is stored under its type, whose name is known and unambiguous. *)
Record rr_inv r : Prop := {
  rri_typed : ∀ t v, rr_resources r !! t = Some v → typeOf v = t;
  rri_named : ∀ t v, rr_resources r !! t = Some v → rr_types r !! typeString t = Some t;
}.

Lemma SetResource_inv r v :
  rr_inv r →
  (∀ t w, rr_resources r !! t = Some w → typeString t = typeString (typeOf v) → t = typeOf v) →
  rr_inv (SetResource r v).
Proof.
  intros [H1 H2] Hinj. split; unfold SetResource; cbn.
  - intros t w [[<- <-]|[Hne Ht]]%lookup_insert_Some; [done|by apply H1].
  - intros t w [[<- <-]|[Hne Ht]]%lookup_insert_Some; [by rewrite lookup_insert_eq|].
    rewrite lookup_insert_ne; [by eapply H2|]. intros E. apply Hne.
    symmetry. by eapply Hinj.
Qed.

Lemma items_sorted items :
  StronglySorted (le item_lt) (sort_by item_lt items).
Proof.
  apply (sort_by_sorted item_lt (λ _, True)); [| |by apply Forall_true].
  - intros a b _ _. apply string_lt_asym.
  - intros a b c _ _ _. apply string_le_trans.
Qed.

Lemma sort_items_unique r items1 items2 :
  rr_inv r → items1 ≡ₚ map_to_list (rr_resources r) → items2 ≡ₚ map_to_list (rr_resources r) →
  sort_by item_lt items1 = sort_by item_lt items2.
Proof.
  intros [Htyped Hnamed] H1 H2. eapply StronglySorted_unique_strong; [|apply items_sorted..|].
  - intros [t1 v1] [t2 v2]. rewrite !sort_by_perm, H1, H2, !elem_of_map_to_list.
    intros L1 L2 Hle1 Hle2. unfold le, item_lt in *. cbn in *.
    pose proof (string_lt_trichotomy _ _ Hle2 Hle1) as E.
    pose proof (Hnamed _ _ L1) as N1. pose proof (Hnamed _ _ L2) as N2.
    assert (t1 = t2) as -> by congruence. congruence.
  - rewrite !sort_by_perm. by rewrite H1, H2.
Qed.

Definition restores_to (ts : gmap string gotype) (sn : resourceSnapshot) (it : gotype * value) : Prop :=
  ts !! rsn_Type sn = Some it.1 ∧ json_Unmarshal it.1 (rsn_Value sn) = Ok it.2.

Context {marshalable : value → Prop} {J : JsonRoundTrip R marshalable}.

Lemma snapshot_loop_ok ts items acc :
  Forall (λ it : gotype * value, typeOf it.2 = it.1 ∧ marshalable it.2 ∧
            ts !! typeString it.1 = Some it.1) items →
  ∃ l, rfold (λ out it, try! b := wrap_err "simulation: snapshot resource" (json_Marshal it.2) in
                   Ok (out ++ [mkRS (typeString it.1) b])) acc items = Ok (acc ++ l) ∧
       Forall2 (restores_to ts) l items.
Proof using J.
  revert acc. induction items as [|[t v] items IH]; intros acc Hit.
  { exists []. by rewrite app_nil_r. }
  apply Forall_cons in Hit as [(Ht & Hm & Hn) Hit]. cbn in Ht, Hm, Hn. cbn [rfold fst snd].
  destruct (json_value_round_trip v Hm) as (raw & -> & _ & Hun). cbn [wrap_err rbind].
  destruct (IH (acc ++ [mkRS (typeString t) raw]) Hit) as (l & -> & Hl).
  exists (mkRS (typeString t) raw :: l). rewrite <- app_assoc. split; [done|].
  constructor; [|done]. split; cbn; [done|by rewrite <- Ht].
Qed.

Lemma restore_loop_ok r l items :
  Forall2 (restores_to (rr_types r)) l items →
  restore_resources r l
  = (mkRR (foldl (λ m it, <[it.1 := it.2]> m) (rr_resources r) items) (rr_types r), Ok tt).
Proof using Type.
  revert r items. induction l as [|sn l IH]; intros r items Hl.
  { apply Forall2_nil_inv_l in Hl as ->. by destruct r. }
  apply Forall2_cons_inv_l in Hl as (it & items' & [Ht Hv] & Hl & ->). cbn [restore_resources foldl].
  rewrite Ht, Hv. by rewrite (IH _ items').
Qed.

Lemma foldl_insert_map items (m0 : gmap gotype value) :
  NoDup items.*1 → (∀ t, t ∈ items.*1 → m0 !! t = None) →
  foldl (λ m it, <[it.1 := it.2]> m) m0 items = list_to_map items ∪ m0.
Proof using Type.
  revert m0. induction items as [|[t v] items IH]; intros m0 Hnd Hm0; cbn.
  { by rewrite map_empty_union. }
  cbn in Hnd. apply NoDup_cons in Hnd as [Ht Hnd]. rewrite IH; [|done|].
  - rewrite <- insert_union_r by by apply not_elem_of_list_to_map_1. apply insert_union_l.
  - intros t' Ht'. cbn. rewrite lookup_insert_ne; [apply Hm0; by right|]. intros ->. done.
Qed.

Lemma ResourceRegistry_restore_same r r0 :
  rr_inv r → map_Forall (λ _ v, marshalable v) (rr_resources r) → rr_types r ⊆ rr_types r0 →
  ∃ snaps, ResourceRegistry__snapshot r = Ok snaps ∧
    ResourceRegistry__restore r0 snaps = (mkRR (rr_resources r) (rr_types r0), Ok tt).
Proof using J.
  intros [Htyped Hnamed] Hm Hsub. unfold ResourceRegistry__snapshot, snapshot_items.
  set (items := sort_by _ _). assert (items ≡ₚ map_to_list (rr_resources r)) as Hp by apply sort_by_perm.
  destruct (snapshot_loop_ok (rr_types r0) items []) as (l & -> & Hl).
  { rewrite Hp, Forall_forall. intros [t v] Hin%elem_of_map_to_list. cbn.
    split; [by apply Htyped|]. split; [by apply (Hm t v)|].
    eapply lookup_weaken; [by eapply Hnamed|done]. }
  exists l. split; [done|]. unfold ResourceRegistry__restore.
  rewrite (restore_loop_ok (mkRR ∅ (rr_types r0)) l items) by done. cbn [rr_resources rr_types].
  do 2 f_equal. assert (NoDup items.*1) as Hnd by (rewrite Hp; apply NoDup_fst_map_to_list).
  rewrite foldl_insert_map; [|done|done]. rewrite map_union_empty.
  rewrite (list_to_map_proper items (map_to_list (rr_resources r))) by done.
  apply list_to_map_to_list.
Qed.

(** The serialised resources do not depend on Go's randomised map iteration: whatever
    order the items come in, [snapshot] produces the same list, and restoring it into any
    registry that knows the types gives back exactly the stored values. *)
Theorem resources_deterministic_round_trip r r0 items :
  rr_inv r → map_Forall (λ _ v, marshalable v) (rr_resources r) → rr_types r ⊆ rr_types r0 →
  items ≡ₚ map_to_list (rr_resources r) →
  snapshot_items items = ResourceRegistry__snapshot r ∧
  ∃ snaps, ResourceRegistry__snapshot r = Ok snaps ∧
    ResourceRegistry__restore r0 snaps = (mkRR (rr_resources r) (rr_types r0), Ok tt).
Proof using J.
  intros Hinv Hm Hsub Hp. split; [|by apply ResourceRegistry_restore_same].
  unfold ResourceRegistry__snapshot, snapshot_items. f_equal. by apply (sort_items_unique r).
Qed.
End resources.

Lemma resources_deterministic_round_trip_witness :
  let r := SetResource (R := Toy.runtime) NewResourceRegistry (inl true) in
  snapshot_items (map_to_list (rr_resources r)) = ResourceRegistry__snapshot r ∧
  ∃ snaps, ResourceRegistry__snapshot r = Ok snaps ∧
    ResourceRegistry__restore r snaps = (mkRR (rr_resources r) (rr_types r), Ok tt).
Proof.
  apply (resources_deterministic_round_trip (R := Toy.runtime)); [| |done|done].
  - apply SetResource_inv; [by split; intros t v|]. by intros t w.
  - cbn. apply map_Forall_insert_2; [done|apply map_Forall_empty].
Defined.
