(* ===== verification/Snapshot.v ===== *)
(** * Snapshots of a world: [pkg/simulation/snapshot.go]

    A snapshot gathers the serialised parts of a world with its provenance and a checksum;
    restoring validates it, checks the provenance, and overwrites the world part by part. *)

From S2P Require Import Prelude Float64 Rng Entity GoValues Interning Component Store Tags Heap.
From S2P Require Import Events World.
Local Open Scope Z_scope.

(* pkg/simulation/snapshot.go:12-15 EngineVersion *)
Definition EngineVersion : string := "0.1.0".
(* pkg/simulation/snapshot.go:17-19 SnapshotSchemaVersion *)
Definition SnapshotSchemaVersion : Z := 1.

(* pkg/simulation/snapshot.go:30-35 tagSnapshot *)
Record tagSnapshot := mkTagSnap { tsn_Names : list string; tsn_Sets : gmap EntityID (list Z) }.

(* pkg/simulation/snapshot.go:44-69 Snapshot *)
Record Snapshot := mkSnap {
  sn_SchemaVersion : Z;
  sn_EngineVersion : string;
  sn_Checksum : string;
  sn_SimulationID : string;
  sn_ModelID : string;
  sn_ModelVersion : string;
  sn_Seed : Z;
  sn_Mode : string;
  sn_Tick : Z;
  sn_Time : float64;
  sn_Entities : entityManagerState;
  sn_Components : list componentSnapshot;
  sn_Tags : tagSnapshot;
  sn_Resources : list resourceSnapshot;
  sn_ModelConfig : rawJSON;
  sn_Events : eventQueueState;
}.

Definition with_checksum (s : Snapshot) (sum : string) : Snapshot :=
  mkSnap (sn_SchemaVersion s) (sn_EngineVersion s) sum (sn_SimulationID s) (sn_ModelID s)
    (sn_ModelVersion s) (sn_Seed s) (sn_Mode s) (sn_Tick s) (sn_Time s) (sn_Entities s)
    (sn_Components s) (sn_Tags s) (sn_Resources s) (sn_ModelConfig s) (sn_Events s).

Definition with_config (s : Snapshot) (raw : rawJSON) : Snapshot :=
  mkSnap (sn_SchemaVersion s) (sn_EngineVersion s) (sn_Checksum s) (sn_SimulationID s)
    (sn_ModelID s) (sn_ModelVersion s) (sn_Seed s) (sn_Mode s) (sn_Tick s) (sn_Time s)
    (sn_Entities s) (sn_Components s) (sn_Tags s) (sn_Resources s) raw (sn_Events s).

(** The encoder and the hash the checksum is made of: [json.Marshal] of a [Snapshot] and
    hexadecimal SHA-256. *)
Class Checksummer := {
  json_MarshalSnapshot : Snapshot → result rawJSON;
  sha256_hex : rawJSON → string;
}.

(* pkg/simulation/snapshot.go:186-195 modeFromString *)
Definition modeFromString (s : string) : result Mode :=
  if decide (s = "tick"%string) then Ok ModeTick
  else if decide (s = "event"%string) then Ok ModeEvent
  else Err (Errorf "simulation: snapshot has unknown mode").

Section snapshot.
Context `{R : GoRuntime} `{K : Checksummer}.

(* pkg/simulation/snapshot.go:71-82 Snapshot.computeChecksum *)
Definition computeChecksum (s : Snapshot) : result string :=
  let clone := with_checksum s "" in
  try! b := json_MarshalSnapshot clone in Ok (sha256_hex b).

(* pkg/simulation/snapshot.go:84-101 Snapshot.Validate *)
Definition Validate (s : Snapshot) : result unit :=
  if negb (sn_SchemaVersion s =? SnapshotSchemaVersion) then
    Err (Errorf "simulation: snapshot schema version unsupported")
  else if decide (sn_EngineVersion s ≠ EngineVersion) then
    Err (Errorf "simulation: snapshot engine version unsupported")
  else
    try! want := computeChecksum s in
    if decide (sn_Checksum s ≠ want) then
      Err (Errorf "simulation: snapshot checksum mismatch (corrupted)")
    else Ok tt.

(** The snapshot of a world before its checksum is filled in. *)
(* pkg/simulation/snapshot.go:121-137 World.Snapshot *)
Definition assembled (w : World) (components : list componentSnapshot) (resources : list resourceSnapshot)
    (events : eventQueueState) : Snapshot :=
  mkSnap SnapshotSchemaVersion EngineVersion "" (md_SimulationID (w_Meta w))
    (md_ModelID (w_Meta w)) (md_ModelVersion (w_Meta w)) (md_Seed (w_Meta w))
    (Mode__String (md_Mode (w_Meta w))) (Clock__Tick (w_Clock w)) (Clock__Time (w_Clock w))
    (EntityManager__snapshot (w_Entities w)) components
    (mkTagSnap (TagRegistry__snapshot (w_Tags w)) (TagStore__snapshot (w_TagStore w)))
    resources "" events.

(* pkg/simulation/snapshot.go:103-143 World.Snapshot *)
Definition World__Snapshot (w : World) : result Snapshot :=
  try! components := ComponentStore__Snapshot (w_Components w) in
  try! resources := ResourceRegistry__snapshot (w_Resources w) in
  let payloadTypes := World__payloadTypeSet w in
  try! events := EventQueue__snapshot (w_Events w) payloadTypes in
  let s := assembled w components resources events in
  try! checksum := computeChecksum s in
  Ok (with_checksum s checksum).

(** The part of [Restore] that precedes the first write. *)
Definition check_snapshot (w : World) (s : Snapshot) : result Mode :=
  try! _ := Validate s in
  if decide (sn_ModelID s ≠ md_ModelID (w_Meta w) ∨ sn_ModelVersion s ≠ md_ModelVersion (w_Meta w))
  then Err (Errorf "simulation: snapshot model does not match world model")
  else if negb (sn_Seed s =? md_Seed (w_Meta w)) then
    Err (Errorf "simulation: snapshot seed does not match world seed")
  else modeFromString (sn_Mode s).

(** The writes of [Restore]; an error leaves the parts written before it. *)
Definition overwrite (w : World) (s : Snapshot) (mode : Mode) : outcome (World * result unit) :=
  let! em := EntityManager__restore (sn_Entities s) in
  let w := set_Entities w em (w_revision w) in
  let! (cs, r) := ComponentStore__Restore (w_Components w) (sn_Components s) in
  let w := set_Components w cs (w_revision w) in
  match r with
  | Err e => Done (w, Err e)
  | Ok _ =>
      let w := set_Tags w (TagRegistry__restore (w_Tags w) (tsn_Names (sn_Tags s))) in
      let w := set_TagStore w (TagStore__restore (w_TagStore w) (tsn_Sets (sn_Tags s))) in
      let '(rr, r) := ResourceRegistry__restore (w_Resources w) (sn_Resources s) in
      let w := set_Resources w rr in
      match r with
      | Err e => Done (w, Err e)
      | Ok _ =>
          let w := set_Clock w (Clock__Set (w_Clock w) (sn_Tick s) (sn_Time s)) in
          let! (q, r) := EventQueue__restore (w_Events w) (sn_Events s) (World__payloadTypeSet w) in
          let w := set_Events w q in
          match r with
          | Err e => Done (w, Err e)
          | Ok _ =>
              let meta := mkMeta (sn_SimulationID s) (md_ModelID (w_Meta w))
                (md_ModelVersion (w_Meta w)) (md_Seed (w_Meta w)) mode in
              Done (set_Meta w meta (bump (w_revision w)), Ok tt)
          end
      end
  end.

(* pkg/simulation/snapshot.go:145-184 World.Restore *)
Definition World__Restore (w : World) (s : Snapshot) : outcome (World * result unit) :=
  match check_snapshot w s with
  | Err e => Done (w, Err e)
  | Ok mode => overwrite w s mode
  end.

(** ** Acceptance *)

Lemma Validate_ok s :
  Validate s = Ok tt ↔
  sn_SchemaVersion s = SnapshotSchemaVersion ∧ sn_EngineVersion s = EngineVersion ∧
  computeChecksum s = Ok (sn_Checksum s).
Proof.
  unfold Validate. destruct (Z.eqb_spec (sn_SchemaVersion s) SnapshotSchemaVersion); cbn [negb];
    [|naive_solver].
  destruct (decide (sn_EngineVersion s ≠ EngineVersion)); [naive_solver|].
  destruct (computeChecksum s) as [want|err]; cbn [rbind]; [|naive_solver].
  destruct (decide (sn_Checksum s ≠ want)) as [H|H].
  - split; [done|]. intros (_ & _ & [= ->]). done.
  - apply dec_stable in H as ->. split; [|done]. intros _. split; [done|]. split; [|done].
    by apply dec_stable.
Qed.

Lemma modeFromString_String m :
  m = ModeTick ∨ m = ModeEvent → modeFromString (Mode__String m) = Ok m.
Proof. by intros [->| ->]. Qed.

Lemma check_snapshot_ok w s mode :
  check_snapshot w s = Ok mode ↔
  Validate s = Ok tt ∧ sn_ModelID s = md_ModelID (w_Meta w) ∧
  sn_ModelVersion s = md_ModelVersion (w_Meta w) ∧ sn_Seed s = md_Seed (w_Meta w) ∧
  modeFromString (sn_Mode s) = Ok mode.
Proof.
  unfold check_snapshot. destruct (Validate s) as [[]|e]; cbn [rbind]; [|naive_solver].
  destruct (decide _) as [H|H]; [naive_solver|].
  assert (sn_ModelID s = md_ModelID (w_Meta w)) by (apply dec_stable; tauto).
  assert (sn_ModelVersion s = md_ModelVersion (w_Meta w)) by (apply dec_stable; tauto).
  destruct (Z.eqb_spec (sn_Seed s) (md_Seed (w_Meta w))); cbn [negb]; naive_solver.
Qed.

(** C17: [Restore] writes to the world only for a snapshot of the supported schema and engine
    whose checksum matches its content, made by the same model, version and seed, with a known
    mode; any other snapshot is refused with an error and the world is left untouched. *)
Theorem Restore_guard (w : World) (s : Snapshot) :
  (∃ mode, sn_SchemaVersion s = SnapshotSchemaVersion ∧ sn_EngineVersion s = EngineVersion ∧
     computeChecksum s = Ok (sn_Checksum s) ∧ sn_ModelID s = md_ModelID (w_Meta w) ∧
     sn_ModelVersion s = md_ModelVersion (w_Meta w) ∧ sn_Seed s = md_Seed (w_Meta w) ∧
     modeFromString (sn_Mode s) = Ok mode ∧ World__Restore w s = overwrite w s mode) ∨
  ((∀ mode, check_snapshot w s ≠ Ok mode) ∧ ∃ e, World__Restore w s = Done (w, Err e)).
Proof.
  unfold World__Restore. destruct (check_snapshot w s) as [mode|e] eqn:E.
  - left. exists mode. apply check_snapshot_ok in E as (Hv & ? & ? & ? & ?).
    by apply Validate_ok in Hv as (? & ? & ?).
  - right. split; [done|]. by exists e.
Qed.

(** ** Round trip *)

(** The worlds a model can build. *)
Record world_inv (w : World) : Prop := {
  wi_entities : em_inv (w_Entities w);
  wi_entities_len : len (em_dense (w_Entities w)) < 2 ^ 31;
  wi_components : store_inv (w_Components w);
  wi_resources : rr_inv (w_Resources w);
  wi_tags : intern_ok (tr_names (w_Tags w)) (tr_byName (w_Tags w));
  wi_events : heap_ok eventLess (q_h (w_Events w));
  wi_seed : rs_seed (w_Random w) = md_Seed (w_Meta w);
  wi_mode : md_Mode (w_Meta w) = ModeTick ∨ md_Mode (w_Meta w) = ModeEvent;
}.

(** Same simulation state: every part equal, the columns up to spare capacity; the identifier
    of the world object, the revision counter and the registered resource types may differ. *)
#[global] Instance world_equiv : Equiv World := λ w1 w2,
  w_Entities w1 = w_Entities w2 ∧ w_Components w1 ≡ w_Components w2 ∧
  rr_resources (w_Resources w1) = rr_resources (w_Resources w2) ∧
  w_Tags w1 = w_Tags w2 ∧ w_TagStore w1 = w_TagStore w2 ∧ w_Events w1 = w_Events w2 ∧
  w_Clock w1 = w_Clock w2 ∧ w_Random w1 = w_Random w2 ∧ w_Meta w1 = w_Meta w2 ∧
  w_payloadTypes w1 = w_payloadTypes w2.

#[global] Instance world_equivalence : Equivalence (≡@{World}).
Proof.
  split.
  - intros w. repeat (split; [reflexivity|]). reflexivity.
  - intros w1 w2 (? & ? & ? & ? & ? & ? & ? & ? & ? & ?).
    repeat (split; [by symmetry|]). by symmetry.
  - intros w1 w2 w3 (? & ? & ? & ? & ? & ? & ? & ? & ? & ?) (? & ? & ? & ? & ? & ? & ? & ? & ? & ?).
    repeat (split; [by etransitivity|]). by etransitivity.
Qed.

(** Worlds in the same state have the same snapshot. *)
#[global] Instance World_Snapshot_proper : Proper ((≡) ==> (=)) World__Snapshot.
Proof.
  intros w1 w2 (H1 & H2 & H3 & H4 & H5 & H6 & H7 & H8 & H9 & H10).
  unfold World__Snapshot, World__payloadTypeSet, ResourceRegistry__snapshot, assembled.
  by rewrite H1, H2, H3, H4, H5, H6, H7, H9, H10.
Qed.

Context {marshalable : value → Prop} {J : JsonRoundTrip R marshalable}.

Record world_marshalable (w : World) : Prop := {
  wm_components : store_marshalable (marshalable := marshalable) (w_Components w);
  wm_resources : map_Forall (λ _ v, marshalable v) (rr_resources (w_Resources w));
  wm_events : Forall (λ e, payload_ok (marshalable := marshalable) (w_payloadTypes w) (ev_Payload e))
                (q_h (w_Events w));
}.

(** [w0] was built by the same model, at the same version and seed, as [w]. *)
Record same_model (w0 w : World) : Prop := {
  sm_components : same_schema (w_Components w0) (w_Components w);
  sm_resources : rr_types (w_Resources w) ⊆ rr_types (w_Resources w0);
  sm_payloads : w_payloadTypes w0 = w_payloadTypes w;
  sm_id : md_ModelID (w_Meta w0) = md_ModelID (w_Meta w);
  sm_version : md_ModelVersion (w_Meta w0) = md_ModelVersion (w_Meta w);
  sm_seed : md_Seed (w_Meta w0) = md_Seed (w_Meta w);
  sm_random : rs_seed (w_Random w0) = md_Seed (w_Meta w0);
}.

Lemma overwrite_restores w0 w comps ress evs s :
  world_inv w → world_marshalable w → same_model w0 w →
  ComponentStore__Snapshot (w_Components w) = Ok comps →
  ResourceRegistry__snapshot (w_Resources w) = Ok ress →
  EventQueue__snapshot (w_Events w) (w_payloadTypes w) = Ok evs →
  sn_Entities s = EntityManager__snapshot (w_Entities w) → sn_Components s = comps →
  sn_Tags s = mkTagSnap (tr_names (w_Tags w)) (ts_sets (w_TagStore w)) →
  sn_Resources s = ress → sn_Events s = evs → sn_Tick s = clk_tick (w_Clock w) →
  sn_Time s = clk_time (w_Clock w) → sn_SimulationID s = md_SimulationID (w_Meta w) →
  ∃ w', overwrite w0 s (md_Mode (w_Meta w)) = Done (w', Ok tt) ∧ w' ≡ w ∧
        w_revision w' = bump (w_revision w0).
Proof using J.
  intros [We Wel Wc Wr Wt Wv Ws _] [Mc Mr Mv] [Sc Sr Sp Si Sv Ss Srnd] Hc Hr He
    Es1 Es2 Es3 Es4 Es5 Es6 Es7 Es8.
  unfold overwrite. rewrite Es1, EntityManager_restore_same by done. cbn [obind].
  destruct (ComponentStore_restore_same (w_Components w) (w_Components w0) Wc Mc Sc)
    as (comps' & cs & Hc' & Hcr & Heq). rewrite Hc in Hc'. injection Hc' as <-.
  cbn [w_Components set_Entities]. rewrite Es2, Hcr. cbn [obind].
  destruct (ResourceRegistry_restore_same (w_Resources w) (w_Resources w0) Wr Mr Sr)
    as (ress' & Hr' & Hrr). rewrite Hr in Hr'. injection Hr' as <-.
  cbn [w_Resources set_Entities set_Components set_Tags set_TagStore]. rewrite Es4, Hrr.
  destruct (EventQueue_restore_same (w_payloadTypes w) (w_Events w) (w_Events w0) Wv Mv)
    as (evs' & He' & Her). rewrite He in He'. injection He' as <-.
  unfold World__payloadTypeSet.
  cbn [w_Events w_payloadTypes set_Entities set_Components set_Tags set_TagStore set_Resources set_Clock].
  rewrite Es5, Sp, Her. cbn [obind]. eexists. split; [done|]. split; [|done].
  rewrite Es3, Es6, Es7, Es8. cbn. unfold TagRegistry__restore, TagStore__restore. split_and!; cbn.
  - done.
  - exact Heq.
  - done.
  - fold (intern_rebuild (tr_names (w_Tags w))).
    rewrite (intern_rebuild_same (tr_names (w_Tags w)) (tr_byName (w_Tags w))) by exact Wt.
    by destruct (w_Tags w).
  - by destruct (w_TagStore w).
  - done.
  - by destruct (w_Clock w).
  - destruct (w_Random w0) as [r0], (w_Random w) as [r]. cbn in *. congruence.
  - destruct (w_Meta w). cbn in *. congruence.
  - done.
Qed.

(** The parts of a world whose values survive JSON can be taken; what is left to [Snapshot] is to
    encode them together for the checksum. *)
Lemma World_Snapshot_parts w w0 :
  world_inv w → world_marshalable w → same_model w0 w →
  ∃ comps ress evs, ComponentStore__Snapshot (w_Components w) = Ok comps ∧
    ResourceRegistry__snapshot (w_Resources w) = Ok ress ∧
    EventQueue__snapshot (w_Events w) (World__payloadTypeSet w) = Ok evs ∧
    World__Snapshot w = (try! raw := json_MarshalSnapshot (assembled w comps ress evs) in
                         Ok (with_checksum (assembled w comps ress evs) (sha256_hex raw))).
Proof using J.
  intros Hinv Hm Hsame.
  destruct (ComponentStore_restore_same (w_Components w) (w_Components w0)) as (comps & _ & Hc & _);
    [apply Hinv|apply Hm|apply Hsame|].
  destruct (ResourceRegistry_restore_same (w_Resources w) (w_Resources w0)) as (ress & Hr & _);
    [apply Hinv|apply Hm|apply Hsame|].
  destruct (EventQueue_restore_same (w_payloadTypes w) (w_Events w) (w_Events w0)) as (evs & He & _);
    [apply Hinv|apply Hm|].
  exists comps, ress, evs. split; [done|]. split; [done|]. split; [exact He|].
  unfold World__Snapshot, World__payloadTypeSet, computeChecksum. rewrite Hc, Hr. cbn [rbind]. rewrite He. cbn [rbind].
  change (with_checksum (assembled w comps ress evs) "") with (assembled w comps ress evs).
  by destruct (json_MarshalSnapshot (assembled w comps ress evs)).
Qed.

Lemma World_restore_same w w0 s :
  world_inv w → world_marshalable w → same_model w0 w → World__Snapshot w = Ok s →
  ∃ w', World__Restore w0 s = Done (w', Ok tt) ∧ w' ≡ w ∧
    w_revision w' = bump (w_revision w0) ∧ World__Snapshot w' = Ok s.
Proof using J.
  intros Hinv Hm Hsame Es.
  destruct (World_Snapshot_parts w w0 Hinv Hm Hsame) as (comps & ress & evs & Hc & Hr & He & Hs).
  rewrite Es in Hs. destruct (json_MarshalSnapshot (assembled w comps ress evs)) as [raw|] eqn:Eraw; [|done].
  cbn [rbind] in Hs. injection Hs as Hs.
  destruct (overwrite_restores w0 w comps ress evs s) as (w' & Ho & Heq & Hrev); subst s; try done.
  exists w'. split; [|split; [done|split; [done|by rewrite Heq]]].
  unfold World__Restore.
  assert (check_snapshot w0 (with_checksum (assembled w comps ress evs) (sha256_hex raw)) = Ok (md_Mode (w_Meta w))) as ->; [|done].
  apply check_snapshot_ok. split.
  { apply Validate_ok. split; [done|]. split; [done|]. unfold computeChecksum.
    change (with_checksum (with_checksum (assembled w comps ress evs) (sha256_hex raw)) "") with (assembled w comps ress evs).
    by rewrite Eraw. }
  cbn. split_and!.
  - by rewrite (sm_id _ _ Hsame).
  - by rewrite (sm_version _ _ Hsame).
  - by rewrite (sm_seed _ _ Hsame).
  - apply modeFromString_String, Hinv.
Qed.

End snapshot.

(** ** A concrete world *)

Module ToyWorld.

#[global] Instance checksummer : Checksummer := {
  json_MarshalSnapshot s :=
    if decide (is_number (sn_Time s)) then Ok (sn_SimulationID s +:+ sn_ModelID s +:+ sn_Checksum s)
    else Err (Errorf "json: unsupported value");
  sha256_hex raw := ("sum:" +:+ raw)%string;
}.

(** One entity holding the boolean component of [toy_store], a resource and two events. *)
Definition world (rev : Z) : World (R := Toy.runtime) :=
  mkWorld "toy" (mkEM [1] [1] [1] [] 1 1) toy_store
    (SetResource NewResourceRegistry (inl true)) NewTagRegistry NewTagStore toy_queue
    (mkClock 3 fone) (NewRandomStreams 7) (mkMeta "sim" "toy" "1.0" 7 ModeTick) rev toy_types.

Lemma world_ok rev : world_inv (world rev).
Proof.
  split; cbn.
  - destruct (em_run_refines [OpCreate] 0 NewEntityManager 0 _ New_refines)
      as (m & rv & rs & s & Hrun & _ & Href); [by vm_compute..|repeat constructor; by vm_compute|].
    vm_compute in Hrun. injection Hrun as <- <- <-. exact (ref_inv _ _ _ Href).
  - vm_compute. reflexivity.
  - apply toy_store_inv.
  - apply SetResource_inv; [by split; intros t v|]. by intros t v.
  - apply intern_nil.
  - intros [|[|[|i]]] Hi; [lia| |done|done]. intros a b [= <-] [= <-]. vm_compute. reflexivity.
  - done.
  - by left.
Qed.

Lemma world_values rev : world_marshalable (marshalable := Toy.marshalable) (world rev).
Proof.
  split; cbn.
  - intros id t c. unfold toy_store. cbn. rewrite lookup_singleton_Some. intros [<- [= <- <-]].
    repeat constructor.
  - apply map_Forall_insert_2; [done|apply map_Forall_empty].
  - repeat constructor; done.
Qed.

Lemma same rev rev' : same_model (world rev) (world rev').
Proof. by split. Qed.
End ToyWorld.


(** ** A failed restore *)

(** A valid snapshot that names a component the world does not have. *)
Definition foreign_snapshot : Snapshot :=
  mkSnap SnapshotSchemaVersion EngineVersion "sum:simtoy" "sim" "toy" "1.0" 7 "tick" 0 fzero
    (mkEMS [] 0 [] [0]) [mkCSnap "unknown" [] ""] (mkTagSnap [] ∅) [] "" (mkQS [] 0 0).

(** [Restore] bumps the revision so that the scheduler drops its cached entity sets, but
    only at its very end: when it fails on a later part, the entities are already replaced
    while the revision still is the one the stale cache was computed at. *)
Theorem failed_Restore_keeps_revision :
  let w := ToyWorld.world 5 in
  ∃ w' e, World__Restore w foreign_snapshot = Done (w', Err e) ∧
    EntityManager__IDs (w_Entities w) = [1] ∧ EntityManager__IDs (w_Entities w') = [] ∧
    World__Revision w' = World__Revision w.
Proof. eexists _, _. split; [vm_compute; reflexivity|]. split; [done|]. split; done. Qed.
