(* ===== verification/Scheduler.v ===== *)
(** * The scheduler: [pkg/simulation/scheduler.go], [pkg/simulation/system.go]

    Systems are layered by their declared conflicts; within a system the entities are cut into
    contiguous shards.  This file models the layering, the cached entity sets, the partition and
    a run of the systems, and proves what they promise.  Interleaved execution of the shards
    is the subject of [Parallel.v]. *)

From S2P Require Import Prelude Float64 Rng SparseSet Entity GoValues Interning Component Store.
From S2P Require Import Tags Heap Events World Snapshot.
Local Open Scope Z_scope.

Section scheduler.
Context `{R : GoRuntime}.

(** A [System]; [sys_Serial] is true when it implements [SerialSystem] and says so.  [Run]
    transforms the world and may return an error. *)
(* pkg/simulation/system.go:5-46 System *)
Record System := mkSystem {
  sys_Name : string;
  sys_Reads : list Z;
  sys_Writes : list Z;
  sys_Serial : bool;
  sys_Run : World → list EntityID → outcome (World * option error);
}.

(* pkg/simulation/scheduler.go:33-36 entitySet *)
Record entitySet := mkES { set_rev : Z; set_ids : list EntityID }.

(* pkg/simulation/scheduler.go:8-31 scheduler *)
Record scheduler := mkSched {
  sch_workers : Z;
  sch_systems : list System;
  sch_levels : list (list Z);
  sch_cache : list entitySet;
}.

(* pkg/simulation/scheduler.go:85-94 intersectsWrite *)
Definition intersectsWrite (writes other : list Z) : bool :=
  existsb (λ w, existsb (λ o, w =? o) other) writes.

(* pkg/simulation/scheduler.go:77-83 conflicts *)
Definition conflicts (a b : System) : bool :=
  intersectsWrite (sys_Writes a) (sys_Reads b) ||
  intersectsWrite (sys_Writes a) (sys_Writes b) ||
  intersectsWrite (sys_Writes b) (sys_Reads a).

(** The inner loop: the highest level among the earlier systems [s] conflicts with. *)
Definition conflict_level (s : System) (earlier : list (System * Z)) : Z :=
  foldl (λ lvl p, if conflicts s p.1 && (lvl <? p.2) then p.2 else lvl) 0 earlier.

(** The outer loop: the level of every system, in declared order. *)
Fixpoint assign_levels (earlier : list (System * Z)) (systems : list System) : list (System * Z) :=
  match systems with
  | [] => earlier
  | s :: systems' => assign_levels (earlier ++ [(s, conflict_level s earlier + 1)]) systems'
  end.

(* pkg/simulation/scheduler.go:48-75 dependencyLevels *)
Definition dependencyLevels (systems : list System) : outcome (list (list Z)) :=
  let levels := snd <$> assign_levels [] systems in
  let maxLevel := foldl (λ m l, if m <? l then l else m) 0 levels in
  if maxLevel =? 0 then Done []
  else
    ofold (λ out il, let! cur := index out (il.2 - 1) in
                     assign out (il.2 - 1) (cur ++ [Z.of_nat il.1]))
          (replicate (Z.to_nat maxLevel) []) (imap pair levels).

(* pkg/simulation/scheduler.go:38-46 newScheduler *)
Definition newScheduler (systems : list System) (workers : Z) : outcome scheduler :=
  let! levels := dependencyLevels systems in
  Done (mkSched workers systems levels (replicate (length systems) (mkES 0 []))).

(** [add]: append the entities not seen before. *)
Definition add_new (st : gset EntityID * list EntityID) (es : list EntityID)
  : gset EntityID * list EntityID :=
  foldl (λ st e, if decide (e ∈ st.1) then st else ({[e]} ∪ st.1, st.2 ++ [e])) st es.

(* pkg/simulation/scheduler.go:191-223 systemEntities *)
Definition systemEntities (w : World) (sys : System) : list EntityID :=
  let reads := sys_Reads sys in
  let writes := sys_Writes sys in
  let entities := ComponentStore__Entities (w_Components w) in
  match reads, writes with
  | [], [] => EntityManager__IDs (w_Entities w)
  | [r], [] => entities r
  | [], [wr] => entities wr
  | _, _ =>
      let st := foldl (λ st id, add_new st (entities id)) (∅, []) reads in
      (foldl (λ st id, add_new st (entities id)) st writes).2
  end.

(* pkg/simulation/scheduler.go:172-189 scheduler.entitySet *)
Definition scheduler__entitySet (s : scheduler) (w : World) (sys : System) (idx : Z)
  : outcome (scheduler * list EntityID) :=
  let rev := World__Revision w in
  let! c := index (sch_cache s) idx in
  if set_rev c =? rev then Done (s, set_ids c)
  else
    let ids := systemEntities w sys in
    let! cache := assign (sch_cache s) idx (mkES rev ids) in
    Done (mkSched (sch_workers s) (sch_systems s) (sch_levels s) cache, ids).

(** [entities[start:end]] with [0 <= start <= end <= len]. *)
Definition subslice {A} (l : list A) (a b : Z) : list A :=
  take (Z.to_nat (b - a)) (drop (Z.to_nat a) l).

(* pkg/simulation/scheduler.go:225-254 partition *)
Definition partition (entities : list EntityID) (workers : Z) : outcome (list (list EntityID)) :=
  if workers <=? 1 then Done [entities]
  else
    let n := len entities in
    let workers := if n <? workers then n else workers in
    if workers =? 0 then Panic "integer divide by zero"
    else
      let chunk := Z.quot (n + workers - 1) workers in
      Done ((λ i : nat,
        let start := Z.of_nat i * chunk in
        if n <=? start then []
        else
          let end_ := start + chunk in
          let end_ := if n <? end_ then n else end_ in
          subslice entities start end_) <$> seq 0 (Z.to_nat workers)).

(** The tasks that have finished, in the order they did: what they left behind and the errors they
    sent on [errCh]. *)
Definition collect {S : Type} (fn : nat → S → outcome (S * option error)) (st : S * list error) (order : list nat)
  : outcome (S * list error) :=
  ofold (λ st i, let! (s, err) := fn i st.1 in
                 Done (s, match err with Some e => st.2 ++ [e] | None => st.2 end)) st order.

(** All tasks run even if one fails, each as a whole, in an order the goroutines take; the error
    that was sent first is returned. *)
(* pkg/simulation/scheduler.go:148-170 runConcurrent *)
Definition runConcurrent {S : Type} (fn : nat → S → outcome (S * option error)) (order : list nat) (s : S)
  : outcome (S * option error) :=
  let! (s, errCh) := collect fn (s, []) order in Done (s, head errCh).

(* pkg/simulation/scheduler.go:119-146 scheduler.runSystem *)
Definition runSystem (s : scheduler) (w : World) (idx : Z)
  : outcome (scheduler * World * option error) :=
  let! sys := index (sch_systems s) idx in
  let! (s, entities) := scheduler__entitySet s w sys idx in
  if len entities =? 0 then Done (s, w, None)
  else
    let workers := if sys_Serial sys then 1 else sch_workers s in
    let! shards := partition entities workers in
    if len shards =? 1 then
      let! shard := index shards 0 in
      let! (w, err) := sys_Run sys w shard in Done (s, w, err)
    else
      let! (w, err) := runConcurrent (λ i w, let! shard := index shards (Z.of_nat i) in sys_Run sys w shard)
                         (seq 0 (length shards)) w in
      Done (s, w, err).

(** Several systems, each as a whole, in the order of the level. *)
(* pkg/simulation/scheduler.go:112-117 scheduler.runLevelParallel *)
Definition runLevelParallel (s : scheduler) (w : World) (level : list Z)
  : outcome (scheduler * World * option error) :=
  let! (sw, err) := runConcurrent (λ i '(s, w), let! idx := index level (Z.of_nat i) in runSystem s w idx)
                      (seq 0 (length level)) (s, w) in
  Done (sw, err).

(** One turn of the loop of [run]: a level of one system takes it inline. *)
Definition run_level (s : scheduler) (w : World) (level : list Z) : outcome (scheduler * World * option error) :=
  if len level =? 1 then let! idx := index level 0 in runSystem s w idx else runLevelParallel s w level.

(** [run]: levels in order, stopping after the first level that fails.  Shards and systems are
    taken in their order; [runConcurrent_order] and [Parallel] say when no other order can be told
    apart from it. *)
Fixpoint run_levels (s : scheduler) (w : World) (levels : list (list Z))
  : outcome (scheduler * World * option error) :=
  match levels with
  | [] => Done (s, w, None)
  | level :: levels' =>
      let! (s, w, err) := run_level s w level in
      match err with Some e => Done (s, w, Some e) | None => run_levels s w levels' end
  end.

(* pkg/simulation/scheduler.go:96-110 scheduler.run *)
Definition scheduler__run (s : scheduler) (w : World) : outcome (scheduler * World * option error) :=
  run_levels s w (sch_levels s).

(** Where a panic happens decides what it ends: [recover] catches a panic of the calling goroutine
    only, and one in a goroutine of [runConcurrent] ends the process.  A system runs in such
    goroutines unless its entities make a single shard ([shards] of [runSystem]). *)
Definition system_spawns (s : scheduler) (w : World) (idx : Z) : bool :=
  match (let! sys := index (sch_systems s) idx in
         let! (s, entities) := scheduler__entitySet s w sys idx in
         let! shards := partition entities (if sys_Serial sys then 1 else sch_workers s) in
         Done (negb (len entities =? 0) && negb (len shards =? 1)))
  with Done b => b | Panic _ => false end.

(** Whether a run of the levels ends in a panic that nothing can recover. *)
Fixpoint fatal_levels (s : scheduler) (w : World) (levels : list (list Z)) : bool :=
  match levels with
  | [] => false
  | level :: levels' =>
      match run_level s w level with
      | Done (s, w, None) => fatal_levels s w levels'
      | Done (_, _, Some _) => false
      | Panic _ => negb (len level =? 1) || match index level 0 with Done idx => system_spawns s w idx | Panic _ => false end
      end
  end.

Definition scheduler__fatal (s : scheduler) (w : World) : bool := fatal_levels s w (sch_levels s).

Lemma fatal_panics s w : scheduler__fatal s w = true → ∃ why, scheduler__run s w = Panic why.
Proof.
  unfold scheduler__fatal, scheduler__run. generalize (sch_levels s) as levels. intros levels.
  revert s w. induction levels as [|level levels IH]; intros s w; cbn; [done|].
  destruct (run_level s w level) as [[[s' w'] [e|]]|why]; cbn; [done|apply IH|]. intros _. by exists why.
Qed.

End scheduler.

(** ** Concurrent tasks *)

Section concurrent.
Context {S : Type} (fn : nat → S → outcome (S * option error)).

(** Two tasks of which neither notices whether the other has run. *)
Definition commute (i j : nat) : Prop := ∀ s,
  (let! (s1, e1) := fn i s in let! (s2, e2) := fn j s1 in Done (s2, e1, e2)) =
  (let! (s1, e2) := fn j s in let! (s2, e1) := fn i s1 in Done (s2, e1, e2)).

(** The same state or the same panic, and the same errors in some order. *)
Definition same_end (a b : outcome (S * list error)) : Prop :=
  match a, b with
  | Done (s, l), Done (s', l') => s = s' ∧ l ≡ₚ l'
  | Panic p, Panic p' => p = p'
  | _, _ => False
  end.

#[local] Instance same_end_equivalence : Equivalence same_end.
Proof.
  split.
  - intros [[s l]|p]; by cbn.
  - intros [[s l]|p] [[s' l']|p']; cbn; try done. by intros [-> ->].
  - intros [[s l]|p] [[s' l']|p'] [[s2 l2]|p2]; cbn; try done; [|congruence]. by intros [-> ->] [-> ->].
Qed.

Lemma collect_errors order s l l' : l ≡ₚ l' → same_end (collect fn (s, l) order) (collect fn (s, l') order).
Proof.
  revert s l l'. induction order as [|i order IH]; intros s l l' Hl; [by cbn|]. unfold collect in *. cbn [ofold fst snd].
  destruct (fn i s) as [[s1 [e|]]|p]; cbn [obind]; [..|done]; apply IH; [by rewrite Hl|done].
Qed.

Lemma collect_order order order' s l :
  order ≡ₚ order' → (∀ i j, i ∈ order → j ∈ order → i ≠ j → commute i j) →
  same_end (collect fn (s, l) order) (collect fn (s, l) order').
Proof.
  intros Hp. revert s l. induction Hp as [|i o o' Hp IH|i j o|o1 o2 o3 Hp1 IH1 Hp2 IH2]; intros s l Hc.
  - reflexivity.
  - unfold collect in *. cbn [ofold fst snd]. destruct (fn i s) as [[s1 err]|p]; cbn [obind]; [|done].
    apply IH. intros a b Ha Hb. apply Hc; by right.
  - destruct (decide (j = i)) as [->|Hne]; [reflexivity|].
    pose proof (Hc j i ltac:(by left) ltac:(right; by left) Hne s) as Hji. unfold collect. cbn [ofold fst snd].
    destruct (fn j s) as [[s1 e1]|p1]; cbn [obind fst snd] in *.
    + destruct (fn i s1) as [[s2 e2]|p2]; cbn [obind fst snd] in *.
      * destruct (fn i s) as [[s1' e2']|p1']; cbn [obind fst snd] in *; [|done].
        destruct (fn j s1') as [[s2' e1']|p2']; cbn [obind fst snd] in *; [|done]. injection Hji as <- <- <-.
        apply collect_errors. destruct e1, e2; cbn; try done. rewrite <- !(assoc_L (++)). apply Permutation_app_head. apply Permutation_swap.
      * destruct (fn i s) as [[s1' e2']|p1']; cbn [obind fst snd] in *; [|congruence].
        destruct (fn j s1') as [[s2' e1']|p2']; cbn [obind fst snd] in *; [done|congruence].
    + destruct (fn i s) as [[s1' e2']|p1']; cbn [obind fst snd] in *; [|congruence].
      destruct (fn j s1') as [[s2' e1']|p2']; cbn [obind fst snd] in *; [done|congruence].
  - transitivity (collect fn (s, l) o2); [by apply IH1|]. apply IH2. intros a b Ha Hb. apply Hc; by rewrite Hp1.
Qed.

(** The order in which tasks that commute finish decides at most which of their errors is
    returned: the state they leave is the same, and so is whether there is an error. *)
Lemma runConcurrent_order order order' s s1 err1 :
  order ≡ₚ order' → (∀ i j, i ∈ order → j ∈ order → i ≠ j → commute i j) →
  runConcurrent fn order s = Done (s1, err1) →
  ∃ err2, runConcurrent fn order' s = Done (s1, err2) ∧ (err1 = None ↔ err2 = None).
Proof.
  intros Hp Hc H. pose proof (collect_order order order' s [] Hp Hc) as He. unfold runConcurrent in *.
  destruct (collect fn (s, []) order) as [[s2 l]|p]; [|done]. injection H as <- <-.
  destruct (collect fn (s, []) order') as [[s3 l']|p']; [|done]. destruct He as [<- Hl]. exists (head l'). split; [done|].
  destruct l, l'; cbn; try done; by apply Permutation_length in Hl.
Qed.
End concurrent.

(** ** Partitioning *)

Section partitioning.
Implicit Types (es : list EntityID).

Lemma subslice_next {A} (l : list A) a b :
  0 ≤ a ≤ b → take (Z.to_nat a) l ++ subslice l a b = take (Z.to_nat b) l.
Proof.
  intros Hab. unfold subslice. replace (Z.to_nat (b - a)) with (Z.to_nat b - Z.to_nat a)%nat by lia.
  rewrite take_drop_commute. replace (Z.to_nat a + (Z.to_nat b - Z.to_nat a))%nat with (Z.to_nat b) by lia.
  rewrite <- (take_drop (Z.to_nat a) (take (Z.to_nat b) l)) at 2.
  rewrite take_take. by replace (Z.to_nat a `min` Z.to_nat b)%nat with (Z.to_nat a) by lia.
Qed.

Definition shard_of es (chunk : Z) (i : nat) : list EntityID :=
  let n := len es in
  let start := Z.of_nat i * chunk in
  if n <=? start then []
  else
    let end_ := start + chunk in
    let end_ := if n <? end_ then n else end_ in
    subslice es start end_.

Lemma shards_prefix es chunk k :
  0 < chunk →
  concat (shard_of es chunk <$> seq 0 k) = take (Z.to_nat (Z.of_nat k * chunk)) es.
Proof.
  intros Hc. induction k as [|k IH]; [done|].
  rewrite seq_S, fmap_app, concat_app, IH. cbn. rewrite app_nil_r. unfold shard_of.
  destruct (Z.leb_spec (len es) (Z.of_nat k * chunk)) as [Hge|Hlt].
  - rewrite app_nil_r, !take_ge by (unfold len in *; lia). done.
  - destruct (Z.ltb_spec (len es) (Z.of_nat k * chunk + chunk)) as [Hn|Hn].
    + rewrite subslice_next by lia. rewrite !take_ge by (unfold len in *; lia). done.
    + rewrite subslice_next by lia. f_equal. lia.
Qed.

Lemma shard_length es chunk i : 0 < chunk → len (shard_of es chunk i) ≤ chunk.
Proof.
  intros Hc. unfold shard_of. destruct (Z.leb_spec (len es) (Z.of_nat i * chunk));
    [unfold len; simpl; lia|].
  unfold subslice, len. rewrite length_take. destruct (Z.ltb_spec (Z.of_nat (length es)) (Z.of_nat i * chunk + chunk)); lia.
Qed.

Lemma chunk_covers n k : 0 < k → 0 ≤ n → n ≤ k * Z.quot (n + k - 1) k.
Proof.
  intros Hk Hn. rewrite Z.quot_div_nonneg by lia.
  pose proof (Z.div_mod (n + k - 1) k ltac:(lia)). pose proof (Z.mod_pos_bound (n + k - 1) k Hk). nia.
Qed.

(** The shards and what the caller relies on. *)
Lemma partition_spec es workers :
  es ≠ [] → ∃ shards, partition es workers = Done shards ∧ concat shards = es ∧
    len shards = Z.max 1 (Z.min workers (len es)).
Proof.
  intros Hne. unfold partition. assert (0 < len es) as Hn by (destruct es; [done|unfold len; simpl; lia]).
  destruct (Z.leb_spec workers 1) as [Hw|Hw].
  { eexists. split; [done|]. cbn. rewrite app_nil_r. split; [done|]. unfold len in *. simpl. lia. }
  set (k := if len es <? workers then len es else workers).
  assert (k = Z.min workers (len es)) as Hk
    by (unfold k; destruct (Z.ltb_spec (len es) workers); lia).
  destruct (Z.eqb_spec k 0); [lia|]. eexists. split; [done|].
  set (chunk := Z.quot (len es + k - 1) k).
  assert (0 < chunk) as Hc.
  { unfold chunk. rewrite Z.quot_div_nonneg by lia. apply Z.div_str_pos. lia. }
  split.
  - change (concat (shard_of es chunk <$> seq 0 (Z.to_nat k)) = es).
    rewrite shards_prefix by done. apply take_ge.
    pose proof (chunk_covers (len es) k ltac:(lia) ltac:(lia)) as Hcov. fold chunk in Hcov.
    rewrite Z2Nat.id by lia. apply Nat2Z.inj_le. rewrite Z2Nat.id by nia. exact Hcov.
  - unfold len in Hk, Hn |- *. rewrite length_fmap, length_seq. lia.
Qed.

(** C10: partitioning a non-empty entity list never panics, loses and duplicates nothing and
    keeps the order (the shards are consecutive segments of the input), yields as many shards
    as workers (at least one, at most one per entity), none longer than the rounded-up even
    share, and shards of distinct entities are disjoint. *)
Theorem partition_correct es workers :
  es ≠ [] → NoDup es →
  ∃ shards, partition es workers = Done shards ∧ concat shards = es ∧
    len shards = Z.max 1 (Z.min workers (len es)) ∧
    Forall (λ sh, len sh * len shards ≤ len es + len shards - 1) shards ∧
    (∀ i j shi shj e, shards !! i = Some shi → shards !! j = Some shj → e ∈ shi → e ∈ shj → i = j).
Proof.
  intros Hne Hnd. destruct (partition_spec es workers Hne) as (shards & Hp & Hc & Hl).
  exists shards. split; [done|]. split; [done|]. split; [done|]. split.
  - unfold partition in Hp. destruct (Z.leb_spec workers 1) as [Hw|Hw].
    { injection Hp as <-. repeat constructor. unfold len. simpl. lia. }
    assert (0 < len es) as Hn by (destruct es; [done|unfold len; simpl; lia]).
    set (k := if len es <? workers then len es else workers) in *.
    assert (k = Z.min workers (len es)) as Hk
      by (unfold k; destruct (Z.ltb_spec (len es) workers); lia).
    destruct (Z.eqb_spec k 0); [done|]. injection Hp as Hp.
    set (chunk := Z.quot (len es + k - 1) k) in *.
    assert (0 < chunk ∧ chunk * k ≤ len es + k - 1) as [Hc0 Hc1].
    { unfold chunk. rewrite Z.quot_div_nonneg by lia. split; [apply Z.div_str_pos; lia|].
      rewrite Z.mul_comm. apply Z.mul_div_le. lia. }
    rewrite Hl. replace (Z.max 1 (Z.min workers (len es))) with k by lia.
    rewrite <- Hp. apply Forall_fmap, Forall_forall. intros i _.
    change (len (shard_of es chunk i) * k ≤ len es + k - 1).
    pose proof (shard_length es chunk i Hc0). nia.
  - rewrite <- Hc in Hnd. clear -Hnd. intros i j shi shj e Hi Hj Hei Hej.
    revert i j Hi Hj. induction shards as [|sh shards IH]; [done|]. cbn in Hnd.
    apply NoDup_app in Hnd as (_ & Hdis & Hnd).
    assert (∀ k x, shards !! k = Some x → e ∈ x → e ∈ concat shards) as Hin.
    { intros k x Hk Hx. apply elem_of_concat. exists x.
      split; [by eapply list_elem_of_lookup_2|done]. }
    intros [|i] [|j] Hi Hj; cbn in Hi, Hj; [done| | |f_equal; by apply IH].
    + injection Hi as ->. destruct (Hdis e Hei). by eapply Hin.
    + injection Hj as ->. destruct (Hdis e Hej). by eapply Hin.
Qed.
End partitioning.

Lemma partition_correct_witness :
  ∃ shards, partition [1; 2; 3; 4; 5] 4 = Done shards ∧ concat shards = [1; 2; 3; 4; 5] ∧
    len shards = 4 ∧ Forall (λ sh, len sh * len shards ≤ len [1; 2; 3; 4; 5] + len shards - 1) shards ∧
    (∀ i j shi shj e, shards !! i = Some shi → shards !! j = Some shj → e ∈ shi → e ∈ shj → i = j).
Proof.
  apply (partition_correct [1; 2; 3; 4; 5] 4); [done|]. apply (bool_decide_unpack _). by vm_compute.
Defined.

(** ** Dependency levels *)

Section levels.
Context `{R : GoRuntime}.
Implicit Types (s : System) (systems : list System).

Lemma intersectsWrite_spec ws os : intersectsWrite ws os = true ↔ ∃ c, c ∈ ws ∧ c ∈ os.
Proof.
  unfold intersectsWrite. rewrite existsb_exists. split.
  - intros (c & Hc & (o & Ho & ->%Z.eqb_eq)%existsb_exists).
    exists o. by rewrite !list_elem_of_In.
  - intros (c & Hc & Ho). exists c. rewrite <- list_elem_of_In. split; [done|].
    apply existsb_exists. exists c. rewrite <- list_elem_of_In. split; [done|apply Z.eqb_refl].
Qed.

Lemma intersectsWrite_comm ws os : intersectsWrite ws os = intersectsWrite os ws.
Proof. apply eq_true_iff_eq. rewrite !intersectsWrite_spec. naive_solver. Qed.

Lemma conflicts_comm a b : conflicts a b = conflicts b a.
Proof.
  unfold conflicts. rewrite (intersectsWrite_comm (sys_Writes b) (sys_Writes a)).
  destruct (intersectsWrite (sys_Writes a) (sys_Reads b)),
    (intersectsWrite (sys_Writes a) (sys_Writes b)), (intersectsWrite (sys_Writes b) (sys_Reads a)); done.
Qed.

Lemma conflict_level_bound s earlier lvl :
  let r := foldl (λ lvl p, if conflicts s p.1 && (lvl <? p.2) then p.2 else lvl) lvl earlier in
  lvl ≤ r ∧ ∀ s' l, (s', l) ∈ earlier → conflicts s s' = true → l ≤ r.
Proof.
  revert lvl. induction earlier as [|[s0 l0] earlier IH]; intros lvl; cbn [foldl]; [split; [lia|set_solver]|].
  specialize (IH (if conflicts s s0 && (lvl <? l0) then l0 else lvl)) as [H1 H2]. cbn [fst snd].
  split.
  - destruct (conflicts s s0); cbn [andb] in *; [|lia]. destruct (Z.ltb_spec lvl l0); lia.
  - intros s' l [[= -> ->]|Hin]%elem_of_cons Hc; [|by eapply H2].
    rewrite Hc in *. cbn [andb] in *. destruct (Z.ltb_spec lvl l0); lia.
Qed.

(** What [assign_levels] computes: conflicting systems get increasing levels. *)
Record levels_ok (systems : list System) (ls : list (System * Z)) : Prop := {
  lo_systems : ls.*1 = systems;
  lo_pos : ∀ i s l, ls !! i = Some (s, l) → 1 ≤ l;
  lo_order : ∀ i j si sj li lj, (i < j)%nat → ls !! i = Some (si, li) → ls !! j = Some (sj, lj) →
    conflicts sj si = true → li < lj;
}.

Lemma assign_levels_ok earlier systems pre :
  levels_ok pre earlier → levels_ok (pre ++ systems) (assign_levels earlier systems).
Proof.
  revert earlier pre. induction systems as [|s systems IH]; intros earlier pre Hok.
  { by rewrite app_nil_r. }
  cbn [assign_levels]. replace (pre ++ s :: systems) with ((pre ++ [s]) ++ systems) by by rewrite <- app_assoc.
  apply IH. destruct Hok as [H1 H2 H3].
  destruct (conflict_level_bound s earlier 0) as [Hlo Hhi]. fold (conflict_level s earlier) in Hlo, Hhi.
  split.
  - by rewrite fmap_app, H1.
  - intros i s' l [Hi|[_ Hi]]%lookup_app_Some; [by eapply H2|].
    apply list_lookup_singleton_Some in Hi as [_ [= <- <-]]. lia.
  - intros i j si sj li lj Hij Hi Hj Hc. pose proof (lookup_lt_Some _ _ _ Hj) as Hjl.
    rewrite length_app in Hjl. cbn in Hjl. rewrite lookup_app_l in Hi by lia.
    apply lookup_app_Some in Hj as [Hj|[_ Hj]]; [exact (H3 i j si sj li lj Hij Hi Hj Hc)|].
    apply list_lookup_singleton_Some in Hj as [_ [= <- <-]].
    assert (li ≤ conflict_level s earlier); [|lia]. apply (Hhi si li); [by eapply list_elem_of_lookup_2|done].
Qed.

(** The indices at one level, in declared order. *)
Definition at_level (levels : list Z) (l : Z) : list Z :=
  Z.of_nat <$> filter (λ i, levels !! i = Some l) (seq 0 (length levels)).

Lemma at_level_snoc levels x l :
  at_level (levels ++ [x]) l = at_level levels l ++ (if decide (x = l) then [len levels] else []).
Proof.
  unfold at_level. rewrite length_app. cbn [length]. rewrite Nat.add_1_r, seq_S, filter_app, fmap_app.
  f_equal.
  - f_equal. apply filter_ext_in. intros i [_ Hi]%elem_of_seq. cbn in Hi. by rewrite lookup_app_l.
  - rewrite Nat.add_0_l, filter_cons, filter_nil, list_lookup_middle by done. destruct (decide (x = l)) as [->|Hne].
    + by rewrite decide_True.
    + rewrite decide_False; [done|]. congruence.
Qed.

Lemma bucket_ok levels (m : nat) :
  Forall (λ l, 1 ≤ l ≤ Z.of_nat m) levels →
  ofold (λ out il, let! cur := index out (il.2 - 1) in
                   assign out (il.2 - 1) (cur ++ [Z.of_nat il.1]))
        (replicate m []) (imap pair levels)
  = Done ((λ k : nat, at_level levels (Z.of_nat k + 1)) <$> seq 0 m).
Proof.
  induction levels as [|x levels IH] using rev_ind; intros Hall.
  { cbn. f_equal. apply list_eq. intros k. rewrite list_lookup_fmap.
    destruct (decide (k < m)%nat).
    - rewrite lookup_replicate_2, lookup_seq_lt by lia. done.
    - rewrite !lookup_ge_None_2; [done|rewrite length_seq; lia|rewrite length_replicate; lia]. }
  apply Forall_app in Hall as [Hall [Hx _]%Forall_cons]. rewrite imap_app, ofold_app, IH by done.
  cbn. rewrite Nat.add_0_r.
  set (bs := _ <$> _).
  assert (bs !! Z.to_nat (x - 1) = Some (at_level levels x)) as Hb.
  { unfold bs. rewrite list_lookup_fmap, lookup_seq_lt by lia. cbn. do 2 f_equal. lia. }
  rewrite (proj2 (index_Done bs (x - 1) (at_level levels x))) by (split; [lia|done]). cbn [obind].
  rewrite assign_in_range by (unfold len, bs; rewrite length_fmap, length_seq; lia). cbn [obind].
  f_equal. apply list_eq. intros k. rewrite list_lookup_fmap.
  destruct (decide (k < m)%nat) as [Hk|Hk]; last first.
  { rewrite !lookup_ge_None_2; [done|rewrite length_seq; lia|].
    rewrite length_insert. unfold bs. rewrite length_fmap, length_seq. lia. }
  rewrite lookup_seq_lt by done. cbn. rewrite at_level_snoc.
  destruct (decide (k = Z.to_nat (x - 1))) as [->|Hne].
  - rewrite list_lookup_insert_eq by (unfold bs; rewrite length_fmap, length_seq; lia).
    replace (Z.of_nat (Z.to_nat (x - 1)) + 1) with x by lia. by rewrite decide_True.
  - rewrite list_lookup_insert_ne by done. unfold bs.
    rewrite list_lookup_fmap, lookup_seq_lt by done. cbn.
    rewrite decide_False by lia. by rewrite app_nil_r.
Qed.

Lemma max_bound (levels : list Z) acc :
  let m := foldl (λ m l, if m <? l then l else m) acc levels in
  acc ≤ m ∧ Forall (λ l, l ≤ m) levels.
Proof.
  revert acc. induction levels as [|l levels IH]; intros acc; cbn [foldl]; [split; [lia|done]|].
  destruct (IH (if acc <? l then l else acc)) as [H1 H2].
  destruct (Z.ltb_spec acc l); (split; [lia|]); constructor; try done; lia.
Qed.

(** The levels as the list of index sets, in terms of the level of each system. *)
Lemma dependencyLevels_spec systems :
  ∃ ls m, levels_ok systems ls ∧ Forall (λ l, 1 ≤ l ≤ Z.of_nat m) ls.*2 ∧
    dependencyLevels systems = Done ((λ k : nat, at_level ls.*2 (Z.of_nat k + 1)) <$> seq 0 m).
Proof.
  set (ls := assign_levels [] systems).
  assert (levels_ok systems ls) as Hok by by apply (assign_levels_ok [] systems []).
  unfold dependencyLevels. fold ls. set (mx := foldl _ 0 _).
  destruct (max_bound ls.*2 0) as [Hm0 Hm]. fold mx in Hm0, Hm.
  assert (Forall (λ l, 1 ≤ l ≤ mx) ls.*2) as Hall.
  { apply Forall_lookup. intros i l Hl. rewrite Forall_lookup in Hm. split; [|by eapply Hm].
    rewrite list_lookup_fmap, fmap_Some in Hl. destruct Hl as ([s l'] & Hi & ->).
    by eapply (lo_pos _ _ Hok). }
  destruct (Z.eqb_spec mx 0) as [E|E].
  - exists ls, 0%nat. split; [done|]. split; [|done]. eapply Forall_impl; [done|]. simpl. lia.
  - exists ls, (Z.to_nat mx). split; [done|]. rewrite Z2Nat.id by lia. split; [done|].
    apply bucket_ok. by rewrite Z2Nat.id by lia.
Qed.

(** Position of a system in the levels. *)
Definition in_level (out : list (list Z)) (k i : nat) : Prop :=
  ∃ level, out !! k = Some level ∧ Z.of_nat i ∈ level.

Lemma in_level_at levels m k i :
  in_level ((λ k : nat, at_level levels (Z.of_nat k + 1)) <$> seq 0 m) k i →
  levels !! i = Some (Z.of_nat k + 1).
Proof.
  intros (level & Hk & Hi). rewrite list_lookup_fmap, fmap_Some in Hk. destruct Hk as (k' & Hk & ->).
  apply lookup_seq in Hk as [-> _]. unfold at_level in Hi.
  apply list_elem_of_fmap in Hi as (j & Hj & Hin). apply Nat2Z.inj in Hj as <-.
  by apply list_elem_of_filter in Hin as [? _].
Qed.

Lemma levels_partition levels m :
  Forall (λ l, 1 ≤ l ≤ Z.of_nat m) levels →
  concat ((λ k : nat, at_level levels (Z.of_nat k + 1)) <$> seq 0 m)
  ≡ₚ Z.of_nat <$> seq 0 (length levels).
Proof.
  intros Hall. induction levels as [|x levels IH] using rev_ind.
  { cbn. induction (seq 0 m) as [|k l IHl]; [done|]. exact IHl. }
  apply Forall_app in Hall as [Hall [Hx _]%Forall_cons]. specialize (IH Hall).
  rewrite length_app. cbn [length]. rewrite Nat.add_1_r, seq_S, fmap_app, <- IH. cbn.
  fold (len levels). clear IH Hall.
  assert (∀ l : list nat, NoDup l → concat ((λ k : nat, at_level (levels ++ [x]) (Z.of_nat k + 1)) <$> l)
    ≡ₚ concat ((λ k : nat, at_level levels (Z.of_nat k + 1)) <$> l)
       ++ (if decide (Z.to_nat (x - 1) ∈ l) then [len levels] else [])) as Hgen.
  { induction l as [|k l IH]; intros Hnd; [by rewrite app_nil_r|]. apply NoDup_cons in Hnd as [Hk Hnd].
    cbn [fmap list_fmap concat]. rewrite IH, at_level_snoc by done.
    destruct (decide (x = Z.of_nat k + 1)) as [->|Hne].
    - replace (Z.to_nat (Z.of_nat k + 1 - 1)) with k by lia.
      rewrite decide_False by done. rewrite decide_True by by left. rewrite app_nil_r.
      rewrite <- !app_assoc. apply Permutation_app_head, Permutation_app_comm.
    - rewrite app_nil_r, <- app_assoc. do 2 f_equiv.
      destruct (decide (Z.to_nat (x - 1) ∈ l)) as [Hin|Hin].
      + by rewrite decide_True by by right.
      + rewrite decide_False; [done|]. intros [E|E]%elem_of_cons; [lia|done]. }
  rewrite Hgen by apply NoDup_seq. rewrite decide_True; [done|]. apply elem_of_seq. lia.
Qed.

(** C8: every system is scheduled exactly once; a system that conflicts with an earlier one
    (they share a component that one of them writes) is put in a strictly later level, so two
    systems of one level never conflict and conflicting systems run in declared order. *)
Theorem dependencyLevels_correct systems :
  ∃ out, dependencyLevels systems = Done out ∧
    concat out ≡ₚ Z.of_nat <$> seq 0 (length systems) ∧
    (∀ i j si sj ki kj, (i < j)%nat → systems !! i = Some si → systems !! j = Some sj →
       conflicts si sj = true → in_level out ki i → in_level out kj j → (ki < kj)%nat) ∧
    (∀ k i j si sj, i ≠ j → in_level out k i → in_level out k j → systems !! i = Some si →
       systems !! j = Some sj → conflicts si sj = false).
Proof.
  destruct (dependencyLevels_spec systems) as (ls & m & Hok & Hall & Hd).
  eexists. split; [exact Hd|].
  assert (length ls = length systems) as Hlen by (rewrite <- (lo_systems _ _ Hok); by rewrite length_fmap).
  assert (∀ i j si sj ki kj, (i < j)%nat → systems !! i = Some si → systems !! j = Some sj →
     conflicts si sj = true →
     in_level ((λ k : nat, at_level ls.*2 (Z.of_nat k + 1)) <$> seq 0 m) ki i →
     in_level ((λ k : nat, at_level ls.*2 (Z.of_nat k + 1)) <$> seq 0 m) kj j → (ki < kj)%nat) as Hlt.
  { intros i j si sj ki kj Hij Hi Hj Hc Hki Hkj.
    apply in_level_at in Hki, Hkj. rewrite list_lookup_fmap, fmap_Some in Hki, Hkj.
    destruct Hki as ([si' li] & Li & Ei), Hkj as ([sj' lj] & Lj & Ej). cbn in Ei, Ej.
    assert (si' = si ∧ sj' = sj) as [-> ->].
    { pose proof (lo_systems _ _ Hok) as Hs. rewrite <- Hs, list_lookup_fmap in Hi, Hj.
      rewrite Li in Hi. rewrite Lj in Hj. by injection Hi as <-; injection Hj as <-. }
    rewrite conflicts_comm in Hc. pose proof (lo_order _ _ Hok i j si sj li lj Hij Li Lj Hc). lia. }
  split; [|split; [exact Hlt|]].
  - rewrite levels_partition by done. by rewrite length_fmap, Hlen.
  - intros k i j si sj Hne Hki Hkj Hi Hj. destruct (conflicts si sj) eqn:E; [exfalso|done].
    destruct (decide (i < j)%nat).
    + pose proof (Hlt i j si sj k k) as Hbad. specialize (Hbad l Hi Hj E Hki Hkj). lia.
    + rewrite conflicts_comm in E. pose proof (Hlt j i sj si k k ltac:(lia) Hj Hi E Hkj Hki). lia.
Qed.
End levels.

(** ** The cached entity sets *)

Section cache.
Context `{R : GoRuntime} `{K : Checksummer}.
Implicit Types (w : World) (s : scheduler) (sys : System).

(** The two worlds list the same entities, overall and for every component. *)
Definition same_members w w' : Prop :=
  EntityManager__IDs (w_Entities w') = EntityManager__IDs (w_Entities w) ∧
  ∀ id, ComponentStore__Entities (w_Components w') id = ComponentStore__Entities (w_Components w) id.

Lemma add_all_ext (f g : Z → list EntityID) st ids :
  (∀ id, f id = g id) →
  foldl (λ st id, add_new st (f id)) st ids = foldl (λ st id, add_new st (g id)) st ids.
Proof. intros H. revert st. induction ids as [|i ids IH]; intros st; cbn; [done|]. by rewrite H, IH. Qed.

Lemma systemEntities_same w w' sys :
  same_members w w' → systemEntities w' sys = systemEntities w sys.
Proof.
  intros [H1 H2]. unfold systemEntities. rewrite H1.
  destruct (sys_Reads sys) as [|r1 [|r2 rs]], (sys_Writes sys) as [|w1 [|w2 ws]]; try apply H2; try done;
    f_equal; erewrite add_all_ext by apply H2; f_equal; erewrite add_all_ext by apply H2; done.
Qed.

Lemma Set_members {V} (c : Column V) rev e v c' rev' :
  Column__Set c rev e v = Done (c', rev') →
  rev' = bump rev ∨ (rev' = rev ∧ col_dense c' = col_dense c).
Proof.
  unfold Column__Set. intros H. inv_bind H as sl Hs. destruct (sl =? 0).
  - inv_bind H as sp Hsp. injection H as <- <-. by left.
  - inv_bind H as d Hd. injection H as <- <-. by right.
Qed.

Lemma Remove_members {V} (c : Column V) rev e c' rev' b :
  Column__Remove c rev e = Done (c', rev', b) →
  rev' = bump rev ∨ (rev' = rev ∧ col_dense c' = col_dense c).
Proof.
  unfold Column__Remove. intros H. inv_bind H as sl Hs. destruct (sl =? 0).
  - injection H as <- <- <-. by right.
  - inv_bind H as [[sp d] dt] Hm. inv_bind H as sp' Hs'. injection H as <- <- <-. by left.
Qed.

Lemma with_column_members {A} (cs cs' : ComponentStore) cid (a : A) f :
  with_column cs cid f = Done (cs', a) →
  ∃ t c c', cs_cols cs !! cid = Some (t, c) ∧ f c = Done (c', a) ∧
    (∀ id, ComponentStore__Entities cs' id
           = if decide (id = cid) then col_dense c' else ComponentStore__Entities cs id).
Proof.
  unfold with_column. destruct (cs_cols cs !! cid) as [[t c]|] eqn:E; [|done]. intros H.
  inv_bind H as [c' a'] Hf. injection H as <- <-. exists t, c, c'. split; [done|]. split; [done|].
  intros id. unfold ComponentStore__Entities, Column__entityIDs. cbn. rewrite lookup_insert.
  destruct (decide (cid = id)) as [->|Hne]; [by rewrite decide_True|by rewrite decide_False by congruence].
Qed.

(** What happens between two lookups: structural operations of the world, a successful [Restore],
    and anything that changes neither membership nor the revision (values, tags, resources, events,
    the clock).  A [Restore] that fails half-way is not among them:
    [Snapshot.failed_Restore_keeps_revision]. *)
Inductive world_step : World → World → Prop :=
  | ws_create w w' id : World__Create w = Done (w', id) → world_step w w'
  | ws_destroy w w' id b : World__Destroy w id = Done (w', b) → world_step w w'
  | ws_set w w' cid e v : World__SetComponent w cid e v = Done w' → world_step w w'
  | ws_remove w w' cid e b : World__RemoveComponent w cid e = Done (w', b) → world_step w w'
  | ws_restore w w' sn : World__Restore w sn = Done (w', Ok tt) → world_step w w'
  | ws_other w w' : same_members w w' → w_revision w' = w_revision w → world_step w w'.

Lemma col_same_members w cs cid t (c c' : Column value) rev :
  cs_cols (w_Components w) !! cid = Some (t, c) →
  (∀ id, ComponentStore__Entities cs id
         = if decide (id = cid) then col_dense c' else ComponentStore__Entities (w_Components w) id) →
  col_dense c' = col_dense c → same_members w (set_Components w cs rev).
Proof.
  intros Hc Hcs Hd. split; [done|]. intros id. cbn. rewrite Hcs. case_decide as E; [|done].
  subst. unfold ComponentStore__Entities, Column__entityIDs. by rewrite Hc.
Qed.

Lemma Restore_bumps w w' sn : World__Restore w sn = Done (w', Ok tt) → w_revision w' = bump (w_revision w).
Proof.
  unfold World__Restore. destruct (check_snapshot w sn) as [mode|]; [|done]. unfold overwrite. intros H.
  inv_bind H as em Hem. inv_bind H as [cs r] Hcs. destruct r; [|done].
  destruct (ResourceRegistry__restore _ _) as [rr [u|]]; [|done].
  inv_bind H as [q r] Hq. destruct r; [|done]. by injection H as <-.
Qed.

Lemma world_step_revision w w' :
  world_step w w' →
  w_revision w' = bump (w_revision w) ∨ (w_revision w' = w_revision w ∧ same_members w w').
Proof.
  intros H. inversion H as [w0 w1 id H0|w0 w1 id b H0|w0 w1 cid e v H0|w0 w1 cid e b H0|w0 w1 sn H0|w0 w1 Hm Hr]; subst.
  - unfold World__Create in H0. inv_bind H0 as [[m rev] id'] Hc. injection H0 as <- _. left. cbn.
    unfold EntityManager__Create in Hc. destruct (alloc_index (w_Entities w)) as [idx m1].
    inv_bind Hc as v Hv. inv_bind Hc as vs Hvs. inv_bind Hc as vr Hvr. inv_bind Hc as sp Hsp.
    by injection Hc as _ <- _.
  - unfold World__Destroy in H0. inv_bind H0 as [[m rev] b'] Hd. injection H0 as <- _. cbn.
    unfold EntityManager__Destroy in Hd. inv_bind Hd as al Hal. destruct al; cbn [negb] in Hd.
    + inv_bind Hd as sl Hsl. inv_bind Hd as [de sp] Hp. inv_bind Hd as sp' Hsp'.
      left. by injection Hd as _ <- _.
    + injection Hd as <- <- _. by right.
  - unfold World__SetComponent in H0. inv_bind H0 as [cs rev] Hc. injection H0 as <-.
    apply with_column_members in Hc as (t & c & c' & Hcol & Hset & Hcs).
    destruct (Set_members _ _ _ _ _ _ Hset) as [->|[-> Hd]]; [by left|right].
    split; [done|]. by eapply col_same_members.
  - unfold World__RemoveComponent in H0. inv_bind H0 as [cs rb] Hc. injection H0 as <- _.
    apply with_column_members in Hc as (t & c & c' & Hcol & Hrem & Hcs).
    inv_bind Hrem as [[c1 rv] b1] Hrem'. injection Hrem as <- <-.
    destruct (Remove_members _ _ _ _ _ _ Hrem') as [->|[-> Hd]]; [by left|right].
    split; [done|]. by eapply col_same_members.
  - left. by eapply Restore_bumps.
  - by right.
Qed.

Record cache_ok s w : Prop := {
  co_length : length (sch_cache s) = length (sch_systems s);
  co_entry : ∀ i sys c, sch_systems s !! i = Some sys → sch_cache s !! i = Some c →
    set_rev c ≤ w_revision w ∧ (set_rev c = w_revision w → set_ids c = systemEntities w sys);
}.

Lemma cache_ok_step s w w' :
  cache_ok s w → world_step w w' → 0 ≤ w_revision w < 2 ^ 64 - 1 → cache_ok s w'.
Proof.
  intros [Hl He] Hstep Hrev. split; [done|]. intros i sys c Hs Hc.
  destruct (He i sys c Hs Hc) as [Hle Heq].
  destruct (world_step_revision w w' Hstep) as [Hb|[Hr Hm]].
  - unfold bump in Hb. rewrite u64_id in Hb by (split; lia). rewrite Hb. split; [lia|]. intros E. lia.
  - rewrite Hr. split; [done|]. intros E. rewrite (systemEntities_same w w'); auto.
Qed.

Lemma entitySet_ok s w sys i :
  cache_ok s w → sch_systems s !! i = Some sys →
  ∃ s', scheduler__entitySet s w sys (Z.of_nat i) = Done (s', systemEntities w sys) ∧ cache_ok s' w ∧
    sch_systems s' = sch_systems s ∧ sch_levels s' = sch_levels s ∧ sch_workers s' = sch_workers s.
Proof.
  intros [Hl He] Hs. pose proof (lookup_lt_Some _ _ _ Hs) as Hi. rewrite <- Hl in Hi.
  destruct (lookup_lt_is_Some_2 _ _ Hi) as [c Hc]. destruct (He i sys c Hs Hc) as [Hle Heq].
  unfold scheduler__entitySet, World__Revision. rewrite (index_of_nat _ _ _ Hc). cbn [obind].
  destruct (Z.eqb_spec (set_rev c) (w_revision w)) as [E|E].
  - rewrite (Heq E). eexists. split; [done|]. done.
  - rewrite assign_in_range by (unfold len; lia). cbn [obind]. eexists. split; [done|]. split; [|done].
    split; cbn; [by rewrite length_insert|]. rewrite Nat2Z.id. intros j sys' c' Hs' Hc'.
    apply list_lookup_insert_Some in Hc' as [(<- & <- & _)|[Hne Hc']]; [|by eapply He].
    cbn. split; [lia|]. intros _. congruence.
Qed.

(** Lookups and world changes in any order. *)
Inductive cached_run : scheduler → World → scheduler → World → Prop :=
  | cr_nil s w : cached_run s w s w
  | cr_world s w s1 w1 w2 :
      cached_run s w s1 w1 → world_step w1 w2 → w_revision w1 < 2 ^ 64 - 1 → 0 ≤ w_revision w2 →
      cached_run s w s1 w2
  | cr_lookup s w s1 w1 s2 sys i ids :
      cached_run s w s1 w1 → sch_systems s1 !! i = Some sys →
      scheduler__entitySet s1 w1 sys (Z.of_nat i) = Done (s2, ids) → cached_run s w s2 w1.

Lemma cached_run_ok s w s' w' :
  cached_run s w s' w' → cache_ok s w → 0 ≤ w_revision w →
  cache_ok s' w' ∧ 0 ≤ w_revision w' ∧ sch_systems s' = sch_systems s.
Proof.
  intros Hrun Hok H0. induction Hrun as [s w|s w s1 w1 w2 _ IH Hst Hlt Hw2|s w s1 w1 s2 sys i ids _ IH Hs He].
  - done.
  - destruct (IH Hok H0) as (Hc & Hr & Hsys). split; [|done]. by eapply cache_ok_step.
  - destruct (IH Hok H0) as (Hc & Hr & Hsys).
    destruct (entitySet_ok s1 w1 sys i Hc Hs) as (s2' & He' & Hok' & Hsys' & _).
    rewrite He in He'. injection He' as <- _. split; [done|]. split; [done|]. congruence.
Qed.

Lemma NewWorld_empty id seed sys : systemEntities (NewWorld id seed) sys = [].
Proof.
  unfold systemEntities. cbn.
  assert (∀ st ids, foldl (λ st i, add_new st (ComponentStore__Entities NewComponentStore i)) st ids = st) as H.
  { intros st ids. revert st. by induction ids as [|i ids IH]; intros st; cbn. }
  destruct (sys_Reads sys) as [|r1 [|r2 rs]], (sys_Writes sys) as [|w1 [|w2 ws]];
    rewrite ?H; done.
Qed.

(** C9: the cached entity set is never stale: starting from a fresh scheduler and a fresh
    world, after any interleaving of lookups with entity and component creations and removals,
    successful restores and changes that affect neither entities nor components, a lookup returns
    exactly the entities the system operates on now, as long as the 64-bit revision has not wrapped
    around.  A [Restore] that fails after it has begun to write is excluded: it leaves the revision
    as it was. *)
Theorem entitySet_never_stale systems workers s0 id seed s w sys i :
  newScheduler systems workers = Done s0 →
  cached_run s0 (NewWorld id seed) s w → systems !! i = Some sys →
  ∃ s', scheduler__entitySet s w sys (Z.of_nat i) = Done (s', systemEntities w sys).
Proof.
  intros Hnew Hrun Hs. unfold newScheduler in Hnew. inv_bind Hnew as levels Hl. injection Hnew as <-.
  apply cached_run_ok in Hrun as (Hok & _ & Hsys); [| |done].
  - destruct (entitySet_ok s w sys i Hok) as (s' & He & _); [by rewrite Hsys|]. by exists s'.
  - split; cbn; [by rewrite length_replicate|]. intros j sys' c Hj [-> _]%lookup_replicate. cbn.
    split; [done|]. intros _. by rewrite NewWorld_empty.
Qed.
End cache.

(** A system that reads and writes nothing in particular: it operates on every entity. *)
Definition idle_system : System (R := Toy.runtime) :=
  mkSystem "idle" [] [] false (λ w _, Done (w, None)).

Lemma entitySet_never_stale_witness :
  ∃ s w, World__Create (R := Toy.runtime) (NewWorld "w" 1) = Done (w, 1) ∧
  ∃ s', scheduler__entitySet s w idle_system (Z.of_nat 0) = Done (s', systemEntities w idle_system) ∧
        systemEntities w idle_system = [1].
Proof.
  eexists (mkSched 4 [idle_system] [[0]] [mkES 0 []]), _. split; [vm_compute; reflexivity|].
  edestruct (entitySet_never_stale (R := Toy.runtime) [idle_system] 4) as [s' Hs'].
  - vm_compute. reflexivity.
  - eapply (cr_world (R := Toy.runtime) (K := ToyWorld.checksummer)); [apply cr_nil| | |].
    + eapply (ws_create (R := Toy.runtime)). vm_compute. reflexivity.
    + vm_compute. reflexivity.
    + vm_compute. discriminate.
  - instantiate (2 := 0%nat). reflexivity.
  - exists s'. split; [exact Hs'|]. vm_compute. reflexivity.
Unshelve. all: exact 1 || exact "w"%string.
Defined.

(** ** Stale identifiers in entity sets *)

(** A shard may not be the only writer of a slot when component columns outlive their
    entity: [Destroy] leaves the column of the dead entity 1 in place, so after index 0 is
    recycled a system over two components operates on both the dead identifier 1 and the live
    identifier 2, which share slot 0 of every column and fall into different shards. *)
Theorem stale_identifiers_share_a_slot :
  let sys := mkSystem (R := Toy.runtime) "move" [0] [1] false (λ w _, Done (w, None)) in
  ∃ w shards,
    (let! (w, a) := World__Create (NewWorld "w" 1) in
     let! (cs, c0) := RegisterComponent true (w_Components w) "pos" in
     let! (cs, c1) := RegisterComponent true cs "vel" in
     let w := set_Components w cs (w_revision w) in
     let! w := World__SetComponent w c0 a (inl true) in
     let! (w, _) := World__Destroy w a in
     let! (w, b) := World__Create w in
     World__SetComponent w c1 b (inl true)) = Done w ∧
    systemEntities w sys = [1; 2] ∧ Index 1 = Index 2 ∧
    partition (systemEntities w sys) 2 = Done shards ∧ shards = [[1]; [2]].
Proof. eexists _, _. split; [vm_compute; reflexivity|]. repeat (split; [vm_compute; reflexivity|]). reflexivity. Qed.
