(* ===== verification/Parallel.v ===== *)
(** * Parallel execution of systems

    [runConcurrent] runs the shards of a system, and the systems of a level, as goroutines.
    The scheduler's documentation asks of a system that "each entity's new state depends only
    on its own prior state plus read-only shared state", read and written through
    [GetShard]/[SetShard].  For such systems this file proves that every interleaving of the
    goroutines ends in the same component store, whatever the number of workers. *)

From S2P Require Import Prelude SparseSet Entity GoValues Interning Component Store World Scheduler.
Local Open Scope Z_scope.

(** ** Interleavings *)

(** [tr] is an interleaving of the threads [ts]. *)
Inductive shuffle {A : Type} : list (list A) → list A → Prop :=
  | sh_nil ts : Forall (λ t, t = []) ts → shuffle ts []
  | sh_step pre a t post tr :
      shuffle (pre ++ t :: post) tr → shuffle (pre ++ (a :: t) :: post) (a :: tr).

Section traces.
Context {A S : Type} (exec : S → A → outcome S) (ok : S → Prop) (good : A → Prop).

Hypothesis exec_done : ∀ s a, ok s → good a → ∃ s', exec s a = Done s' ∧ ok s'.

(** Two actions that can be exchanged. *)
Definition independent (a b : A) : Prop :=
  ∀ s, ok s → (let! s' := exec s a in exec s' b) = (let! s' := exec s b in exec s' a).

Lemma move_front s a l r :
  ok s → good a → Forall good l → Forall (independent a) l →
  ofold exec s (l ++ a :: r) = ofold exec s (a :: l ++ r).
Proof using exec_done.
  revert s. induction l as [|b l IH]; intros s Hs Ha Hl Hi; [done|].
  apply Forall_cons in Hl as [Hb Hl]. apply Forall_cons in Hi as [Hab Hi].
  cbn [app ofold]. destruct (exec_done s b Hs Hb) as (s1 & E1 & Hs1).
  destruct (exec_done s a Hs Ha) as (s2 & E2 & Hs2). specialize (Hab s Hs).
  rewrite E1, E2 in *. cbn [obind] in *. rewrite IH by done. cbn [ofold]. rewrite <- Hab.
  destruct (exec_done s2 b Hs2 Hb) as (s3 & -> & _). reflexivity.
Qed.

(** Actions of different threads can be exchanged. *)
Definition threads_independent (ts : list (list A)) : Prop :=
  ∀ i j ti tj a b, i ≠ j → ts !! i = Some ti → ts !! j = Some tj → a ∈ ti → b ∈ tj → independent a b.

Lemma threads_independent_tail pre a t post :
  threads_independent (pre ++ (a :: t) :: post) → threads_independent (pre ++ t :: post).
Proof.
  intros H i j ti tj x y Hne Hi Hj Hx Hy.
  assert (∀ k u z, (pre ++ t :: post) !! k = Some u → z ∈ u →
    ∃ u', (pre ++ (a :: t) :: post) !! k = Some u' ∧ z ∈ u') as Hup.
  { intros k u z Hk Hz. apply lookup_app_Some in Hk as [Hk|[Hge Hk]].
    - exists u. split; [by apply lookup_app_l_Some|done].
    - rewrite lookup_app_r by done. destruct (k - length pre)%nat as [|m]; cbn in *.
      + injection Hk as <-. exists (a :: t). split; [done|]. by right.
      + by exists u. }
  destruct (Hup _ _ _ Hi Hx) as (ui & Hui & Hxi), (Hup _ _ _ Hj Hy) as (uj & Huj & Hyj).
  by eapply (H i j).
Qed.

Lemma shuffle_serial ts tr s :
  shuffle ts tr → ok s → Forall (Forall good) ts → threads_independent ts →
  ofold exec s tr = ofold exec s (concat ts).
Proof using exec_done.
  intros Hsh. revert s. induction Hsh as [ts Hnil|pre a t post tr Hsh IH]; intros s Hs Hg Hind.
  { assert (concat ts = []) as ->; [|done].
    induction Hnil as [|u us -> _ IHu]; [done|]. cbn. apply IHu; [by apply Forall_cons in Hg as [_ ?]|].
    intros i j ti tj x y Hne Hi Hj. apply (Hind (Datatypes.S i) (Datatypes.S j)); [congruence|done|done]. }
  apply Forall_app in Hg as [Hgpre Hg]. apply Forall_cons in Hg as [Hgt Hgpost].
  apply Forall_cons in Hgt as [Hga Hgt].
  rewrite concat_app. cbn [concat app]. rewrite move_front.
  - cbn [ofold]. destruct (exec_done s a Hs Hga) as (s1 & -> & Hs1). cbn [obind].
    rewrite IH; [by rewrite concat_app|done| |by eapply threads_independent_tail].
    apply Forall_app. split; [done|]. by constructor.
  - done.
  - done.
  - apply Forall_forall. intros x (u & Hu & Hx)%elem_of_concat. rewrite Forall_forall in Hgpre.
    specialize (Hgpre u Hu). rewrite Forall_forall in Hgpre. auto.
  - apply Forall_forall. intros x (u & [i Hi]%list_elem_of_lookup & Hx)%elem_of_concat.
    pose proof (lookup_lt_Some _ _ _ Hi).
    eapply (Hind (length pre) i); [lia|by apply list_lookup_middle|by apply lookup_app_l_Some|by left|done].
Qed.
End traces.

(** ** Slots of a store *)

Section slots.
Context `{R : GoRuntime}.
Implicit Types (s : ComponentStore) (c : Column value) (e : EntityID) (v : value).

(** What a goroutine does to the store: [GetShard] and [SetShard] through a column pointer. *)
Definition store_get s (cid : Z) e : outcome (option value) :=
  match cs_cols s !! cid with
  | None => Done None
  | Some (_, c) => Column__GetShard c e
  end.

Definition store_set s (cid : Z) e v : outcome ComponentStore :=
  let! (s', _) := with_column s cid (λ c, let! c' := Column__SetShard c e v in Done (c', tt)) in
  Done s'.

Definition cols_ok s : Prop := ∀ cid t c, cs_cols s !! cid = Some (t, c) → col_inv c.

(** The same operations on well-formed stores, as total functions. *)
Definition pos_of c e : option nat :=
  match sl_view (col_sparse c) !! eidx e with
  | Some sl => if sl =? 0 then None else Some (Z.to_nat (sl - 1))
  | None => None
  end.

Definition get s (cid : Z) e : option value :=
  match cs_cols s !! cid with
  | None => None
  | Some (_, c) => match pos_of c e with Some p => col_data c !! p | None => None end
  end.

Definition put s (cid : Z) e v : ComponentStore :=
  match cs_cols s !! cid with
  | None => s
  | Some (t, c) =>
      match pos_of c e with
      | None => s
      | Some p => mkCS (cs_names s) (cs_byName s)
          (<[cid := (t, mkCol (col_sparse c) (col_dense c) (<[p := v]> (col_data c)))]> (cs_cols s))
      end
  end.

Lemma pos_of_slot c e : col_inv c →
  slot c e = Done (match pos_of c e with Some p => Z.of_nat p + 1 | None => 0 end).
Proof.
  intros [Hwf Hss _]. unfold slot, pos_of, sl_size. rewrite <- (eidx_Z e).
  pose proof (sl_view_length _ Hwf) as Hl.
  destruct (Z.leb_spec (Z.of_nat (sl_len (col_sparse c))) (Z.of_nat (eidx e))) as [Hge|Hlt].
  - by rewrite lookup_ge_None_2 by lia.
  - destruct (lookup_lt_is_Some_2 (sl_view (col_sparse c)) (eidx e)) as [sl Hsl]; [lia|].
    rewrite Hsl. unfold sl_index. rewrite (index_of_nat _ _ _ Hsl). f_equal.
    destruct (Z.eqb_spec sl 0) as [->|Hne]; [done|].
    destruct (ss_present eidx _ _ _ _ Hss Hsl Hne) as (_ & _ & _ & Hr). lia.
Qed.

Lemma pos_of_lt c e p : col_inv c → pos_of c e = Some p → (p < length (col_data c))%nat.
Proof.
  intros [Hwf Hss Hd] Hp. unfold pos_of in Hp.
  destruct (sl_view (col_sparse c) !! eidx e) as [sl|] eqn:Hsl; [|done].
  destruct (Z.eqb_spec sl 0) as [|Hne]; [done|]. injection Hp as <-.
  destruct (ss_present eidx _ _ _ _ Hss Hsl Hne) as (_ & _ & _ & Hr). rewrite Hd. unfold len in Hr. lia.
Qed.

(** Entities of different indices never share a position. *)
Lemma pos_of_inj c e e' p : col_inv c → pos_of c e = Some p → pos_of c e' = Some p → eidx e = eidx e'.
Proof.
  intros [_ Hss _]. unfold pos_of.
  destruct (sl_view (col_sparse c) !! eidx e) as [s1|] eqn:E1; [|done].
  destruct (sl_view (col_sparse c) !! eidx e') as [s2|] eqn:E2; [|done].
  destruct (Z.eqb_spec s1 0) as [|N1]; [done|]. destruct (Z.eqb_spec s2 0) as [|N2]; [done|].
  intros [= P1] [= P2]. destruct (ss_present eidx _ _ _ _ Hss E1 N1) as (x & X & Kx & _).
  destruct (ss_present eidx _ _ _ _ Hss E2 N2) as (y & Y & Ky & _). congruence.
Qed.

Lemma store_get_done s cid e : cols_ok s → store_get s cid e = Done (get s cid e).
Proof.
  intros Hok. unfold store_get, get. destruct (cs_cols s !! cid) as [[t c]|] eqn:E; [|done].
  pose proof (Hok _ _ _ E) as Hc. unfold Column__GetShard. rewrite pos_of_slot by done. cbn [obind].
  destruct (pos_of c e) as [p|] eqn:Ep; [|done].
  destruct (Z.eqb_spec (Z.of_nat p + 1) 0); [lia|].
  replace (Z.of_nat p + 1 - 1) with (Z.of_nat p) by lia.
  destruct (lookup_lt_is_Some_2 _ _ (pos_of_lt c e p Hc Ep)) as [x Hx].
  by rewrite (index_of_nat _ _ _ Hx), Hx.
Qed.

Lemma store_set_done s cid e v :
  cols_ok s → is_Some (get s cid e) → store_set s cid e v = Done (put s cid e v).
Proof.
  intros Hok Hg. unfold store_set, with_column, put. unfold get in Hg.
  destruct (cs_cols s !! cid) as [[t c]|] eqn:E; [|by destruct Hg].
  pose proof (Hok _ _ _ E) as Hc. unfold Column__SetShard. rewrite pos_of_slot by done. cbn [obind].
  destruct (pos_of c e) as [p|] eqn:Ep; [|by destruct Hg].
  destruct (Z.eqb_spec (Z.of_nat p + 1) 0); [lia|].
  replace (Z.of_nat p + 1 - 1) with (Z.of_nat p) by lia.
  pose proof (pos_of_lt c e p Hc Ep). rewrite assign_in_range by (unfold len; lia). cbn [obind].
  by rewrite Nat2Z.id.
Qed.

Lemma put_cols_ok s cid e v : cols_ok s → cols_ok (put s cid e v).
Proof.
  intros Hok. unfold put. destruct (cs_cols s !! cid) as [[t c]|] eqn:E; [|done].
  destruct (pos_of c e) as [p|]; [|done]. intros cid' t' c'. cbn.
  intros [[<- [= <- <-]]|[_ H]]%lookup_insert_Some; [|by eapply Hok].
  destruct (Hok _ _ _ E) as [H1 H2 H3]. split; cbn; [done|done|]. by rewrite length_insert.
Qed.

(** Locations that differ in the component or in the entity index. *)
Definition apart (cid : Z) e (cid' : Z) e' : Prop := cid ≠ cid' ∨ eidx e ≠ eidx e'.

Lemma get_put_apart s cid e v cid' e' :
  cols_ok s → apart cid e cid' e' → get (put s cid e v) cid' e' = get s cid' e'.
Proof.
  intros Hok Hap. unfold put. destruct (cs_cols s !! cid) as [[t c]|] eqn:E; [|done].
  destruct (pos_of c e) as [p|] eqn:Ep; [|done]. unfold get. cbn.
  destruct (decide (cid = cid')) as [<-|Hne]; [|by rewrite lookup_insert_ne].
  rewrite lookup_insert_eq, E. unfold pos_of at 1. cbn. fold (pos_of c e').
  destruct (pos_of c e') as [p'|] eqn:Ep'; [|done].
  rewrite list_lookup_insert_ne; [done|]. intros ->.
  destruct Hap as [?|Hap]; [done|]. apply Hap. by eapply pos_of_inj; [eapply Hok| |].
Qed.

Lemma get_put_Some s cid e v cid' e' :
  cols_ok s → is_Some (get s cid' e') → is_Some (get (put s cid e v) cid' e').
Proof.
  intros Hok Hg. destruct (decide (cid ≠ cid' ∨ eidx e ≠ eidx e')) as [Hap|Hsame].
  { by rewrite get_put_apart. }
  assert (cid = cid') as <- by (apply dec_stable; tauto).
  assert (eidx e = eidx e') as He by (apply dec_stable; tauto).
  assert (∀ c, pos_of c e' = pos_of c e) as Hpos by (intros c; unfold pos_of; by rewrite He).
  unfold get, put in *. destruct (cs_cols s !! cid) as [[t c]|] eqn:E; [|by destruct Hg].
  destruct (pos_of c e) as [p|] eqn:Ep; [|by rewrite E, Hpos, Ep in *].
  cbn. rewrite lookup_insert_eq, Hpos. unfold pos_of at 1. cbn. fold (pos_of c e). rewrite Ep.
  rewrite list_lookup_insert_eq; [done|]. by eapply pos_of_lt; [eapply Hok|].
Qed.

Lemma put_put_comm s cid e v cid' e' v' :
  cols_ok s → apart cid e cid' e' →
  put (put s cid e v) cid' e' v' = put (put s cid' e' v') cid e v.
Proof.
  intros Hok Hap. destruct (decide (cid = cid')) as [<-|Hne].
  - unfold put. destruct (cs_cols s !! cid) as [[t c]|] eqn:E; [|by rewrite E].
    assert (∀ d x, pos_of (mkCol (col_sparse c) (col_dense c) d) x = pos_of c x) as Hp by done.
    destruct (pos_of c e) as [p|] eqn:Ep, (pos_of c e') as [p'|] eqn:Ep';
      cbn; rewrite ?lookup_insert_eq, ?E, ?Hp, ?Ep, ?Ep'; try done.
    rewrite !insert_insert_eq. cbn. do 4 f_equal. apply list_insert_insert_ne.
    intros ->. destruct Hap as [?|Hap]; [done|]. apply Hap. by eapply pos_of_inj; [eapply Hok| |].
  - unfold put. destruct (cs_cols s !! cid) as [[t c]|] eqn:E, (cs_cols s !! cid') as [[t' c']|] eqn:E';
      rewrite ?E, ?E'; try done.
    + destruct (pos_of c e) as [p|] eqn:Ep, (pos_of c' e') as [p'|] eqn:Ep'; cbn;
        rewrite ?lookup_insert_ne, ?E, ?E', ?Ep, ?Ep' by done; try done.
      f_equal. by apply insert_insert_ne.
    + destruct (pos_of c e) as [p|]; cbn; by rewrite ?lookup_insert_ne, ?E' by done.
    + destruct (pos_of c' e') as [p|]; cbn; by rewrite ?lookup_insert_ne, ?E by done.
Qed.
End slots.

(** ** Entity-local systems *)

Section local_systems.
Context `{R : GoRuntime}.
Implicit Types (s : ComponentStore) (e : EntityID).

(** A system whose [Run] visits the entities of its shard one by one; [ls_body] computes what
    to write from the values of the declared components of that entity. *)
Record local_system := mkLocal {
  ls_name : string;
  ls_reads : list Z;
  ls_writes : list Z;
  ls_serial : bool;
  ls_body : EntityID → gmap Z value → list (Z * value);
}.

(** It writes declared components that the entity has: no membership changes. *)
Definition body_ok (sys : local_system) : Prop :=
  ∀ e view cid v, (cid, v) ∈ ls_body sys e view → cid ∈ ls_writes sys ∧ is_Some (view !! cid).

Definition declared (sys : local_system) : list Z := ls_reads sys ++ ls_writes sys.

Definition read_view (sys : local_system) s e : outcome (gmap Z value) :=
  ofold (λ view cid, let! r := store_get s cid e in
                     Done (match r with Some v => <[cid := v]> view | None => view end))
        ∅ (declared sys).

Definition entity_step s (a : local_system * EntityID) : outcome ComponentStore :=
  let '(sys, e) := a in
  let! view := read_view sys s e in
  ofold (λ s cv, store_set s cv.1 e cv.2) s (ls_body sys e view).

(** The [System] the scheduler sees. *)
Definition as_system (sys : local_system) : System :=
  mkSystem (ls_name sys) (ls_reads sys) (ls_writes sys) (ls_serial sys) (λ w shard,
    let! cs := ofold entity_step (w_Components w) (pair sys <$> shard : list (local_system * EntityID)) in
    Done (set_Components w cs (w_revision w), None)).

(** The same as total functions. *)
Definition view_of (sys : local_system) s e : gmap Z value :=
  foldl (λ view cid, match get s cid e with Some v => <[cid := v]> view | None => view end)
        ∅ (declared sys).

Definition puts s e (l : list (Z * value)) : ComponentStore := foldl (λ s cv, put s cv.1 e cv.2) s l.

Definition step_of s (a : local_system * EntityID) : ComponentStore :=
  puts s a.2 (ls_body a.1 a.2 (view_of a.1 s a.2)).

Lemma read_view_done sys s e : cols_ok s → read_view sys s e = Done (view_of sys s e).
Proof.
  intros Hok. unfold read_view, view_of. generalize (∅ : gmap Z value).
  induction (declared sys) as [|cid l IH]; intros view; cbn; [done|].
  rewrite store_get_done by done. cbn [obind]. apply IH.
Qed.

Lemma view_of_Some sys s e cid : is_Some (view_of sys s e !! cid) → is_Some (get s cid e).
Proof.
  unfold view_of. assert (∀ (m : gmap Z value) l, is_Some (foldl (λ view cid, match get s cid e with
    Some v => <[cid := v]> view | None => view end) m l !! cid) → is_Some (m !! cid) ∨ is_Some (get s cid e)) as H.
  { intros m l. revert m. induction l as [|c l IH]; intros m; cbn; [by left|].
    intros [H|H]%IH; [|by right]. destruct (get s c e) as [v|] eqn:E; [|by left].
    destruct (decide (c = cid)) as [->|Hne]; [right; by rewrite E|].
    rewrite lookup_insert_ne in H by done. by left. }
  intros [Hs|Hs]%H; [|done]. rewrite lookup_empty in Hs. by destruct Hs.
Qed.

Lemma view_of_ext sys s s' e :
  (∀ cid, cid ∈ declared sys → get s' cid e = get s cid e) → view_of sys s' e = view_of sys s e.
Proof.
  unfold view_of. generalize (∅ : gmap Z value). induction (declared sys) as [|c l IH]; intros m H; cbn; [done|].
  rewrite (H c) by by left. apply IH. intros cid Hc. apply H. by right.
Qed.

Lemma puts_cols_ok s e l : cols_ok s → cols_ok (puts s e l).
Proof.
  revert s. induction l as [|[c v] l IH]; intros s Hok; [done|]. cbn. by apply IH, put_cols_ok.
Qed.

Lemma entity_step_done s a :
  cols_ok s → body_ok a.1 → entity_step s a = Done (step_of s a) ∧ cols_ok (step_of s a).
Proof.
  destruct a as [sys e]. intros Hok Hb. unfold entity_step, step_of. cbn [fst snd] in *.
  rewrite read_view_done by done. cbn [obind]. split; [|by apply puts_cols_ok].
  assert (∀ cv, cv ∈ ls_body sys e (view_of sys s e) → is_Some (get s cv.1 e)) as Hpres.
  { intros [c v] Hin. by destruct (Hb _ _ _ _ Hin) as [_ ?%view_of_Some]. }
  revert Hpres. generalize (ls_body sys e (view_of sys s e)) as l. intros l. revert s Hok.
  induction l as [|[c v] l IH]; intros s Hok Hpres; [done|]. cbn.
  pose proof (Hpres (c, v) ltac:(by left)) as Hc. cbn in Hc.
  rewrite store_set_done by done. cbn [obind]. apply IH; [by apply put_cols_ok|].
  intros cv Hin. apply get_put_Some; [done|]. apply Hpres. by right.
Qed.

Lemma get_puts s e l cid' e' :
  cols_ok s → (∀ c v, (c, v) ∈ l → apart c e cid' e') → get (puts s e l) cid' e' = get s cid' e'.
Proof.
  revert s. induction l as [|[c v] l IH]; intros s Hok Hap; [done|]. cbn. fold (puts (put s c e v) e l).
  rewrite IH; [|by apply put_cols_ok|intros c' v' Hin; eapply Hap; by right].
  apply get_put_apart; [done|]. eapply Hap. by left.
Qed.

Lemma puts_put_comm s e l cid' e' v' :
  cols_ok s → (∀ c v, (c, v) ∈ l → apart c e cid' e') →
  puts (put s cid' e' v') e l = put (puts s e l) cid' e' v'.
Proof.
  revert s. induction l as [|[c v] l IH]; intros s Hok Hap; [done|]. cbn.
  fold (puts (put (put s cid' e' v') c e v) e l). fold (puts (put s c e v) e l).
  rewrite <- (put_put_comm s c e v cid' e' v') by (done || (eapply Hap; by left)).
  apply IH; [by apply put_cols_ok|]. intros c' w' Hin. eapply Hap. by right.
Qed.

Lemma puts_comm s e l e' l' :
  cols_ok s → (∀ c v c' v', (c, v) ∈ l → (c', v') ∈ l' → apart c e c' e') →
  puts (puts s e l) e' l' = puts (puts s e' l') e l.
Proof.
  revert s. induction l' as [|[c' v'] l' IH]; intros s Hok Hap; [done|].
  cbn [puts foldl fst snd]. fold (puts (put (puts s e l) c' e' v') e' l').
  fold (puts (put s c' e' v') e' l').
  rewrite <- puts_put_comm; [|done|intros c v Hin; eapply Hap; [done|by left]].
  apply IH; [by apply put_cols_ok|]. intros c v c1 v1 H1 H2. eapply Hap; [done|by right].
Qed.

(** Two systems that do not conflict, in terms of what they declare. *)
Lemma no_conflict a b cid :
  conflicts (as_system a) (as_system b) = false → cid ∈ ls_writes a → cid ∉ declared b.
Proof.
  intros Hc Hw Hd. apply not_true_iff_false in Hc. apply Hc.
  unfold conflicts. rewrite !orb_true_iff, !intersectsWrite_spec. cbn.
  apply elem_of_app in Hd as [Hd|Hd]; left; [left|right]; by exists cid.
Qed.

(** Steps on different slots, or of systems that do not conflict, can be exchanged. *)
Definition exchangeable (a b : local_system * EntityID) : Prop :=
  eidx a.2 ≠ eidx b.2 ∨ conflicts (as_system a.1) (as_system b.1) = false.

Lemma exchangeable_writes a b view cid v cid' :
  exchangeable a b → body_ok a.1 → (cid, v) ∈ ls_body a.1 a.2 view → cid' ∈ declared b.1 →
  apart cid a.2 cid' b.2.
Proof.
  intros [He|Hc] Hb Hin Hd; [by right|]. left. intros ->.
  destruct (Hb _ _ _ _ Hin) as [Hw _]. by eapply no_conflict.
Qed.

Lemma exchangeable_sym a b : exchangeable a b → exchangeable b a.
Proof. intros [?|?]; [by left|right; by rewrite conflicts_comm]. Qed.

Lemma body_declared sys e view cid v : body_ok sys → (cid, v) ∈ ls_body sys e view → cid ∈ declared sys.
Proof. intros Hb Hin. destruct (Hb _ _ _ _ Hin) as [Hw _]. apply elem_of_app. by right. Qed.

Lemma step_view a b s :
  cols_ok s → exchangeable a b → body_ok a.1 → view_of b.1 (step_of s a) b.2 = view_of b.1 s b.2.
Proof.
  intros Hok Hex Hb. apply view_of_ext. intros cid Hd. unfold step_of. apply get_puts; [done|].
  intros c v Hin. by eapply exchangeable_writes.
Qed.

Lemma steps_commute a b s :
  cols_ok s → exchangeable a b → body_ok a.1 → body_ok b.1 →
  step_of (step_of s a) b = step_of (step_of s b) a.
Proof.
  intros Hok Hex Ha Hb. unfold step_of at 1 3.
  rewrite (step_view a b s) by done. rewrite (step_view b a s) by (done || by apply exchangeable_sym).
  unfold step_of. apply puts_comm; [done|]. intros c v c' v' H1 H2.
  eapply exchangeable_writes; [done|done|done|]. by eapply body_declared.
Qed.

Lemma exchangeable_independent a b :
  body_ok a.1 → body_ok b.1 → exchangeable a b → independent entity_step cols_ok a b.
Proof.
  intros Ha Hb Hex s Hok.
  destruct (entity_step_done s a Hok Ha) as [-> Hsa]. destruct (entity_step_done s b Hok Hb) as [-> Hsb].
  cbn [obind]. destruct (entity_step_done _ b Hsa Hb) as [-> _].
  destruct (entity_step_done _ a Hsb Ha) as [-> _]. f_equal. by apply steps_commute.
Qed.

(** ** A level *)

(** The steps of one shard, and the threads of one system. *)
Definition tagged (sys : local_system) (shard : list EntityID) : list (local_system * EntityID) :=
  pair sys <$> shard.

Definition shard_threads (p : local_system * list (list EntityID)) : list (list (local_system * EntityID)) :=
  tagged p.1 <$> p.2.

(** A level as it is run: its systems, each with its shards. *)
Definition level_threads (level : list (local_system * list (list EntityID)))
  : list (list (local_system * EntityID)) :=
  concat (shard_threads <$> level).

(** The serial order: system by system, entity by entity. *)
Definition level_serial (level : list (local_system * list (list EntityID)))
  : list (local_system * EntityID) :=
  concat ((λ p, tagged p.1 (concat p.2)) <$> level).

Record level_ok (level : list (local_system * list (list EntityID))) : Prop := {
  lv_body : Forall (λ p, body_ok p.1) level;
  lv_slots : Forall (λ p, NoDup (eidx <$> concat p.2)) level;
  lv_conflicts : ∀ i j p q, i ≠ j → level !! i = Some p → level !! j = Some q →
    conflicts (as_system p.1) (as_system q.1) = false;
}.

Lemma concat_threads level : concat (level_threads level) = level_serial level.
Proof.
  unfold level_threads, level_serial. induction level as [|[sys shards] level IH]; [done|].
  cbn. rewrite concat_app, IH. f_equal. clear. unfold shard_threads, tagged. cbn.
  induction shards as [|sh shards IH]; cbn; [done|]. by rewrite fmap_app, IH.
Qed.

(** Where a thread comes from: its system and shard. *)
Lemma thread_origin level k t :
  level_threads level !! k = Some t →
  ∃ i p j shard, level !! i = Some p ∧ p.2 !! j = Some shard ∧ t = tagged p.1 shard ∧
    k = (length (level_threads (take i level)) + j)%nat ∧ (j < length p.2)%nat.
Proof.
  unfold level_threads. revert k. induction level as [|p level IH]; intros k; cbn; [done|].
  intros [Hk|[Hge Hk]]%lookup_app_Some.
  - unfold shard_threads in Hk. rewrite list_lookup_fmap, fmap_Some in Hk. destruct Hk as (shard & Hs & ->).
    exists 0%nat, p, k, shard. split_and!; try done. by eapply lookup_lt_Some.
  - apply IH in Hk as (i & q & j & shard & H1 & H2 & -> & H4 & H5).
    exists (S i), q, j, shard. split_and!; try done. cbn. rewrite length_app. lia.
Qed.

Lemma level_independent level :
  level_ok level → threads_independent entity_step cols_ok (level_threads level).
Proof.
  intros [Hb Hs Hc] k1 k2 t1 t2 a b Hne Hk1 Hk2 Ha Hb'.
  apply thread_origin in Hk1 as (i1 & p1 & j1 & sh1 & L1 & S1 & -> & E1 & _).
  apply thread_origin in Hk2 as (i2 & p2 & j2 & sh2 & L2 & S2 & -> & E2 & _).
  apply list_elem_of_fmap in Ha as (e1 & -> & He1). apply list_elem_of_fmap in Hb' as (e2 & -> & He2).
  rewrite Forall_lookup in Hb, Hs.
  apply exchangeable_independent; [by apply (Hb i1)|by apply (Hb i2)|].
  destruct (decide (i1 = i2)) as [->|Hi]; [|right; by eapply (Hc i1 i2)].
  left. assert (p1 = p2) as <- by congruence. cbn. specialize (Hs i2 p1 L1). cbn in Hs.
  assert (j1 ≠ j2) as Hj by (intros ->; congruence).
  clear -S1 S2 He1 He2 Hs Hj. revert j1 j2 S1 S2 Hj.
  induction p1.2 as [|sh shards IH]; intros j1 j2 S1 S2 Hj; [done|].
  cbn in Hs. rewrite fmap_app in Hs. apply NoDup_app in Hs as (_ & Hdis & Hs).
  assert (∀ j x e, shards !! j = Some x → e ∈ x → eidx e ∈ eidx <$> concat shards) as Hin.
  { intros j x e Hx He. apply list_elem_of_fmap_2, elem_of_concat. exists x.
    split; [by eapply list_elem_of_lookup_2|done]. }
  destruct j1 as [|j1], j2 as [|j2]; cbn in S1, S2; [done| | |by eapply IH; eauto].
  - injection S1 as ->. intros E. apply (Hdis (eidx e1)); [by apply list_elem_of_fmap_2|].
    rewrite E. by eapply Hin.
  - injection S2 as ->. intros E. apply (Hdis (eidx e2)); [by apply list_elem_of_fmap_2|].
    rewrite <- E. by eapply Hin.
Qed.

Lemma parallel_level_same level s tr :
  cols_ok s → level_ok level → shuffle (level_threads level) tr →
  ofold entity_step s tr = ofold entity_step s (level_serial level) ∧
  ∃ s', ofold entity_step s tr = Done s' ∧ cols_ok s'.
Proof.
  intros Hok Hlev Hsh.
  assert (∀ s a, cols_ok s → body_ok a.1 → ∃ s', entity_step s a = Done s' ∧ cols_ok s') as Hdone.
  { intros s0 a H1 H2. eexists. by apply entity_step_done. }
  assert (Forall (λ a, body_ok a.1) (level_serial level)) as Hgood.
  { unfold level_serial. apply Forall_forall. intros a (u & Hu & Ha)%elem_of_concat.
    apply list_elem_of_fmap in Hu as (p & -> & Hp). apply list_elem_of_fmap in Ha as (e & -> & _).
    pose proof (lv_body _ Hlev) as Hb. rewrite Forall_forall in Hb. by apply Hb. }
  rewrite (shuffle_serial entity_step cols_ok (λ a, body_ok a.1) Hdone _ _ s Hsh Hok).
  - rewrite concat_threads. split; [done|]. clear Hsh Hlev. revert s Hok.
    induction Hgood as [|a l Ha _ IH]; intros s Hok; [by exists s|].
    cbn. destruct (Hdone s a Hok Ha) as (s1 & -> & H1). by apply IH.
  - apply Forall_forall. intros t Ht. apply Forall_forall. intros a Ha.
    rewrite Forall_forall in Hgood. apply Hgood. rewrite <- concat_threads. apply elem_of_concat. eauto.
  - by apply level_independent.
Qed.

(** C2: parallel execution is deterministic.  For a level of pairwise non-conflicting,
    entity-local systems, each of whose bodies writes only declared components the entity has,
    however their entities were cut into shards, every interleaving of the shards' steps completes
    without a panic in exactly the store that running the systems one after the other, entity by
    entity, produces; provided that no two entities of one system share an index ([lv_slots]).  Live
    entities never do; an identifier that outlived its entity in a column may
    ([Scheduler.stale_identifiers_share_a_slot]). *)
Theorem parallel_level_deterministic level s tr :
  cols_ok s → level_ok level → shuffle (level_threads level) tr →
  ofold entity_step s tr = ofold entity_step s (level_serial level) ∧
  ∃ s', ofold entity_step s tr = Done s' ∧ cols_ok s'.
Proof. apply parallel_level_same. Qed.
End local_systems.

(** ** A concrete level: two shards that negate a boolean component *)

Module ToyLevel.

Definition negate : local_system (R := Toy.runtime) :=
  mkLocal "negate" [] [0] false (λ _ view,
    match view !! 0 with Some (inl b) => [(0, inl (negb b))] | _ => [] end).

(** Entities of index 0 and 1. *)
Definition column : Column (bool + string) :=
  mkCol (mkSlice [1; 2] 2) [1; 4294967297] [inl true; inl false].

Definition store : ComponentStore (R := Toy.runtime) :=
  mkCS ["flag"%string] {["flag"%string := 0]} {[0 := (true, column)]}.

Definition level : list (local_system * list (list EntityID)) := [(negate, [[1]; [4294967297]])].

Lemma store_ok : cols_ok store.
Proof.
  intros cid t c. unfold store. cbn. rewrite lookup_singleton_Some. intros [_ [= _ <-]].
  pose proof (col_run_refines [CSet 1 (inl true); CSet 4294967297 (inl false)] newColumn ∅ 0
    (newColumn_refines (V := bool + string))) as H.
  cbn [map_run map_exec] in H. destruct H as (c & rev & Hc & Href); [vm_compute; reflexivity|].
  vm_compute in Hc. injection Hc as <- _. apply Href.
Qed.

Lemma negate_ok : body_ok negate.
Proof.
  intros e view cid v. unfold negate. cbn [ls_body ls_writes]. intros Hin.
  destruct (view !! 0) as [[b|str]|] eqn:E.
  - apply list_elem_of_singleton in Hin. injection Hin as -> _. split; [by left|by exists (inl b)].
  - by apply not_elem_of_nil in Hin.
  - by apply not_elem_of_nil in Hin.
Qed.

Lemma level_fine : level_ok level.
Proof.
  split.
  - constructor; [apply negate_ok|done].
  - constructor; [|done]. apply (bool_decide_unpack _). by vm_compute.
  - intros [|i] [|j] p q Hne Hi Hj; done.
Qed.
End ToyLevel.

Lemma parallel_level_deterministic_witness :
  let tr := [(ToyLevel.negate, 4294967297); (ToyLevel.negate, 1)] in
  ofold entity_step ToyLevel.store tr = ofold entity_step ToyLevel.store (level_serial ToyLevel.level) ∧
  ∃ s', ofold entity_step ToyLevel.store tr = Done s' ∧ cols_ok s'.
Proof.
  apply (parallel_level_deterministic (R := Toy.runtime) ToyLevel.level).
  - apply ToyLevel.store_ok.
  - apply ToyLevel.level_fine.
  - apply (sh_step [[(ToyLevel.negate, 1)]] (ToyLevel.negate, 4294967297) [] []).
    apply (sh_step [] (ToyLevel.negate, 1) [] [[]]). apply sh_nil. repeat constructor.
Defined.
