(* ===== verification/Runtime.v ===== *)
(** * The runtime: [pkg/simulation/executor.go], [runtime.go], [config.go], [state.go], [model.go]

    A [Simulation] binds a model to a world and drives it through an executor.  This file
    models the calls as a single caller makes them, with a context that is not cancelled;
    calls that overlap a background run are the subject of [Lifecycle.v].  A run that needs
    more than the given number of loop turns is [None]; the theorems state how many suffice. *)

From S2P Require Import Prelude Float64 Rng SparseSet Entity GoValues Interning Component Store.
From S2P Require Import Tags Heap Events World Snapshot Scheduler.
Local Open Scope Z_scope.

(* pkg/simulation/config.go:5-27 Config *)
Record Config := mkConfig {
  cfg_ID : string;
  cfg_Seed : Z;
  cfg_Mode : Mode;
  cfg_MaxTicks : Z;
  cfg_MaxTime : float64;
  cfg_Workers : Z;
}.

(* pkg/simulation/state.go:5-21 State *)
Inductive SimState :=
  | StateIdle
  | StateRunning
  | StatePaused
  | StateStopped
  | StateCompleted
  | StateFailed.

#[global] Instance SimState_eq_dec : EqDecision SimState.
Proof. solve_decision. Defined.

(* pkg/simulation/state.go:23-40 State.String *)
Definition SimState__String (s : SimState) : string :=
  match s with
  | StateIdle => "idle"
  | StateRunning => "running"
  | StatePaused => "paused"
  | StateStopped => "stopped"
  | StateCompleted => "completed"
  | StateFailed => "failed"
  end.

Section runtime.
Context `{R : GoRuntime} `{K : Checksummer}.

(** The state of a model value: a Go model has fields of its own. *)
Context {M : Type}.

(** What a method of the model that panics has done to the model and to the world by then.  Nothing
    is assumed about it. *)
Class Unwinding := unwound : M → World → M * World.

(** The interfaces a model may implement; an optional one is an option. *)
(* pkg/simulation/model.go:10-50 Model *)
Record Model := mkModel {
  mo_Metadata : ModelMetadata;
  mo_Initialize : M → World → outcome (M * World * option error);
  mo_Step : option (M → World → outcome (M * World * option error));
  mo_Systems : option (M → list System);
  mo_HandleEvent : option (M → World → Event → outcome (M * World * option error));
  mo_Config : option ((M → option value) * (M → rawJSON → M * option error));
}.

(* pkg/simulation/executor.go:20-52 tickExecutor *)
Inductive executor :=
  | tickExecutor (step : M → World → outcome (M * World * option error))
  | systemTickExecutor (sched : scheduler)
  | eventExecutor (handle : M → World → Event → outcome (M * World * option error)).

Definition tick_clock (w : World) : World := set_Clock w (Clock__Advance (w_Clock w)).

(* pkg/simulation/executor.go:26-32 tickExecutor.step *)
Definition tickExecutor__step (f : M → World → outcome (M * World * option error)) (m : M) (w : World)
  : outcome (M * World * bool * option error) :=
  let! (m, w, err) := f m w in
  match err with
  | Some e => Done (m, w, false, Some e)
  | None => Done (m, tick_clock w, true, None)
  end.

(* pkg/simulation/executor.go:40-46 systemTickExecutor.step *)
Definition systemTickExecutor__step (sched : scheduler) (w : World)
  : outcome (scheduler * World * bool * option error) :=
  let! (sched, w, err) := scheduler__run sched w in
  match err with
  | Some e => Done (sched, w, false, Some e)
  | None => Done (sched, tick_clock w, true, None)
  end.

(* pkg/simulation/executor.go:54-67 eventExecutor.step *)
Definition eventExecutor__step (h : M → World → Event → outcome (M * World * option error)) (m : M)
    (w : World) : outcome (M * World * bool * option error) :=
  let! (q, r) := EventQueue__Pop (w_Events w) in
  match r with
  | None => Done (m, set_Events w q, false, None)
  | Some ev =>
      let w := set_Events w q in
      if flt (ev_Time ev) (Clock__Time (w_Clock w)) then
        Done (m, w, false, Some (Errorf "simulation: event scheduled in the past"))
      else
        let w := set_Clock w (Clock__AdvanceTime (w_Clock w) (ev_Time ev)) in
        let! (m, w, err) := h m w ev in
        match err with
        | Some e => Done (m, w, false, Some e)
        | None => Done (m, w, true, None)
        end
  end.

(* pkg/simulation/executor.go:14-18 executor.step *)
Definition executor__step (e : executor) (m : M) (w : World)
  : outcome (executor * M * World * bool * option error) :=
  match e with
  | tickExecutor f => let! (m, w, more, err) := tickExecutor__step f m w in Done (e, m, w, more, err)
  | systemTickExecutor sched =>
      let! (sched, w, more, err) := systemTickExecutor__step sched w in
      Done (systemTickExecutor sched, m, w, more, err)
  | eventExecutor h => let! (m, w, more, err) := eventExecutor__step h m w in Done (e, m, w, more, err)
  end.

(* pkg/simulation/executor.go:69-94 newExecutor *)
Definition newExecutor (GOMAXPROCS : Z) (cfg : Config) (mo : Model) (m : M)
  : outcome (result executor) :=
  if cfg_Mode cfg =? ModeTick then
    match mo_Systems mo with
    | Some systems =>
        let workers := if cfg_Workers cfg <=? 0 then GOMAXPROCS else cfg_Workers cfg in
        let! sched := newScheduler (systems m) workers in
        Done (Ok (systemTickExecutor sched))
    | None =>
        match mo_Step mo with
        | None => Done (Err ErrBadMode)
        | Some f => Done (Ok (tickExecutor f))
        end
    end
  else if cfg_Mode cfg =? ModeEvent then
    match mo_HandleEvent mo with
    | None => Done (Err ErrBadMode)
    | Some h => Done (Ok (eventExecutor h))
    end
  else Done (Err ErrBadMode).

(* pkg/simulation/runtime.go:14-38 Simulation *)
Record Simulation := mkSim {
  sim_cfg : Config;
  sim_model : Model;
  sim_m : M;
  sim_world : World;
  sim_exec : executor;
  sim_state : SimState;
  sim_err : option error;
  sim_steps : Z;
  sim_observed : option Z;       (** with a step observer: how often it has been called *)
}.

Definition set_state (s : Simulation) (st : SimState) (err : option error) (steps : Z) : Simulation :=
  mkSim (sim_cfg s) (sim_model s) (sim_m s) (sim_world s) (sim_exec s) st err steps (sim_observed s).
Definition set_exec (s : Simulation) (e : executor) (m : M) (w : World) : Simulation :=
  mkSim (sim_cfg s) (sim_model s) m w e (sim_state s) (sim_err s) (sim_steps s) (sim_observed s).
Definition set_observed (s : Simulation) (n : option Z) : Simulation :=
  mkSim (sim_cfg s) (sim_model s) (sim_m s) (sim_world s) (sim_exec s) (sim_state s) (sim_err s) (sim_steps s) n.

(** [k] calls of the step observer, if there is one. *)
Definition observe_by (k : Z) (s : Simulation) : option Z := (λ n, n + k) <$> sim_observed s.
Definition observe (s : Simulation) : Simulation := set_observed s (observe_by 1 s).

(** A [System]'s [Reads] and [Writes] are methods that read the model: after [Initialize] they
    return the component identifiers it registered, while the levels were computed before. *)
Definition rebind (mo : Model) (m : M) (e : executor) : executor :=
  match e, mo_Systems mo with
  | systemTickExecutor sched, Some systems =>
      systemTickExecutor (mkSched (sch_workers sched) (systems m) (sch_levels sched) (sch_cache sched))
  | _, _ => e
  end.

(* pkg/simulation/runtime.go:40-68 New *)
Definition New (GOMAXPROCS : Z) (cfg : Config) (mo : Model) (m : M) : outcome (result Simulation) :=
  let! re := newExecutor GOMAXPROCS cfg mo m in
  match re with
  | Err e => Done (Err e)
  | Ok exec =>
      let world := set_Meta (NewWorld (cfg_ID cfg) (cfg_Seed cfg))
        (mkMeta (cfg_ID cfg) (mm_ID (mo_Metadata mo)) (mm_Version (mo_Metadata mo)) (cfg_Seed cfg)
                (cfg_Mode cfg)) 0 in
      let! (m, world, err) := mo_Initialize mo m world in
      match err with
      | Some e => Done (Err e)
      | None => Done (Ok (mkSim cfg mo m world (rebind mo m exec) StateIdle None 0 None))
      end
  end.

(* pkg/simulation/runtime.go:88-91 Simulation.Ticks *)
Definition Ticks (s : Simulation) : Z := sim_steps s.

(** A fresh observer has not been called; what it does with a duration is its own business. *)
(* pkg/simulation/runtime.go:96-102 Simulation.SetStepObserver *)
Definition SetStepObserver (s : Simulation) : Simulation := set_observed s (Some 0).

(* pkg/simulation/runtime.go:104-136 Simulation.Snapshot *)
Definition Simulation__Snapshot (s : Simulation) : result Snapshot :=
  if decide (sim_state s = StateRunning) then Err ErrAlreadyRunning
  else
    try! snap := World__Snapshot (sim_world s) in
    match mo_Config (sim_model s) with
    | None => Ok snap
    | Some (snapshotConfig, _) =>
        match snapshotConfig (sim_m s) with
        | None => Ok snap
        | Some cfg =>
            try! raw := wrap_err "simulation: snapshot model config" (json_Marshal cfg) in
            let snap := with_config snap raw in
            try! checksum := computeChecksum snap in
            Ok (with_checksum snap checksum)
        end
    end.

(* pkg/simulation/runtime.go:138-158 Simulation.Restore *)
Definition Simulation__Restore (s : Simulation) (snap : Snapshot) : outcome (Simulation * option error) :=
  if decide (sim_state s = StateRunning) then Done (s, Some ErrAlreadyRunning)
  else
    let! (w, r) := World__Restore (sim_world s) snap in
    let s := set_exec s (sim_exec s) (sim_m s) w in
    match r with
    | Err e => Done (s, Some e)
    | Ok _ =>
        match mo_Config (sim_model s) with
        | None => Done (s, None)
        | Some (_, restoreConfig) =>
            if decide (sn_ModelConfig snap = ""%string) then Done (s, None)
            else
              let '(m, err) := restoreConfig (sim_m s) (sn_ModelConfig snap) in
              let s := set_exec s (sim_exec s) m (sim_world s) in
              Done (s, match err with
                       | Some e => Some (Wrapped "simulation: restore model config" e)
                       | None => None
                       end)
        end
    end.

(* pkg/simulation/runtime.go:283-297 Simulation.begin *)
Definition begin (s : Simulation) : result Simulation :=
  if decide (sim_state s = StateRunning) then Err ErrAlreadyRunning
  else Ok (set_state s StateRunning None 0).

(* pkg/simulation/runtime.go:299-321 Simulation.defaultLimit *)
Definition defaultLimit (cfg : Config) : option (Simulation → bool) :=
  if cfg_Mode cfg =? ModeTick then
    if 0 <? cfg_MaxTicks cfg then Some (λ s, cfg_MaxTicks cfg <=? sim_steps s) else None
  else if cfg_Mode cfg =? ModeEvent then
    if flt fzero (cfg_MaxTime cfg) then
      Some (λ s, match EventQueue__Peek (w_Events (sim_world s)) with
                 | None => true
                 | Some e => fle (cfg_MaxTime cfg) (ev_Time e)
                 end)
    else None
  else None.

(** The deferred finalisation of [run]. *)
Definition finalize (s : Simulation) (runErr : option error) : Simulation :=
  match runErr with
  | Some e => set_state s StateFailed (Some e) (sim_steps s)
  | None =>
      if decide (sim_state s = StateRunning) then set_state s StateCompleted (sim_err s) (sim_steps s)
      else s
  end.

(** A panic in a goroutine of the scheduler, which the [recover] of [run] does not catch. *)
Definition fatal (e : executor) (w : World) : bool :=
  match e with systemTickExecutor sched => scheduler__fatal sched w | _ => false end.

Context {U : Unwinding}.

(** The model and the world after a step that panicked: in event mode, the event had been taken
    from the queue and the clock advanced when the handler was called. *)
Definition left_behind (e : executor) (m : M) (w : World) : M * World :=
  match e with
  | eventExecutor _ =>
      match EventQueue__Pop (w_Events w) with
      | Done (q, Some ev) => unwound m (set_Clock (set_Events w q) (Clock__AdvanceTime (w_Clock w) (ev_Time ev)))
      | _ => unwound m w
      end
  | _ => unwound m w
  end.

(** How a run ends: [None] when the fuel did not suffice, a panic when the process has died of it,
    otherwise the simulation and the error returned. *)
Abbreviation run_end := (option (outcome (Simulation * option error))).

(** One turn of the loop of [run]: the simulation it goes on with, or how the run ends.  A panic of
    the model in its own goroutine is recovered into an error. *)
(* pkg/simulation/runtime.go:365-421 Simulation.run *)
Definition turn (limit : option (Simulation → bool)) (s : Simulation)
  : Simulation + outcome (Simulation * option error) :=
  if decide (sim_state s ≠ StateRunning) then inr (Done (s, None))
  else if match limit with Some f => f s | None => false end then
    inr (Done (set_state s StateCompleted (sim_err s) (sim_steps s), None))
  else
    match executor__step (sim_exec s) (sim_m s) (sim_world s) with
    | Panic why =>
        if fatal (sim_exec s) (sim_world s) then inr (Panic why)
        else
          let '(m, w) := left_behind (sim_exec s) (sim_m s) (sim_world s) in
          inr (Done (set_exec s (sim_exec s) m w, Some (Errorf ("simulation: model panic: " +:+ why))))
    | Done (e, m, w, more, err) =>
        let s := observe (set_exec s e m w) in
        match err with
        | Some er => inr (Done (set_state s StateFailed (Some er) (sim_steps s), Some er))
        | None =>
            if more : bool then inl (set_state s (sim_state s) (sim_err s) (u64 (sim_steps s + 1)))
            else inr (Done (set_state s StateCompleted (sim_err s) (sim_steps s), None))
        end
    end.

(* pkg/simulation/runtime.go:365-423 Simulation.run *)
Fixpoint loop (fuel : nat) (limit : option (Simulation → bool)) (s : Simulation) : run_end :=
  match fuel with
  | O => None
  | S fuel => match turn limit s with inl s => loop fuel limit s | inr end_ => Some end_ end
  end.

(** The simulation after so many turns, as long as the run has not ended. *)
Fixpoint turns (k : nat) (limit : option (Simulation → bool)) (s : Simulation) : option Simulation :=
  match k with
  | O => Some s
  | S k => match turn limit s with inl s => turns k limit s | inr _ => None end
  end.

(* pkg/simulation/runtime.go:323-424 Simulation.run *)
Definition run (fuel : nat) (limit : option (Simulation → bool)) (s : Simulation) : run_end :=
  match loop fuel limit s with
  | Some (Done (s, runErr)) => Some (Done (finalize s runErr, runErr))
  | end_ => end_
  end.

(** [begin] and then [run], as [Run], [RunN] and [RunUntil] do. *)
Definition begin_run (fuel : nat) (limit : option (Simulation → bool)) (s : Simulation) : run_end :=
  match begin s with
  | Err e => Some (Done (s, Some e))
  | Ok s => run fuel limit s
  end.

(* pkg/simulation/runtime.go:160-168 Simulation.Run *)
Definition Run (fuel : nat) (s : Simulation) : run_end := begin_run fuel (defaultLimit (sim_cfg s)) s.

(* pkg/simulation/runtime.go:170-178 Simulation.RunN *)
Definition RunN (fuel : nat) (s : Simulation) (n : Z) : run_end := begin_run fuel (Some (λ s, n <=? sim_steps s)) s.

(* pkg/simulation/runtime.go:180-188 Simulation.RunUntil *)
Definition RunUntil (fuel : nat) (s : Simulation) (pred : Simulation → bool) : run_end := begin_run fuel (Some pred) s.

(* pkg/simulation/runtime.go:216-241 Simulation.Step *)
Definition Step (s : Simulation) : outcome (Simulation * option error) :=
  if decide (sim_state s = StateRunning) then Done (s, Some ErrAlreadyRunning)
  else
    let! (e, m, w, _, err) := executor__step (sim_exec s) (sim_m s) (sim_world s) in
    let s := observe (set_exec s e m w) in
    match err with
    | Some er => Done (set_state s StateFailed (Some er) (sim_steps s), Some er)
    | None => Done (set_state s (sim_state s) (sim_err s) (u64 (sim_steps s + 1)), None)
    end.

End runtime.
Arguments Model {R} M.
Arguments executor {R} M.
Arguments Simulation {R} M.
Arguments Unwinding {R} M.

(** ** Bounded runs *)

Section runs.
Context `{R : GoRuntime} {M : Type} {U : Unwinding M}.
Implicit Types (s : Simulation M).

(** [k] successful steps in a row. *)
Fixpoint nsteps (k : nat) (st : executor M * M * World) : option (executor M * M * World) :=
  match k with
  | O => Some st
  | S k =>
      let '(e, m, w) := st in
      match executor__step e m w with
      | Done (e, m, w, true, None) => nsteps k (e, m, w)
      | _ => None
      end
  end.

Lemma nsteps_add a b st :
  nsteps (a + b) st = match nsteps a st with Some st' => nsteps b st' | None => None end.
Proof.
  revert st. induction a as [|a IH]; intros [[e m] w]; cbn; [done|].
  destruct (executor__step e m w) as [[[[[e' m'] w'] [|]] [er|]]|]; try done.
Qed.

Definition exec_state s : executor M * M * World := (sim_exec s, sim_m s, sim_world s).

(** The simulation after steps that led to [st]. *)
Definition at_exec s (st : executor M * M * World) (state : SimState) (err : option error) (steps : Z)
    (observed : option Z) : Simulation M :=
  let '(e, m, w) := st in mkSim (sim_cfg s) (sim_model s) m w e state err steps observed.

(** The loop of a counted run: exactly the missing steps, then completion. *)
Lemma loop_counted k n s st :
  sim_state s = StateRunning → 0 ≤ sim_steps s → sim_steps s + Z.of_nat k = n → n < 2 ^ 64 →
  nsteps k (exec_state s) = Some st →
  loop (S k) (Some (λ s, n <=? sim_steps s)) s
  = Some (Done (at_exec s st StateCompleted (sim_err s) n (observe_by (Z.of_nat k) s), None)).
Proof.
  revert s. induction k as [|k IH]; intros s Hrun H0 Hn Hlt Hst.
  - cbn [nsteps] in Hst. injection Hst as <-. cbn [loop]. unfold turn. rewrite decide_False by (intros Hne; by apply Hne).
    destruct (Z.leb_spec n (sim_steps s)); [|lia]. unfold at_exec, set_state, observe_by. cbn.
    replace n with (sim_steps s) by lia. destruct (sim_observed s) as [x|]; cbn; [|done]. by rewrite Z.add_0_r.
  - cbn [nsteps exec_state] in Hst. unfold exec_state in Hst.
    rename k into k0. remember (S k0) as k1 eqn:E. cbn [loop]. unfold turn. subst k1.
    rewrite decide_False by (intros Hne; by apply Hne).
    destruct (Z.leb_spec n (sim_steps s)); [lia|].
    destruct (executor__step (sim_exec s) (sim_m s) (sim_world s))
      as [[[[[e' m'] w'] [|]] [er|]]|]; try done.
    rewrite IH; unfold observe, set_observed, set_state, set_exec; cbn; rewrite ?u64_id by (split; lia); try done; try lia.
    unfold at_exec, observe_by. cbn. destruct st as [[e2 m2] w2], (sim_observed s) as [x|]; cbn; [|done].
    by replace (x + 1 + Z.of_nat k0) with (x + Z.of_nat (S k0)) by lia.
Qed.

Lemma RunN_steps s n st :
  sim_state s ≠ StateRunning → 0 ≤ n < 2 ^ 64 → nsteps (Z.to_nat n) (exec_state s) = Some st →
  RunN (S (Z.to_nat n)) s n = Some (Done (at_exec s st StateCompleted None n (observe_by n s), None)).
Proof.
  intros Hst Hn Hs. unfold RunN, begin_run, begin. rewrite decide_False by done. unfold run.
  erewrite (loop_counted (Z.to_nat n) n); [..|exact Hs]; cbn; try done; try lia.
  unfold finalize, observe_by. destruct st as [[e m] w]. cbn. by rewrite Z2Nat.id by lia.
Qed.

(** C12: [RunN(n)] executes exactly [n] steps: on a simulation that is not running and whose model
    can take [n] more steps without an error or a panic and, in event mode, without running out of
    events, a run that nobody pauses or stops returns nil after [n + 1] turns of its loop, in [StateCompleted], with
    [Ticks() = n], in the state that [n] executor steps lead to, and has called the step observer
    [n] times; and a run of [a + b] steps ends in the same world as a run of [a] steps followed by a
    run of [b]. *)
Theorem RunN_exact s a b st1 st2 :
  sim_state s ≠ StateRunning → 0 ≤ a → 0 ≤ b → a + b < 2 ^ 64 →
  nsteps (Z.to_nat a) (exec_state s) = Some st1 → nsteps (Z.to_nat b) st1 = Some st2 →
  RunN (S (Z.to_nat a)) s a = Some (Done (at_exec s st1 StateCompleted None a (observe_by a s), None)) ∧
  RunN (S (Z.to_nat b)) (at_exec s st1 StateCompleted None a (observe_by a s)) b
  = Some (Done (at_exec s st2 StateCompleted None b (observe_by (a + b) s), None)) ∧
  RunN (S (Z.to_nat (a + b))) s (a + b) = Some (Done (at_exec s st2 StateCompleted None (a + b) (observe_by (a + b) s), None)).
Proof.
  intros Hst Ha Hb Hab H1 H2. split; [|split].
  - apply RunN_steps; [done|lia|done].
  - destruct st1 as [[e1 m1] w1], st2 as [[e2 m2] w2].
    rewrite (RunN_steps _ b (e2, m2, w2)) by (done || lia). unfold at_exec, observe_by. cbn.
    destruct (sim_observed s) as [x|]; cbn; [|done]. by rewrite Z.add_assoc.
  - apply RunN_steps; [done|lia|]. rewrite Z2Nat.inj_add, nsteps_add, H1 by lia. done.
Qed.

(** The executor keeps its kind. *)
Definition spawns (e : executor M) : bool := match e with systemTickExecutor _ => true | _ => false end.

Lemma executor_step_spawns (e : executor M) m w e' m' w' more err :
  executor__step e m w = Done (e', m', w', more, err) → spawns e' = spawns e.
Proof.
  destruct e as [f|sched|h]; cbn; intros H; inv_bind H as x Hx; destruct x as [[[? ?] ?] ?]; by injection H as <- _ _ _ _.
Qed.

(** A run bounded by [MaxTicks] always ends, whatever the model does: with at most [MaxTicks]
    steps, or with the process. *)
Lemma loop_bounded k n s :
  sim_state s = StateRunning → 0 ≤ sim_steps s → n ≤ sim_steps s + Z.of_nat k →
  sim_steps s ≤ n → n < 2 ^ 64 →
  ∃ end_, loop (S k) (Some (λ s, n <=? sim_steps s)) s = Some end_ ∧
    match end_ with
    | Done (s', r) => sim_steps s' ≤ n ∧ (r = None → sim_state s' ≠ StateFailed)
    | Panic _ => spawns (sim_exec s) = true
    end.
Proof.
  revert s. induction k as [|k IH]; intros s Hrun H0 Hn Hle Hlt.
  - cbn [loop]. unfold turn. rewrite decide_False by (intros Hne; by apply Hne).
    destruct (Z.leb_spec n (sim_steps s)); [|lia]. eexists. split; [done|]. done.
  - remember (S k) as k1 eqn:E. cbn [loop]. unfold turn. subst k1. rewrite decide_False by (intros Hne; by apply Hne).
    destruct (Z.leb_spec n (sim_steps s)); [eexists; split; [done|done]|].
    destruct (executor__step (sim_exec s) (sim_m s) (sim_world s))
      as [[[[[e' m'] w'] [|]] [er|]]|why] eqn:Hstep; try (eexists; split; [done|done]).
    + destruct (IH (set_state (observe (set_exec s e' m' w')) (sim_state s) (sim_err s) (u64 (sim_steps s + 1))))
        as (end_ & Hl & Hend); [done|cbn; rewrite ?u64_id by (split; lia); lia..|].
      eexists. split; [exact Hl|]. destruct end_ as [[s' r]|]; [done|]. cbn in Hend.
      by rewrite <- (executor_step_spawns _ _ _ _ _ _ _ _ Hstep).
    + destruct (fatal (sim_exec s) (sim_world s)) eqn:Hf; [|destruct (left_behind _ _ _)]; (eexists; split; [done|]); cbn.
      * unfold fatal in Hf. by destruct (sim_exec s).
      * done.
Qed.

(** A tick-mode run with [MaxTicks > 0] ends. *)
Lemma Run_ends s :
  cfg_Mode (sim_cfg s) = ModeTick → 0 < cfg_MaxTicks (sim_cfg s) < 2 ^ 64 →
  sim_state s ≠ StateRunning →
  ∃ end_, Run (S (Z.to_nat (cfg_MaxTicks (sim_cfg s)))) s = Some end_ ∧
    match end_ with
    | Done (s', r) => sim_steps s' ≤ cfg_MaxTicks (sim_cfg s) ∧ sim_state s' ≠ StateRunning ∧
        (is_Some r ↔ sim_state s' = StateFailed)
    | Panic _ => spawns (sim_exec s) = true
    end.
Proof.
  intros Hm Hmax Hst. unfold Run, begin_run, begin. rewrite decide_False by done.
  unfold defaultLimit. rewrite Hm. cbn [Z.eqb ModeTick]. destruct (Z.ltb_spec 0 (cfg_MaxTicks (sim_cfg s))); [|lia].
  destruct (loop_bounded (Z.to_nat (cfg_MaxTicks (sim_cfg s))) (cfg_MaxTicks (sim_cfg s)) (set_state s StateRunning None 0))
    as (end_ & Hl & Hend); [done|done|cbn; lia|cbn; lia|lia|].
  unfold run. rewrite Hl. destruct end_ as [[s1 [e|]]|why]; (eexists; split; [done|]); [..|exact Hend]; destruct Hend as [Hle Hnone].
  - cbn. split_and!; [done|done|]. split; [done|by eexists].
  - specialize (Hnone eq_refl). cbn [finalize]. destruct (decide (sim_state s1 = StateRunning)) as [E|E]; cbn;
      (split_and!; [done|done|]; split; [by intros [? ?]|done]).
Qed.

(** C13: a tick-mode run with [MaxTicks > 0] terminates within [MaxTicks + 1] turns of the loop
    and at most [MaxTicks] steps for every model, errors and panics of the model included; it does
    not leave the simulation running, and returns an error exactly when the simulation has failed.
    The one exception is a panic in a goroutine of the scheduler, which ends the process. *)
Theorem Run_terminates s :
  cfg_Mode (sim_cfg s) = ModeTick → 0 < cfg_MaxTicks (sim_cfg s) < 2 ^ 64 →
  sim_state s ≠ StateRunning →
  ∃ end_, Run (S (Z.to_nat (cfg_MaxTicks (sim_cfg s)))) s = Some end_ ∧
    match end_ with
    | Done (s', r) => sim_steps s' ≤ cfg_MaxTicks (sim_cfg s) ∧ sim_state s' ≠ StateRunning ∧
        (is_Some r ↔ sim_state s' = StateFailed)
    | Panic _ => spawns (sim_exec s) = true
    end.
Proof. apply Run_ends. Qed.
End runs.

(** ** Event mode *)

Section event_mode.
Context `{R : GoRuntime} {M : Type} {U : Unwinding M}.
Context (h : M → World → Event → outcome (M * World * option error)).
Implicit Types (s : Simulation M) (w : World).

Definition now w : float64 := clk_time (w_Clock w).

(** A handler that leaves the clock to the executor and schedules events at numeric times. *)
Hypothesis handler_ok : ∀ m w ev m' w' err,
  q_inv (w_Events w) → h m w ev = Done (m', w', err) → w_Clock w' = w_Clock w ∧ q_inv (w_Events w').

(** Nor does it touch the clock when it panics. *)
Hypothesis unwound_ok : ∀ m w, w_Clock (unwound m w).2 = w_Clock w.

Definition event_sim s : Prop :=
  sim_exec s = eventExecutor h ∧ is_number (now (sim_world s)) ∧ q_inv (w_Events (sim_world s)).

Lemma fle_of_not_flt a b : is_number a → is_number b → flt b a = false → fle a b = true.
Proof.
  intros Ha Hb Hlt. apply fle_key; [done..|]. intros Hbad.
  apply flt_key in Hbad; [|done..]. congruence.
Qed.

(** Popping keeps the queue's invariant and gives its first event. *)
Lemma Pop_inv q : q_inv q → ∃ q', EventQueue__Pop q = Done (q', q_h q !! 0%nat) ∧ q_inv q' ∧
  match q_h q !! 0%nat with Some e => timed e | None => q' = q end.
Proof.
  intros Hq. pose proof Hq as [Hh Ht Hn Hs].
  destruct (Pop_refines q (mkSQ (sort_by eventLess (q_h q)) (q_next q) (q_seq q))) as (q' & Hp & Hr & _).
  { split; cbn; [done|apply sort_by_perm|
      by apply (sort_by_sorted eventLess timed eventLess_asym eventLe_trans)|done|done]. }
  assert (head (sort_by eventLess (q_h q)) = q_h q !! 0%nat) as Hhead.
  { apply (head_root q (mkSQ (sort_by eventLess (q_h q)) (q_next q) (q_seq q))).
    split; cbn; [done|apply sort_by_perm|
      by apply (sort_by_sorted eventLess timed eventLess_asym eventLe_trans)|done|done]. }
  cbn in Hp. rewrite Hhead in Hp. exists q'. split; [done|]. split; [apply Hr|].
  destruct (q_h q) as [|r l] eqn:Eh; cbn in *.
  - unfold EventQueue__Pop in Hp. rewrite Eh in Hp. cbn in Hp. by injection Hp.
  - by apply Forall_cons in Ht as [? _].
Qed.

(** One step never moves the clock back. *)
Lemma event_step_clock m w m' w' more err :
  is_number (now w) → q_inv (w_Events w) → eventExecutor__step h m w = Done (m', w', more, err) →
  is_number (now w') ∧ fle (now w) (now w') = true ∧ q_inv (w_Events w') ∧
  (now w' = now w ∨ ∃ ev, EventQueue__Peek (w_Events w) = Some ev ∧ now w' = ev_Time ev).
Proof using handler_ok.
  intros Hnum Hq H. unfold eventExecutor__step in H.
  destruct (Pop_inv (w_Events w) Hq) as (q' & Hp & Hq' & Ht). rewrite Hp in H. cbn [obind] in H.
  unfold EventQueue__Peek. destruct (q_h (w_Events w) !! 0%nat) as [ev|] eqn:Eev.
  - destruct (flt (ev_Time ev) (Clock__Time (w_Clock (set_Events w q')))) eqn:Hlt.
    + injection H as <- <- <- <-. cbn. split; [done|]. split; [by apply fle_refl|]. split; [done|by left].
    + inv_bind H as [[m1 w1] er] Hh.
      apply handler_ok in Hh as [Hclk Hqi]; [|done].
      assert (now w1 = ev_Time ev) as Hnow by (unfold now; by rewrite Hclk).
      assert (w' = w1) as ->; [by destruct er; injection H as <- <- <- <-|].
      rewrite Hnow. split; [done|]. split; [by apply fle_of_not_flt|]. split; [done|].
      right. by exists ev.
  - injection H as <- <- <- <-. cbn. split; [done|]. split; [by apply fle_refl|]. split; [done|by left].
Qed.

(** A handler that panics has been called with the clock at the time of its event. *)
Lemma left_behind_clock m w why :
  is_number (now w) → q_inv (w_Events w) → eventExecutor__step h m w = Panic why →
  let w' := (left_behind (eventExecutor h) m w).2 in
  is_number (now w') ∧ fle (now w) (now w') = true ∧ ∃ ev, EventQueue__Peek (w_Events w) = Some ev ∧ now w' = ev_Time ev.
Proof using unwound_ok.
  intros Hnum Hq H. unfold eventExecutor__step, left_behind in *.
  destruct (Pop_inv (w_Events w) Hq) as (q' & Hp & _ & Ht). rewrite Hp in *. cbn [obind] in H.
  unfold EventQueue__Peek. destruct (q_h (w_Events w) !! 0%nat) as [ev|]; [|done].
  destruct (flt (ev_Time ev) (Clock__Time (w_Clock (set_Events w q')))) eqn:Hlt; [done|].
  unfold now. rewrite unwound_ok. cbn. split; [done|]. split; [by apply fle_of_not_flt|by exists ev].
Qed.

(** The clock before and after one turn of the loop, whether the run goes on or ends. *)
Definition later_clock (P : float64 → Prop) s s' : Prop :=
  is_number (now (sim_world s')) ∧ fle (now (sim_world s)) (now (sim_world s')) = true ∧ P (now (sim_world s')).

Lemma turn_clock (P : float64 → Prop) limit s :
  event_sim s → P (now (sim_world s)) →
  (∀ ev, (match limit with Some f => f s | None => false end) = false →
     EventQueue__Peek (w_Events (sim_world s)) = Some ev → P (ev_Time ev)) →
  match turn limit s with
  | inl s' => event_sim s' ∧ later_clock P s s'
  | inr (Done (s', _)) => later_clock P s s'
  | inr (Panic _) => False
  end.
Proof using handler_ok unwound_ok.
  intros [He [Hn Hq]] HP Hlim. unfold turn, later_clock.
  destruct (decide (sim_state s ≠ StateRunning)); [by eauto using fle_refl|].
  destruct (match limit with Some f => f s | None => false end) eqn:El; [cbn; by eauto using fle_refl|].
  rewrite He. cbn [executor__step].
  destruct (eventExecutor__step h (sim_m s) (sim_world s)) as [[[[m' w'] more] err]|] eqn:Est; cbn [obind fatal].
  2: { destruct (left_behind_clock _ _ _ Hn Hq Est) as (Hn' & Hle & ev & Hpk & Hnow).
       destruct (left_behind _ _ _) as [m' w']. cbn in *. split; [done|]. split; [done|]. rewrite Hnow. by apply Hlim. }
  destruct (event_step_clock _ _ _ _ _ _ Hn Hq Est) as (Hn' & Hle & Hq' & Hwhich).
  assert (P (now w')) as HP' by (destruct Hwhich as [->|(ev & Hpk & ->)]; [done|by apply Hlim]).
  destruct err as [er|]; [done|]. destruct more; [|done]. split; [by split|done].
Qed.

Lemma turns_clock (P : float64 → Prop) limit k s sk :
  (∀ s ev, (match limit with Some f => f s | None => false end) = false → event_sim s →
     EventQueue__Peek (w_Events (sim_world s)) = Some ev → P (ev_Time ev)) →
  event_sim s → P (now (sim_world s)) → turns k limit s = Some sk → event_sim sk ∧ later_clock P s sk.
Proof using handler_ok unwound_ok.
  intros Hlim. revert s. induction k as [|k IH]; intros s Hs HP H; cbn in H.
  { injection H as <-. split; [done|]. destruct Hs as (_ & ? & _). split; [done|]. split; [by apply fle_refl|done]. }
  pose proof (turn_clock P limit s Hs HP ltac:(eauto)) as Ht.
  destruct (turn limit s) as [s1|]; [|done]. destruct Ht as [Hs1 (Hn1 & Hle1 & HP1)].
  destruct (IH s1 Hs1 HP1 H) as [Hsk (Hn & Hle & HPk)]. split; [done|]. split; [done|]. split; [|done].
  destruct Hs as (_ & ? & _). by eapply (fle_trans _ (now (sim_world s1))).
Qed.

Lemma turns_add limit i j s :
  turns (i + j) limit s = match turns i limit s with Some s' => turns j limit s' | None => None end.
Proof. revert s. induction i as [|i IH]; intros s; cbn; [done|]. by destruct (turn limit s). Qed.

Lemma loop_turns limit k s sk end_ : turns k limit s = Some sk → turn limit sk = inr end_ → loop (S k) limit s = Some end_.
Proof.
  revert s. induction k as [|k IH]; intros s H He; cbn in H.
  - injection H as ->. cbn. by rewrite He.
  - change (loop (S (S k)) limit s) with (match turn limit s with inl s' => loop (S k) limit s' | inr e => Some e end).
    destruct (turn limit s) as [s1|]; [|done]. by apply IH.
Qed.

(** An event that the default limit lets through is due before [MaxTime]. *)
Lemma limit_before_MaxTime cfg s ev :
  cfg_Mode cfg = ModeEvent → is_number (cfg_MaxTime cfg) → flt fzero (cfg_MaxTime cfg) = true →
  (match defaultLimit cfg with Some f => f s | None => false end) = false → event_sim s →
  EventQueue__Peek (w_Events (sim_world s)) = Some ev → flt (ev_Time ev) (cfg_MaxTime cfg) = true.
Proof.
  intros Hmode Hmax Hpos Hlim (_ & _ & Hq2) Hpk. unfold defaultLimit in Hlim. rewrite Hmode in Hlim. cbn in Hlim.
  rewrite Hpos, Hpk in Hlim.
  assert (timed ev) as Ht.
  { pose proof (qi_timed _ Hq2) as HT. rewrite Forall_lookup in HT. by eapply HT. }
  apply not_true_iff_false in Hlim. rewrite fle_key in Hlim by done. apply flt_key; [done..|].
  destruct (lexlt_total (fkey (ev_Time ev)) (fkey (cfg_MaxTime cfg))) as [?|[Heq|?]]; [done| |].
  - exfalso. apply Hlim. rewrite Heq. apply lexlt_irrefl.
  - exfalso. apply Hlim. by apply lexlt_asym.
Qed.

End event_mode.

(** ** Snapshots of a simulation *)

Section sim_snapshots.
Context `{R : GoRuntime} `{K : Checksummer} {M : Type}.
Implicit Types (s : Simulation M) (w : World).

Lemma computeChecksum_with sn sum : computeChecksum (with_checksum sn sum) = computeChecksum sn.
Proof. by destruct sn. Qed.

Lemma World_Snapshot_valid w sn : World__Snapshot w = Ok sn → Validate sn = Ok tt.
Proof.
  unfold World__Snapshot. intros H.
  destruct (ComponentStore__Snapshot _) as [comps|]; [|done]. cbn [rbind] in H.
  destruct (ResourceRegistry__snapshot _) as [ress|]; [|done]. cbn [rbind] in H.
  destruct (EventQueue__snapshot _ _) as [evs|]; [|done]. cbn [rbind] in H.
  destruct (computeChecksum _) as [sum|] eqn:Es; [|done]. cbn [rbind] in H. injection H as <-.
  apply Validate_ok. split; [done|]. split; [done|]. by rewrite computeChecksum_with.
Qed.

(** A simulation hands out only snapshots that pass validation (the checksum covers the
    model configuration added afterwards), and none while it is running. *)
Theorem Simulation_Snapshot_valid s sn :
  Simulation__Snapshot s = Ok sn → sim_state s ≠ StateRunning ∧ Validate sn = Ok tt.
Proof.
  unfold Simulation__Snapshot. destruct (decide (sim_state s = StateRunning)); [done|]. intros H.
  split; [done|]. destruct (World__Snapshot (sim_world s)) as [sn0|] eqn:E0; [|done]. cbn [rbind] in H.
  pose proof (World_Snapshot_valid _ _ E0) as Hv.
  destruct (mo_Config (sim_model s)) as [[sc rc]|]; [|by injection H as <-].
  destruct (sc (sim_m s)) as [cfg|]; [|by injection H as <-].
  destruct (json_Marshal cfg) as [raw|]; [|done]. cbn [wrap_err rbind] in H.
  destruct (computeChecksum (with_config sn0 raw)) as [sum|] eqn:Es; [|done]. cbn [rbind] in H.
  injection H as <-. apply Validate_ok in Hv as (H1 & H2 & _). apply Validate_ok.
  split; [done|]. split; [done|]. by rewrite computeChecksum_with.
Qed.

(** ** Replay *)

(** A step function that only looks at the simulation state: on worlds in the same state it
    does the same and leaves them in the same state. *)
Definition respects_state (f : M → World → outcome (M * World * option error)) : Prop :=
  ∀ m w1 w2, w1 ≡ w2 →
  match f m w1, f m w2 with
  | Done (m1, w1', e1), Done (m2, w2', e2) => m1 = m2 ∧ w1' ≡ w2' ∧ e1 = e2
  | Panic _, Panic _ => True
  | _, _ => False
  end.

Lemma tick_clock_proper : Proper ((≡) ==> (≡)) (tick_clock (R := R)).
Proof.
  intros w1 w2 (H1 & H2 & H3 & H4 & H5 & H6 & H7 & H8 & H9 & H10). unfold tick_clock.
  split_and!; cbn; try done. by rewrite H7.
Qed.

Lemma nsteps_respects f k m w1 w2 e1 m1 w1' :
  respects_state f → w1 ≡ w2 → nsteps k (tickExecutor f, m, w1) = Some (e1, m1, w1') →
  ∃ w2', nsteps k (tickExecutor f, m, w2) = Some (e1, m1, w2') ∧ w1' ≡ w2'.
Proof.
  intros Hf. revert m w1 w2. induction k as [|k IH]; intros m w1 w2 Hw H.
  { cbn in H. injection H as <- <- <-. by exists w2. }
  cbn [nsteps executor__step] in *. unfold tickExecutor__step in *. specialize (Hf m w1 w2 Hw).
  destruct (f m w1) as [[[ma wa] [ea|]]|], (f m w2) as [[[mb wb] [eb|]]|]; try done;
    destruct Hf as (<- & Hwab & Heq); try done.
  cbn [obind] in *. eapply IH; [|exact H]. by apply tick_clock_proper.
Qed.

Context {marshalable : value → Prop} {J : JsonRoundTrip R marshalable}.

End sim_snapshots.

(** ** Concrete simulations *)

Module ToySim.

Definition count (m : nat) (w : World (R := Toy.runtime)) : outcome (nat * World * option error) :=
  Done (S m, w, None).

Definition quiet (m : nat) (w : World (R := Toy.runtime)) (ev : Event) : outcome (nat * World * option error) :=
  Done (S m, w, None).

Definition model : Model nat :=
  mkModel (mkModelMeta "toy" "Toy" "1.0" "" ModeTick) (λ m w, Done (m, w, None))
          (Some count) None (Some quiet) None.

Definition sim (mode : Mode) : Simulation nat :=
  mkSim (mkConfig "sim" 7 mode 5 (f64_of_Z 2) 1) model 0%nat (ToyWorld.world 5)
    (if mode =? ModeTick then tickExecutor count else eventExecutor quiet) StateIdle None 0 (Some 0).

#[global] Instance unwinding {M} : Unwinding (R := Toy.runtime) M := λ m w, (m, w).
End ToySim.

Lemma RunN_exact_witness :
  let s := ToySim.sim ModeTick in
  ∃ st1 st2,
  RunN 3 s 2 = Some (Done (at_exec s st1 StateCompleted None 2 (Some 2), None)) ∧
  RunN 4 (at_exec s st1 StateCompleted None 2 (Some 2)) 3 = Some (Done (at_exec s st2 StateCompleted None 3 (Some 5), None)) ∧
  RunN 6 s 5 = Some (Done (at_exec s st2 StateCompleted None 5 (Some 5), None)).
Proof.
  eexists _, _. eapply (RunN_exact (R := Toy.runtime) (ToySim.sim ModeTick) 2 3);
    [done|lia|lia|lia|vm_compute; reflexivity|vm_compute; reflexivity].
Defined.

Lemma Run_terminates_witness :
  let s := ToySim.sim ModeTick in
  ∃ s' r, Run 6 s = Some (Done (s', r)) ∧ sim_steps s' ≤ 5 ∧ sim_state s' ≠ StateRunning ∧
    (is_Some r ↔ sim_state s' = StateFailed).
Proof.
  destruct (Run_terminates (R := Toy.runtime) (ToySim.sim ModeTick)) as ([[s' r]|why] & Hrun & Hend); [done|done|done| |done].
  exists s', r. split; [exact Hrun|exact Hend].
Defined.


Lemma Simulation_Snapshot_valid_witness :
  ∃ sn, Simulation__Snapshot (ToySim.sim ModeTick) = Ok sn ∧
    (sim_state (ToySim.sim ModeTick) ≠ StateRunning ∧ Validate sn = Ok tt).
Proof.
  eexists. split; [vm_compute; reflexivity|].
  eapply (Simulation_Snapshot_valid (R := Toy.runtime) (ToySim.sim ModeTick)). vm_compute. reflexivity.
Defined.


(** ** Levels are computed before [Initialize] *)

Module EarlyLevels.

(** A model with two systems that each write a component of their own; the identifiers are
    fields the model sets in [Initialize]. *)
Definition systems (ids : Z * Z) : list (System (R := Toy.runtime)) :=
  [mkSystem "a" [] [ids.1] false (λ w _, Done (w, None));
   mkSystem "b" [] [ids.2] false (λ w _, Done (w, None))].

Definition init (ids : Z * Z) (w : World (R := Toy.runtime)) : outcome (Z * Z * World * option error) :=
  let! (cs, a) := RegisterComponent true (w_Components w) "a" in
  let! (cs, b) := RegisterComponent true cs "b" in
  Done ((a, b), set_Components w cs (w_revision w), None).

Definition model : Model (Z * Z) :=
  mkModel (mkModelMeta "early" "" "1.0" "" ModeTick) init None (Some systems) None None.
End EarlyLevels.

(** [New] builds the scheduler, and with it the levels, before [Initialize] registers the
    components, when every identifier field still is zero: two systems that write different
    components, and could share a level, are serialised in two levels. *)
Theorem levels_precede_Initialize :
  ∃ s sched, New 8 (mkConfig "sim" 1 ModeTick 0 fzero 0) EarlyLevels.model (0, 0) = Done (Ok s) ∧
    sim_exec s = systemTickExecutor sched ∧ sch_levels sched = [[0]; [1]] ∧
    sch_systems sched = EarlyLevels.systems (0, 1) ∧
    dependencyLevels (sch_systems sched) = Done [[0; 1]].
Proof.
  eexists _, _. split; [reflexivity|]. split; [reflexivity|]. split; [vm_compute; reflexivity|].
  split; [reflexivity|]. vm_compute. reflexivity.
Qed.

(** ** Panics of systems *)

Module PanickingSystem.
Definition systems (_ : unit) : list (System (R := Toy.runtime)) :=
  [mkSystem "p" [] [] false (λ w _, Panic "index out of range")].

(** Two entities. *)
Definition init (m : unit) (w : World (R := Toy.runtime)) : outcome (unit * World * option error) :=
  let! (w, _) := World__Create w in
  let! (w, _) := World__Create w in
  Done (m, w, None).

Definition model : Model unit := mkModel (mkModelMeta "panicking" "" "1.0" "" ModeTick) init None (Some systems) None None.

Definition after_run (workers : Z) : option (outcome (SimState * option error)) :=
  match New 8 (mkConfig "sim" 1 ModeTick 1 fzero workers) model tt with
  | Done (Ok s) =>
      match Run 2 s with
      | Some (Done (s, err)) => Some (Done (sim_state s, err))
      | Some (Panic why) => Some (Panic why)
      | None => None
      end
  | _ => None
  end.
End PanickingSystem.

(** A panic of a model is documented to be converted into a failed state, so that [Wait] always
    returns.  That is so with one worker; with two, the same system is run in goroutines of its own
    and the panic takes the process down. *)
Theorem sharded_panic_fatal :
  PanickingSystem.after_run 1 = Some (Done (StateFailed, Some (Errorf "simulation: model panic: index out of range"))) ∧
  PanickingSystem.after_run 2 = Some (Panic "index out of range").
Proof. split; vm_compute; reflexivity. Qed.
