(* ===== verification/Lifecycle.v ===== *)
(** * The lifecycle under concurrency: [pkg/simulation/runtime.go]

    [Start] runs the loop in a goroutine while other goroutines call [Pause], [Resume], [Stop],
    [Start] again, or cancel the context.  Every critical section of [runtime.go] is one atomic
    transition here; a state records the shared fields and, for every run begun so far, where
    its loop stands, whether its context is cancelled and whether its watcher still waits. *)

From S2P Require Import Prelude Float64 GoValues World Runtime.

(** Where the loop of a run stands. *)
Inductive Pc :=
  | AtStart                          (** begun, [s.cancel] not yet set *)
  | AtTop                            (** before the state check *)
  | AtLimit                          (** state seen running; before [limit()] and the step *)
  | InStep                           (** inside [exec.step] *)
  | Leaving (runErr : option error)  (** the loop was left *)
  | Finalized                        (** deferred function ran up to [cancel()] *)
  | Closed.                          (** [close(done)] *)

Record RunState := mkRun {
  r_pc : Pc;
  r_cancelled : bool;
  r_watching : bool;
  r_begun : nat;                     (** steps begun *)
}.

Record LState := mkL {
  l_state : SimState;
  l_err : option error;
  l_cancel : option nat;             (** the run whose cancel function [s.cancel] holds *)
  l_runs : list RunState;
}.

(** How a step ends; [SPanic] is a panic of the model, which the deferred function recovers. *)
Inductive StepResult := SMore | SNoMore | SErr (e : error) | SPanic (e : error).

Inductive Action :=
  | ABegin
  | APrologue (i : nat)
  | ACheck (i : nat)
  | ALimit (i : nat) (b : bool)
  | AStep (i : nat) (r : StepResult)
  | AFinalize (i : nat)
  | AClose (i : nat)
  | AWatch (i : nat)
  | ACancel (i : nat)
  | APause
  | AResume
  | AStop.

Definition l0 : LState := mkL StateIdle None None [].

Definition set_run (σ : LState) (i : nat) (r : RunState) : LState :=
  mkL (l_state σ) (l_err σ) (l_cancel σ) (<[i := r]> (l_runs σ)).
Definition set_pc (r : RunState) (pc : Pc) : RunState :=
  mkRun pc (r_cancelled r) (r_watching r) (r_begun r).
Definition with_state (σ : LState) (st : SimState) : LState :=
  mkL st (l_err σ) (l_cancel σ) (l_runs σ).

(** [if s.state == StateRunning { s.state = StateCompleted }]. *)
Definition complete (st : SimState) : SimState :=
  if decide (st = StateRunning) then StateCompleted else st.
(** [if s.state == StateRunning || s.state == StatePaused { s.state = StateStopped }]. *)
Definition halt (st : SimState) : SimState :=
  if decide (st = StateRunning ∨ st = StatePaused) then StateStopped else st.

Definition cancel_run (runs : list RunState) (i : nat) : list RunState :=
  alter (λ r, mkRun (r_pc r) true (r_watching r) (r_begun r)) i runs.

(* pkg/simulation/runtime.go:285-297 Simulation.begin *)
Definition do_begin (σ : LState) : LState :=
  if decide (l_state σ = StateRunning) then σ
  else mkL StateRunning None (l_cancel σ) (l_runs σ ++ [mkRun AtStart false true 0]).

(* pkg/simulation/runtime.go:243-253 Simulation.Pause *)
Definition do_pause (σ : LState) : LState :=
  if decide (l_state σ = StateRunning) then with_state σ StatePaused else σ.

(* pkg/simulation/runtime.go:255-265 Simulation.Resume *)
Definition do_resume (σ : LState) : LState :=
  if decide (l_state σ = StatePaused) then with_state σ StateRunning else σ.

(* pkg/simulation/runtime.go:267-281 Simulation.Stop *)
Definition do_stop (σ : LState) : LState :=
  if decide (l_state σ = StateRunning ∨ l_state σ = StatePaused) then
    mkL StateStopped (l_err σ) (l_cancel σ)
      (match l_cancel σ with Some i => cancel_run (l_runs σ) i | None => l_runs σ end)
  else σ.

(** A critical section of the loop of run [i]; [None] when it is not there or is blocked. *)
(* pkg/simulation/runtime.go:328-424 Simulation.run *)
Definition run_action (σ : LState) (i : nat) (r : RunState) (a : Action) : option LState :=
  match a, r_pc r with
  | APrologue _, AtStart =>
      Some (mkL (l_state σ) (l_err σ) (Some i) (<[i := set_pc r AtTop]> (l_runs σ)))
  | ACheck _, AtTop =>
      match l_state σ with
      | StatePaused => None
      | StateRunning => Some (set_run σ i (set_pc r AtLimit))
      | _ => Some (set_run σ i (set_pc r (Leaving None)))
      end
  | ALimit _ true, AtLimit =>
      Some (with_state (set_run σ i (set_pc r (Leaving None))) (complete (l_state σ)))
  | ALimit _ false, AtLimit =>
      Some (set_run σ i (mkRun InStep (r_cancelled r) (r_watching r) (S (r_begun r))))
  | AStep _ SMore, InStep => Some (set_run σ i (set_pc r AtTop))
  | AStep _ SNoMore, InStep =>
      Some (with_state (set_run σ i (set_pc r (Leaving None))) (complete (l_state σ)))
  | AStep _ (SErr e), InStep =>
      if r_cancelled r then
        Some (with_state (set_run σ i (set_pc r (Leaving None))) (halt (l_state σ)))
      else
        Some (mkL StateFailed (Some e) (l_cancel σ) (<[i := set_pc r (Leaving (Some e))]> (l_runs σ)))
  | AStep _ (SPanic e), InStep => Some (set_run σ i (set_pc r (Leaving (Some e))))
  | AFinalize _, Leaving (Some e) =>
      Some (mkL StateFailed (Some e) None (<[i := set_pc r Finalized]> (l_runs σ)))
  | AFinalize _, Leaving None =>
      Some (mkL (complete (l_state σ)) (l_err σ) None (<[i := set_pc r Finalized]> (l_runs σ)))
  | AClose _, Finalized =>
      Some (set_run σ i (mkRun Closed true (r_watching r) (r_begun r)))
  | AWatch _, _ =>
      if r_cancelled r && r_watching r then
        Some (with_state (set_run σ i (mkRun (r_pc r) true false (r_begun r))) (halt (l_state σ)))
      else None
  | ACancel _, _ => Some (set_run σ i (mkRun (r_pc r) true (r_watching r) (r_begun r)))
  | _, _ => None
  end.

Definition action_run (a : Action) : option nat :=
  match a with
  | APrologue i | ACheck i | ALimit i _ | AStep i _ | AFinalize i | AClose i | AWatch i | ACancel i => Some i
  | ABegin | APause | AResume | AStop => None
  end.

Definition l_exec (σ : LState) (a : Action) : option LState :=
  match a with
  | ABegin => Some (do_begin σ)
  | APause => Some (do_pause σ)
  | AResume => Some (do_resume σ)
  | AStop => Some (do_stop σ)
  | _ =>
      match action_run a with
      | None => None
      | Some i => match l_runs σ !! i with Some r => run_action σ i r a | None => None end
      end
  end.

Fixpoint l_trace (σ : LState) (acts : list Action) : option LState :=
  match acts with
  | [] => Some σ
  | a :: acts' => match l_exec σ a with Some σ' => l_trace σ' acts' | None => None end
  end.

(** ** Halting *)

(** The steps a run may still begin without going through the state check again. *)
Definition slack (r : RunState) : nat := match r_pc r with AtLimit => 1 | _ => 0 end.

(** The action is not one that sets a simulation running again. *)
Definition no_restart (σ : LState) (a : Action) : Prop :=
  a ≠ ABegin ∧ (a = AResume → l_state σ ≠ StatePaused).

Lemma complete_not_running st : complete st ≠ StateRunning.
Proof. unfold complete. by case_decide. Qed.

Lemma halt_not_running st : halt st ≠ StateRunning.
Proof. unfold halt. case_decide as H; [done|]. intros ->. apply H. by left. Qed.

Lemma complete_other st : st ≠ StateRunning → complete st = st.
Proof. intros H. unfold complete. by rewrite decide_False. Qed.

(** What one action of run [i] does to the run list. *)
Lemma run_action_runs σ i r a σ' :
  run_action σ i r a = Some σ' →
  ∃ r', l_runs σ' = <[i := r']> (l_runs σ) ∧
    (l_state σ ≠ StateRunning → l_state σ' ≠ StateRunning ∧ r_begun r' + slack r' ≤ r_begun r + slack r).
Proof.
  intros H. unfold run_action in H.
  destruct a as [|j|j|j b|j res|j|j|j|j| | |]; try done.
  - destruct (r_pc r) eqn:Epc; try done. injection H as <-. eexists. split; [done|]. cbn.
    unfold slack. rewrite Epc. cbn. done.
  - destruct (r_pc r) eqn:Epc; try done. unfold slack. rewrite Epc.
    destruct (l_state σ) eqn:Est; try done; injection H as <-; eexists; (split; [done|]); cbn; try done;
      rewrite Est; done.
  - destruct b, (r_pc r) eqn:Epc; try done; injection H as <-; eexists; (split; [done|]); cbn;
      unfold slack; rewrite Epc; cbn; intros Hst; (split; [|lia]); [apply complete_not_running|done].
  - destruct res as [| |e|e], (r_pc r) eqn:Epc; try done.
    + injection H as <-. eexists. split; [done|]. cbn. unfold slack. rewrite Epc. cbn. intros ?. split; [done|lia].
    + injection H as <-. eexists. split; [done|]. cbn. unfold slack. rewrite Epc. cbn. intros ?.
      split; [apply complete_not_running|lia].
    + destruct (r_cancelled r); injection H as <-; eexists; (split; [done|]); cbn; unfold slack;
        rewrite Epc; cbn; intros ?; (split; [|lia]); [apply halt_not_running|done].
    + injection H as <-. eexists. split; [done|]. cbn. unfold slack. rewrite Epc. cbn. intros ?. split; [done|lia].
  - destruct (r_pc r) as [| | | |[e|]| |] eqn:Epc; try done; injection H as <-; eexists; (split; [done|]); cbn;
      unfold slack; rewrite Epc; cbn; intros ?; (split; [|lia]); [done|apply complete_not_running].
  - destruct (r_pc r) eqn:Epc; try done. injection H as <-. eexists. split; [done|]. cbn.
    unfold slack. rewrite Epc. cbn. intros ?. split; [done|lia].
  - destruct (r_cancelled r && r_watching r); [|by destruct (r_pc r)].
    assert (Some (with_state (set_run σ i (mkRun (r_pc r) true false (r_begun r))) (halt (l_state σ))) = Some σ')
      as H' by (by destruct (r_pc r)).
    injection H' as <-. eexists. split; [done|]. cbn. unfold slack. cbn. intros ?.
    split; [apply halt_not_running|lia].
  - assert (Some (set_run σ i (mkRun (r_pc r) true (r_watching r) (r_begun r))) = Some σ') as H'
      by (by destruct (r_pc r)).
    injection H' as <-. eexists. split; [done|]. cbn. unfold slack. cbn. intros ?. split; [done|lia].
Qed.

(** The bound on begun steps, for every run, is kept by any action that does not restart. *)
Definition bounded_by (σ σ' : LState) : Prop :=
  ∀ i r r', l_runs σ !! i = Some r → l_runs σ' !! i = Some r' →
    r_begun r' + slack r' ≤ r_begun r + slack r.

Lemma cancel_run_lookup runs i j r :
  cancel_run runs i !! j = Some r → ∃ r0, runs !! j = Some r0 ∧ r_pc r = r_pc r0 ∧ r_begun r = r_begun r0.
Proof.
  unfold cancel_run. rewrite list_lookup_alter. intros H. destruct (decide (i = j)) as [->|]; [|by exists r].
  destruct (runs !! j) as [x|]; [|done]. injection H as <-. by exists x.
Qed.

Lemma l_exec_halted σ a σ' :
  l_exec σ a = Some σ' → l_state σ ≠ StateRunning → no_restart σ a →
  l_state σ' ≠ StateRunning ∧ bounded_by σ σ' ∧ length (l_runs σ') = length (l_runs σ).
Proof.
  intros H Hst [Hb Hr]. assert (bounded_by σ σ) as Hrefl by (intros i r r' H1 H2; by simplify_eq).
  destruct (action_run a) as [i|] eqn:Ea.
  - assert (∃ r, l_runs σ !! i = Some r ∧ run_action σ i r a = Some σ') as (r & Hi & Hra).
    { unfold l_exec in H. destruct a; try done; rewrite Ea in H;
        destruct (l_runs σ !! i) as [x|]; try done; by exists x. }
    destruct (run_action_runs σ i r a σ' Hra) as (r1 & Hruns & Hk). destruct (Hk Hst) as [Hst' Hle].
    split; [done|]. split; [|by rewrite Hruns, length_insert].
    intros j x x' Hx Hx'. rewrite Hruns in Hx'.
    apply list_lookup_insert_Some in Hx' as [(<- & <- & _)|[_ Hx']]; [|by simplify_eq].
    by assert (x = r) as -> by congruence.
  - destruct a; try done; cbn in H; injection H as <-.
    + unfold do_pause. by rewrite decide_False.
    + unfold do_resume. rewrite decide_False by auto. done.
    + unfold do_stop. case_decide as Hd; [|done]. split; [done|]. cbn. split.
      * intros j x x' Hx Hx'. cbn in Hx'. destruct (l_cancel σ) as [k|]; [|by simplify_eq].
        apply cancel_run_lookup in Hx' as (x0 & Hx0 & Hpc & Hbg). unfold slack. rewrite Hpc, Hbg.
        by assert (x0 = x) as -> by congruence.
      * destruct (l_cancel σ) as [k|]; [|done]. unfold cancel_run. by rewrite length_alter.
Qed.

(** A trace without a restart: no [begin], and no [Resume] that finds the simulation paused. *)
Fixpoint trace_no_restart (σ : LState) (acts : list Action) : Prop :=
  match acts with
  | [] => True
  | a :: acts' => no_restart σ a ∧
      match l_exec σ a with Some σ' => trace_no_restart σ' acts' | None => True end
  end.

Lemma l_trace_halted σ acts σ' :
  l_trace σ acts = Some σ' → l_state σ ≠ StateRunning → trace_no_restart σ acts →
  l_state σ' ≠ StateRunning ∧ bounded_by σ σ' ∧ length (l_runs σ') = length (l_runs σ).
Proof.
  revert σ. induction acts as [|a acts IH]; intros σ H Hst Hnr.
  { injection H as <-. split; [done|]. split; [|done]. intros i r r' H1 H2. by simplify_eq. }
  cbn in H, Hnr. destruct Hnr as [Ha Hnr]. destruct (l_exec σ a) as [σ1|] eqn:E; [|done].
  destruct (l_exec_halted σ a σ1 E Hst Ha) as (Hst1 & Hb1 & Hl1).
  destruct (IH σ1 H Hst1 Hnr) as (Hst' & Hb' & Hl'). split; [done|]. split; [|congruence].
  intros i r r' Hr Hr'. destruct (lookup_lt_is_Some_2 (l_runs σ1) i) as [r1 Hr1].
  { rewrite Hl1. by eapply lookup_lt_Some. }
  specialize (Hb1 i r r1 Hr Hr1). specialize (Hb' i r1 r' Hr1 Hr'). lia.
Qed.

(** C14: [Pause] and [Stop] take effect at the next step boundary: from the moment the
    simulation is not running, and until it is started or resumed, no interleaving of the
    run loops, watchers, cancellations and further calls sets it running again, and every run
    begins at most one more step, and none at all unless it had just passed the state check. *)
Theorem halt_within_one_step σ acts σ' i r r' :
  l_trace σ acts = Some σ' → l_state σ ≠ StateRunning → trace_no_restart σ acts →
  l_runs σ !! i = Some r → l_runs σ' !! i = Some r' →
  l_state σ' ≠ StateRunning ∧
  r_begun r' ≤ r_begun r + (match r_pc r with AtLimit => 1 | _ => 0 end).
Proof.
  intros H Hst Hnr Hr Hr'. destruct (l_trace_halted σ acts σ' H Hst Hnr) as (Hst' & Hb & _).
  split; [done|]. specialize (Hb i r r' Hr Hr'). unfold slack in Hb. lia.
Qed.

(** Paused between the state check and the step. *)
Definition paused_in_loop : LState := mkL StatePaused None (Some 0) [mkRun AtLimit false true 0].

Lemma halt_within_one_step_witness :
  l_trace l0 [ABegin; APrologue 0; ACheck 0; APause] = Some paused_in_loop ∧
  ∃ σ' r', l_trace paused_in_loop [ALimit 0 false; AStep 0 SMore; AStop; ACheck 0] = Some σ' ∧
    l_runs σ' !! 0 = Some r' ∧ (l_state σ' ≠ StateRunning ∧ r_begun r' ≤ 0 + 1).
Proof.
  split; [vm_compute; reflexivity|]. eexists _, _. split; [vm_compute; reflexivity|].
  split; [reflexivity|].
  apply (halt_within_one_step paused_in_loop [ALimit 0 false; AStep 0 SMore; AStop; ACheck 0] _ 0
    (mkRun AtLimit false true 0) _).
  - vm_compute. reflexivity.
  - done.
  - cbn. repeat split; done.
  - reflexivity.
  - reflexivity.
Defined.

(** ** Termination after a stop *)

(** Actions of its own a run needs at most to close once the simulation has stopped. *)
Definition rank (r : RunState) : nat :=
  match r_pc r with
  | AtStart => 6
  | AtLimit => 5
  | InStep => 4
  | AtTop => 3
  | Leaving _ => 2
  | Finalized => 1
  | Closed => 0
  end.

(** The run's own actions (not the watcher's, not a cancellation from outside). *)
Definition own (i : nat) (a : Action) : bool :=
  match a with
  | APrologue j | ACheck j | ALimit j _ | AStep j _ | AFinalize j | AClose j => bool_decide (i = j)
  | _ => false
  end.

Definition stopped (st : SimState) : Prop := st ≠ StateRunning ∧ st ≠ StatePaused.

Lemma stopped_progress σ i r :
  stopped (l_state σ) → l_runs σ !! i = Some r → r_pc r ≠ Closed →
  ∃ a σ', own i a = true ∧ l_exec σ a = Some σ'.
Proof.
  intros [Hs1 Hs2] Hr Hpc. destruct (r_pc r) as [| | | |[e|]| |] eqn:E; [| | | | | | |done].
  - exists (APrologue i). eexists. cbn. rewrite bool_decide_eq_true_2, Hr by done. unfold run_action. by rewrite E.
  - exists (ACheck i). cbn. rewrite bool_decide_eq_true_2, Hr by done. unfold run_action. rewrite E.
    destruct (l_state σ); try done; by eexists.
  - exists (ALimit i true). eexists. cbn. rewrite bool_decide_eq_true_2, Hr by done. unfold run_action. by rewrite E.
  - exists (AStep i SMore). eexists. cbn. rewrite bool_decide_eq_true_2, Hr by done. unfold run_action. by rewrite E.
  - exists (AFinalize i). eexists. cbn. rewrite bool_decide_eq_true_2, Hr by done. unfold run_action. by rewrite E.
  - exists (AFinalize i). eexists. cbn. rewrite bool_decide_eq_true_2, Hr by done. unfold run_action. by rewrite E.
  - exists (AClose i). eexists. cbn. rewrite bool_decide_eq_true_2, Hr by done. unfold run_action. by rewrite E.
Qed.

Lemma stopped_decreases σ i r a σ' r' :
  stopped (l_state σ) → l_runs σ !! i = Some r → own i a = true → l_exec σ a = Some σ' →
  l_runs σ' !! i = Some r' → rank r' < rank r.
Proof.
  intros [Hs1 Hs2] Hr Hown H Hr'. pose proof (lookup_lt_Some _ _ _ Hr) as Hlt.
  destruct a as [|j|j|j b|j res|j|j|j|j| | |]; try done; cbn in Hown;
    apply bool_decide_eq_true_1 in Hown as <-; cbn in H; rewrite Hr in H; unfold run_action in H; unfold rank.
  - destruct (r_pc r); try done. injection H as <-. cbn in Hr'. rewrite list_lookup_insert_eq in Hr' by done.
    injection Hr' as <-. cbn. lia.
  - destruct (r_pc r); try done. destruct (l_state σ); try done; injection H as <-; cbn in Hr';
      rewrite list_lookup_insert_eq in Hr' by done; injection Hr' as <-; cbn; lia.
  - destruct b, (r_pc r); try done; injection H as <-; cbn in Hr';
      rewrite list_lookup_insert_eq in Hr' by done; injection Hr' as <-; cbn; lia.
  - destruct res, (r_pc r); try done; try destruct (r_cancelled r); injection H as <-; cbn in Hr';
      rewrite list_lookup_insert_eq in Hr' by done; injection Hr' as <-; cbn; lia.
  - destruct (r_pc r) as [| | | |[e|]| |]; try done; injection H as <-; cbn in Hr';
      rewrite list_lookup_insert_eq in Hr' by done; injection Hr' as <-; cbn; lia.
  - destruct (r_pc r); try done; injection H as <-; cbn in Hr';
      rewrite list_lookup_insert_eq in Hr' by done; injection Hr' as <-; cbn; lia.
Qed.



(** ** Overlapping runs *)

(** [begin] refuses only a running simulation, and the watcher of a finished run acts on
    whatever run is current.  (1) A second [Start] on a paused simulation whose step is still
    in flight leads to two steps of the same world in flight at once.  (2) The context of a
    completed run is cancelled when it ends; its watcher, if scheduled late, stops the next
    run, which then ends stopped without a step although nobody called [Stop]. *)
Theorem overlapping_runs :
  (∃ σ r0 r1,
     l_trace l0 [ABegin; APrologue 0; ACheck 0; ALimit 0 false; APause;
                 ABegin; APrologue 1; ACheck 1; ALimit 1 false] = Some σ ∧
     l_runs σ = [r0; r1] ∧ r_pc r0 = InStep ∧ r_pc r1 = InStep) ∧
  (∃ σ r0 r1,
     l_trace l0 [ABegin; APrologue 0; ACheck 0; ALimit 0 true; AFinalize 0; AClose 0;
                 ABegin; APrologue 1; AWatch 0; ACheck 1; AFinalize 1; AClose 1] = Some σ ∧
     l_runs σ = [r0; r1] ∧ l_state σ = StateStopped ∧ r_pc r1 = Closed ∧ r_begun r1 = 0).
Proof. split; eexists _, _, _; (split; [vm_compute; reflexivity|]); done. Qed.

(** A run that reaches its limit (or its last step) while [Pause] is called leaves its loop with
    the state still paused: [done] is closed, so [Wait] returns on a paused simulation, and the
    watcher of the run then turns the completed run into a stopped one. *)
Theorem paused_run_closes :
  ∃ σ r, l_trace l0 [ABegin; APrologue 0; ACheck 0; APause; ALimit 0 true; AFinalize 0; AClose 0] = Some σ ∧
    l_runs σ = [r] ∧ r_pc r = Closed ∧ l_state σ = StatePaused ∧
    ∃ σ', l_exec σ (AWatch 0) = Some σ' ∧ l_state σ' = StateStopped.
Proof. do 2 eexists. split; [reflexivity|]. split; [reflexivity|]. repeat split. by eexists. Qed.

(** ** Waiting *)

(** A call of [Wait]: before it reads [s.done], blocked on the channel of the run that was the
    latest then, or returned. *)
Inductive Waiter := WaitCalled | WaitingFor (i : nat) | WaitReturned (err : option error).

(** A critical section of [Wait]; [None] while the channel is open. *)
(* pkg/simulation/runtime.go:201-214 Simulation.Wait *)
Definition Wait (σ : LState) (w : Waiter) : option Waiter :=
  match w with
  | WaitCalled => Some (match length (l_runs σ) with O => WaitReturned None | S i => WaitingFor i end)
  | WaitingFor i =>
      match l_runs σ !! i with
      | Some (mkRun Closed _ _ _) => Some (WaitReturned (l_err σ))
      | _ => None
      end
  | WaitReturned _ => None
  end.

(** Run [i] is the only one not closed, and it is failing with [e]. *)
Definition failing (i : nat) (e : error) (σ : LState) : Prop :=
  (∀ j r, l_runs σ !! j = Some r → j ≠ i → r_pc r = Closed) ∧
  ∃ r, l_runs σ !! i = Some r ∧
    (r_pc r = Leaving (Some e) ∨ (r_pc r = Finalized ∨ r_pc r = Closed) ∧ l_err σ = Some e).

(** What an action of a run that has left its loop does. *)
Lemma left_run_action σ j r a σ' :
  run_action σ j r a = Some σ' →
  match r_pc r with
  | Leaving (Some e) => ∃ r', l_runs σ' = <[j := r']> (l_runs σ) ∧
      (r_pc r' = Leaving (Some e) ∧ l_err σ' = l_err σ ∨ r_pc r' = Finalized ∧ l_err σ' = Some e)
  | Finalized => ∃ r', l_runs σ' = <[j := r']> (l_runs σ) ∧ (r_pc r' = Finalized ∨ r_pc r' = Closed) ∧ l_err σ' = l_err σ
  | Closed => ∃ r', l_runs σ' = <[j := r']> (l_runs σ) ∧ r_pc r' = Closed ∧ l_err σ' = l_err σ
  | _ => True
  end.
Proof.
  unfold run_action. destruct (r_pc r) as [| | | |[e|]| |] eqn:Epc; try done;
    destruct a as [|?|?|? []|? []|?|?|?|?| | |]; try done; try (destruct (r_cancelled r && r_watching r); [|done]);
    intros [= <-]; eexists; (split; [done|]); cbn; auto.
Qed.

Lemma failing_exec i e σ a σ' : failing i e σ → a ≠ ABegin → l_exec σ a = Some σ' → failing i e σ'.
Proof.
  intros [Hothers (r & Hr & Hpc)] Ha H. pose proof (lookup_lt_Some _ _ _ Hr) as Hlt. destruct (action_run a) as [j|] eqn:Ea.
  - assert (∃ x, l_runs σ !! j = Some x ∧ run_action σ j x a = Some σ') as (x & Hx & Hra).
    { unfold l_exec in H. destruct a; try done; rewrite Ea in H; destruct (l_runs σ !! j) as [x|]; try done; by exists x. }
    apply left_run_action in Hra. destruct (decide (j = i)) as [->|Hne].
    + assert (x = r) as -> by congruence.
      assert (∃ r', l_runs σ' = <[i := r']> (l_runs σ) ∧
        (r_pc r' = Leaving (Some e) ∨ (r_pc r' = Finalized ∨ r_pc r' = Closed) ∧ l_err σ' = Some e)) as (r' & Hruns & Hpc').
      { destruct Hpc as [E|[[E|E] He]]; rewrite E in Hra; destruct Hra as (r' & ? & ?); exists r'; rewrite <- ?He; intuition congruence. }
      split.
      * intros k y Hk Hki. rewrite Hruns, list_lookup_insert_ne in Hk by done. by eapply Hothers.
      * exists r'. split; [|done]. rewrite Hruns. by apply list_lookup_insert_eq.
    + rewrite (Hothers j x Hx Hne) in Hra. destruct Hra as (x' & Hruns & Hx' & He). split.
      * intros k y Hk Hki. rewrite Hruns in Hk. apply list_lookup_insert_Some in Hk as [(<- & <- & _)|[_ Hk]]; [done|by eapply Hothers].
      * exists r. rewrite Hruns, list_lookup_insert_ne, He by done. done.
  - assert (l_err σ' = l_err σ ∧ ∀ k y, l_runs σ' !! k = Some y → ∃ y0, l_runs σ !! k = Some y0 ∧ r_pc y = r_pc y0) as [He Hruns].
    { destruct a; try done; cbn in H; injection H as <-; unfold do_pause, do_resume, do_stop; case_decide; cbn; (split; [done|]); intros k y Hy;
        try by exists y. destruct (l_cancel σ); [|by exists y]. apply cancel_run_lookup in Hy as (y0 & ? & ? & _). by exists y0. }
    assert (length (l_runs σ') = length (l_runs σ)) as Hlen.
    { destruct a; try done; cbn in H; injection H as <-; unfold do_pause, do_resume, do_stop; case_decide; try done. cbn.
      destruct (l_cancel σ); [|done]. unfold cancel_run. by rewrite length_alter. }
    split.
    + intros k y Hk Hki. destruct (Hruns k y Hk) as (y0 & Hy0 & ->). by eapply Hothers.
    + destruct (lookup_lt_is_Some_2 (l_runs σ') i) as [r' Hr']; [lia|]. exists r'. split; [done|]. rewrite He.
      destruct (Hruns i r' Hr') as (y0 & Hy0 & ->). by assert (y0 = r) as -> by congruence.
Qed.

(** [Wait] reports the failure of the run it waits for, whatever calls, cancellations and watchers
    come in between, as long as no other run is in progress or begun. *)
Lemma Wait_reports_failure σ acts σ' i e w :
  failing i e σ → ABegin ∉ acts → l_trace σ acts = Some σ' → Wait σ' (WaitingFor i) = Some w → w = WaitReturned (Some e).
Proof.
  intros Hf Hacts Ht Hw. assert (failing i e σ') as [_ (r & Hr & Hpc)].
  { clear Hw. revert σ Hf Ht. induction acts as [|a acts IH]; intros σ Hf Ht; [by injection Ht as <-|]. cbn in Ht.
    apply not_elem_of_cons in Hacts as [Ha Hacts]. destruct (l_exec σ a) as [σ1|] eqn:E; [|done].
    apply (IH Hacts σ1); [|done]. by eapply failing_exec. }
  cbn in Hw. rewrite Hr in Hw. destruct r as [pc c wt b]. cbn in Hpc. destruct pc; try done. injection Hw as <-.
  destruct Hpc as [?|[_ ->]]; done.
Qed.

(** It is documented to return the error of the run it waited for, but it reads the field after
    the channel has been closed: a [Start] in between has reset it, and the failure is lost. *)
Theorem Wait_loses_error e :
  ∃ σ σ', l_trace l0 [ABegin; APrologue 0; ACheck 0; ALimit 0 false] = Some σ ∧ Wait σ WaitCalled = Some (WaitingFor 0) ∧
    l_trace σ [AStep 0 (SErr e); AFinalize 0; AClose 0; ABegin] = Some σ' ∧ Wait σ' (WaitingFor 0) = Some (WaitReturned None).
Proof. do 2 eexists. split; [reflexivity|]. split; [reflexivity|]. split; reflexivity. Qed.
