(* ===== verification/Registry.v ===== *)
(** * The model registry: [internal/registry/registry.go]

    Model entries keyed by identifier and version, with the latest version of every
    identifier tracked by numeric comparison of the version components. *)

From Stdlib Require Import Ascii.
From S2P Require Import Prelude GoValues GoStrings Heap World.
Local Open Scope Z_scope.

Section registry.
Context {Factory : Type}.

(* internal/persistence/store.go:17-28 ModelInfo *)
Record ModelInfo := mkInfo {
  mi_ID : string;
  mi_Name : string;
  mi_Version : string;
  mi_Description : string;
  mi_Mode : string;
  mi_ConfigSchema : rawJSON;
  mi_RuntimeCompat : string;
  mi_Author : string;
  mi_CreatedAt : Z;
}.

(* internal/registry/registry.go:19-23 Entry *)
Record Entry := mkEntry { en_Info : ModelInfo; en_Factory : Factory }.

(* internal/registry/registry.go:25-30 Registry *)
Record Registry := mkReg { reg_entries : gmap string Entry; reg_latest : gmap string string }.

(* internal/registry/registry.go:32-38 New *)
Definition NewRegistry : Registry := mkReg ∅ ∅.

Definition is_suffix_mark (c : ascii) : bool := Ascii.eqb c "-" || Ascii.eqb c "+".

(* internal/registry/registry.go:133-146 componentInt *)
Definition componentInt (parts : list string) (i : nat) : Z :=
  match parts !! i with
  | None => 0
  | Some s => match Atoi (cut_any is_suffix_mark s) with Some v => v | None => 0 end
  end.

(** The loop of [compareVersion] from component [i] on. *)
Fixpoint compare_from (pa pb : list string) (i n : nat) : Z :=
  match n with
  | O => 0
  | S n' =>
      let x := componentInt pa i in
      let y := componentInt pb i in
      if x <? y then -1 else if y <? x then 1 else compare_from pa pb (S i) n'
  end.

(* internal/registry/registry.go:110-131 compareVersion *)
Definition compareVersion (a b : string) : Z :=
  let pa := split_on "." a in
  let pb := split_on "." b in
  let n := if Nat.ltb (length pa) (length pb) then length pb else length pa in
  compare_from pa pb 0 n.

Definition reg_key (id version : string) : string := id +:+ "@" +:+ version.

(* internal/registry/registry.go:51-62 Registry.RegisterInfo *)
Definition RegisterInfo (r : Registry) (info : ModelInfo) (factory : Factory) : Registry :=
  let key := reg_key (mi_ID info) (mi_Version info) in
  let entries := <[key := mkEntry info factory]> (reg_entries r) in
  let newer := match reg_latest r !! mi_ID info with
               | None => true
               | Some cur => 0 <=? compareVersion (mi_Version info) cur
               end in
  mkReg entries (if newer then <[mi_ID info := mi_Version info]> (reg_latest r) else reg_latest r).

(* internal/registry/registry.go:40-49 Registry.Register *)
Definition Register (r : Registry) (meta : ModelMetadata) (factory : Factory) : Registry :=
  RegisterInfo r (mkInfo (mm_ID meta) (mm_Name meta) (mm_Version meta) (mm_Description meta)
                         (Mode__String (mm_Mode meta)) "" "" "" 0) factory.

(* internal/registry/registry.go:64-73 Registry.Get *)
Definition Registry__Get (r : Registry) (id : string) : option Entry :=
  match reg_latest r !! id with
  | None => None
  | Some version => reg_entries r !! reg_key id version
  end.

(* internal/registry/registry.go:75-81 Registry.GetVersion *)
Definition GetVersion (r : Registry) (id version : string) : option Entry :=
  reg_entries r !! reg_key id version.

(** Every model has an ASCII identifier and version. *)
Definition ascii_models (r : Registry) : Prop :=
  ∀ k e, reg_entries r !! k = Some e → ascii_text (mi_ID (en_Info e)) ∧ ascii_text (mi_Version (en_Info e)).

Definition info_lt (a b : ModelInfo) : bool :=
  if decide (mi_ID a ≠ mi_ID b) then string_lt (mi_ID a) (mi_ID b)
  else string_lt (mi_Version a) (mi_Version b).

(* internal/registry/registry.go:83-98 Registry.List *)
Definition List_ (r : Registry) : list ModelInfo :=
  sort_by info_lt ((λ ke, en_Info ke.2) <$> map_to_list (reg_entries r)).

(** ** Version comparison *)

Implicit Types (a b c : string) (pa pb pc : list string).

Lemma componentInt_past pa i : (length pa ≤ i)%nat → componentInt pa i = 0.
Proof. intros H. unfold componentInt. by rewrite lookup_ge_None_2. Qed.

(** Comparing components beyond both lists changes nothing. *)
Lemma compare_from_pad pa pb i n m :
  (length pa ≤ i + n)%nat → (length pb ≤ i + n)%nat →
  compare_from pa pb i (n + m) = compare_from pa pb i n.
Proof.
  revert i. induction n as [|n IH]; intros i Ha Hb; cbn.
  - assert (∀ j k, (i ≤ j)%nat → compare_from pa pb j k = 0) as H0; [|by apply H0].
    intros j k. revert j. induction k as [|k IHk]; intros j Hj; cbn; [done|].
    rewrite !componentInt_past by lia. cbn. apply IHk. lia.
  - rewrite IH by lia. done.
Qed.

(** The comparison as one over any common length. *)
Lemma compareVersion_at a b n :
  (length (split_on "." a) ≤ n)%nat → (length (split_on "." b) ≤ n)%nat →
  compareVersion a b = compare_from (split_on "." a) (split_on "." b) 0 n.
Proof.
  intros Ha Hb. unfold compareVersion. set (k := if Nat.ltb _ _ then _ else _).
  assert (length (split_on "." a) ≤ k ∧ length (split_on "." b) ≤ k ∧ k ≤ n)%nat as (H1 & H2 & H3).
  { unfold k. destruct (Nat.ltb_spec (length (split_on "." a)) (length (split_on "." b))); lia. }
  replace n with (k + (n - k))%nat by lia. by rewrite compare_from_pad.
Qed.

Lemma compare_from_sign pa pb i n :
  compare_from pa pb i n = -1 ∨ compare_from pa pb i n = 0 ∨ compare_from pa pb i n = 1.
Proof.
  revert i. induction n as [|n IH]; intros i; cbn; [auto|]. case_tests; auto.
Qed.

Lemma compare_from_anti pa pb i n : compare_from pb pa i n = - compare_from pa pb i n.
Proof.
  revert i. induction n as [|n IH]; intros i; cbn; [done|].
  destruct (Z.ltb_spec (componentInt pa i) (componentInt pb i)),
    (Z.ltb_spec (componentInt pb i) (componentInt pa i)); try lia; done || apply IH.
Qed.

Lemma compare_from_trans pa pb pc i n :
  compare_from pa pb i n ≤ 0 → compare_from pb pc i n ≤ 0 → compare_from pa pc i n ≤ 0.
Proof.
  revert i. induction n as [|n IH]; intros i; cbn; [done|].
  destruct (Z.ltb_spec (componentInt pa i) (componentInt pb i)),
    (Z.ltb_spec (componentInt pb i) (componentInt pa i)),
    (Z.ltb_spec (componentInt pb i) (componentInt pc i)),
    (Z.ltb_spec (componentInt pc i) (componentInt pb i)),
    (Z.ltb_spec (componentInt pa i) (componentInt pc i)),
    (Z.ltb_spec (componentInt pc i) (componentInt pa i)); try lia. apply IH.
Qed.

Lemma compareVersion_anti a b : compareVersion b a = - compareVersion a b.
Proof.
  set (n := (length (split_on "." a) + length (split_on "." b))%nat).
  rewrite (compareVersion_at b a n), (compareVersion_at a b n) by lia. apply compare_from_anti.
Qed.

Lemma compareVersion_trans a b c :
  compareVersion a b ≤ 0 → compareVersion b c ≤ 0 → compareVersion a c ≤ 0.
Proof.
  set (n := (length (split_on "." a) + length (split_on "." b) + length (split_on "." c))%nat).
  rewrite (compareVersion_at a b n), (compareVersion_at b c n), (compareVersion_at a c n) by lia.
  apply compare_from_trans.
Qed.

Lemma compareVersion_refl a : compareVersion a a = 0.
Proof. pose proof (compareVersion_anti a a). lia. Qed.

(** ** The registry's invariant *)

(** A string without the separator of the key. *)
Fixpoint no_at (s : string) : bool :=
  match s with EmptyString => true | String c s' => negb (Ascii.eqb c "@") && no_at s' end.

Lemma reg_key_inj id1 v1 id2 v2 :
  no_at id1 → no_at id2 → reg_key id1 v1 = reg_key id2 v2 → id1 = id2 ∧ v1 = v2.
Proof.
  unfold reg_key. revert id2. induction id1 as [|c1 s1 IH]; intros [|c2 s2]; cbn; intros H1 H2 E.
  - split; [done|]. by injection E.
  - injection E as <- _. cbn in H2. done.
  - injection E as -> _. cbn in H1. done.
  - injection E as -> E. apply andb_prop_elim in H1 as [_ H1]. apply andb_prop_elim in H2 as [_ H2].
    destruct (IH s2 H1 H2 E) as [-> ->]. done.
Qed.

(** The registered (identifier, version) pairs, as a list of registrations in order. *)
Definition reg_run (ops : list (ModelInfo * Factory)) : Registry :=
  foldl (λ r op, RegisterInfo r op.1 op.2) NewRegistry ops.

(** The last registration of a version. *)
Definition last_reg (ops : list (ModelInfo * Factory)) (id v : string) : option Entry :=
  foldl (λ acc op, if decide (mi_ID op.1 = id ∧ mi_Version op.1 = v)
                   then Some (mkEntry op.1 op.2) else acc) None ops.

Lemma GetVersion_last ops id v :
  Forall (λ op, no_at (mi_ID op.1)) ops → no_at id →
  GetVersion (reg_run ops) id v = last_reg ops id v.
Proof.
  unfold GetVersion, reg_run, last_reg. induction ops as [|op ops IH] using rev_ind; intros Hops Hid; [done|].
  apply Forall_app in Hops as [Hops [Hop _]%Forall_cons].
  rewrite !foldl_app. cbn. rewrite <- IH by done.
  destruct (decide (mi_ID op.1 = id ∧ mi_Version op.1 = v)) as [[<- <-]|Hne].
  - by rewrite lookup_insert_eq.
  - rewrite lookup_insert_ne; [done|]. intros E. apply Hne. by apply reg_key_inj in E.
Qed.

(** [latest] is a registered version that no registered version exceeds. *)
Lemma latest_max ops id :
  match reg_latest (reg_run ops) !! id with
  | None => ∀ op, op ∈ ops → mi_ID op.1 ≠ id
  | Some v => (∃ op, op ∈ ops ∧ mi_ID op.1 = id ∧ mi_Version op.1 = v) ∧
      ∀ op, op ∈ ops → mi_ID op.1 = id → compareVersion (mi_Version op.1) v ≤ 0
  end.
Proof.
  unfold reg_run. induction ops as [|op ops IH] using rev_ind; [cbn; set_solver|].
  rewrite foldl_app. cbn [foldl]. set (r := foldl _ _ ops) in *. unfold RegisterInfo. cbn [reg_latest fst snd].
  destruct (decide (mi_ID op.1 = id)) as [Hid|Hne].
  - rewrite Hid. destruct (reg_latest r !! id) as [v|] eqn:El.
    + destruct IH as [(op0 & H0 & Hid0 & Hv0) Hmax].
      destruct (Z.leb_spec 0 (compareVersion (mi_Version op.1) v)) as [Hge|Hlt].
      * rewrite lookup_insert_eq. split; [exists op; set_solver|].
        intros op' [Hin| ->%list_elem_of_singleton]%elem_of_app Hid'.
        -- eapply compareVersion_trans; [by apply Hmax|]. rewrite compareVersion_anti. lia.
        -- rewrite compareVersion_refl. done.
      * rewrite El. split; [exists op0; set_solver|].
        intros op' [Hin| ->%list_elem_of_singleton]%elem_of_app Hid'; [by apply Hmax|lia].
    + rewrite lookup_insert_eq. split; [exists op; set_solver|].
      intros op' [Hin| ->%list_elem_of_singleton]%elem_of_app Hid'.
      * by destruct (IH op' Hin).
      * rewrite compareVersion_refl. done.
  - assert (∀ m : gmap string string, (if match reg_latest r !! mi_ID op.1 with None => true
        | Some cur => 0 <=? compareVersion (mi_Version op.1) cur end
        then <[mi_ID op.1 := mi_Version op.1]> m else m) !! id = m !! id) as Hsame.
    { intros m. destruct (match reg_latest r !! mi_ID op.1 with None => _ | Some _ => _ end); [|done].
      by rewrite lookup_insert_ne. }
    rewrite Hsame. destruct (reg_latest r !! id) as [v|].
    + destruct IH as [(op0 & H0 & H1 & H2) Hmax]. split; [exists op0; set_solver|].
      intros op' [Hin| ->%list_elem_of_singleton]%elem_of_app Hid'; [by apply Hmax|done].
    + intros op' [Hin| ->%list_elem_of_singleton]%elem_of_app; [by apply IH|done].
Qed.

Lemma last_reg_Some ops id v e :
  last_reg ops id v = Some e → mi_ID (en_Info e) = id ∧ mi_Version (en_Info e) = v.
Proof.
  unfold last_reg. induction ops as [|op ops IH] using rev_ind; [done|].
  rewrite foldl_app. cbn. case_decide as H; [|apply IH]. intros [= <-]. done.
Qed.

Lemma last_reg_exists ops id v op :
  op ∈ ops → mi_ID op.1 = id → mi_Version op.1 = v → is_Some (last_reg ops id v).
Proof.
  unfold last_reg. induction ops as [|op' ops IH] using rev_ind; [set_solver|].
  rewrite foldl_app. cbn. intros [Hin| ->%list_elem_of_singleton]%elem_of_app H1 H2.
  - case_decide; [by eexists|]. by apply IH.
  - rewrite decide_True by done. by eexists.
Qed.

(** After any sequence of registrations (identifiers without '@'), [GetVersion] returns
    the last registration of exactly that identifier and version, and [Get] returns, for an
    identifier that was registered, the last registration of a version that no registered
    version of it exceeds in the numeric order of dot-separated components. *)
Theorem Registry_latest (ops : list (ModelInfo * Factory)) id v :
  Forall (λ op, no_at (mi_ID op.1)) ops → no_at id →
  GetVersion (reg_run ops) id v = last_reg ops id v ∧
  match Registry__Get (reg_run ops) id with
  | None => ∀ op, op ∈ ops → mi_ID op.1 ≠ id
  | Some e => mi_ID (en_Info e) = id ∧ last_reg ops id (mi_Version (en_Info e)) = Some e ∧
      ∀ op, op ∈ ops → mi_ID op.1 = id → compareVersion (mi_Version op.1) (mi_Version (en_Info e)) ≤ 0
  end.
Proof.
  intros Hops Hid. split; [by apply GetVersion_last|].
  unfold Registry__Get. pose proof (latest_max ops id) as Hl.
  destruct (reg_latest (reg_run ops) !! id) as [vl|]; [|done].
  destruct Hl as [(op & Hin & H1 & H2) Hmax].
  change (reg_entries (reg_run ops) !! reg_key id vl) with (GetVersion (reg_run ops) id vl).
  rewrite GetVersion_last by done. destruct (last_reg_exists ops id vl op Hin H1 H2) as [e He].
  rewrite He. destruct (last_reg_Some _ _ _ _ He) as [E1 E2]. rewrite E2. done.
Qed.
End registry.
Arguments Entry Factory : clear implicits.
Arguments Registry Factory : clear implicits.

Definition toy_info (id v : string) : ModelInfo := mkInfo id id v "" "tick" "" "" "" 0.

Lemma Registry_latest_witness :
  let ops := [(toy_info "m" "1.9.0", tt); (toy_info "m" "1.10.0", tt); (toy_info "m" "1.2", tt)] in
  GetVersion (reg_run ops) "m" "1.2" = last_reg ops "m" "1.2" ∧
  match Registry__Get (reg_run ops) "m" with
  | None => ∀ op, op ∈ ops → mi_ID op.1 ≠ "m"%string
  | Some e => mi_ID (en_Info e) = "m"%string ∧ last_reg ops "m" (mi_Version (en_Info e)) = Some e ∧
      ∀ op, op ∈ ops → mi_ID op.1 = "m"%string →
        compareVersion (mi_Version op.1) (mi_Version (en_Info e)) ≤ 0
  end.
Proof.
  apply (Registry_latest [(toy_info "m" "1.9.0", tt); (toy_info "m" "1.10.0", tt); (toy_info "m" "1.2", tt)] "m" "1.2");
    [repeat constructor|done].
Defined.

(** The entries are keyed by identifier and version joined with '@': an identifier that
    contains '@' replaces another model's entry. *)
Theorem registry_key_collision :
  let r := RegisterInfo (RegisterInfo NewRegistry (toy_info "a" "1@2") 1) (toy_info "a@1" "2") 2 in
  GetVersion r "a" "1@2" = Some (mkEntry (toy_info "a@1" "2") 2).
Proof. reflexivity. Qed.
