(* ===== verification/JobQueue.v ===== *)
(** * The job queue: [internal/queue/queue.go], [internal/broker/memory.go], [broker.go]

    Jobs are published to a broker queue, delivered to a handler, retried with exponential
    backoff and finally dead-lettered; an optional Redis claim makes delivery idempotent.
    [Broker] is the interface the queue is written against, [Memory] the in-process broker.
    The function the queue passes to a broker is [job_delivery]; it is written against what it uses
    of a broker, publishing ([Publisher]) and the acknowledgement of a delivery ([Delivery]), so that
    it runs on the in-memory broker and on RabbitMQ.  Redis and the JSON encoding of jobs are
    parameters, with their documented behaviour as the classes [CoordLaws] and [JobCodecLaws]. *)

From Stdlib Require Import Ascii.
From S2P Require Import Prelude GoValues GoStrings.
Local Open Scope Z_scope.

(** ** Brokers *)

(** Publishing; a publish that cannot complete now (a full channel) is [None]. *)
(* internal/broker/broker.go:23-26 Broker *)
Class Publisher (B : Type) := br_publish : B → string → rawJSON → option (B * option error).

(** A delivery [D] of a broker in state [B]: its body and its acknowledgement. *)
(* internal/broker/broker.go:9-16 Delivery *)
Class Delivery (B D : Type) := {
  dl_body : D → rawJSON;
  dl_ack : B → D → B * D * option error;
}.

(** The contract of a first-in, first-out broker whose messages are removed when they are received:
    [br_queue] is what is waiting in a queue, [br_cap] how much a queue holds; a broker that is up
    accepts messages for a queue with room. *)
(* internal/broker/broker.go:23-32 Broker *)
Class Broker (B : Type) `{Publisher B} := {
  br_queue : B → string → list rawJSON;
  br_up : B → Prop;
  br_cap : nat;
  br_take : B → string → option (rawJSON * B);
  br_publish_ok b q body b' :
    br_publish b q body = Some (b', None) →
    br_queue b' q = br_queue b q ++ [body] ∧ ∀ q', q' ≠ q → br_queue b' q' = br_queue b q';
  br_take_spec b q :
    match br_take b q with
    | Some (body, b') => br_queue b q = body :: br_queue b' q ∧
        (∀ q', q' ≠ q → br_queue b' q' = br_queue b q') ∧ (br_up b → br_up b')
    | None => br_queue b q = []
    end;
  br_accepts b q body :
    br_up b → (length (br_queue b q) < br_cap)%nat →
    ∃ b', br_publish b q body = Some (b', None) ∧ br_up b';
  br_cap_pos : (0 < br_cap)%nat;
}.

(** The messages waiting in the channel of each queue; [mem_done] are the queues whose [done]
    channel is closed. *)
(* internal/broker/memory.go:8-20 Memory *)
Record Memory := mkMem { mem_queues : gmap string (list rawJSON); mem_closed : bool; mem_done : gset string }.

(* internal/broker/memory.go:22-25 NewMemory *)
Definition NewMemory : Memory := mkMem ∅ false ∅.

Definition mem_capacity : nat := 1024.

(* internal/broker/memory.go:27-36 Memory.getQueue *)
Definition getQueue (m : Memory) (name : string) : Memory :=
  match mem_queues m !! name with
  | Some _ => m
  | None => mkMem (<[name := []]> (mem_queues m)) (mem_closed m) (mem_done m)
  end.

(** The messages waiting in the channel of a queue, none before it is created. *)
Definition mem_get (m : Memory) (name : string) : list rawJSON := default [] (mem_queues m !! name).

(* internal/broker/memory.go:38-56 Memory.Publish *)
Definition Memory__Publish (m : Memory) (queue : string) (body : rawJSON) : option (result Memory) :=
  if mem_closed m then Some (Err ErrClosed)
  else
    let q := mem_get m queue in
    if Nat.ltb (length q) mem_capacity then
      Some (Ok (mkMem (<[queue := q ++ [body]]> (mem_queues m)) (mem_closed m) (mem_done m)))
    else None.

(** The receive of [Consume]: the oldest message, if any. *)
Definition Memory__take (m : Memory) (queue : string) : option (rawJSON * Memory) :=
  match mem_get m queue with
  | [] => None
  | body :: q => Some (body, mkMem (<[queue := q]> (mem_queues m)) (mem_closed m) (mem_done m))
  end.

(* internal/broker/memory.go:93-105 Memory.Close *)
Definition Memory__Close (m : Memory) : Memory :=
  if mem_closed m then m else mkMem (mem_queues m) true (dom (mem_queues m)).

#[global] Instance Memory_Publisher : Publisher Memory := λ m queue body,
  match Memory__Publish m queue body with
  | None => None
  | Some (Ok m) => Some (m, None)
  | Some (Err e) => Some (m, Some e)
  end.

#[global] Program Instance Memory_Broker : Broker Memory := {
  br_queue := mem_get;
  br_up m := mem_closed m = false;
  br_cap := mem_capacity;
  br_take := Memory__take;
}.
Next Obligation.
  intros m q body m' H. unfold br_publish, Memory_Publisher, Memory__Publish in H. destruct (mem_closed m); [done|].
  destruct (Nat.ltb (length (mem_get m q)) mem_capacity); [|done]. injection H as <-.
  unfold mem_get. cbn. split; [by rewrite lookup_insert_eq|].
  intros q' Hne. by rewrite lookup_insert_ne.
Qed.
Next Obligation.
  intros m q. unfold Memory__take. destruct (mem_get m q) as [|body l] eqn:E; [done|].
  unfold mem_get. cbn. rewrite lookup_insert_eq. split; [done|]. split; [|done].
  intros q' Hne. by rewrite lookup_insert_ne.
Qed.
Next Obligation.
  intros m q body Hup Hlen. unfold br_publish, Memory_Publisher, Memory__Publish. rewrite Hup.
  apply Nat.ltb_lt in Hlen. rewrite Hlen. by eexists.
Qed.
Next Obligation. unfold mem_capacity. lia. Qed.

(** ** Jobs *)

(* internal/queue/queue.go:17-22 QueueJobs *)
Definition QueueJobs : string := "simulator.jobs".
Definition QueueResults : string := "simulator.results".
Definition QueueDLQ : string := "simulator.jobs.dlq".

(* internal/queue/queue.go:24-34 Job *)
Record Job := mkJob {
  j_ID : string;
  j_SimulationID : string;
  j_Type : string;
  j_Payload : rawJSON;
  j_Attempt : Z;
  j_MaxAttempts : Z;
  j_LastError : string;
  j_CreatedAt : Z;
}.

#[global] Instance Job_eq_dec : EqDecision Job.
Proof. solve_decision. Defined.

Definition with_max (j : Job) (m : Z) : Job :=
  mkJob (j_ID j) (j_SimulationID j) (j_Type j) (j_Payload j) (j_Attempt j) m (j_LastError j) (j_CreatedAt j).
Definition with_attempt (j : Job) (a : Z) : Job :=
  mkJob (j_ID j) (j_SimulationID j) (j_Type j) (j_Payload j) a (j_MaxAttempts j) (j_LastError j) (j_CreatedAt j).
Definition with_error (j : Job) (e : string) : Job :=
  mkJob (j_ID j) (j_SimulationID j) (j_Type j) (j_Payload j) (j_Attempt j) (j_MaxAttempts j) e (j_CreatedAt j).

Class JobCodec := {
  json_MarshalJob : Job → result rawJSON;
  json_UnmarshalJob : rawJSON → result Job;
}.
(** Jobs survive their encoding when their strings are ASCII, their payload is a JSON document as
    [json.Marshal] writes one ([json_compact]; [nil] becomes [null], other documents are compacted
    and escaped) and their time of creation can be written ([json_time], years up to 9999). *)
Class JobCodecLaws (K : JobCodec) := {
  json_compact : rawJSON → Prop;
  json_time : Z → Prop;
  job_round_trip j :
    ascii_text (j_ID j) → ascii_text (j_SimulationID j) → ascii_text (j_Type j) → ascii_text (j_LastError j) →
    json_compact (j_Payload j) → json_time (j_CreatedAt j) →
    ∃ raw, json_MarshalJob j = Ok raw ∧ json_UnmarshalJob raw = Ok j;
}.

(** Redis: [Claim] is SETNX with a time to live, [Release] is DEL; time passes between commands. *)
Class Coord (C : Type) := {
  co_claim : C → string → Z → C * result bool;
  co_release : C → string → C * result unit;
  co_pass : C → Z → C;
}.
(** A Redis that answers: [co_left] are the keys that are present, each with the time it has left
    ([None] for ever). *)
Class CoordLaws (C : Type) `{Coord C} := {
  co_left : C → gmap string (option Z);
  co_claim_spec c k ttl : 0 < ttl → ttl mod 10 ^ 6 = 0 →
    ∃ c', co_claim c k ttl = (c', Ok (bool_decide (co_left c !! k = None))) ∧
      co_left c' = if decide (co_left c !! k = None) then <[k := Some ttl]> (co_left c) else co_left c;
  co_release_spec c k : ∃ c', co_release c k = (c', Ok tt) ∧ co_left c' = delete k (co_left c);
  co_pass_spec c t k : 0 ≤ t →
    co_left (co_pass c t) !! k =
      match co_left c !! k with
      | Some (Some r) => if t <? r then Some (Some (r - t)) else None
      | x => x
      end;
}.

Section queue.
Context {B C : Type} `{Pb : Publisher B} `{Co : Coord C} `{Kd : JobCodec}.

(** The queue with what it works on: the broker, Redis if configured, the depth gauge if
    metrics are attached, the retries waiting for their delay, and the jobs handed to the
    handler so far. *)
(* internal/queue/queue.go:61-68 Queue *)
Record Queue := mkQueue {
  qu_broker : B;
  qu_coord : option C;
  qu_backoff : Z;
  qu_depth : option Z;
  qu_retries : list (Job * Z);
  qu_handled : list Job;
}.

(* internal/queue/queue.go:70-76 New *)
Definition NewQueue (b : B) (c : option C) (backoff : Z) : Queue :=
  mkQueue b c (if backoff <=? 0 then 1000000000 else backoff) None [] [].

(* internal/queue/queue.go:78-79 Queue.SetMetrics *)
Definition SetMetrics (q : Queue) (depth : option Z) : Queue :=
  mkQueue (qu_broker q) (qu_coord q) (qu_backoff q) depth (qu_retries q) (qu_handled q).

Definition set_broker (q : Queue) (b : B) : Queue :=
  mkQueue b (qu_coord q) (qu_backoff q) (qu_depth q) (qu_retries q) (qu_handled q).
Lemma set_broker_same q : set_broker q (qu_broker q) = q.
Proof. by destruct q. Qed.
Definition set_coord (q : Queue) (c : option C) : Queue :=
  mkQueue (qu_broker q) c (qu_backoff q) (qu_depth q) (qu_retries q) (qu_handled q).
Definition set_depth (q : Queue) (d : option Z) : Queue :=
  mkQueue (qu_broker q) (qu_coord q) (qu_backoff q) d (qu_retries q) (qu_handled q).
Definition set_retries (q : Queue) (r : list (Job * Z)) : Queue :=
  mkQueue (qu_broker q) (qu_coord q) (qu_backoff q) (qu_depth q) r (qu_handled q).
Definition set_handled (q : Queue) (h : list Job) : Queue :=
  mkQueue (qu_broker q) (qu_coord q) (qu_backoff q) (qu_depth q) (qu_retries q) h.

(* internal/queue/queue.go:181-190 Queue.publish *)
Definition publish (q : Queue) (queue : string) (job : Job) : option (Queue * option error) :=
  match json_MarshalJob job with
  | Err e => Some (q, Some e)
  | Ok data =>
      match br_publish (qu_broker q) queue data with
      | None => None
      | Some (b, Some e) => Some (set_broker q b, Some (Wrapped "queue: publish" e))
      | Some (b, None) => Some (set_broker q b, None)
      end
  end.

(* internal/queue/queue.go:81-97 Queue.Enqueue *)
Definition Enqueue (q : Queue) (job : Job) : option (Queue * option error) :=
  let job := if j_MaxAttempts job <=? 0 then with_max job 1 else job in
  match json_MarshalJob job with
  | Err e => Some (q, Some e)
  | Ok data =>
      match br_publish (qu_broker q) QueueJobs data with
      | None => None
      | Some (b, Some e) => Some (set_broker q b, Some e)
      | Some (b, None) => Some (set_depth (set_broker q b) (Z.add 1 <$> qu_depth q), None)
      end
  end.

(* internal/queue/queue.go:145-149 Queue.done *)
Definition Queue__done (q : Queue) : Queue := set_depth q (Z.add (-1) <$> qu_depth q).

(* internal/queue/queue.go:172-179 Queue.backoffFor *)
Definition backoffFor (q : Queue) (attempt : Z) : Z :=
  Nat.iter (Z.to_nat (attempt - 1)) (λ d, i64 (d * 2)) (qu_backoff q).

(* internal/queue/queue.go:36-44 Result *)
Record Result := mkResult {
  res_JobID : string; res_SimulationID : string; res_Status : string; res_Error : string;
  res_Snapshot : rawJSON; res_CompletedAt : Z;
}.

(** [encoding/json] on a [Result]. *)
Class ResultCodec := { json_MarshalResult : Result → result rawJSON }.

(* internal/queue/queue.go:99-106 Queue.PublishResult *)
Definition PublishResult `{ResultCodec} (q : Queue) (r : Result) : option (Queue * option error) :=
  match json_MarshalResult r with
  | Err e => Some (q, Some e)
  | Ok data =>
      match br_publish (qu_broker q) QueueResults data with
      | None => None
      | Some (b, err) => Some (set_broker q b, err)
      end
  end.

(** The time to live of a claim. *)
Definition claimTTL : Z := 24 * 3600 * second.

(** The claim: [true] means the delivery is to be dropped as already processed. *)
(* internal/queue/queue.go:121-128 Queue.Consume *)
Definition claimed_before (q : Queue) (key : string) : Queue * bool :=
  match qu_coord q with
  | None => (q, false)
  | Some c =>
      let '(c, r) := co_claim c key claimTTL in
      (set_coord q (Some c), match r with Ok claimed => negb claimed | Err _ => false end)
  end.

Definition job_key (j : Job) : string := "job:processed:" +:+ j_ID j.

(** *** Deliveries *)

Section delivery.
Context {D : Type} `{Dl : Delivery B D}.

(** [d.Ack()]. *)
Definition ack (q : Queue) (d : D) : Queue * D * option error :=
  let '(b, d, err) := dl_ack (qu_broker q) d in (set_broker q b, d, err).

(** The message of a failed job is acknowledged, and the job dead-lettered or scheduled again: the
    retry waits in [qu_retries] for its delay. *)
(* internal/queue/queue.go:151-170 Queue.handleFailure *)
Definition handleFailure (q : Queue) (d : D) (job : Job) (err : string) : option (Queue * D) :=
  let '(q, d, _) := ack q d in
  let job := with_error job err in
  if j_MaxAttempts job <=? j_Attempt job then
    match publish q QueueDLQ job with Some (q, _) => Some (q, d) | None => None end
  else
    let job := with_attempt job (i64 (j_Attempt job + 1)) in
    Some (set_retries q (qu_retries q ++ [(job, backoffFor q (j_Attempt job))]), d).

(** The function [Consume] passes to the broker.  The handler may itself use the queue; [None] is a
    publish that cannot complete yet, or a handler that has not returned. *)
(* internal/queue/queue.go:115-143 Queue.Consume *)
Definition job_delivery (handler : Queue → Job → outcome (option (Queue * option string))) (q : Queue) (d : D)
  : outcome (option (Queue * D * option error)) :=
  match json_UnmarshalJob (dl_body d) with
  | Err _ => let '(q, d, _) := ack q d in Done (Some (q, d, None))
  | Ok job =>
      let key := job_key job in
      let '(q, dup) := claimed_before q key in
      if dup : bool then let '(q, d, _) := ack q d in Done (Some (q, d, None))
      else
        let q := set_handled q (qu_handled q ++ [job]) in
        let! r := handler q job in
        match r with
        | None => Done None
        | Some (q, Some err) =>
            let q := match qu_coord q with
                     | Some c => set_coord q (Some (co_release c key).1)
                     | None => q
                     end in
            match handleFailure (Queue__done q) d job err with
            | Some (q, d) => Done (Some (q, d, None))
            | None => Done None
            end
        | Some (q, None) => Done (Some (ack (Queue__done q) d))
        end
  end.
End delivery.

(** *** A broker that removes a message when it is received *)

Context {Bk : Broker B}.

(** Acknowledging a received message does nothing more. *)
#[local] Instance on_receipt : Delivery B rawJSON := { dl_body d := d; dl_ack b d := (b, d, None) }.

(** A delivery to a handler that leaves the queue alone; [handler] is what it returns for the job. *)
Definition deliver (q : Queue) (body : rawJSON) (handler : Job → option string) : option Queue :=
  match job_delivery (λ q job, Done (Some (q, handler job))) q body with
  | Done (Some (q, _, _)) => Some q
  | _ => None
  end.

(** Consumption of the next message of the job queue. *)
Definition consume_one (q : Queue) (handler : Job → option string) : option Queue :=
  match br_take (qu_broker q) QueueJobs with
  | None => Some q
  | Some (body, b) => deliver (set_broker q b) body handler
  end.

(** The delay of the oldest waiting retry has passed. *)
Definition fire_retry (q : Queue) : option Queue :=
  match qu_retries q with
  | [] => Some q
  | (job, _) :: rest =>
      match publish (set_retries q rest) QueueJobs job with Some (q, _) => Some q | None => None end
  end.

(** ** Backoff *)

Lemma i64_mul2 x : i64 (i64 x * 2) = i64 (x * 2).
Proof.
  unfold i64. f_equal.
  replace (((x + 2 ^ 63) mod 2 ^ 64 - 2 ^ 63) * 2 + 2 ^ 63)
    with ((x + 2 ^ 63) mod 2 ^ 64 * 2 - 2 ^ 63) by lia.
  replace (x * 2 + 2 ^ 63) with ((x + 2 ^ 63) * 2 - 2 ^ 63) by lia.
  rewrite <- (Zminus_mod_idemp_l ((x + 2 ^ 63) mod 2 ^ 64 * 2)), Zmult_mod_idemp_l.
  by rewrite Zminus_mod_idemp_l.
Qed.

Lemma iter_double k d : in_i64 d → Nat.iter k (λ d, i64 (d * 2)) d = i64 (d * 2 ^ Z.of_nat k).
Proof.
  intros Hd. induction k as [|k IH]; [cbn; rewrite Z.mul_1_r; symmetry; by apply i64_id|].
  cbn [Nat.iter nat_rect]. unfold Nat.iter in IH. rewrite IH, i64_mul2. f_equal.
  rewrite Nat2Z.inj_succ, Z.pow_succ_r by lia. lia.
Qed.

(** ** Delivery of one job *)

Context `{Cl : !CoordLaws C}.

(** Nothing waits anywhere but the given messages. *)
Definition quiet (q : Queue) (jobs : list rawJSON) (retries : list (Job * Z)) : Prop :=
  br_queue (qu_broker q) QueueJobs = jobs ∧ qu_retries q = retries.

Definition unclaimed (q : Queue) (key : string) : Prop :=
  match qu_coord q with Some c => co_left c !! key = None | None => True end.

(** The key is claimed, for the given time. *)
Definition claimed_for (q : Queue) (key : string) (r : option Z) : Prop :=
  match qu_coord q with Some c => co_left c !! key = Some r | None => False end.

Lemma claim_spec c key :
  ∃ c', co_claim c key claimTTL = (c', Ok (bool_decide (co_left c !! key = None))) ∧
    co_left c' = if decide (co_left c !! key = None) then <[key := Some claimTTL]> (co_left c) else co_left c.
Proof using Cl. by apply co_claim_spec. Qed.

(** A delivery of a job already processed is acknowledged without calling the handler. *)
Lemma deliver_duplicate q body job handler r :
  json_UnmarshalJob body = Ok job → claimed_for q (job_key job) r →
  ∃ q', deliver q body handler = Some q' ∧ qu_handled q' = qu_handled q ∧
    qu_broker q' = qu_broker q ∧ qu_retries q' = qu_retries q ∧ claimed_for q' (job_key job) r.
Proof using Cl.
  intros Hj Hcl. unfold deliver, job_delivery. cbn [dl_body on_receipt]. rewrite Hj.
  unfold claimed_for in Hcl. unfold claimed_before. destruct (qu_coord q) as [c|] eqn:Ec; [|done].
  destruct (claim_spec c (job_key job)) as (c' & -> & Hk).
  rewrite Hcl in *. rewrite bool_decide_eq_false_2 by done. rewrite decide_False in Hk by done.
  eexists. split; [reflexivity|]. cbn. unfold claimed_for. cbn. by rewrite Hk.
Qed.

(** A delivery of a fresh job calls the handler once; on failure the claim is released. *)
Lemma deliver_fresh q body job handler :
  json_UnmarshalJob body = Ok job → unclaimed q (job_key job) →
  ∃ q1, qu_handled q1 = qu_handled q ++ [job] ∧ qu_broker q1 = qu_broker q ∧
    qu_retries q1 = qu_retries q ∧ qu_backoff q1 = qu_backoff q ∧
    qu_depth q1 = Z.add (-1) <$> qu_depth q ∧
    match handler job with
    | None => deliver q body handler = Some q1 ∧
        (is_Some (qu_coord q) → claimed_for q1 (job_key job) (Some claimTTL))
    | Some err => deliver q body handler = fst <$> handleFailure q1 body job err ∧ unclaimed q1 (job_key job) ∧
        (is_Some (qu_coord q) ↔ is_Some (qu_coord q1))
    end.
Proof using Cl.
  intros Hj Hcl. unfold deliver, job_delivery. cbn [dl_body on_receipt]. rewrite Hj.
  unfold unclaimed in Hcl. unfold claimed_before. destruct (qu_coord q) as [c|] eqn:Ec.
  - destruct (claim_spec c (job_key job)) as (c1 & -> & Hk).
    rewrite bool_decide_eq_true_2 by done. rewrite decide_True in Hk by done. cbn [negb].
    destruct (handler job) as [err|].
    + cbn [obind qu_coord set_coord set_handled]. destruct (co_release_spec c1 (job_key job)) as (c2 & Hr & Hk2).
      rewrite Hr. cbn [fst].
      exists (Queue__done (set_coord (set_handled (set_coord q (Some c1)) (qu_handled q ++ [job])) (Some c2))).
      do 5 (split; [reflexivity|]). split; [by destruct (handleFailure _ _ _ _) as [[]|]|]. split; [|done].
      unfold unclaimed. cbn. by rewrite Hk2, lookup_delete_eq.
    + exists (Queue__done (set_handled (set_coord q (Some c1)) (qu_handled q ++ [job]))).
      do 5 (split; [reflexivity|]). split; [reflexivity|]. intros _.
      unfold claimed_for. cbn. by rewrite Hk, lookup_insert_eq.
  - exists (Queue__done (set_handled q (qu_handled q ++ [job]))).
    do 5 (split; [reflexivity|]). destruct (handler job) as [err|].
    + cbn [obind qu_coord set_handled]. rewrite Ec. split; [by destruct (handleFailure _ _ _ _) as [[]|]|].
      split; unfold unclaimed; cbn; by rewrite Ec.
    + split; [reflexivity|]. by intros [? ?].
Qed.

(** A worker that dies after it has claimed a job and before its handler returns neither releases
    the claim nor acknowledges the message.  The broker delivers the message again, and the worker
    that receives it takes the job for a processed one: it acknowledges it without running it, and
    nothing is left of the job. *)
Theorem crashed_job_swallowed q body job handler :
  json_UnmarshalJob body = Ok job → is_Some (qu_coord q) → unclaimed q (job_key job) →
  let '(crashed, dup) := claimed_before q (job_key job) in
  dup = false ∧
  ∃ q', deliver crashed body handler = Some q' ∧ qu_handled q' = qu_handled q ∧
    qu_broker q' = qu_broker q ∧ qu_retries q' = qu_retries q.
Proof using Cl.
  intros Hj Hco Hcl. unfold claimed_before.
  unfold unclaimed in Hcl. destruct (qu_coord q) as [c|]; [|by destruct Hco].
  destruct (claim_spec c (job_key job)) as (c1 & -> & Hk).
  rewrite bool_decide_eq_true_2 by done. rewrite decide_True in Hk by done. split; [done|].
  destruct (deliver_duplicate (set_coord q (Some c1)) body job handler (Some claimTTL) Hj) as (q' & H1 & H2 & H3 & H4 & _).
  { unfold claimed_for. cbn. by rewrite Hk, lookup_insert_eq. }
  by exists q'.
Qed.

(** ** The life of a job *)

Context {Kl : JobCodecLaws Kd}.

(** A job that survives its encoding. *)
Record portable (j : Job) : Prop := {
  po_ID : ascii_text (j_ID j);
  po_SimulationID : ascii_text (j_SimulationID j);
  po_Type : ascii_text (j_Type j);
  po_LastError : ascii_text (j_LastError j);
  po_Payload : json_compact (j_Payload j);
  po_CreatedAt : json_time (j_CreatedAt j);
}.

Lemma portable_round_trip j : portable j → ∃ raw, json_MarshalJob j = Ok raw ∧ json_UnmarshalJob raw = Ok j.
Proof using Kl. intros []. by apply job_round_trip. Qed.

Lemma portable_error j e : portable j → ascii_text e → portable (with_error j e).
Proof using Type. by intros [] He; split. Qed.

Lemma portable_attempt j a : portable j → portable (with_attempt j a).
Proof using Type. by intros []; split. Qed.

(** The outcomes of the successive executions of a job. *)
Implicit Types (results : list (option string)).

(** Work on a single job until nothing is left to do: deliver the next message, or let the
    next retry fire.  [results] are what the handler returns, in order. *)
Fixpoint drive (results : list (option string)) (q : Queue) : option Queue :=
  match results with
  | [] => Some q
  | r :: results' =>
      match consume_one q (λ _, r) with
      | None => None
      | Some q1 =>
          match fire_retry q1 with
          | None => None
          | Some q2 => drive results' q2
          end
      end
  end.

(** The broker is up and the queue has room. *)
Definition has_room_for (b : B) (name : string) : Prop :=
  br_up b ∧ (length (br_queue b name) < br_cap)%nat.

Lemma publish_ok q name job :
  portable job → has_room_for (qu_broker q) name → ∃ q' raw, publish q name job = Some (q', None) ∧ json_UnmarshalJob raw = Ok job ∧
    json_MarshalJob job = Ok raw ∧
    br_queue (qu_broker q') name = br_queue (qu_broker q) name ++ [raw] ∧
    (∀ n, n ≠ name → br_queue (qu_broker q') n = br_queue (qu_broker q) n) ∧
    q' = set_broker q (qu_broker q') ∧ br_up (qu_broker q').
Proof using Kl.
  intros Hpo [Hup Hroom]. destruct (portable_round_trip job Hpo) as (raw & Hm & Hu). unfold publish. rewrite Hm.
  destruct (br_accepts _ _ raw Hup Hroom) as (b' & Hb & Hup'). rewrite Hb.
  destruct (br_publish_ok _ _ _ _ Hb) as [H1 H2]. by eexists _, raw.
Qed.

(** The state of the system while attempt [a] of [job] waits in the job queue. *)
Record waiting (q : Queue) (job : Job) (raw : rawJSON) : Prop := {
  wt_raw : json_UnmarshalJob raw = Ok job;
  wt_portable : portable job;
  wt_jobs : br_queue (qu_broker q) QueueJobs = [raw];
  wt_retries : qu_retries q = [];
  wt_claim : unclaimed q (job_key job);
  wt_dlq : has_room_for (qu_broker q) QueueDLQ;
}.

Lemma take_waiting q job raw :
  waiting q job raw → ∃ b, br_take (qu_broker q) QueueJobs = Some (raw, b) ∧
    br_queue b QueueJobs = [] ∧ br_queue b QueueDLQ = br_queue (qu_broker q) QueueDLQ ∧ br_up b.
Proof using Type.
  intros [_ _ Hj _ _ [Hup _]]. pose proof (br_take_spec (qu_broker q) QueueJobs) as Ht.
  destruct (br_take (qu_broker q) QueueJobs) as [[body b]|]; [|congruence].
  destruct Ht as (Ht & Hother & Hup'). rewrite Hj in Ht. injection Ht as <- Hb. exists b.
  split; [done|]. split; [by symmetry|]. split; [by apply Hother|auto].
Qed.

(** A failing execution that is not the last: the job waits again, one attempt later. *)
Lemma drive_retry q job raw err results :
  waiting q job raw → ascii_text err → j_Attempt job < j_MaxAttempts job → in_i64 (j_Attempt job + 1) →
  ∃ q' raw', drive (Some err :: results) q = drive results q' ∧
    waiting q' (with_attempt (with_error job err) (j_Attempt job + 1)) raw' ∧
    qu_handled q' = qu_handled q ++ [job] ∧ qu_backoff q' = qu_backoff q ∧
    qu_depth q' = Z.add (-1) <$> qu_depth q ∧
    br_queue (qu_broker q') QueueDLQ = br_queue (qu_broker q) QueueDLQ ∧
    (is_Some (qu_coord q) ↔ is_Some (qu_coord q')).
Proof using Cl Kl.
  intros Hw Herr Hlt Hin. destruct (take_waiting q job raw Hw) as (b & Ht & Hbj & Hbd & Hbu).
  destruct (deliver_fresh (set_broker q b) raw job (λ _, Some err)) as (q1 & G1 & G2 & G3 & G4 & G5 & G6);
    [apply Hw|apply Hw|]. destruct G6 as (G6 & G7 & G8).
  cbn [drive]. unfold consume_one. rewrite Ht, G6. unfold handleFailure, ack. cbn [dl_ack on_receipt].
  rewrite set_broker_same. cbn [j_MaxAttempts j_Attempt with_error].
  destruct (Z.leb_spec (j_MaxAttempts job) (j_Attempt job)); [lia|].
  rewrite i64_id by done. cbn [fmap option_fmap option_map fst]. cbn in G1, G2, G3, G4, G5.
  unfold fire_retry. cbn [qu_retries set_retries]. rewrite G3, (wt_retries _ _ _ Hw). cbn [app].
  set (job' := with_attempt (with_error job err) (j_Attempt job + 1)).
  assert (portable job') as Hpo by (apply portable_attempt, portable_error; [apply Hw|done]).
  destruct (publish_ok (set_retries (set_retries q1 [(job', backoffFor q1 (j_Attempt job'))]) []) QueueJobs job')
    as (q2 & raw' & -> & P1 & P2 & P3 & P4 & P5 & P6); [done| |].
  { split; cbn; rewrite G2; [done|]. rewrite Hbj. apply br_cap_pos. }
  exists q2, raw'. split; [done|]. cbn in P3, P4. rewrite G2 in P3, P4. rewrite P5. cbn. split; [|split_and!; try done].
  - split; cbn; [done|done|by rewrite P3, Hbj|done|exact G7|].
    split; [done|]. rewrite P4, Hbd by done. apply Hw.
  - by rewrite P4, Hbd.
Qed.

(** The last failing execution: the job ends in the dead-letter queue. *)
Lemma drive_dead q job raw err :
  waiting q job raw → ascii_text err → j_MaxAttempts job ≤ j_Attempt job →
  ∃ q' raw', drive [Some err] q = Some q' ∧ quiet q' [] [] ∧
    qu_handled q' = qu_handled q ++ [job] ∧ qu_depth q' = Z.add (-1) <$> qu_depth q ∧
    br_queue (qu_broker q') QueueDLQ = br_queue (qu_broker q) QueueDLQ ++ [raw'] ∧
    json_UnmarshalJob raw' = Ok (with_error job err).
Proof using Cl Kl.
  intros Hw Herr Hge. destruct (take_waiting q job raw Hw) as (b & Ht & Hbj & Hbd & Hbu).
  destruct (deliver_fresh (set_broker q b) raw job (λ _, Some err)) as (q1 & G1 & G2 & G3 & G4 & G5 & G6);
    [apply Hw|apply Hw|]. destruct G6 as (G6 & G7 & G8).
  cbn [drive]. unfold consume_one. rewrite Ht, G6. unfold handleFailure, ack. cbn [dl_ack on_receipt].
  rewrite set_broker_same. cbn [j_MaxAttempts j_Attempt with_error].
  destruct (Z.leb_spec (j_MaxAttempts job) (j_Attempt job)); [|lia]. cbn in G1, G2, G3, G4, G5.
  destruct (publish_ok q1 QueueDLQ (with_error job err)) as (q2 & raw' & -> & P1 & P2 & P3 & P4 & P5 & P6).
  { apply portable_error; [apply Hw|done]. }
  { split; rewrite G2; [done|]. rewrite Hbd. apply Hw. }
  cbn [fmap option_fmap option_map fst]. unfold fire_retry. rewrite P5. cbn [qu_retries set_broker]. rewrite G3, (wt_retries _ _ _ Hw).
  eexists _, raw'. split; [done|]. rewrite G2 in P3, P4. unfold quiet. cbn. split_and!; try done.
  - by rewrite P4, Hbj.
  - by rewrite G3, (wt_retries _ _ _ Hw).
  - by rewrite P3, Hbd.
Qed.

Lemma drive_failing errs q job raw err :
  waiting q job raw → Forall ascii_text errs → ascii_text err → j_MaxAttempts job < 2 ^ 63 → 0 ≤ j_Attempt job →
  j_Attempt job + len errs = j_MaxAttempts job →
  ∃ q' raw' job', drive ((Some <$> errs) ++ [Some err]) q = Some q' ∧ quiet q' [] [] ∧
    len (qu_handled q') = len (qu_handled q) + len errs + 1 ∧
    qu_depth q' = Z.add (- len errs - 1) <$> qu_depth q ∧
    br_queue (qu_broker q') QueueDLQ = br_queue (qu_broker q) QueueDLQ ++ [raw'] ∧
    json_UnmarshalJob raw' = Ok job' ∧ j_ID job' = j_ID job ∧ j_LastError job' = err ∧
    j_Attempt job' = j_MaxAttempts job.
Proof using Cl Kl.
  intros Hw Herrs Herr Hmax H0 Hlen. revert q job raw Hw Hmax H0 Hlen.
  induction errs as [|e errs IH]; intros q job raw Hw Hmax H0 Hlen.
  - destruct (drive_dead q job raw err Hw Herr) as (q' & raw' & H1 & H2 & H3 & H4 & H5 & H6);
      [unfold len in Hlen; simpl in Hlen; lia|].
    exists q', raw', (with_error job err). split; [done|]. split; [done|]. rewrite H3, H4, len_app.
    unfold len in *. simpl in *. split_and!; try done; lia.
  - apply Forall_cons in Herrs as [He Herrs]. rewrite len_cons in *. pose proof (len_nonneg errs). rewrite fmap_cons, <- app_comm_cons.
    destruct (drive_retry q job raw e ((Some <$> errs) ++ [Some err]) Hw He)
      as (q1 & raw1 & H1 & H2 & H3 & H4 & H5 & H6 & H7); [lia|split; lia|].
    destruct (IH Herrs q1 _ raw1 H2) as (q' & raw' & job' & G1 & G2 & G3 & G4 & G5 & G6 & G7 & G8 & G9);
      cbn; [lia|lia|lia|].
    exists q', raw', job'. split; [rewrite <- G1; exact H1|]. split; [done|].
    rewrite G3, H3, len_app, G4, H5, G5, H6. cbn in G9. split_and!; try done.
    + unfold len. simpl. lia.
    + destruct (qu_depth q); cbn; [|done]. f_equal. lia.
Qed.

Lemma Enqueue_waiting q job :
  portable job → has_room_for (qu_broker q) QueueDLQ → quiet q [] [] → unclaimed q (job_key job) → 0 < j_MaxAttempts job →
  ∃ q' raw, Enqueue q job = Some (q', None) ∧ waiting q' job raw ∧ qu_handled q' = qu_handled q ∧
    qu_depth q' = Z.add 1 <$> qu_depth q ∧ qu_backoff q' = qu_backoff q ∧
    br_queue (qu_broker q') QueueDLQ = br_queue (qu_broker q) QueueDLQ ∧ qu_coord q' = qu_coord q.
Proof using Kl.
  intros Hpo Ho [Hj Hr] Hcl Hmax. unfold Enqueue. destruct (Z.leb_spec (j_MaxAttempts job) 0); [lia|].
  destruct (portable_round_trip job Hpo) as (raw & Hm & Hu). rewrite Hm.
  destruct Ho as [Hup Hd]. destruct (br_accepts (qu_broker q) QueueJobs raw Hup) as (b' & Hb & Hup').
  { rewrite Hj. apply br_cap_pos. }
  rewrite Hb. destruct (br_publish_ok _ _ _ _ Hb) as [H1 H2]. eexists _, raw. split; [done|].
  split; [|cbn; split_and!; try done; by apply H2].
  split; cbn; [done|done|by rewrite H1, Hj|done|done|]. split; [done|]. by rewrite H2.
Qed.

(** C31: a job that keeps failing is never lost and never retried forever: enqueued at attempt 0
    with [MaxAttempts = m > 0] on an otherwise empty job queue of a broker that is up and has room for
    a dead letter, unclaimed, with Redis answering or not configured, it is executed exactly [m + 1]
    times (its first execution counts as attempt 0), every retry after a delay, and then lies in the
    dead-letter queue with its identifier and last error, with no message or retry of it left; the
    depth gauge, raised once, has been lowered once per execution.  The strings of the job and the
    errors are ASCII and its payload is a JSON document as [json.Marshal] writes one, so that the job
    survives its encoding. *)
Theorem failing_job_dead_lettered q job errs err :
  portable job → Forall ascii_text errs → ascii_text err →
  has_room_for (qu_broker q) QueueDLQ → quiet q [] [] → unclaimed q (job_key job) → j_Attempt job = 0 →
  len errs = j_MaxAttempts job → 0 < j_MaxAttempts job < 2 ^ 63 →
  ∃ q1 q' raw' job', Enqueue q job = Some (q1, None) ∧
    drive ((Some <$> errs) ++ [Some err]) q1 = Some q' ∧ quiet q' [] [] ∧
    len (qu_handled q') = len (qu_handled q) + j_MaxAttempts job + 1 ∧
    qu_depth q' = Z.add (- j_MaxAttempts job) <$> qu_depth q ∧
    br_queue (qu_broker q') QueueDLQ = br_queue (qu_broker q) QueueDLQ ++ [raw'] ∧
    json_UnmarshalJob raw' = Ok job' ∧ j_ID job' = j_ID job ∧ j_LastError job' = err.
Proof using Cl Kl.
  intros Hpo Herrs Herr Ho Hq Hcl Ha Hlen Hmax.
  destruct (Enqueue_waiting q job Hpo Ho Hq Hcl) as (q1 & raw & H1 & H2 & H3 & H4 & H5 & H6 & H7); [lia|].
  destruct (drive_failing errs q1 job raw err H2 Herrs Herr) as (q' & raw' & job' & G1 & G2 & G3 & G4 & G5 & G6 & G7 & G8 & _);
    [lia|lia|lia|].
  exists q1, q', raw', job'. rewrite G3, H3, G4, H4, G5, H6, Hlen. split_and!; try done.
  destruct (qu_depth q); cbn; [|done]. f_equal. lia.
Qed.

(** Time passes for Redis. *)
Definition later (q : Queue) (t : Z) : Queue := set_coord q ((λ c, co_pass c t) <$> qu_coord q).

(** C32: with a Redis that answers, a job that succeeds is not executed again for a day: when the
    same message is delivered again less than 24 hours after the job was claimed, the handler is not
    called; a redelivery after the claim has expired executes the job once more. *)
Theorem successful_job_not_repeated q job raw handler t :
  waiting q job raw → is_Some (qu_coord q) → handler job = None → 0 ≤ t →
  ∃ q1 q2, consume_one q handler = Some q1 ∧ qu_handled q1 = qu_handled q ++ [job] ∧
    quiet q1 [] [] ∧ deliver (later q1 t) raw handler = Some q2 ∧
    qu_handled q2 = qu_handled q1 ++ (if t <? 24 * 3600 * second then [] else [job]) ∧
    qu_retries q2 = [].
Proof using Cl.
  intros Hw Hc Hh Ht0. destruct (take_waiting q job raw Hw) as (b & Ht & Hbj & Hbd & Hbu).
  destruct (deliver_fresh (set_broker q b) raw job handler) as (q1 & G1 & G2 & G3 & G4 & G5 & G6);
    [apply Hw|apply Hw|]. rewrite Hh in G6. destruct G6 as [G6 G7]. specialize (G7 Hc).
  unfold claimed_for in G7. destruct (qu_coord q1) as [c1|] eqn:Ec; [|done].
  pose proof (co_pass_spec c1 t (job_key job) Ht0) as Hp. rewrite G7 in Hp. fold claimTTL.
  assert (quiet q1 [] []) as Hq1 by (split; [by rewrite G2|by rewrite G3; apply (wt_retries _ _ _ Hw)]).
  unfold consume_one. rewrite Ht. exists q1. destruct (t <? claimTTL).
  - destruct (deliver_duplicate (later q1 t) raw job handler (Some (claimTTL - t)) (wt_raw _ _ _ Hw))
      as (q2 & D1 & D2 & D3 & D4 & D5).
    { unfold claimed_for, later. cbn. rewrite Ec. exact Hp. }
    exists q2. rewrite app_nil_r. split_and!; try done. rewrite D4. apply Hq1.
  - destruct (deliver_fresh (later q1 t) raw job handler) as (q2 & D1 & D2 & D3 & D4 & D5 & D6); [apply Hw| |].
    { unfold unclaimed, later. cbn. rewrite Ec. exact Hp. }
    rewrite Hh in D6. destruct D6 as [D6 _]. exists q2. split_and!; try done. rewrite D3. apply Hq1.
Qed.

(** The delay before attempt [a] is [base * 2^(a-1)], wrapped to 64 bits. *)
Theorem backoffFor_exponential q a :
  in_i64 (qu_backoff q) → 1 ≤ a → backoffFor q a = i64 (qu_backoff q * 2 ^ (a - 1)).
Proof using Type.
  intros Hb Ha. unfold backoffFor. rewrite iter_double by done. do 3 f_equal. lia.
Qed.
End queue.
Arguments Queue B C : clear implicits.

(** ** A concrete queue: the in-memory broker, a set for Redis, jobs as binary numbers *)

Module ToyQueue.

#[global] Instance Job_countable : Countable Job.
Proof.
  apply (inj_countable'
    (λ j, (j_ID j, j_SimulationID j, j_Type j, j_Payload j, j_Attempt j, j_MaxAttempts j,
           j_LastError j, j_CreatedAt j))
    (λ '(a, b, c, d, e, f, g, h), mkJob a b c d e f g h)). by intros [].
Defined.

Fixpoint bits (p : positive) : string :=
  match p with
  | xH => "."
  | xO p => String "0" (bits p)
  | xI p => String "1" (bits p)
  end.

Fixpoint unbits (s : string) : positive :=
  match s with
  | String "0" s => xO (unbits s)
  | String "1" s => xI (unbits s)
  | _ => xH
  end.

Lemma unbits_bits p : unbits (bits p) = p.
Proof. induction p as [p IH|p IH|]; simpl; [by rewrite IH..|done]. Qed.

#[global] Instance codec : JobCodec := {
  json_MarshalJob j := Ok (bits (encode j));
  json_UnmarshalJob raw :=
    match decode (unbits raw) with Some j => Ok j | None => Err (Errorf "invalid character") end;
}.

#[global] Instance codec_laws : JobCodecLaws codec.
Proof.
  refine {| json_compact _ := True; json_time _ := True |}.
  intros j _ _ _ _ _ _. eexists. split; [done|]. simpl. by rewrite unbits_bits, decode_encode.
Defined.

(** The keys with the time they have left. *)
#[global] Instance coord : Coord (gmap string Z) := {
  co_claim c k ttl := (if decide (c !! k = None) then <[k := ttl]> c else c, Ok (bool_decide (c !! k = None)));
  co_release c k := (delete k c, Ok tt);
  co_pass c t := omap (λ r, if t <? r then Some (r - t) else None) c;
}.

#[global] Program Instance coord_laws : CoordLaws (gmap string Z) := { co_left c := Some <$> c }.
Next Obligation.
  intros c k ttl _ _. eexists. split; [cbn; do 2 f_equal; apply bool_decide_ext; by rewrite lookup_fmap, fmap_None|].
  rewrite lookup_fmap. destruct (c !! k); cbn [fmap option_fmap option_map]; [by rewrite !decide_False|].
  rewrite !decide_True by done. by rewrite fmap_insert.
Qed.
Next Obligation. intros c k. eexists. split; [done|]. by rewrite fmap_delete. Qed.
Next Obligation.
  intros c t k Ht. rewrite !lookup_fmap. cbn. rewrite lookup_omap. destruct (c !! k) as [r|]; cbn; [|done].
  by destruct (t <? r).
Qed.

Definition queue : Queue Memory (gmap string Z) := SetMetrics (NewQueue NewMemory (Some ∅) 0) (Some 0).
Definition job : Job := mkJob "j1" "s1" "run_simulation" "" 0 2 "" 0.
Definition message : string := bits (encode job).

(** The queue once the job has been enqueued. *)
Definition filled : Queue Memory (gmap string Z) :=
  match Enqueue queue job with Some (q, _) => q | None => queue end.
End ToyQueue.

Lemma failing_job_dead_lettered_witness :
  ∃ q1 q' raw' job', Enqueue ToyQueue.queue ToyQueue.job = Some (q1, None) ∧
    drive ((Some <$> ["e1"; "e2"]%string) ++ [Some "e3"%string]) q1 = Some q' ∧ quiet q' [] [] ∧
    len (qu_handled q') = len (qu_handled ToyQueue.queue) + j_MaxAttempts ToyQueue.job + 1 ∧
    qu_depth q' = Z.add (- j_MaxAttempts ToyQueue.job) <$> qu_depth ToyQueue.queue ∧
    br_queue (qu_broker q') QueueDLQ = br_queue (qu_broker ToyQueue.queue) QueueDLQ ++ [raw'] ∧
    json_UnmarshalJob raw' = Ok job' ∧ j_ID job' = j_ID ToyQueue.job ∧ j_LastError job' = "e3"%string.
Proof.
  apply (failing_job_dead_lettered ToyQueue.queue ToyQueue.job ["e1"; "e2"]%string "e3").
  - by split.
  - by repeat constructor.
  - done.
  - split; [done|]. vm_compute. lia.
  - by split.
  - vm_compute. done.
  - done.
  - done.
  - done.
Defined.

Lemma successful_job_not_repeated_witness :
  ∃ q1 q2, consume_one ToyQueue.filled (λ _, None) = Some q1 ∧
    qu_handled q1 = qu_handled ToyQueue.filled ++ [ToyQueue.job] ∧
    quiet q1 [] [] ∧ deliver (later q1 (3600 * second)) ToyQueue.message (λ _, None) = Some q2 ∧
    qu_handled q2 = qu_handled q1 ++ [] ∧ qu_retries q2 = [].
Proof.
  apply (successful_job_not_repeated ToyQueue.filled ToyQueue.job ToyQueue.message (λ _, None) (3600 * second)).
  - split; [done| |done|done| |].
    + by split.
    + vm_compute. done.
    + split; [done|]. vm_compute. lia.
  - by eexists.
  - done.
  - done.
Defined.
