(* ===== verification/MemoryBroker.v ===== *)
(** * The in-memory broker's consumer: [internal/broker/memory.go]

    The loop of deliveries of the in-memory broker, each settled at most once, and the job queue
    running on it. *)

From S2P Require Import Prelude GoValues JobQueue.
Local Open Scope Z_scope.

(** A delivery: [md_once] records whether its [sync.Once] has fired. *)
Record mem_delivery := mkMD { md_queue : string; md_body : rawJSON; md_once : bool }.

Definition settled (d : mem_delivery) : mem_delivery := mkMD (md_queue d) (md_body d) true.

Definition mem_Ack (m : Memory) (d : mem_delivery) : Memory * mem_delivery * option error := (m, settled d, None).

Definition mem_Nack (m : Memory) (d : mem_delivery) (requeue : bool) : option (Memory * mem_delivery * option error) :=
  if md_once d then Some (m, d, None)
  else if requeue then
    match Memory__Publish m (md_queue d) (md_body d) with
    | None => None
    | Some (Ok m) => Some (m, settled d, None)
    | Some (Err e) => Some (m, settled d, Some e)
    end
  else Some (m, settled d, None).

#[global] Instance mem_deliveries : Delivery Memory mem_delivery := { dl_body := md_body; dl_ack := mem_Ack }.

(** The case a [select] takes, of those that are ready. *)
Inductive choice := TakeCancel (e : error) | TakeDone | TakeMessage.

Section consume.
Context {A : Type} (handler : Memory → A → mem_delivery → option (Memory * mem_delivery * A * option error)).

(** [choices] are the cases the [select] takes, a case that is not ready being no choice; [None]
    is a handler that is blocked, and no error a loop that goes on. *)
Fixpoint mem_loop (choices : list choice) (queue : string) (m : Memory) (a : A) : option (Memory * A * option error) :=
  match choices with
  | [] => Some (m, a, None)
  | TakeCancel e :: _ => Some (m, a, Some e)
  | TakeDone :: choices => if decide (queue ∈ mem_done m) then Some (m, a, Some ErrClosed) else mem_loop choices queue m a
  | TakeMessage :: choices =>
      match Memory__take m queue with
      | None => mem_loop choices queue m a
      | Some (body, m) =>
          match handler m a (mkMD queue body false) with
          | None => None
          | Some (m, _, a, _) => mem_loop choices queue m a
          end
      end
  end.

(* internal/broker/memory.go:58-91 Memory.Consume *)
Definition Memory__Consume (choices : list choice) (queue : string) (m : Memory) (a : A) : option (Memory * A * option error) :=
  mem_loop choices queue (getQueue m queue) a.
End consume.

(** ** The job queue on the in-memory broker *)

Section jobs.
Context {C : Type} `{Co : Coord C} `{Kd : JobCodec}.
Context (work : Queue Memory C → Job → outcome (option (Queue Memory C * option string))).

(** The job queue as the handler of [Consume]; [None] is a handler that does not return. *)
Definition memory_jobs (m : Memory) (q : Queue Memory C) (d : mem_delivery)
  : option (Memory * mem_delivery * Queue Memory C * option error) :=
  match job_delivery work (set_broker q m) d with
  | Done (Some (q, d, err)) => Some (qu_broker q, d, q, err)
  | _ => None
  end.

(** The job queue settles every delivery it does not block on. *)
Lemma job_delivery_settles q d q' d' err : job_delivery work q d = Done (Some (q', d', err)) → d' = settled d ∧ err = None.
Proof.
  unfold job_delivery, ack. cbn [dl_body dl_ack mem_deliveries mem_Ack].
  destruct (json_UnmarshalJob (md_body d)) as [job|e]; [|by intros [= <- <- <-]].
  destruct (claimed_before q (job_key job)) as [q1 []]; [by intros [= <- <- <-]|]. intros H.
  inv_bind H as r Hr. destruct r as [[q2 [werr|]]|]; [| |done].
  2: { by injection H as <- <- <-. }
  revert H. set (q3 := Queue__done _). unfold handleFailure, ack. cbn [dl_ack mem_deliveries mem_Ack].
  destruct (_ <=? _); [|by intros [= <- <- <-]].
  destruct (publish _ _ _) as [[q4 x]|]; [by intros [= <- <- <-]|done].
Qed.
End jobs.

(** ** Settlement *)

(** The first settlement of a delivery decides: what follows it changes nothing. *)
Lemma settled_once m d requeue : mem_Nack m (settled d) requeue = Some (m, settled d, None).
Proof. done. Qed.

(** A rejection with requeue puts the message behind those that wait. *)
Lemma requeued_last m d m' d' :
  mem_closed m = false → md_once d = false → mem_Nack m d true = Some (m', d', None) →
  mem_get m' (md_queue d) = mem_get m (md_queue d) ++ [md_body d] ∧ md_once d' = true.
Proof.
  intros Hc Ho. unfold mem_Nack, Memory__Publish. rewrite Ho, Hc. destruct (Nat.ltb _ _); [|done].
  intros [= <- <-]. split; [|done]. unfold mem_get. cbn. by rewrite lookup_insert_eq.
Qed.

(** A handler that returns nil without settling its delivery: the message has left the queue and
    nothing brings it back, whereas a server that waits for acknowledgements keeps it. *)
Theorem unsettled_delivery_dropped :
  match Memory__Publish NewMemory "q" "x" with
  | Some (Ok m) =>
      match Memory__Consume (λ m n d, Some (m, d, S n, None)) [TakeMessage; TakeMessage] "q" m 0%nat with
      | Some (m', handed, None) => mem_get m "q" = ["x"%string] ∧ handed = 1%nat ∧ mem_get m' "q" = []
      | _ => False
      end
  | _ => False
  end.
Proof. by vm_compute. Qed.

(** A consumer of a queue that is first used after [Close] is never told that the broker is
    closed: only the context ends its loop. *)
Theorem late_consumer_waits {A} handler choices queue (m : Memory) (a : A) :
  mem_closed m = false → mem_queues m !! queue = None → Forall (λ c, ∀ e, c ≠ TakeCancel e) choices →
  ∃ m', Memory__Consume handler choices queue (Memory__Close m) a = Some (m', a, None).
Proof.
  intros Hc Hq Hch. unfold Memory__Consume, Memory__Close. rewrite Hc. unfold getQueue. cbn [mem_queues mem_closed mem_done]. rewrite Hq.
  eexists. induction choices as [|[e| |] choices IH]; cbn [mem_loop]; [done| | |]; apply Forall_cons in Hch as [He Hch].
  - by destruct (He e).
  - rewrite decide_False by (cbn; by rewrite not_elem_of_dom). by apply IH.
  - unfold Memory__take, mem_get. cbn [mem_queues]. rewrite lookup_insert_eq. by apply IH.
Qed.
