(* ===== verification/Manager.v ===== *)
(** * The simulation manager: [internal/runner/manager.go]

    The manager instantiates models of the registry into simulations, keeps them by identifier
    and mirrors their status in a store.  Simulations are shared by pointer between the
    manager's map and its watcher goroutines: they live in a heap and are named by handles, so
    that [Replay] can replace a record while an old watcher still holds the old simulation.
    A background run ([Start]) leaves the simulation running; how it evolves is the subject of
    [Runtime.v] and [Lifecycle.v]. *)

From S2P Require Import Prelude Float64 Rng SparseSet Entity GoValues GoStrings Interning Component Store.
From S2P Require Import Tags Heap Events World Snapshot Scheduler Runtime Registry JobQueue.
Local Open Scope Z_scope.

(* internal/runner/manager.go:29-41 CreateRequest *)
Record CreateRequest := mkReq {
  cr_ID : string;
  cr_ModelID : string;
  cr_ModelVersion : string;
  cr_Seed : Z;
  cr_Mode : string;
  cr_MaxTicks : Z;
  cr_MaxTime : float64;
  cr_Workers : Z;
  cr_Config : rawJSON;
  cr_OwnerID : string;
}.

(* internal/runner/manager.go:43-50 State *)
Record StateReport := mkState {
  sr_ID : string; sr_Status : string; sr_Tick : Z; sr_Time : float64; sr_Steps : Z;
}.

(* internal/runner/manager.go:52-62 Metrics *)
Record MetricsReport := mkMetrics {
  mr_ID : string; mr_Status : string; mr_Steps : Z; mr_Tick : Z; mr_Time : float64;
  mr_Entities : Z; mr_Events : Z; mr_Model : gmap string float64;
}.

(* internal/persistence/store.go:30-43 SimulationInfo *)
Record SimulationInfo := mkSI {
  si_ID : string;
  si_ModelID : string;
  si_ModelVersion : string;
  si_Seed : Z;
  si_Mode : string;
  si_Status : string;
  si_Config : rawJSON;
  si_OwnerID : option string;
  si_CreatedAt : Z;
  si_UpdatedAt : Z;
  si_CompletedAt : option Z;
}.

Definition with_status (i : SimulationInfo) (status : string) : SimulationInfo :=
  mkSI (si_ID i) (si_ModelID i) (si_ModelVersion i) (si_Seed i) (si_Mode i) status (si_Config i)
    (si_OwnerID i) (si_CreatedAt i) (si_UpdatedAt i) (si_CompletedAt i).

(* internal/persistence/store.go:54-63 SnapshotInfo *)
Record SnapshotInfo := mkSnapInfo {
  ni_ID : string; ni_SimulationID : string; ni_SchemaVersion : Z; ni_EngineVersion : string;
  ni_Data : rawJSON; ni_Checksum : string; ni_CreatedAt : Z;
}.

(* internal/runner/manager.go:96-107 runConfig *)
Record runConfig := mkRC {
  rc_ModelID : string;
  rc_ModelVersion : string;
  rc_Seed : Z;
  rc_Mode : string;
  rc_MaxTicks : Z;
  rc_MaxTime : float64;
  rc_Workers : Z;
  rc_Model : rawJSON;
}.

(** What the manager uses of the PostgreSQL store. *)
Class Persistence (S : Type) := {
  st_UpsertModel : S → ModelInfo → S * option error;
  st_CreateSimulation : S → SimulationInfo → S * result SimulationInfo;
  st_UpdateSimulationStatus : S → string → string → S * option error;
  st_DeleteSimulation : S → string → S * option error;
  st_SaveSnapshot : S → SnapshotInfo → S * option error;
}.

(** [encoding/json] on a [runConfig]; [json_same] relates texts of the same JSON document, a nil
    [RawMessage] being the document [null]. *)
Class RunConfigCodec := {
  json_MarshalRunConfig : runConfig → result rawJSON;
  json_UnmarshalRunConfig : rawJSON → result runConfig;
  json_same : rawJSON → rawJSON → Prop;
}.

(** A run configuration whose strings are ASCII (others may not be UTF-8, and are then changed by the
    encoding). *)
Definition ascii_config (rc : runConfig) : Prop :=
  ascii_text (rc_ModelID rc) ∧ ascii_text (rc_ModelVersion rc) ∧ ascii_text (rc_Mode rc).

(** A decoded run configuration has the encoded fields, if they were ASCII, and no document is the
    empty text. *)
Class RunConfigLaws `{RunConfigCodec} := {
  run_config_document rc raw : json_MarshalRunConfig rc = Ok raw → raw ≠ ""%string;
  run_config_again rc raw model' : json_MarshalRunConfig rc = Ok raw → json_same (rc_Model rc) model' →
    ∃ raw', json_MarshalRunConfig (mkRC (rc_ModelID rc) (rc_ModelVersion rc) (rc_Seed rc) (rc_Mode rc)
      (rc_MaxTicks rc) (rc_MaxTime rc) (rc_Workers rc) model') = Ok raw';
  run_config_round_trip rc raw raw' : ascii_config rc → json_MarshalRunConfig rc = Ok raw → json_same raw raw' →
    ∃ model', json_UnmarshalRunConfig raw'
      = Ok (mkRC (rc_ModelID rc) (rc_ModelVersion rc) (rc_Seed rc) (rc_Mode rc) (rc_MaxTicks rc)
                 (rc_MaxTime rc) (rc_Workers rc) model') ∧ json_same (rc_Model rc) model';
}.

(** A created record comes back with its identifier and, as a JSONB column, with the same JSON
    document. *)
Class PersistenceLaws (S : Type) `{Persistence S, RunConfigCodec} := {
  create_returns st si st' si' : st_CreateSimulation st si = (st', Ok si') → si_Config si ≠ ""%string →
    si_ID si' = si_ID si ∧ json_same (si_Config si) (si_Config si');
}.

(* internal/runner/manager.go:512-527 statusOf *)
Definition statusOf (s : SimState) : string :=
  match s with
  | StateRunning => "running"
  | StatePaused => "paused"
  | StateCompleted => "completed"
  | StateFailed => "failed"
  | StateStopped => "stopped"
  | StateIdle => "created"
  end.

(* internal/runner/manager.go:222-227 ownerPtr *)
Definition ownerPtr (s : string) : option string := if decide (s = ""%string) then None else Some s.

(** The gauges of the manager. *)
Record Gauges := mkGauges {
  ga_Started : Z; ga_Active : Z; ga_Failed : Z; ga_Completed : Z; ga_SnapshotSize : list Z;
}.

Section manager.
Context `{R : GoRuntime} `{K : Checksummer} {M : Type}.

(** A model value: its methods, its fields, and the optional interfaces [ConfigurableModel] and
    [Metricer]. *)
Record ModelValue := mkMV {
  mv_model : Model M;
  mv_state : M;
  mv_Configure : option (M → rawJSON → M * option error);
  mv_Metrics : option (M → gmap string float64);
}.

(** A factory returns a fresh value on every call; it may be nil. *)
Abbreviation Factory := (option ModelValue).

Context {St : Type} `{P : Persistence St} `{C : RunConfigCodec}.
Context (GOMAXPROCS : Z).

(* internal/runner/manager.go:73-77 managed *)
Record managed := mkManaged { mg_sim : nat; mg_model : ModelValue; mg_info : SimulationInfo }.

(** A watcher goroutine: started for an identifier, then holding the record it looked up. *)
Inductive Watcher := Starting (id : string) | Waiting (id : string) (mg : managed).

(* internal/runner/manager.go:64-71 Manager *)
Record Manager := mkManager {
  mgr_sims : gmap string managed;
  mgr_store : St;
  mgr_registry : @Registry Factory;
  mgr_met : option Gauges;
  mgr_heap : list (Simulation M);
  mgr_watchers : list Watcher;
}.

Definition set_sims (m : Manager) x : Manager :=
  mkManager x (mgr_store m) (mgr_registry m) (mgr_met m) (mgr_heap m) (mgr_watchers m).
Definition set_store (m : Manager) x : Manager :=
  mkManager (mgr_sims m) x (mgr_registry m) (mgr_met m) (mgr_heap m) (mgr_watchers m).
Definition set_met (m : Manager) x : Manager :=
  mkManager (mgr_sims m) (mgr_store m) (mgr_registry m) x (mgr_heap m) (mgr_watchers m).
Definition set_heap (m : Manager) x : Manager :=
  mkManager (mgr_sims m) (mgr_store m) (mgr_registry m) (mgr_met m) x (mgr_watchers m).
Definition set_watchers (m : Manager) x : Manager :=
  mkManager (mgr_sims m) (mgr_store m) (mgr_registry m) (mgr_met m) (mgr_heap m) x.

(* internal/runner/manager.go:79-82 NewManager *)
Definition NewManager (store : St) (reg : @Registry Factory) : Manager := mkManager ∅ store reg None [] [].

(* internal/runner/manager.go:84-87 Manager.SetMetrics *)
Definition Manager__SetMetrics (m : Manager) (met : option Gauges) : Manager := set_met m met.

(** With metrics, every step of a simulation is observed. *)
(* internal/runner/manager.go:89-94 Manager.observe *)
Definition Manager__observe (m : Manager) (sim : Simulation M) : Simulation M :=
  match mgr_met m with None => sim | Some _ => SetStepObserver sim end.

(** [Configure] when there is a configuration and the model takes one. *)
Definition configure (mv : ModelValue) (raw : rawJSON) : result M :=
  if decide (raw = ""%string) then Ok (mv_state mv)
  else match mv_Configure mv with
       | None => Ok (mv_state mv)
       | Some f => match f (mv_state mv) raw with
                   | (_, Some e) => Err (Wrapped "runner: configure model" e)
                   | (s, None) => Ok s
                   end
       end.

(** The registry entry a request names. *)
Definition find_entry (r : @Registry Factory) (req : CreateRequest) : result (@Entry Factory) :=
  match Registry__Get r (cr_ModelID req) with
  | None => Err (Errorf "runner: unknown model")
  | Some entry =>
      if decide (cr_ModelVersion req = ""%string) then Ok entry
      else match GetVersion r (cr_ModelID req) (cr_ModelVersion req) with
           | Some v => Ok v
           | None => Err (Errorf "runner: unknown model version")
           end
  end.

(** The mode of a request, the model's own by default. *)
Definition request_mode (mv : ModelValue) (req : CreateRequest) : result Mode :=
  if decide (cr_Mode req = ""%string) then Ok (mm_Mode (mo_Metadata (mv_model mv)))
  else if decide (cr_Mode req = "tick"%string) then Ok ModeTick
  else if decide (cr_Mode req = "event"%string) then Ok ModeEvent
  else Err (Errorf "runner: invalid mode").

(** The simulation and the record of a request for an entry whose model is persisted. *)
Definition build (entry : @Entry Factory) (mv : ModelValue) (newID : string) (req : CreateRequest)
  : outcome (result (Simulation M * SimulationInfo)) :=
  match configure mv (cr_Config req) with
  | Err e => Done (Err e)
  | Ok s =>
      match request_mode mv req with
      | Err e => Done (Err e)
      | Ok mode =>
          let id := if decide (cr_ID req = ""%string) then newID else cr_ID req in
          let cfg := mkConfig id (cr_Seed req) mode (cr_MaxTicks req) (cr_MaxTime req) (cr_Workers req) in
          let! r := New GOMAXPROCS cfg (mv_model mv) s in
          match wrap_err "runner: init simulation" r with
          | Err e => Done (Err e)
          | Ok sim =>
              let rc := mkRC (mi_ID (en_Info entry)) (mi_Version (en_Info entry)) (cr_Seed req)
                (Mode__String mode) (cr_MaxTicks req) (cr_MaxTime req) (cr_Workers req) (cr_Config req) in
              match json_MarshalRunConfig rc with
              | Err e => Done (Err e)
              | Ok raw =>
                  Done (Ok (sim, mkSI id (mi_ID (en_Info entry)) (mi_Version (en_Info entry))
                    (cr_Seed req) (Mode__String mode) "created" raw (ownerPtr (cr_OwnerID req)) 0 0 None))
              end
          end
      end
  end.

(* internal/runner/manager.go:126-220 Manager.instantiate *)
Definition instantiate (m : Manager) (newID : string) (req : CreateRequest)
  : outcome (Manager * result managed) :=
  if 2 ^ 63 - 1 <? cr_Seed req then Done (m, Err (Errorf "runner: seed exceeds int64 range"))
  else
    match find_entry (mgr_registry m) req with
    | Err e => Done (m, Err e)
    | Ok entry =>
        match en_Factory entry with
        | None => Done (m, Err (Errorf "runner: model has no factory"))
        | Some mv =>
            let '(st, err) := st_UpsertModel (mgr_store m) (en_Info entry) in
            let m := set_store m st in
            match err with
            | Some e => Done (m, Err (Wrapped "runner: persist model" e))
            | None =>
                let! r := build entry mv newID req in
                match r with
                | Err e => Done (m, Err e)
                | Ok (sim, info) =>
                    Done (set_heap m (mgr_heap m ++ [Manager__observe m sim]), Ok (mkManaged (length (mgr_heap m)) mv info))
                end
            end
        end
    end.

(* internal/runner/manager.go:109-124 Manager.Create *)
Definition Manager__Create (m : Manager) (newID : string) (req : CreateRequest)
  : outcome (Manager * result SimulationInfo) :=
  let! (m, r) := instantiate m newID req in
  match r with
  | Err e => Done (m, Err e)
  | Ok mg =>
      let '(st, r) := st_CreateSimulation (mgr_store m) (mg_info mg) in
      let m := set_store m st in
      match wrap_err "runner: persist simulation" r with
      | Err e => Done (m, Err e)
      | Ok info =>
          Done (set_sims m (<[si_ID info := mkManaged (mg_sim mg) (mg_model mg) info]> (mgr_sims m)), Ok info)
      end
  end.

(* internal/runner/manager.go:475-483 Manager.lookup *)
Definition lookup_sim (m : Manager) (id : string) : result managed :=
  match mgr_sims m !! id with Some mg => Ok mg | None => Err ErrNotFound end.

(** A pointer is never dangling; a heap without the handle does not arise. *)
Definition deref (m : Manager) (h : nat) : outcome (Simulation M) :=
  match mgr_heap m !! h with Some s => Done s | None => Panic "nil pointer dereference" end.
Definition store_sim (m : Manager) (h : nat) (s : Simulation M) : Manager :=
  set_heap m (<[h := s]> (mgr_heap m)).

(* internal/runner/manager.go:485-489 Manager.updateStatus *)
Definition updateStatus (m : Manager) (id status : string) : Manager :=
  set_store m (fst (st_UpdateSimulationStatus (mgr_store m) id status)).

(** The calls on a simulation that the manager forwards. *)
(* pkg/simulation/runtime.go:243-253 Simulation.Pause *)
Definition Simulation__Pause (s : Simulation M) : Simulation M * option error :=
  if decide (sim_state s = StateRunning) then (set_state s StatePaused (sim_err s) (sim_steps s), None)
  else (s, Some ErrNotRunning).

(* pkg/simulation/runtime.go:255-265 Simulation.Resume *)
Definition Simulation__Resume (s : Simulation M) : Simulation M * option error :=
  if decide (sim_state s = StatePaused) then (set_state s StateRunning (sim_err s) (sim_steps s), None)
  else (s, Some ErrNotRunning).

(* pkg/simulation/runtime.go:267-281 Simulation.Stop *)
Definition Simulation__Stop (s : Simulation M) : Simulation M * option error :=
  if decide (sim_state s = StateRunning ∨ sim_state s = StatePaused)
  then (set_state s StateStopped (sim_err s) (sim_steps s), None)
  else (s, Some ErrNotRunning).

(** [Start] up to the point where the goroutine is launched. *)
(* pkg/simulation/runtime.go:190-199 Simulation.Start *)
Definition Simulation__Start (s : Simulation M) : Simulation M * option error :=
  match begin s with Ok s => (s, None) | Err e => (s, Some e) end.

(** [err != nil && !errors.Is(err, simulation.ErrNotRunning)]. *)
Definition stop_failed (err : option error) : bool :=
  match err with Some e => negb (errors_Is e ErrNotRunning) | None => false end.

(* internal/runner/manager.go:359-370 Manager.control *)
Definition control (m : Manager) (id status : string) (f : Simulation M → Simulation M * option error)
  : outcome (Manager * option error) :=
  match lookup_sim m id with
  | Err e => Done (m, Some e)
  | Ok mg =>
      let! s := deref m (mg_sim mg) in
      let '(s, err) := f s in
      let m := store_sim m (mg_sim mg) s in
      match err with
      | Some e => Done (m, Some e)
      | None => Done (updateStatus m id status, None)
      end
  end.

(* internal/runner/manager.go:344-347 Manager.Pause *)
Definition Manager__Pause (m : Manager) (id : string) := control m id "paused" Simulation__Pause.
(* internal/runner/manager.go:349-352 Manager.Resume *)
Definition Manager__Resume (m : Manager) (id : string) := control m id "running" Simulation__Resume.
(* internal/runner/manager.go:354-357 Manager.Stop *)
Definition Manager__Stop (m : Manager) (id : string) := control m id "stopped" Simulation__Stop.

Definition started (g : Gauges) : Gauges :=
  mkGauges (ga_Started g + 1) (ga_Active g + 1) (ga_Failed g) (ga_Completed g) (ga_SnapshotSize g).

(* internal/runner/manager.go:324-342 Manager.Start *)
Definition Manager__Start (m : Manager) (id : string) : outcome (Manager * option error) :=
  match lookup_sim m id with
  | Err e => Done (m, Some e)
  | Ok mg =>
      let! s := deref m (mg_sim mg) in
      let '(s, err) := Simulation__Start s in
      match err with
      | Some e => Done (m, Some e)
      | None =>
          let m := set_met (store_sim m (mg_sim mg) s) (started <$> mgr_met m) in
          let m := updateStatus m id "running" in
          Done (set_watchers m (mgr_watchers m ++ [Starting id]), None)
      end
  end.

(* internal/runner/manager.go:229-273 Manager.Replay *)
Definition Replay (m : Manager) (id : string) : outcome (Manager * option error) :=
  match lookup_sim m id with
  | Err e => Done (m, Some e)
  | Ok mg =>
      let! s := deref m (mg_sim mg) in
      let '(s, err) := Simulation__Stop s in
      let m := store_sim m (mg_sim mg) s in
      if stop_failed err then Done (m, err) else
      match wrap_err "runner: parse run config" (json_UnmarshalRunConfig (si_Config (mg_info mg))) with
      | Err e => Done (m, Some e)
      | Ok rc =>
          let! (m, r) := instantiate m "" (mkReq id (rc_ModelID rc) (rc_ModelVersion rc) (rc_Seed rc)
            (rc_Mode rc) (rc_MaxTicks rc) (rc_MaxTime rc) (rc_Workers rc) (rc_Model rc) "") in
          match r with
          | Err e => Done (m, Some e)
          | Ok fresh =>
              let m := set_sims m (<[id := fresh]> (mgr_sims m)) in
              let! s := deref m (mg_sim fresh) in
              let '(s, err) := Simulation__Start s in
              match err with
              | Some e => Done (m, Some e)
              | None =>
                  let m := updateStatus (store_sim m (mg_sim fresh) s) id "running" in
                  Done (set_watchers m (mgr_watchers m ++ [Starting id]), None)
              end
          end
      end
  end.

Definition live_info (m : Manager) (mg : managed) : outcome SimulationInfo :=
  let! s := deref m (mg_sim mg) in Done (with_status (mg_info mg) (statusOf (sim_state s))).

(* internal/runner/manager.go:275-286 Manager.Get *)
Definition Manager__Get (m : Manager) (id : string) : outcome (option SimulationInfo) :=
  match mgr_sims m !! id with
  | None => Done None
  | Some mg => let! info := live_info m mg in Done (Some info)
  end.

(** The records in some order: Go iterates a map in an unspecified one. *)
(* internal/runner/manager.go:288-299 Manager.List *)
Definition Manager__List (m : Manager) : outcome (list SimulationInfo) :=
  ofold (λ out kv, let! info := live_info m kv.2 in Done (out ++ [info])) [] (map_to_list (mgr_sims m)).

(* internal/runner/manager.go:301-322 Manager.Delete *)
Definition Manager__Delete (m : Manager) (id : string) : outcome (Manager * option error) :=
  match lookup_sim m id with
  | Err e => Done (m, Some e)
  | Ok mg =>
      let! s := deref m (mg_sim mg) in
      if decide (sim_state s = StateRunning ∨ sim_state s = StatePaused)
      then Done (m, Some (Errorf "runner: cannot delete a running simulation"))
      else
        let '(s, err) := Simulation__Stop s in
        let m := store_sim m (mg_sim mg) s in
        if stop_failed err then Done (m, err) else
        let m := set_sims m (delete id (mgr_sims m)) in
        let '(st, err) := st_DeleteSimulation (mgr_store m) id in
        Done (set_store m st, Wrapped "runner: delete simulation" <$> err)
  end.

(* internal/runner/manager.go:372-383 Manager.Step *)
Definition Manager__Step (m : Manager) (id : string) : outcome (Manager * option error) :=
  match lookup_sim m id with
  | Err e => Done (m, Some e)
  | Ok mg =>
      let! s := deref m (mg_sim mg) in
      let! (s, err) := Runtime.Step s in
      let m := store_sim m (mg_sim mg) s in
      match err with
      | Some e => Done (m, Some e)
      | None => Done (updateStatus m id (statusOf (sim_state s)), None)
      end
  end.

Definition observe_size (n : Z) (g : Gauges) : Gauges :=
  mkGauges (ga_Started g) (ga_Active g) (ga_Failed g) (ga_Completed g) (ga_SnapshotSize g ++ [n]).

(* internal/runner/manager.go:385-414 Manager.Snapshot *)
Definition Manager__Snapshot (m : Manager) (newID id : string) : outcome (Manager * result Snapshot) :=
  match lookup_sim m id with
  | Err e => Done (m, Err e)
  | Ok mg =>
      let! s := deref m (mg_sim mg) in
      match Simulation__Snapshot s with
      | Err e => Done (m, Err e)
      | Ok snap =>
          match json_MarshalSnapshot snap with
          | Err e => Done (m, Err e)
          | Ok data =>
              let m := set_met m (observe_size (Z.of_nat (String.length data)) <$> mgr_met m) in
              let '(st, err) := st_SaveSnapshot (mgr_store m)
                (mkSnapInfo newID id (i32 (sn_SchemaVersion snap)) (sn_EngineVersion snap) data
                            (sn_Checksum snap) 0) in
              Done (set_store m st, match err with Some e => Err e | None => Ok snap end)
          end
      end
  end.

(* internal/runner/manager.go:416-423 Manager.Restore *)
Definition Manager__Restore (m : Manager) (id : string) (snap : Snapshot) : outcome (Manager * option error) :=
  match lookup_sim m id with
  | Err e => Done (m, Some e)
  | Ok mg =>
      let! s := deref m (mg_sim mg) in
      let! (s, err) := Simulation__Restore s snap in
      Done (store_sim m (mg_sim mg) s, err)
  end.

(* internal/runner/manager.go:425-439 Manager.State *)
Definition Manager__State (m : Manager) (id : string) : outcome (result StateReport) :=
  match lookup_sim m id with
  | Err e => Done (Err e)
  | Ok mg =>
      let! s := deref m (mg_sim mg) in
      Done (Ok (mkState id (statusOf (sim_state s)) (Clock__Tick (w_Clock (sim_world s)))
                  (Clock__Time (w_Clock (sim_world s))) (Ticks s)))
  end.

(* internal/runner/manager.go:441-461 Manager.Metrics *)
Definition Manager__Metrics (m : Manager) (id : string) : outcome (result MetricsReport) :=
  match lookup_sim m id with
  | Err e => Done (Err e)
  | Ok mg =>
      let! s := deref m (mg_sim mg) in
      Done (Ok (mkMetrics id (statusOf (sim_state s)) (Ticks s) (Clock__Tick (w_Clock (sim_world s)))
                  (Clock__Time (w_Clock (sim_world s))) (EntityManager__Len (w_Entities (sim_world s)))
                  (EventQueue__Len (w_Events (sim_world s)))
                  (match mv_Metrics (mg_model mg) with Some f => f (sim_m s) | None => ∅ end)))
  end.

(** A watcher looks its record up once, and later, when [Wait] has returned, settles the gauges
    and the status; the two halves are separate steps of its goroutine. *)
Definition watch_lookup (m : Manager) (i : nat) : option Manager :=
  match mgr_watchers m !! i with
  | Some (Starting id) =>
      match mgr_sims m !! id with
      | None => Some (set_watchers m (delete i (mgr_watchers m)))
      | Some mg => Some (set_watchers m (<[i := Waiting id mg]> (mgr_watchers m)))
      end
  | _ => None
  end.

Definition ended (st : SimState) (g : Gauges) : Gauges :=
  if decide (st = StateFailed)
  then mkGauges (ga_Started g) (ga_Active g - 1) (ga_Failed g + 1) (ga_Completed g) (ga_SnapshotSize g)
  else mkGauges (ga_Started g) (ga_Active g - 1) (ga_Failed g) (ga_Completed g + 1) (ga_SnapshotSize g).

(* internal/runner/manager.go:491-510 Manager.watch *)
Definition watch_settle (m : Manager) (i : nat) : option (outcome Manager) :=
  match mgr_watchers m !! i with
  | Some (Waiting id mg) =>
      Some (let! s := deref m (mg_sim mg) in
            let m := set_met m (ended (sim_state s) <$> mgr_met m) in
            let m := updateStatus m id (statusOf (sim_state s)) in
            Done (set_watchers m (delete i (mgr_watchers m))))
  | _ => None
  end.

(** ** Replay *)

(** Entries are found under their own identifier and version. *)
Record reg_ok (r : @Registry Factory) : Prop := {
  ro_get id e : no_at id → Registry__Get r id = Some e →
    mi_ID (en_Info e) = id ∧ GetVersion r id (mi_Version (en_Info e)) = Some e;
  ro_version id v e : no_at id → GetVersion r id v = Some e → mi_ID (en_Info e) = id ∧ mi_Version (en_Info e) = v;
}.

(** Every registry filled by registrations of identifiers without '@' is such. *)
Lemma reg_run_ok (ops : list (ModelInfo * Factory)) :
  Forall (λ op, no_at (mi_ID op.1)) ops → reg_ok (reg_run ops).
Proof using Type.
  intros Hops. split.
  - intros id e Hid. unfold Registry__Get. destruct (reg_latest _ !! id) as [v|]; [|done].
    fold (GetVersion (reg_run ops) id v). intros Hv. pose proof Hv as Hv'.
    rewrite GetVersion_last in Hv' by done. apply last_reg_Some in Hv' as [H1 H2]. by rewrite H2.
  - intros id v e Hid Hv. rewrite GetVersion_last in Hv by done. by apply last_reg_Some in Hv.
Qed.

Lemma New_mode cfg (mo : Model M) s sim :
  New GOMAXPROCS cfg mo s = Done (Ok sim) →
  (cfg_Mode cfg = ModeTick ∨ cfg_Mode cfg = ModeEvent) ∧ sim_state sim = StateIdle ∧ sim_observed sim = None.
Proof using Type.
  unfold New, newExecutor. intros H. inv_bind H as re Hre.
  destruct re as [exec|]; [|done]. inv_bind H as [[m w] err] Hi. destruct err; [done|]. injection H as <-.
  split; [|done]. destruct (Z.eqb_spec (cfg_Mode cfg) ModeTick); [by left|].
  destruct (Z.eqb_spec (cfg_Mode cfg) ModeEvent); [by right|done].
Qed.

(** The request that [Replay] makes from the stored run configuration. *)
Definition replay_request (id : string) (entry : @Entry Factory) (mode : Mode) (req : CreateRequest)
    (model : rawJSON) : CreateRequest :=
  mkReq id (mi_ID (en_Info entry)) (mi_Version (en_Info entry)) (cr_Seed req) (Mode__String mode)
    (cr_MaxTicks req) (cr_MaxTime req) (cr_Workers req) model "".

Definition request_config (entry : @Entry Factory) (mode : Mode) (req : CreateRequest) : runConfig :=
  mkRC (mi_ID (en_Info entry)) (mi_Version (en_Info entry)) (cr_Seed req) (Mode__String mode)
    (cr_MaxTicks req) (cr_MaxTime req) (cr_Workers req) (cr_Config req).

Context {L : PersistenceLaws St} {CL : RunConfigLaws}.

(** The model behaves the same on every text of the configuration document. *)
Definition stable_config (mv : ModelValue) (raw : rawJSON) : Prop :=
  ∀ raw', json_same raw raw' → configure mv raw' = configure mv raw.

(** Building again from the stored configuration gives the same simulation. *)
Lemma build_again entry mv newID req sim info :
  build entry mv newID req = Done (Ok (sim, info)) → stable_config mv (cr_Config req) →
  newID ≠ ""%string →
  ∃ mode, sim_state sim = StateIdle ∧ sim_observed sim = None ∧ si_ID info ≠ ""%string ∧
    ascii_text (Mode__String mode) ∧ json_MarshalRunConfig (request_config entry mode req) = Ok (si_Config info) ∧
    ∀ model' id', json_same (cr_Config req) model' → ∃ info',
      build entry mv id' (replay_request (si_ID info) entry mode req model') = Done (Ok (sim, info')).
Proof using L CL.
  intros Hb Hst Hid. unfold build in Hb. destruct (configure mv (cr_Config req)) as [s|] eqn:Ec; [|done].
  destruct (request_mode mv req) as [mode|] eqn:Em; [|done]. cbv zeta in Hb. inv_bind Hb as r Hn.
  destruct r as [sim'|]; [|done]. cbn [wrap_err] in Hb.
  fold (request_config entry mode req) in Hb.
  destruct (json_MarshalRunConfig (request_config entry mode req)) as [raw|] eqn:Ej; [|done].
  injection Hb as -> <-. cbn [si_ID si_Config]. destruct (New_mode _ _ _ _ Hn) as (Hm & Hidle & Hobs). cbn in Hm.
  exists mode. split; [done|]. split; [done|]. set (id := if decide _ then _ else _) in *.
  assert (id ≠ ""%string) as Hne by (unfold id; by case_decide).
  split; [done|]. split; [by destruct Hm as [-> | ->]|]. split; [done|]. intros model' id' Hsame.
  unfold build, replay_request. cbn [cr_Config cr_Mode cr_ID cr_Seed cr_MaxTicks cr_MaxTime cr_Workers].
  rewrite Hst, Ec by done. unfold request_mode. cbn [cr_Mode].
  assert (∃ raw', json_MarshalRunConfig (mkRC (mi_ID (en_Info entry)) (mi_Version (en_Info entry)) (cr_Seed req)
    (Mode__String mode) (cr_MaxTicks req) (cr_MaxTime req) (cr_Workers req) model') = Ok raw') as [raw' Hraw].
  { by apply (run_config_again (request_config entry mode req) raw). }
  assert ((if decide (Mode__String mode = ""%string) then Ok (mm_Mode (mo_Metadata (mv_model mv)))
    else if decide (Mode__String mode = "tick"%string) then Ok ModeTick
    else if decide (Mode__String mode = "event"%string) then Ok ModeEvent
    else Err (Errorf "runner: invalid mode")) = Ok mode) as ->.
  { by destruct Hm as [-> | ->]. }
  rewrite decide_False by done. rewrite Hn. cbn [obind wrap_err]. rewrite Hraw. by eexists.
Qed.

(** A successful instantiation, taken apart. *)
Lemma instantiate_Ok m newID req m1 mg :
  instantiate m newID req = Done (m1, Ok mg) →
  ∃ entry sim, cr_Seed req ≤ 2 ^ 63 - 1 ∧ find_entry (mgr_registry m) req = Ok entry ∧
    en_Factory entry = Some (mg_model mg) ∧
    build entry (mg_model mg) newID req = Done (Ok (sim, mg_info mg)) ∧
    mg_sim mg = length (mgr_heap m) ∧ mgr_heap m1 = mgr_heap m ++ [Manager__observe m sim] ∧ mgr_sims m1 = mgr_sims m ∧
    (st_UpsertModel (mgr_store m) (en_Info entry)).2 = None.
Proof using Type.
  unfold instantiate. intros H. destruct (Z.ltb_spec (2 ^ 63 - 1) (cr_Seed req)) as [|Hseed]; [done|].
  destruct (find_entry (mgr_registry m) req) as [entry|] eqn:Ef; [|done].
  destruct (en_Factory entry) as [mv|] eqn:Efac; [|done].
  destruct (st_UpsertModel (mgr_store m) (en_Info entry)) as [st err] eqn:Eu. destruct err; [done|].
  inv_bind H as r Hb. destruct r as [[sim info]|]; [|done]. injection H as <- <-.
  exists entry, sim. rewrite Eu. cbn. done.
Qed.

Lemma find_entry_registered r req entry :
  find_entry r req = Ok entry → ∃ k, reg_entries r !! k = Some entry.
Proof using Type.
  unfold find_entry, Registry__Get, GetVersion. intros H.
  destruct (reg_latest r !! cr_ModelID req) as [v|]; [|done].
  destruct (reg_entries r !! reg_key (cr_ModelID req) v) as [e|] eqn:E; [|done].
  case_decide; [injection H as <-; by eexists|].
  destruct (reg_entries r !! reg_key (cr_ModelID req) (cr_ModelVersion req)) as [e'|] eqn:E'; [|done].
  injection H as <-. by eexists.
Qed.

(** The entry of a request is found again under its own identifier and version. *)
Lemma find_entry_again r req entry req' :
  reg_ok r → no_at (cr_ModelID req) → find_entry r req = Ok entry →
  cr_ModelID req' = mi_ID (en_Info entry) → cr_ModelVersion req' = mi_Version (en_Info entry) →
  find_entry r req' = Ok entry.
Proof using Type.
  intros Hok Hno Hf Hid' Hv'. unfold find_entry in *. rewrite Hid', Hv'.
  destruct (Registry__Get r (cr_ModelID req)) as [latest|] eqn:Eg; [|done].
  destruct (ro_get r Hok _ _ Hno Eg) as [Hlid Hlv].
  destruct (decide (cr_ModelVersion req = ""%string)) as [Ev|Ev].
  - injection Hf as <-. rewrite Hlid, Eg, Hlv. by case_decide.
  - destruct (GetVersion r (cr_ModelID req) (cr_ModelVersion req)) as [e|] eqn:Egv; [|done]. injection Hf as ->.
    destruct (ro_version r Hok _ _ _ Hno Egv) as [Hid Hv]. rewrite Hid, Eg, Hv, Egv. by rewrite decide_False.
Qed.

Lemma stopped_sim s : let s' := fst (Simulation__Stop s) in
  sim_state s' ≠ StateRunning ∧ sim_state s' ≠ StatePaused ∧ stop_failed (snd (Simulation__Stop s)) = false.
Proof using Type.
  unfold Simulation__Stop. destruct (decide (sim_state s = StateRunning ∨ sim_state s = StatePaused)) as [|Hn].
  - done.
  - cbn. split_and!; [naive_solver..|done].
Qed.

(** The request [Replay] makes for a decoded run configuration. *)
Definition request_of (id : string) (rc : runConfig) : CreateRequest :=
  mkReq id (rc_ModelID rc) (rc_ModelVersion rc) (rc_Seed rc) (rc_Mode rc) (rc_MaxTicks rc)
    (rc_MaxTime rc) (rc_Workers rc) (rc_Model rc) "".

(** [Replay] when every call it makes succeeds. *)
Lemma Replay_exec m id mg sr rc entry mv sim info2 :
  mgr_sims m !! id = Some mg → mgr_heap m !! mg_sim mg = Some sr →
  json_UnmarshalRunConfig (si_Config (mg_info mg)) = Ok rc → rc_Seed rc ≤ 2 ^ 63 - 1 →
  find_entry (mgr_registry m) (request_of id rc) = Ok entry → en_Factory entry = Some mv →
  snd (st_UpsertModel (mgr_store m) (en_Info entry)) = None →
  build entry mv "" (request_of id rc) = Done (Ok (sim, info2)) → sim_state sim = StateIdle →
  ∃ m3, Replay m id = Done (m3, None) ∧
    mgr_sims m3 !! id = Some (mkManaged (length (mgr_heap m)) mv info2) ∧
    mgr_heap m3 !! length (mgr_heap m) = Some (set_state (Manager__observe m sim) StateRunning None 0) ∧
    mgr_heap m3 !! mg_sim mg = Some (fst (Simulation__Stop sr)).
Proof using Type.
  intros Hm Hs Hun Hseed Hf Hfac Hup Hb Hidle. unfold Replay, lookup_sim, deref. rewrite Hm, Hs. cbn [obind].
  destruct (stopped_sim sr) as (_ & _ & Hstop). destruct (Simulation__Stop sr) as [s1 err].
  cbn [fst snd] in *. rewrite Hstop, Hun. cbn [wrap_err]. fold (request_of id rc).
  unfold instantiate. cbn [request_of cr_Seed]. fold (request_of id rc).
  destruct (Z.ltb_spec (2 ^ 63 - 1) (rc_Seed rc)); [lia|].
  cbn [mgr_registry store_sim set_heap mgr_store set_store mgr_heap mgr_sims].
  rewrite Hf, Hfac. destruct (st_UpsertModel (mgr_store m) (en_Info entry)) as [st e]. cbn [snd] in Hup. subst e.
  rewrite Hb. cbn [obind]. unfold deref.
  cbn [mgr_heap set_sims set_heap mg_sim store_sim set_store mgr_sims].
  rewrite length_insert, lookup_app_r by (rewrite length_insert; lia).
  rewrite length_insert, Nat.sub_diag. cbn [lookup list_lookup obind].
  unfold Simulation__Start, begin. unfold Manager__observe in *. cbn [mgr_met set_heap set_store store_sim].
  rewrite decide_False by (by destruct (mgr_met m); cbn; rewrite Hidle).
  eexists. split; [reflexivity|]. unfold updateStatus.
  cbn [mgr_sims mgr_heap set_watchers set_store store_sim set_heap set_sims]. split_and!.
  - by rewrite lookup_insert_eq.
  - apply list_lookup_insert_eq. rewrite length_app, length_insert. cbn. lia.
  - pose proof (lookup_lt_Some _ _ _ Hs). rewrite list_lookup_insert_ne by lia.
    rewrite lookup_app_l by (rewrite length_insert; lia). by apply list_lookup_insert_eq.
Qed.

(** [Replay] re-runs a simulation from its beginning: however far the simulation created by a
    request has run, replaying it stops it and starts a simulation that is equal, model state,
    world, executor and configuration, to the one [Create] built, before its first step.  The
    registry must be unchanged and name its models in ASCII, the store must accept the model again,
    and the model must configure itself alike from every text of the stored configuration
    document. *)
Lemma Replay_again m newID req m1 info mg s0 m2 :
  Manager__Create m newID req = Done (m1, Ok info) →
  mgr_sims m1 !! si_ID info = Some mg → mgr_heap m1 !! mg_sim mg = Some s0 →
  newID ≠ ""%string → reg_ok (mgr_registry m) → ascii_models (mgr_registry m) → no_at (cr_ModelID req) →
  stable_config (mg_model mg) (cr_Config req) →
  mgr_registry m2 = mgr_registry m → mgr_sims m2 !! si_ID info = Some mg →
  is_Some (mgr_heap m2 !! mg_sim mg) →
  (∀ i, snd (st_UpsertModel (mgr_store m) i) = None → snd (st_UpsertModel (mgr_store m2) i) = None) →
  ∃ m3 mg' s, Replay m2 (si_ID info) = Done (m3, None) ∧ mgr_sims m3 !! si_ID info = Some mg' ∧
    mgr_heap m3 !! mg_sim mg' = Some (Manager__observe m2 (set_state (set_observed s0 None) StateRunning None 0)) ∧
    mgr_heap m3 !! mg_sim mg = Some s ∧ sim_state s ≠ StateRunning ∧ sim_state s ≠ StatePaused.
Proof using L CL.
  intros Hcr Hmg Hs0 Hnew Hreg Hascii Hno Hst Hr2 Hm2 [sr Hsr] Hup. unfold Manager__Create in Hcr.
  inv_bind Hcr as [mi r] Hi. destruct r as [mg0|]; [|done].
  destruct (instantiate_Ok _ _ _ _ _ Hi) as (entry & sim & Hseed & Hf & Hfac & Hb & Hh & Hheap & Hsims & Hup0).
  destruct (st_CreateSimulation (mgr_store mi) (mg_info mg0)) as [st' rc] eqn:Ecr.
  destruct rc as [info'|]; [|done]. cbn [wrap_err] in Hcr. injection Hcr as <- <-.
  cbn [mgr_sims set_sims] in Hmg. rewrite lookup_insert_eq in Hmg. injection Hmg as <-.
  cbn [mg_sim mg_model mgr_heap set_sims set_store] in *.
  assert (s0 = Manager__observe m sim) as ->.
  { rewrite Hheap, Hh, lookup_app_r, Nat.sub_diag in Hs0 by lia. by injection Hs0. }
  destruct (build_again entry (mg_model mg0) newID req sim (mg_info mg0) Hb Hst Hnew)
    as (mode & Hidle & Hobs & Hne & Hmode & Hmar & Hagain).
  destruct (find_entry_registered _ _ _ Hf) as [k [Hid1 Hv1]%Hascii].
  destruct (create_returns _ _ _ _ Ecr) as [Hid Hconf]; [by eapply run_config_document|].
  destruct (run_config_round_trip (request_config entry mode req) _ _ (conj Hid1 (conj Hv1 Hmode)) Hmar Hconf) as (model' & Hun & Hsame).
  destruct (Hagain model' ""%string Hsame) as [info2 Hb2]. rewrite <- Hid in Hb2.
  destruct (stopped_sim sr) as (Hn1 & Hn2 & _).
  destruct (Replay_exec m2 (si_ID info') _ sr _ entry (mg_model mg0) sim info2 Hm2 Hsr Hun)
    as (m3 & Hrep & Hs3 & Hh3 & Ho3); [done| |done|by apply Hup|exact Hb2|done|].
  - rewrite Hr2. by eapply find_entry_again.
  - exists m3. do 2 eexists. split; [done|]. split; [done|]. split; [|done]. cbn [mg_sim]. rewrite Hh3. f_equal.
    unfold Manager__observe, SetStepObserver, set_observed, set_state. destruct sim. cbn in Hobs. subst.
    by destruct (mgr_met m), (mgr_met m2).
Qed.
(** When the store does not take the model, [Replay] fails, but the simulation has been stopped. *)
Lemma Replay_refused m id mg :
  mgr_sims m !! id = Some mg → is_Some (mgr_heap m !! mg_sim mg) →
  (∀ i, is_Some (st_UpsertModel (mgr_store m) i).2) →
  ∃ m3 e s, Replay m id = Done (m3, Some e) ∧ mgr_sims m3 !! id = Some mg ∧ mgr_heap m3 !! mg_sim mg = Some s ∧
    sim_state s ≠ StateRunning ∧ sim_state s ≠ StatePaused.
Proof using Type.
  intros Hm [sr Hsr] Hno. unfold Replay, lookup_sim, deref. rewrite Hm, Hsr. cbn [obind].
  destruct (stopped_sim sr) as (Hn1 & Hn2 & Hstop). destruct (Simulation__Stop sr) as [s1 err]. cbn [fst snd] in *.
  rewrite Hstop. pose proof (lookup_lt_Some _ _ _ Hsr) as Hlt.
  destruct (json_UnmarshalRunConfig _) as [rc|]; cbn [wrap_err].
  2: { do 2 eexists. exists s1. split; [done|]. split; [done|]. split; [|done]. by apply list_lookup_insert_eq. }
  unfold instantiate. destruct (_ <? _).
  { do 2 eexists. exists s1. split; [done|]. split; [done|]. split; [|done]. by apply list_lookup_insert_eq. }
  destruct (find_entry _ _) as [entry|].
  2: { do 2 eexists. exists s1. split; [done|]. split; [done|]. split; [|done]. by apply list_lookup_insert_eq. }
  destruct (en_Factory entry) as [mv|].
  2: { do 2 eexists. exists s1. split; [done|]. split; [done|]. split; [|done]. by apply list_lookup_insert_eq. }
  cbn [mgr_store store_sim set_heap]. destruct (Hno (en_Info entry)) as [e He].
  destruct (st_UpsertModel (mgr_store m) (en_Info entry)) as [st er]. cbn in He. subst er.
  do 2 eexists. exists s1. split; [done|]. split; [done|]. split; [|done]. by apply list_lookup_insert_eq.
Qed.
End manager.

(** ** A concrete manager *)

Module ToyManager.

(** A store that keeps the status of every simulation. *)
#[global] Instance store : Persistence (gmap string string) := {
  st_UpsertModel st _ := (st, None);
  st_CreateSimulation st si := (<[si_ID si := si_Status si]> st, Ok si);
  st_UpdateSimulationStatus st id status := (<[id := status]> st, None);
  st_DeleteSimulation st id := (delete id st, None);
  st_SaveSnapshot st _ := (st, None);
}.

(** Run configurations without a time limit, as texts. *)
#[global] Instance codec : RunConfigCodec := {
  json_MarshalRunConfig rc :=
    match rc_MaxTime rc with
    | SpecFloat.S754_zero false =>
        Ok (ToyQueue.bits (encode (rc_ModelID rc, rc_ModelVersion rc, rc_Seed rc, rc_Mode rc,
                                   rc_MaxTicks rc, rc_Workers rc, rc_Model rc)))
    | _ => Err (Errorf "unsupported value")
    end;
  json_UnmarshalRunConfig raw :=
    match decode (A := string * string * Z * string * Z * Z * string) (ToyQueue.unbits raw) with
    | Some (a, b, c, d, e, f, g) => Ok (mkRC a b c d e fzero f g)
    | None => Err (Errorf "invalid character")
    end;
  json_same := eq;
}.

#[global] Instance laws : PersistenceLaws (gmap string string).
Proof. split. intros st si st' si' [= _ <-]. done. Qed.

#[global] Instance codec_laws : RunConfigLaws.
Proof.
  split.
  - intros [a b c d e x f g] raw. cbn. destruct x as [[]| | |]; try done. intros [= <-].
    by destruct (encode _).
  - intros rc raw model' H <-. exists raw. by destruct rc.
  - intros rc raw raw' _ H <-. destruct rc as [a b c d e x f g]. cbn in *.
    destruct x as [[]| | |]; try done. injection H as <-.
    rewrite ToyQueue.unbits_bits, decode_encode. by exists g.
Qed.

Definition info : ModelInfo := mkInfo "toy" "Toy" "1.0" "" "tick" "" "" "" 0.
Definition factory : option (ModelValue (M := nat)) := Some (mkMV ToySim.model 0%nat None None).
Definition registry : @Registry (option (ModelValue (M := nat))) := reg_run [(info, factory)].
Definition manager : Manager (R := Toy.runtime) (M := nat) (St := gmap string string) :=
  Manager__SetMetrics (NewManager ∅ registry) (Some (mkGauges 0 0 0 0 [])).
Definition request : CreateRequest := mkReq "" "toy" "" 7 "" 5 fzero 1 "" "alice".

(** A simulation created and started. *)
Definition script : outcome (Manager (R := Toy.runtime) (M := nat) (St := gmap string string)) :=
  let! (m, _) := Manager__Create 4 manager "s1" request in
  let! (m, _) := Manager__Start m "s1" in
  Done m.
End ToyManager.

Definition of_option {A} (o : option A) : outcome A :=
  match o with Some a => Done a | None => Panic "not enabled" end.

(** What else [Replay] does.  It instantiates without the owner, so the record served afterwards
    has lost it.  The watcher of the stopped run still reports to the same identifier: it marks
    the replayed simulation, which is running, as stopped in the store.  And it counts the active
    simulations down for both runs although only [Start] counted up. *)
Theorem replay_side_effects :
  (let! m := ToyManager.script in
   let! m := of_option (watch_lookup m 0) in
   let! before := Manager__Get m "s1" in
   let! (m, err) := Replay 4 m "s1" in
   let! m := default (Panic "no watcher") (watch_settle m 0) in
   let! after := Manager__Get m "s1" in
   let status := mgr_store m !! "s1"%string in
   let! m := of_option (watch_lookup m 0) in
   let! m := default (Panic "no watcher") (watch_settle m 0) in
   Done (before ≫= si_OwnerID, err, after ≫= si_OwnerID, si_Status <$> after, status,
         ga_Active <$> mgr_met m))
  = Done (Some "alice", None, None, Some "running", Some "stopped", Some (-1))%string.
Proof. vm_compute. reflexivity. Qed.
