(* ===== verification/ManagerRuns.v ===== *)
(** * Histories of the simulation manager: the books it keeps

    Any sequence of the calls of [internal/runner/manager.go], of the steps of its watcher
    goroutines and of progress of the background runs, and what the gauges of the manager say
    after it. *)

From S2P Require Import Prelude Float64 GoValues Events World Snapshot Scheduler Runtime Registry JobQueue Manager.
Local Open Scope Z_scope.

Section histories.
Context `{R : GoRuntime} `{K : Checksummer} {M : Type} {St : Type} `{P : Persistence St} `{C : RunConfigCodec}.
Context (GOMAXPROCS : Z).
Abbreviation Mgr := (Manager (M := M) (St := St)).
Implicit Types (m : Mgr) (g : Gauges).

Inductive MOp :=
  | MCreate (newID : string) (req : CreateRequest)
  | MStart (id : string)
  | MPause (id : string)
  | MResume (id : string)
  | MStop (id : string)
  | MStep (id : string)
  | MSnapshot (newID id : string)
  | MRestore (id : string) (snap : Snapshot)
  | MReplay (id : string)
  | MDelete (id : string)
  | MLookup (i : nat)                          (** a watcher looks its simulation up *)
  | MSettle (i : nat)                          (** a watcher whose [Wait] has returned *)
  | MProgress (h : nat) (s : Simulation M).    (** a background run has changed its simulation *)

(** A step of a watcher that is not there is none. *)
Definition m_exec m (op : MOp) : outcome Mgr :=
  match op with
  | MCreate newID req => let! (m, _) := Manager__Create GOMAXPROCS m newID req in Done m
  | MStart id => let! (m, _) := Manager__Start m id in Done m
  | MPause id => let! (m, _) := Manager__Pause m id in Done m
  | MResume id => let! (m, _) := Manager__Resume m id in Done m
  | MStop id => let! (m, _) := Manager__Stop m id in Done m
  | MStep id => let! (m, _) := Manager__Step m id in Done m
  | MSnapshot newID id => let! (m, _) := Manager__Snapshot m newID id in Done m
  | MRestore id snap => let! (m, _) := Manager__Restore m id snap in Done m
  | MReplay id => let! (m, _) := Replay GOMAXPROCS m id in Done m
  | MDelete id => let! (m, _) := Manager__Delete m id in Done m
  | MLookup i => Done (default m (watch_lookup m i))
  | MSettle i => default (Done m) (watch_settle m i)
  | MProgress h s => Done (store_sim m h s)
  end.

Definition replays (op : MOp) : bool := match op with MReplay _ => true | _ => false end.

(** What a call leaves of the books: all, or all but the sizes of snapshots. *)
Definition same_books m m' : Prop :=
  mgr_watchers m' = mgr_watchers m ∧
  (λ g, (ga_Started g, ga_Active g, ga_Failed g, ga_Completed g)) <$> mgr_met m' =
  (λ g, (ga_Started g, ga_Active g, ga_Failed g, ga_Completed g)) <$> mgr_met m.

Lemma same_books_refl m : same_books m m.
Proof using Type. done. Qed.

Lemma same_books_trans m1 m2 m3 : same_books m1 m2 → same_books m2 m3 → same_books m1 m3.
Proof using Type. intros [H1 H2] [H3 H4]. split; congruence. Qed.

Lemma instantiate_books m newID req m' r : instantiate GOMAXPROCS m newID req = Done (m', r) → same_books m m'.
Proof using Type.
  unfold instantiate. intros H. repeat (case_match; simplify_eq/=; try done). inv_bind H as x Hx. by destruct x as [[? ?]|]; simplify_eq/=.
Qed.

Lemma Create_books m newID req m' r : Manager__Create GOMAXPROCS m newID req = Done (m', r) → same_books m m'.
Proof using Type.
  unfold Manager__Create. intros H. inv_bind H as x Hx. destruct x as [m1 [mg|e]]; apply instantiate_books in Hx; [|by injection H as <- <-].
  eapply same_books_trans; [exact Hx|]. destruct (st_CreateSimulation _ _) as [st [info|e]]; cbn in H; by injection H as <- <-.
Qed.

Lemma control_books m id status f m' r : control m id status f = Done (m', r) → same_books m m'.
Proof using Type.
  unfold control. intros H. destruct (lookup_sim m id); [|by injection H as <- <-]. inv_bind H as s Hs.
  destruct (f s) as [s' [e|]]; by injection H as <- <-.
Qed.

Lemma Step_books m id m' r : Manager__Step m id = Done (m', r) → same_books m m'.
Proof using Type.
  unfold Manager__Step. intros H. destruct (lookup_sim m id); [|by injection H as <- <-]. inv_bind H as s Hs. inv_bind H as x Hx.
  destruct x as [s' [e|]]; by injection H as <- <-.
Qed.

Lemma Snapshot_books m newID id m' r : Manager__Snapshot m newID id = Done (m', r) → same_books m m'.
Proof using Type.
  unfold Manager__Snapshot. intros H. destruct (lookup_sim m id); [|by injection H as <- <-]. inv_bind H as s Hs.
  destruct (Simulation__Snapshot s) as [snap|]; [|by injection H as <- <-].
  destruct (json_MarshalSnapshot snap) as [data|]; [|by injection H as <- <-]. destruct (st_SaveSnapshot _ _) as [st err].
  injection H as <- _. split; [done|]. cbn. by destruct (mgr_met m).
Qed.

Lemma Restore_books m id snap m' r : Manager__Restore m id snap = Done (m', r) → same_books m m'.
Proof using Type.
  unfold Manager__Restore. intros H. destruct (lookup_sim m id); [|by injection H as <- <-]. inv_bind H as s Hs. inv_bind H as x Hx.
  destruct x as [s' e]; by injection H as <- <-.
Qed.

Lemma Delete_books m id m' r : Manager__Delete m id = Done (m', r) → same_books m m'.
Proof using Type.
  unfold Manager__Delete. intros H. destruct (lookup_sim m id); [|by injection H as <- <-]. inv_bind H as s Hs.
  destruct (decide _); [by injection H as <- <-|]. destruct (Simulation__Stop s) as [s' err]. destruct (stop_failed err); [by injection H as <- <-|].
  destruct (st_DeleteSimulation _ _) as [st e]. by injection H as <- _.
Qed.

(** [Replay] does not touch the gauges, and may start a watcher. *)
Lemma Replay_books m id m' r : Replay GOMAXPROCS m id = Done (m', r) →
  same_books m m' ∨ same_books (set_watchers m (mgr_watchers m ++ [Starting id])) m'.
Proof using Type.
  unfold Replay. intros H. destruct (lookup_sim m id) as [mg|]; [|left; by injection H as <- <-]. inv_bind H as s Hs.
  destruct (Simulation__Stop s) as [s' err]. destruct (stop_failed err); [left; by injection H as <- <-|].
  destruct (wrap_err _ _) as [rc|]; [|left; by injection H as <- <-]. inv_bind H as x Hx. destruct x as [m1 r1].
  apply instantiate_books in Hx as [Hw Hg]. cbn in Hw, Hg. destruct r1 as [fresh|]; [|left; by injection H as <- <-].
  inv_bind H as s1 Hs1. destruct (Simulation__Start s1) as [s2 [e|]]; injection H as <- _; [by left|right]. split; cbn; [by rewrite Hw|done].
Qed.

(** [Start] counts a start and an active run, and starts a watcher, or does nothing. *)
Lemma Start_books m id m' r : Manager__Start m id = Done (m', r) →
  same_books m m' ∨ mgr_watchers m' = mgr_watchers m ++ [Starting id] ∧ mgr_met m' = started <$> mgr_met m.
Proof using Type.
  unfold Manager__Start. intros H. destruct (lookup_sim m id) as [mg|]; [|left; by injection H as <- <-]. inv_bind H as s Hs.
  destruct (Simulation__Start s) as [s' [e|]]; injection H as <- _; [by left|by right].
Qed.

(** A watcher leaves silently or keeps waiting; one that settles counts the end of a run. *)
Lemma Lookup_books m i : let m' := default m (watch_lookup m i) in
  mgr_met m' = mgr_met m ∧ (length (mgr_watchers m') ≤ length (mgr_watchers m))%nat.
Proof using Type.
  unfold watch_lookup. destruct (mgr_watchers m !! i) as [[id|id mg]|] eqn:E; [|done..]. pose proof (lookup_lt_Some _ _ _ E).
  destruct (mgr_sims m !! id); cbn; (split; [done|]); [by rewrite length_insert|]. rewrite length_delete; [lia|done].
Qed.

Lemma Settle_books m i m' : default (Done m) (watch_settle m i) = Done m' →
  same_books m m' ∨ length (mgr_watchers m) = S (length (mgr_watchers m')) ∧ ∃ st, mgr_met m' = ended st <$> mgr_met m.
Proof using Type.
  unfold watch_settle. destruct (mgr_watchers m !! i) as [[id|id mg]|] eqn:E; cbn; [by intros [= <-]; left| |by intros [= <-]; left].
  intros H. inv_bind H as s Hs. injection H as <-. right. cbn. pose proof (lookup_lt_Some _ _ _ E). split; [|by eexists].
  rewrite length_delete by done. lia.
Qed.

(** What an operation enters in the books. *)
Inductive entry (op : MOp) m m' : Prop :=
  | ENothing : same_books m m' → entry op m m'
  | EStart id : mgr_watchers m' = mgr_watchers m ++ [Starting id] → mgr_met m' = started <$> mgr_met m → entry op m m'
  | EReplay w : replays op = true → same_books (set_watchers m w) m' → entry op m m'
  | ELookup : mgr_met m' = mgr_met m → (length (mgr_watchers m') ≤ length (mgr_watchers m))%nat → entry op m m'
  | ESettle st : length (mgr_watchers m) = S (length (mgr_watchers m')) → mgr_met m' = ended st <$> mgr_met m → entry op m m'.

Lemma m_exec_entry m op m' : m_exec m op = Done m' → entry op m m'.
Proof using Type.
  intros H. destruct op; cbn in H; try (inv_bind H as x Hx; destruct x as [m1 r1]; injection H as <-).
  - eapply ENothing, Create_books, Hx.
  - destruct (Start_books _ _ _ _ Hx) as [Hs|[Hw Hg]]; [by apply ENothing|by eapply EStart].
  - eapply ENothing, control_books, Hx.
  - eapply ENothing, control_books, Hx.
  - eapply ENothing, control_books, Hx.
  - eapply ENothing, Step_books, Hx.
  - eapply ENothing, Snapshot_books, Hx.
  - eapply ENothing, Restore_books, Hx.
  - destruct (Replay_books _ _ _ _ Hx) as [Hs|Hs]; [by apply ENothing|by eapply EReplay].
  - eapply ENothing, Delete_books, Hx.
  - injection H as <-. destruct (Lookup_books m i). by apply ELookup.
  - destruct (Settle_books _ _ _ H) as [Hs|(Hl & st & Hg)]; [by apply ENothing|by eapply ESettle].
  - injection H as <-. by apply ENothing.
Qed.

(** The gauges, if there are any, balance and cover the watchers. *)
Definition kept_books (replayed : bool) m : Prop :=
  ∃ g, mgr_met m = Some g ∧ ga_Started g = ga_Active g + ga_Failed g + ga_Completed g ∧
    (replayed = false → Z.of_nat (length (mgr_watchers m)) ≤ ga_Active g).

Lemma entry_kept op m m' b : entry op m m' → kept_books b m → kept_books (b || replays op) m'.
Proof using Type.
  intros He (g & Hm & Hb & Hw). destruct He as [[Hl Hg]|id Hl Hg|w Hr [_ Hg]|Hg Hl|st Hl Hg].
  - rewrite Hm in Hg. destruct (mgr_met m') as [g'|] eqn:E; [|done]. injection Hg as H1 H2 H3 H4. exists g'.
    rewrite E, Hl, H1, H2, H3, H4. split_and!; [done|done|]. intros [? _]%orb_false_iff. by apply Hw.
  - rewrite Hm in Hg. exists (started g). split; [done|]. rewrite Hl, length_app. cbn. split; [lia|]. intros [? _]%orb_false_iff.
    specialize (Hw ltac:(done)). lia.
  - cbn in Hg. rewrite Hm in Hg. destruct (mgr_met m') as [g'|] eqn:E; [|done]. injection Hg as H1 H2 H3 H4. exists g'.
    rewrite E, H1, H2, H3, H4, Hr, orb_true_r. by split_and!.
  - exists g. rewrite Hg. split_and!; [done|done|]. intros [? _]%orb_false_iff. specialize (Hw ltac:(done)). lia.
  - rewrite Hm in Hg. exists (ended st g). split; [done|]. unfold ended. case_decide; cbn; (split; [lia|]);
      intros [? _]%orb_false_iff; specialize (Hw ltac:(done)); lia.
Qed.

Lemma history_kept ops m m' b : ofold m_exec m ops = Done m' → kept_books b m → kept_books (b || existsb replays ops) m'.
Proof using Type.
  revert m b. induction ops as [|op ops IH]; intros m b H Hk; cbn in H |- *; [injection H as <-; by rewrite orb_false_r|].
  inv_bind H as m1 Hm1. rewrite orb_assoc. apply (IH m1); [done|]. eapply entry_kept; [by apply m_exec_entry|done].
Qed.

(** C25: the books of the manager balance: after any history of calls, watcher steps and progress of
    background runs, the simulations that were started are those counted as active, failed and
    completed; and as long as nothing is replayed, at least as many are counted as active as there
    are runs still watched, so that the gauge is never negative. *)
Theorem manager_gauges (store : St) reg ops m :
  ofold m_exec (Manager__SetMetrics (NewManager store reg) (Some (mkGauges 0 0 0 0 []))) ops = Done m →
  ∃ g, mgr_met m = Some g ∧ ga_Started g = ga_Active g + ga_Failed g + ga_Completed g ∧
    (existsb replays ops = false → 0 ≤ Z.of_nat (length (mgr_watchers m)) ≤ ga_Active g).
Proof using Type.
  intros H. destruct (history_kept ops _ m false H) as (g & Hm & Hb & Hw); [by exists (mkGauges 0 0 0 0 [])|].
  exists g. split_and!; [done|done|]. intros Hr. split; [lia|by apply Hw].
Qed.
End histories.

(** ** Witness *)

(** Created, started, watched, paused, stopped and settled. *)
Definition life : list (MOp (R := Toy.runtime) (M := nat)) :=
  [MCreate "s1" ToyManager.request; MStart "s1"; MLookup 0; MPause "s1"; MStop "s1"; MSettle 0]%string.

Lemma manager_gauges_witness :
  ∃ m g, ofold (m_exec 4) ToyManager.manager life = Done m ∧ mgr_met m = Some g ∧
    ga_Started g = ga_Active g + ga_Failed g + ga_Completed g.
Proof.
  destruct (ofold (m_exec 4) ToyManager.manager life) as [m|] eqn:H; [|vm_compute in H; discriminate H].
  destruct (manager_gauges 4 ∅ ToyManager.registry life m H) as (g & Hm & Hb & _).
  exists m, g. split; [reflexivity|]. split; [exact Hm|exact Hb].
Defined.

(** A simulation that has ended and been deleted before its watcher looked it up stays counted as
    active for ever: the watcher leaves without settling. *)
Theorem deleted_before_watched :
  (let! m := ofold (m_exec 4) ToyManager.manager
     [MCreate "s1" ToyManager.request; MStart "s1"; MStop "s1"; MDelete "s1"; MLookup 0]%string in
   Done (length (mgr_watchers m), bool_decide (mgr_sims m = ∅), ga_Active <$> mgr_met m)) = Done (0%nat, true, Some 1).
Proof. vm_compute. reflexivity. Qed.
