(* ===== verification/Counter.v ===== *)
(** * CounterWorld: [examples/counter/counter.go]

    The engine's reference model: [N] entities that each add a random increment to an
    accumulator every tick.  It is a client of the component store, the scheduler and the
    random streams; its main property, that the worker count and the interleaving of the
    shards do not change the result, is obtained from [Parallel.v]. *)

From S2P Require Import Prelude Rng SparseSet Entity GoValues Interning Component Store World Scheduler.
From S2P Require Import Parallel.
Local Open Scope Z_scope.

(** The Go struct types [Value] and [RandState] among the values of the runtime. *)
Class CounterTypes `{R : GoRuntime} := {
  type_Value : gotype;
  type_RandState : gotype;
  Value : Z → value;
  RandState : Z → value;
  value_V : value → Z;
  rand_State : value → Z;
  value_V_Value z : value_V (Value z) = z;
  rand_State_RandState z : rand_State (RandState z) = z;
}.

Section counter.
Context `{R : GoRuntime} {T : CounterTypes}.

(* examples/counter/counter.go:32-45 CounterWorld *)
Record CounterWorld := mkCounter {
  cw_N : Z;
  cw_IncrementMax : Z;
  cw_valueID : Z;
  cw_randID : Z;
}.

(* examples/counter/counter.go:47-56 CounterWorld.Metadata *)
Definition Counter__Metadata : ModelMetadata :=
  mkModelMeta "counter" "CounterWorld" "1.0.0"
    "Deterministic tick model: N counters each accumulate a random increment per tick." ModeTick.

(** One turn of the creation loop of [Initialize]. *)
Definition create_counter (m : CounterWorld) (seed : Z) (w : World) (i : nat) : outcome World :=
  let! (w, e) := World__Create w in
  let stream := DeriveU64 seed (u64 (Z.of_nat i + 1)) in
  let! w := World__SetComponent w (cw_valueID m) e (Value 0) in
  World__SetComponent w (cw_randID m) e (RandState (State stream)).

(* examples/counter/counter.go:58-72 CounterWorld.Initialize *)
Definition Counter__Initialize (m : CounterWorld) (w : World) : outcome (CounterWorld * World) :=
  let! (cs, valueID) := RegisterComponent type_Value (w_Components w) "counter.value" in
  let! (cs, randID) := RegisterComponent type_RandState cs "counter.rand" in
  let w := set_Components w cs (w_revision w) in
  let m := mkCounter (cw_N m) (cw_IncrementMax m) valueID randID in
  let seed := RandomStreams__Seed (w_Random w) in
  let! w := ofold (create_counter m seed) w (seq 0 (Z.to_nat (cw_N m))) in
  Done (m, w).

(** The increment bound in force. *)
Definition increment_max (m : CounterWorld) : Z :=
  if cw_IncrementMax m =? 0 then 1000 else cw_IncrementMax m.

(** The body of the loop of [Run] for one entity. *)
Definition count_entity (m : CounterWorld) (s : ComponentStore) (e : EntityID) : outcome ComponentStore :=
  let! rs := store_get s (cw_randID m) e in
  match rs with
  | None => Done s
  | Some rs =>
      let! (inc, r) := Uint64n (New (rand_State rs)) (increment_max m) in
      let! v := store_get s (cw_valueID m) e in
      let v := match v with Some v => value_V v | None => 0 end in
      let! s := store_set s (cw_valueID m) e (Value (u64 (v + inc))) in
      store_set s (cw_randID m) e (RandState (State r))
  end.

(* examples/counter/counter.go:130-148 counterSystem.Run *)
Definition counterSystem__Run (m : CounterWorld) (s : ComponentStore) (shard : list EntityID)
  : outcome ComponentStore := ofold (count_entity m) s shard.

(* examples/counter/counter.go:113-128 counterSystem *)
Definition counterSystem (m : CounterWorld) : System :=
  mkSystem "counter.increment" [cw_valueID m; cw_randID m] [cw_valueID m; cw_randID m] false
    (λ w shard, let! cs := counterSystem__Run m (w_Components w) shard in
                Done (set_Components w cs (w_revision w), None)).

(* examples/counter/counter.go:74-77 CounterWorld.Systems *)
Definition Counter__Systems (m : CounterWorld) : list System := [counterSystem m].

(* examples/counter/counter.go:79-83 counterConfig *)
Record counterConfig := mkCC { cc_N : Z; cc_IncrementMax : Z }.

(* examples/counter/counter.go:85-88 CounterWorld.SnapshotConfig *)
Definition Counter__SnapshotConfig (m : CounterWorld) : counterConfig :=
  mkCC (cw_N m) (cw_IncrementMax m).

(** [parse] is [json.Unmarshal] into a [counterConfig]. *)
(* examples/counter/counter.go:90-111 CounterWorld.applyConfig *)
Definition applyConfig (parse : rawJSON → result counterConfig) (m : CounterWorld) (raw : rawJSON)
  : CounterWorld * option error :=
  if decide (raw = ""%string) then (m, None)
  else match parse raw with
       | Err e => (m, Some e)
       | Ok c => (mkCounter (cc_N c) (cc_IncrementMax c) (cw_valueID m) (cw_randID m), None)
       end.

(* examples/counter/counter.go:150-166 CounterWorld.Fingerprint *)
Definition Fingerprint (m : CounterWorld) (w : World) : outcome Z :=
  ofold (λ h e,
    let! r := store_get (w_Components w) (cw_valueID m) e in
    Done (match r with
          | None => h
          | Some v => fnv_Write h (le_bytes e ++ le_bytes (value_V v))
          end)) fnv_offset (EntityManager__IDs (w_Entities w)).

(** ** The system is entity-local *)

(** What the loop body writes, from the entity's own components. *)
Definition counter_body (m : CounterWorld) (e : EntityID) (view : gmap Z value) : list (Z * value) :=
  match view !! cw_randID m, view !! cw_valueID m with
  | Some rs, Some v =>
      match Uint64n (New (rand_State rs)) (increment_max m) with
      | Done (inc, r) =>
          [(cw_valueID m, Value (u64 (value_V v + inc))); (cw_randID m, RandState (State r))]
      | Panic _ => []
      end
  | _, _ => []
  end.

Definition counter_local (m : CounterWorld) : local_system :=
  mkLocal "counter.increment" [cw_valueID m; cw_randID m] [cw_valueID m; cw_randID m] false
    (counter_body m).

Lemma counter_body_ok m : body_ok (counter_local m).
Proof.
  intros e view cid v. cbn [counter_local ls_body ls_writes]. unfold counter_body.
  destruct (view !! cw_randID m) as [rs|] eqn:Er; [|by intros ?%not_elem_of_nil].
  destruct (view !! cw_valueID m) as [vv|] eqn:Ev; [|by intros ?%not_elem_of_nil].
  destruct (Uint64n _ _) as [[inc r]|]; [|by intros ?%not_elem_of_nil].
  intros [[= -> ->]|[[= -> ->]|?%not_elem_of_nil]%elem_of_cons]%elem_of_cons; [..|done].
  - split; [by left|by exists vv].
  - split; [by right; left|by exists rs].
Qed.

(** An entity either has both components or no random stream. *)
Definition paired (m : CounterWorld) (s : ComponentStore) (e : EntityID) : Prop :=
  is_Some (get s (cw_randID m) e) → is_Some (get s (cw_valueID m) e).

Lemma counter_view m s e cid :
  cid = cw_randID m ∨ cid = cw_valueID m → view_of (counter_local m) s e !! cid = get s cid e.
Proof.
  intros Hcid. unfold view_of, declared. cbn.
  destruct (decide (cw_valueID m = cw_randID m)) as [E|E].
  - assert (cid = cw_randID m) as -> by (destruct Hcid; congruence). rewrite E.
    destruct (get s (cw_randID m) e) as [v|] eqn:Eg; cbn; rewrite ?Eg; cbn.
    + by rewrite lookup_insert_eq.
    + by rewrite lookup_empty.
  - destruct (get s (cw_valueID m) e) as [v|] eqn:Ev, (get s (cw_randID m) e) as [r|] eqn:Er;
      destruct Hcid as [->| ->]; rewrite ?lookup_insert_eq, ?lookup_insert_ne, ?lookup_insert_eq, ?lookup_empty by done;
      rewrite ?Ev, ?Er; try done;
      rewrite ?lookup_insert_eq, ?lookup_insert_ne, ?lookup_insert_eq, ?lookup_empty by done; done.
Qed.

Lemma increment_max_range m : 0 ≤ cw_IncrementMax m < 2 ^ 64 → 0 < increment_max m < 2 ^ 64.
Proof. intros H. unfold increment_max. destruct (Z.eqb_spec (cw_IncrementMax m) 0); lia. Qed.

Lemma get_is_Some_put s cid e v cid' e' :
  cols_ok s → is_Some (get s cid' e') → is_Some (get (put s cid e v) cid' e').
Proof. apply get_put_Some. Qed.

(** The loop body is the local step. *)
Lemma count_entity_local m s e :
  cols_ok s → 0 ≤ cw_IncrementMax m < 2 ^ 64 → paired m s e →
  count_entity m s e = entity_step s (counter_local m, e).
Proof.
  intros Hok Hmax Hp. destruct (entity_step_done s (counter_local m, e) Hok (counter_body_ok m)) as [-> _].
  unfold count_entity, step_of. cbn [fst snd]. rewrite store_get_done by done. cbn [obind].
  cbn [counter_local ls_body]. fold (counter_local m). unfold counter_body.
  rewrite !counter_view by auto.
  destruct (get s (cw_randID m) e) as [rs|] eqn:Er; [|done].
  destruct Hp as [v Hv]; [by rewrite Er|].
  destruct (Uint64n_Done (New (rand_State rs)) (increment_max m)) as (d & inc & Hu & _);
    [by apply increment_max_range|].
  rewrite Hu, Hv. cbn [obind]. rewrite store_get_done by done. cbn [obind]. rewrite Hv.
  rewrite store_set_done by (done || by rewrite Hv). cbn [obind].
  rewrite store_set_done; [done|by apply put_cols_ok|].
  apply get_put_Some; [done|by rewrite Er].
Qed.

Lemma paired_step m s e e' :
  cols_ok s → paired m s e → paired m s e' → paired m (step_of s (counter_local m, e)) e'.
Proof.
  intros Hok _ Hp. unfold step_of. cbn [fst snd].
  assert (∀ l, (∀ c v, (c, v) ∈ l → c = cw_randID m ∨ c = cw_valueID m) → cols_ok s → paired m s e' →
    (∀ c v, (c, v) ∈ l → is_Some (get s c e)) →
    paired m (puts s e l) e') as H.
  { intros l. revert s Hok Hp. induction l as [|[c v] l IH]; intros s Hok Hp Hl _ _ Hpres; [done|].
    cbn [puts foldl fst snd]. fold (puts (put s c e v) e l).
    assert (cols_ok (put s c e v)) as Hok' by by apply put_cols_ok.
    assert (paired m (put s c e v) e') as Hp'.
    { intros Hr. apply get_put_Some; [done|]. apply Hp.
      destruct (decide (c ≠ cw_randID m ∨ eidx e ≠ eidx e')) as [Hap|Hs].
      - by rewrite get_put_apart in Hr.
      - assert (c = cw_randID m) as Ec by (apply dec_stable; tauto).
        assert (eidx e = eidx e') as Ee by (apply dec_stable; tauto).
        assert (get s c e' = get s c e) as Eg.
        { unfold get, pos_of. by rewrite Ee. }
        rewrite <- Ec, Eg. apply (Hpres c v). by left. }
    apply IH; [done|done|..|done|].
    - intros c' v' Hin. apply (Hl c' v'). by right.
    - done.
    - intros c' v' Hin. apply get_put_Some; [done|]. apply (Hpres c' v'). by right. }
  apply H; [|done|done|].
  - intros c v Hin. destruct (counter_body_ok m _ _ _ _ Hin) as [Hw _]. cbn in Hw.
    apply elem_of_cons in Hw as [->|Hw]; [by right|]. apply list_elem_of_singleton in Hw as ->. by left.
  - intros c v Hin. destruct (counter_body_ok m _ _ _ _ Hin) as [_ Hv]. by eapply view_of_Some.
Qed.

Lemma Run_local m s es :
  cols_ok s → 0 ≤ cw_IncrementMax m < 2 ^ 64 → Forall (paired m s) es →
  counterSystem__Run m s es = ofold entity_step s (tagged (counter_local m) es).
Proof.
  intros Hok Hmax. unfold counterSystem__Run, tagged. revert s Hok.
  induction es as [|e es IH]; intros s Hok Hp; [done|]. apply Forall_cons in Hp as [He Hp].
  cbn [ofold fmap list_fmap]. rewrite count_entity_local by done.
  destruct (entity_step_done s (counter_local m, e) Hok (counter_body_ok m)) as [-> Hok']. cbn [obind].
  apply IH; [done|]. eapply Forall_impl; [exact Hp|]. intros e' He'. by apply paired_step.
Qed.

(** The worker count and the scheduling do not change a tick of CounterWorld: however the
    entities are partitioned among workers, every interleaving of the shards ends in exactly
    the component store of one sequential [Run] over all entities, which completes without a
    panic. *)
Theorem counter_tick_deterministic m s es workers shards tr :
  cols_ok s → 0 ≤ cw_IncrementMax m < 2 ^ 64 → Forall (paired m s) es → es ≠ [] →
  NoDup (eidx <$> es) → partition es workers = Done shards →
  shuffle (shard_threads (counter_local m, shards)) tr →
  ofold entity_step s tr = counterSystem__Run m s es ∧
  ∃ s', counterSystem__Run m s es = Done s'.
Proof.
  intros Hok Hmax Hp Hne Hnd Hpart Hsh.
  destruct (partition_spec es workers Hne) as (shards' & Hpart' & Hc & _).
  rewrite Hpart in Hpart'. injection Hpart' as <-.
  assert (level_threads [(counter_local m, shards)] = shard_threads (counter_local m, shards)) as Hlt
    by (unfold level_threads; cbn; by rewrite app_nil_r).
  destruct (parallel_level_same [(counter_local m, shards)] s tr) as [H1 (s' & H2 & _)].
  - done.
  - split.
    + constructor; [apply counter_body_ok|done].
    + constructor; [|done]. cbn. by rewrite Hc.
    + intros [|i] [|j] p q Hij Hi Hj; done.
  - by rewrite Hlt.
  - assert (level_serial [(counter_local m, shards)] = tagged (counter_local m) es) as Hs.
    { unfold level_serial. cbn. by rewrite app_nil_r, Hc. }
    rewrite Hs in H1. rewrite Run_local by done. split; [done|]. exists s'. congruence.
Qed.
End counter.

(** ** A concrete CounterWorld *)

Module ToyCounter.

(** A runtime whose values are tagged integers. *)
#[global] Instance runtime : GoRuntime := {
  value := bool * Z;
  gotype := bool;
  typeOf v := v.1;
  typeString t := if t then "counter.Value"%string else "counter.RandState"%string;
  zeroOf t := (t, 0);
  json_Marshal _ := Err (Errorf "not encoded");
  json_Unmarshal _ _ := Err (Errorf "not decoded");
  json_MarshalSlice _ _ := Err (Errorf "not encoded");
  json_UnmarshalSlice _ _ := Err (Errorf "not decoded");
  rawValue _ := (true, 0);
  json_MarshalEnvelope _ _ := Err (Errorf "not encoded");
  json_UnmarshalEnvelope _ := Err (Errorf "not decoded");
}.

#[global] Instance types : CounterTypes (R := runtime).
Proof.
  refine (Build_CounterTypes runtime true false (pair true) (pair false) snd snd _ _); done.
Defined.

Definition model : CounterWorld := mkCounter 2 10 0 1.

(** Entities of index 0 and 1 with both components. *)
Definition store : ComponentStore (R := runtime) :=
  mkCS ["counter.value"; "counter.rand"]%string {["counter.value"%string := 0; "counter.rand"%string := 1]}
    {[0 := (true, mkCol (mkSlice [1; 2] 2) [1; 4294967297] [(true, 0); (true, 0)]);
      1 := (false, mkCol (mkSlice [1; 2] 2) [1; 4294967297] [(false, 7); (false, 8)])]}.

Lemma column_inv {V} (a b : V) : col_inv (mkCol (mkSlice [1; 2] 2) [1; 4294967297] [a; b]).
Proof.
  pose proof (col_run_refines [CSet 1 a; CSet 4294967297 b] newColumn ∅ 0 (newColumn_refines (V := V))) as H.
  cbn [map_run map_exec] in H. destruct H as (c & rev & Hc & Href); [vm_compute; reflexivity|].
  vm_compute in Hc. injection Hc as <- _. apply Href.
Qed.

Lemma counters_ok : cols_ok store.
Proof.
  intros cid t c. unfold store. cbn. intros [[_ [= _ <-]]|[_ H]]%lookup_insert_Some; [apply column_inv|].
  apply lookup_singleton_Some in H as [_ [= _ <-]]. apply column_inv.
Qed.
End ToyCounter.

Lemma counter_tick_deterministic_witness :
  let tr := [(counter_local ToyCounter.model, 4294967297); (counter_local ToyCounter.model, 1)] in
  ofold entity_step ToyCounter.store tr
  = counterSystem__Run ToyCounter.model ToyCounter.store [1; 4294967297] ∧
  ∃ s', counterSystem__Run ToyCounter.model ToyCounter.store [1; 4294967297] = Done s'.
Proof.
  apply (counter_tick_deterministic ToyCounter.model ToyCounter.store [1; 4294967297] 2 [[1]; [4294967297]]).
  - apply ToyCounter.counters_ok.
  - done.
  - repeat constructor; intros _; vm_compute; by eexists.
  - done.
  - apply (bool_decide_unpack _). by vm_compute.
  - vm_compute. reflexivity.
  - apply (sh_step [[(counter_local ToyCounter.model, 1)]] (counter_local ToyCounter.model, 4294967297) [] []).
    apply (sh_step [] (counter_local ToyCounter.model, 1) [] [[]]). apply sh_nil. repeat constructor.
Defined.
