(* ===== verification/Population.v ===== *)
(** * Populations: what the example models share

    Every example creates entities, files their components in typed columns and draws random
    delays.  This file holds the expression [col.Set(w.Entities.Create(), v)] they start from, the
    room an entity manager has left, and the lemmas on the items of a column and on random
    delays that their proofs share.  A model keeps a pointer to each of its typed columns, which
    is a field of the model here; the world it changes besides is threaded through. *)

From S2P Require Import Prelude Float64 FloatRound Rng SparseSet Entity GoValues Component Tags Events World.
Local Open Scope Z_scope.

(** ** Columns as collections *)

(** The items a loop collects from a column. *)
Lemma Each_items {V} (c : Column V) :
  Column__Each c (λ vs id v, vs ++ [(id, v)]) [] = zip (col_dense c) (col_data c).
Proof.
  assert (∀ (l : list (EntityID * V)) acc,
    foldl (λ vs it, vs ++ [(it.1, it.2)]) acc l = acc ++ l) as H.
  { induction l as [|it l IH]; intros acc; cbn [foldl]; [by rewrite app_nil_r|].
    rewrite IH, <- app_assoc. by destruct it. }
  apply (H _ []).
Qed.

Lemma items_ok {V} (c : Column V) M vs :
  col_refines c M → vs ≡ₚ zip (col_dense c) (col_data c) →
  (∀ it, it ∈ vs ↔ M !! eidx it.1 = Some it) ∧ NoDup (eidx ∘ fst <$> vs).
Proof.
  intros [[_ Hss Hlen] HM] Hvs. split.
  - intros [e v]. rewrite Hvs, list_elem_of_lookup. cbn [fst]. rewrite HM. split.
    + intros [pos Hp]. apply lookup_zip_Some in Hp as [He Hv]. by exists pos.
    + intros (pos & He & Hv & _). exists pos. by apply lookup_zip_Some.
  - rewrite Hvs, list_fmap_compose. change (fst <$> zip _ _) with (zip (col_dense c) (col_data c)).*1.
    rewrite fst_zip by lia. by eapply ss_NoDup.
Qed.

(** The entities of a column have entries in its map. *)
Lemma col_entry {V} (c : Column V) M e : col_refines c M → e ∈ col_dense c → ∃ v, M !! eidx e = Some (e, v).
Proof.
  intros Hc [pos He]%list_elem_of_lookup. destruct (lookup_lt_is_Some_2 (col_data c) pos) as [v Hv].
  { rewrite (cinv_data _ (cref_inv _ _ Hc)). by eapply lookup_lt_Some. }
  exists v. apply (cref_map _ _ Hc). eauto.
Qed.

Lemma col_entry_dense {V} (c : Column V) M i e v : col_refines c M → M !! i = Some (e, v) → eidx e = i ∧ e ∈ col_dense c.
Proof.
  intros Hc Hl. apply (cref_map _ _ Hc) in Hl as (pos & Hp & _ & Hi). split; [done|]. by eapply list_elem_of_lookup_2.
Qed.

(** A well-formed column represents a map. *)
Lemma col_represents {V} (c : Column V) : col_inv c → ∃ M, col_refines c M.
Proof.
  intros Hc. pose proof Hc as [Hwf Hss Hlen].
  exists (list_to_map (zip (eidx <$> col_dense c) (zip (col_dense c) (col_data c)))). split; [done|].
  assert (length (zip (col_dense c) (col_data c)) = length (col_dense c)) as Hz by (rewrite length_zip; lia).
  intros i e v. rewrite <- elem_of_list_to_map.
  2: { rewrite fst_zip by (rewrite length_fmap; lia). by eapply ss_NoDup. }
  rewrite list_elem_of_lookup. split.
  - intros [pos Hp]. apply lookup_zip_Some in Hp as [Hi Hp]. apply lookup_zip_Some in Hp as [He Hv].
    rewrite list_lookup_fmap, He in Hi. injection Hi as <-. by exists pos.
  - intros (pos & He & Hv & <-). exists pos. apply lookup_zip_Some. rewrite list_lookup_fmap, He. split; [done|].
    by apply lookup_zip_Some.
Qed.

(** Counting the values with a property. *)
Lemma col_select {V} (P : V → Prop) `{!∀ v, Decision (P v)} (c : Column V) M (X : gset nat) :
  col_refines c M → (∀ i, i ∈ X ↔ ∃ e v, M !! i = Some (e, v) ∧ P v) → size X = length (filter P (col_data c)).
Proof.
  intros Hc HX. destruct (items_ok c M _ Hc (Permutation_refl _)) as [Hin Hnd].
  assert (length (col_dense c) = length (col_data c)) as Hl by (symmetry; apply Hc).
  assert (∀ i e v, M !! i = Some (e, v) → eidx e = i) as Hkey.
  { intros i e v Hi. apply (cref_map _ _ Hc) in Hi. naive_solver. }
  set (items := zip (col_dense c) (col_data c)) in *.
  assert (elements X ≡ₚ eidx ∘ fst <$> filter (λ it, P it.2) items) as Hp.
  { apply NoDup_Permutation; [apply NoDup_elements| |].
    - eapply sublist_NoDup; [exact Hnd|]. apply fmap_sublist, sublist_filter.
    - intros i. rewrite elem_of_elements, HX, list_elem_of_fmap. split.
      + intros (e & v & Hl' & Hv). exists (e, v). split; [symmetry; by eapply Hkey|].
        apply list_elem_of_filter. split; [done|]. apply Hin. cbn. by rewrite (Hkey i e v).
      + intros ([e v] & -> & Hf). apply list_elem_of_filter in Hf as [Hv Hf]. exists e, v. split; [by apply (Hin (e, v))|done]. }
  unfold size, set_size. cbn. rewrite Hp, length_fmap. unfold items. clear -Hl. revert Hl. generalize (col_data c).
  induction (col_dense c) as [|e es IH]; intros [|v vs] Hl; try done. cbn [zip zip_with].
  injection Hl as Hl. rewrite !filter_cons. cbn [snd]. destruct (decide (P v)); cbn; by rewrite IH.
Qed.

Lemma col_size {V} (c : Column V) M : col_refines c M → size M = length (col_dense c).
Proof.
  intros Hc. rewrite <- (cinv_data _ (cref_inv _ _ Hc)), <- (size_dom (D := gset nat)).
  rewrite (col_select (λ _, True) c M _ Hc), filter_all; [done|by apply Forall_forall|].
  intros i. rewrite elem_of_dom. split; [intros [[e v] Hl]; by exists e, v|intros (e & v & Hl & _); by eexists].
Qed.

(** The positions of the entities whose value passes a test. *)
Section selected.
Context {V : Type} (test : V → bool).
Implicit Types (M : gmap nat (EntityID * V)).

Definition selected M : gset nat := dom (filter (λ kv, test kv.2.2 = true) M).

Lemma elem_of_selected M i : i ∈ selected M ↔ ∃ e v, M !! i = Some (e, v) ∧ test v = true.
Proof.
  unfold selected. rewrite elem_of_dom. split.
  - intros [[e v] H]. apply map_lookup_filter_Some in H as [? ?]. by exists e, v.
  - intros (e & v & Hl & Hb). exists (e, v). by apply map_lookup_filter_Some.
Qed.

Lemma selected_insert M i e v j :
  j ∈ selected (<[i := (e, v)]> M) ↔ (j = i ∧ test v = true) ∨ (j ≠ i ∧ j ∈ selected M).
Proof.
  rewrite !elem_of_selected. split.
  - intros (e' & v' & [[<- [= <- <-]]|[? ?]]%lookup_insert_Some & Hb); [by left|right; eauto].
  - intros [[-> Hv]|(Hne & e' & v' & Hl & Hb)]; [by eexists _, _; rewrite lookup_insert_eq|].
    exists e', v'. by rewrite lookup_insert_ne.
Qed.

Lemma selected_in M i e v : i ∉ selected M → test v = true →
  elements (selected (<[i := (e, v)]> M)) ≡ₚ i :: elements (selected M).
Proof.
  intros Hi Hv. rewrite <- elements_union_singleton by done. apply (elements_proper (C := gset nat)).
  intros j. rewrite elem_of_union, elem_of_singleton, selected_insert.
  destruct (decide (j = i)); naive_solver.
Qed.

Lemma selected_out M i e v : i ∈ selected M → test v = false →
  elements (selected M) ≡ₚ i :: elements (selected (<[i := (e, v)]> M)).
Proof.
  intros Hi Hv. assert (i ∉ selected (<[i := (e, v)]> M)) as Hn by (rewrite selected_insert; naive_solver congruence).
  rewrite <- elements_union_singleton by done. apply (elements_proper (C := gset nat)).
  intros j. rewrite elem_of_union, elem_of_singleton, selected_insert. destruct (decide (j = i)); naive_solver.
Qed.

Lemma selected_same M i e v e' v' : M !! i = Some (e', v') → test v = test v' →
  selected (<[i := (e, v)]> M) = selected M.
Proof.
  intros Hl Hv. apply set_eq. intros j. rewrite selected_insert. split; [|destruct (decide (j = i)) as [->|]; [|naive_solver]].
  - intros [[-> Ht]|[_ ?]]; [|done]. apply elem_of_selected. exists e', v'. split; [done|congruence].
  - intros (e2 & v2 & Hl2 & Ht)%elem_of_selected. rewrite Hl in Hl2. injection Hl2 as -> ->. left. split; [done|congruence].
Qed.

Lemma selected_size c M :
  col_refines c M → size (selected M) = length (filter (λ v, test v = true) (col_data c)).
Proof. intros Hc. by apply (col_select _ c M), elem_of_selected. Qed.
End selected.

(** ** Room for entities *)

(** An entity manager after at most [k] creations. *)
Record room (k : Z) (em : EntityManager) : Prop := {
  rm_inv : em_inv em;
  rm_next : em_next em ≤ k;
  rm_dense : len (em_dense em) ≤ k;
  rm_versions i v : em_versions em !! i = Some v → v ≤ k;
}.

Lemma Create_room k em rev :
  room k em → 0 ≤ k < 2 ^ 31 - 1 →
  ∃ em' id, EntityManager__Create em rev = Done (em', bump rev, id) ∧ room (k + 1) em' ∧
    em_dense em' = em_dense em ++ [id] ∧ ∀ e, e ∈ em_dense em → eidx e ≠ eidx id.
Proof.
  intros [Hinv Hn Hd Hv] Hk. destruct (Create_spec em rev) as
    (em' & id & Hc & Hinv' & Hdense & _ & _ & _ & _ & Hn' & Hv'); [done| |].
  { split; [lia|split; [lia|]]. intros i v Hi. specialize (Hv i v Hi). lia. }
  exists em', id. split; [done|]. split_and!; [split|done|].
  - done.
  - lia.
  - rewrite Hdense, len_app. unfold len in *. cbn. lia.
  - intros i v Hi. destruct (Hv' i v Hi) as [|(v0 & Hv0 & Hle)]; [lia|]. specialize (Hv _ _ Hv0). lia.
  - intros e He E. pose proof (ss_NoDup _ _ _ (inv_ss _ Hinv')) as Hnd.
    rewrite Hdense, fmap_app, NoDup_app in Hnd. destruct Hnd as (_ & Hno & _).
    apply (Hno (eidx id)); [rewrite <- E; by apply list_elem_of_fmap_2|by left].
Qed.

Lemma New_room : room 0 NewEntityManager.
Proof.
  split; [apply NewEntityManager_inv|done|done|].
  intros [|i] v; [by intros [= <-]|done].
Qed.

Lemma Destroy_room k em rev id :
  room k em → 0 ≤ k < 2 ^ 31 - 1 → id ∈ em_dense em →
  ∃ em', EntityManager__Destroy em rev id = Done (em', bump rev, true) ∧ room k em' ∧
    em_dense em ≡ₚ id :: em_dense em'.
Proof.
  intros [Hinv Hn Hd Hv] Hk Hin. destruct (inv_live _ Hinv id Hin) as [H64 _].
  destruct (Destroy_live em rev id) as (em' & He & Hinv' & Hp & Hvs & Hnx); [done..|lia|].
  exists em'. split; [done|]. split; [|done]. split; [done|lia| |].
  - unfold len in *. rewrite Hp in Hd. cbn in Hd. lia.
  - intros i v. rewrite Hvs. apply Hv.
Qed.

(** ** Random delays *)

Lemma Float64_duration r : duration (fst (Float64 r)).
Proof.
  rewrite Float64_eq. pose proof (mix64_range _ (u64_range (state r + golden))) as [Hx _].
  set (x := mix64 _) in *. assert (0 ≤ Z.shiftr x 11) as Hs by by apply Z.shiftr_nonneg.
  destruct (decide (Z.shiftr x 11 = 0)) as [->|Hne]; [by vm_compute|].
  apply fmul_duration; [apply f64_of_Z_positive; lia|by vm_compute].
Qed.

(** The constant [0.5]. *)
Definition fhalf : float64 := fdiv fone (f64_of_Z 2).

(** [mean * (0.5 + r.Float64())]. *)
Definition random_delay (mean : float64) (r : RNG) : float64 * RNG :=
  let '(f, r) := Float64 r in (fmul mean (fadd fhalf f), r).

Lemma random_delay_duration mean r : positive_duration mean → duration (random_delay mean r).1.
Proof.
  intros Hm. unfold random_delay. pose proof (Float64_duration r) as Hf. destruct (Float64 r) as [f r'].
  cbn [fst] in *. apply fmul_duration; [done|]. apply positive_add; [by vm_compute|done].
Qed.

(** ** New entities with a component *)

Section spawning.
Context `{R : GoRuntime} {V : Type}.

(** The revision after a write to a typed column of the world. *)
Definition touch (w : World) (rev : Z) : World := set_Components w (w_Components w) rev.

(** [col.Set(e, v)] on a typed column of the world. *)
Definition set_in (c : Column V) (w : World) (e : EntityID) (v : V) : outcome (Column V * World) :=
  let! (c, rev) := Column__Set c (w_revision w) e v in Done (c, touch w rev).

(** [col.Set(w.Entities.Create(), v)]. *)
Definition set_new (c : Column V) (w : World) (v : V) : outcome (Column V * World) :=
  let! (w, e) := World__Create w in set_in c w e v.

(** The entries of a column belong to live entities. *)
Definition homed (em : EntityManager) (M : gmap nat (EntityID * V)) : Prop :=
  ∀ i e v, M !! i = Some (e, v) → eidx e = i ∧ e ∈ em_dense em.

Lemma set_new_ok k (c : Column V) M (w : World) v :
  room k (w_Entities w) → 0 ≤ k < 2 ^ 31 - 1 → col_refines c M → homed (w_Entities w) M → len (col_dense c) ≤ k →
  ∃ c' em rev id, set_new c w v = Done (c', set_Entities w em rev) ∧ room (k + 1) em ∧
    em_dense em = em_dense (w_Entities w) ++ [id] ∧ M !! eidx id = None ∧
    col_refines c' (<[eidx id := (id, v)]> M) ∧ homed em (<[eidx id := (id, v)]> M) ∧
    col_dense c' = col_dense c ++ [id].
Proof.
  intros Hroom Hk Hc Hh Hlen. unfold set_new, World__Create.
  destruct (Create_room k (w_Entities w) (w_revision w) Hroom Hk) as (em & id & -> & Hroom' & Hd & Hnew).
  cbn [obind]. unfold set_in.
  assert (M !! eidx id = None) as Hnone.
  { destruct (M !! eidx id) as [[e v']|] eqn:E; [|done]. destruct (Hh _ _ _ E) as [He Hin].
    exfalso. by apply (Hnew e). }
  destruct (Set_refines c M (w_revision (set_Entities w em (bump (w_revision w)))) id v Hc) as (c' & Hs & Hc' & _ & Hdense);
    [lia|].
  unfold owner in Hc'. rewrite Hnone in Hs, Hc', Hdense. rewrite Hs. cbn [obind].
  exists c', em, (bump (bump (w_revision w))), id. split_and!; try done.
  intros i e v' [[<- [= <- <-]]|[Hne Hl]]%lookup_insert_Some; rewrite Hd.
  - split; [done|]. apply elem_of_app. right. by left.
  - destruct (Hh _ _ _ Hl) as [? ?]. split; [done|]. apply elem_of_app. by left.
Qed.

(** [n] of them, with values computed from the index of the loop and a generator. *)
Fixpoint spawn (draw : RNG → outcome (V * RNG)) (n : nat) (s : Column V * World * RNG) : outcome (Column V * World * RNG) :=
  match n with
  | O => Done s
  | S n =>
      let '(c, w, r) := s in
      let! (v, r) := draw r in
      let! (c, w) := set_new c w v in
      spawn draw n (c, w, r)
  end.

Lemma homed_mono em em' M : homed em M → (∀ e, e ∈ em_dense em → e ∈ em_dense em') → homed em' M.
Proof. intros Hh Hin i e v Hl. destruct (Hh i e v Hl). split; auto. Qed.

Lemma spawn_ok (P : V → Prop) draw n k c M w r :
  (∀ r, ∃ v r', draw r = Done (v, r') ∧ P v) →
  room k (w_Entities w) → 0 ≤ k → k + Z.of_nat n ≤ 2 ^ 31 - 1 →
  col_refines c M → homed (w_Entities w) M → len (col_dense c) ≤ k →
  ∃ c' em rev r' M' ids, spawn draw n (c, w, r) = Done (c', set_Entities w em rev, r') ∧
    room (k + Z.of_nat n) em ∧ em_dense em = em_dense (w_Entities w) ++ ids ∧ length ids = n ∧
    col_refines c' M' ∧ homed em M' ∧ col_dense c' = col_dense c ++ ids ∧ M ⊆ M' ∧
    ∀ i e v, M' !! i = Some (e, v) → M !! i = Some (e, v) ∨ e ∈ ids ∧ P v.
Proof.
  intros Hdraw. revert k c M w r. induction n as [|n IH]; intros k c M w r Hroom Hk Hkn Hc Hh Hlen; cbn [spawn].
  { exists c, (w_Entities w), (w_revision w), r, M, []. rewrite !app_nil_r, Z.add_0_r.
    split_and!; try done; [by destruct w|auto]. }
  destruct (Hdraw r) as (v & r1 & -> & Hv). cbn [obind].
  destruct (set_new_ok k c M w v) as (c1 & em1 & rev1 & id & -> & Hroom1 & Hd1 & Hnone & Hc1 & Hh1 & Hcd1); [done..|lia|done|done|done|].
  cbn [obind]. destruct (IH (k + 1) c1 (<[eidx id:=(id, v)]> M) (set_Entities w em1 rev1) r1)
    as (c2 & em & rev & r2 & M' & ids & -> & Hroom2 & Hd2 & Hids & Hc2 & Hh2 & Hcd2 & Hsub & HP); [done|lia|lia|done|done| |].
  { rewrite Hcd1, len_app. unfold len in *. cbn. lia. }
  exists c2, em, rev, r2, M', (id :: ids). cbn [w_Entities set_Entities] in Hd2. split_and!; try done.
  - by replace (k + Z.of_nat (S n)) with (k + 1 + Z.of_nat n) by lia.
  - by rewrite Hd2, Hd1, <- app_assoc.
  - cbn. lia.
  - by rewrite Hcd2, Hcd1, <- app_assoc.
  - etransitivity; [by apply insert_subseteq|done].
  - intros i e v' Hl. destruct (HP i e v' Hl) as [[[<- [= <- <-]]|[_ ?]]%lookup_insert_Some|[? ?]].
    + right. split; [by left|done].
    + by left.
    + right. split; [by right|done].
Qed.
End spawning.
