(* ===== verification/ModelRuns.v ===== *)
(** * Running a model: invariants of counted runs and of the agenda of events

    A run of the runtime under an invariant that its steps keep, for any executor; and the
    agenda of an event model, the pending events in firing order, none of them in the past:
    scheduling with a non-negative delay keeps it so, and then no step of the event executor can
    refuse an event. *)

From S2P Require Import Prelude Float64 FloatRound Rng SparseSet Entity GoValues Component Tags Heap Events World.
From S2P Require Import Snapshot Scheduler Runtime.
Local Open Scope Z_scope.

Section invariants.
Context `{R : GoRuntime} {M : Type} {U : Unwinding M}.

(** If every step from a state of the invariant completes without an error, in a state of the
    invariant, then a counted run returns nil; it has taken all its steps unless the executor
    had no more work. *)
Lemma RunN_invariant (e : executor M) (I : Z → M → World → Prop) (Drained : World → Prop) s n :
  sim_exec s = e → sim_state s ≠ StateRunning → 0 ≤ n < 2 ^ 63 → I 0 (sim_m s) (sim_world s) →
  (∀ j m w, 0 ≤ j < n → I j m w →
     ∃ m' w' more, executor__step e m w = Done (e, m', w', more, None) ∧
       if more : bool then I (j + 1) m' w' else I j m' w' ∧ Drained w') →
  ∃ s', RunN (S (Z.to_nat n)) s n = Some (Done (s', None)) ∧ sim_state s' = StateCompleted ∧
    I (sim_steps s') (sim_m s') (sim_world s') ∧ 0 ≤ sim_steps s' ≤ n ∧
    (sim_steps s' = n ∨ Drained (sim_world s')).
Proof.
  intros He Hst Hn H0 Hstep.
  assert (∀ k s, sim_exec s = e → sim_state s = StateRunning → I (sim_steps s) (sim_m s) (sim_world s) →
    0 ≤ sim_steps s → sim_steps s + Z.of_nat k = n →
    ∃ s', loop (S k) (Some (λ s, n <=? sim_steps s)) s = Some (Done (s', None)) ∧ sim_state s' = StateCompleted ∧
      I (sim_steps s') (sim_m s') (sim_world s') ∧ 0 ≤ sim_steps s' ≤ n ∧
      (sim_steps s' = n ∨ Drained (sim_world s'))) as Hloop.
  { induction k as [|k IH]; intros s0 He0 Hrun HI Hs0 Hk.
    - cbn [loop]. unfold turn. rewrite decide_False by (intros Hne; by apply Hne). destruct (Z.leb_spec n (sim_steps s0)); [|lia]. eexists. split; [done|]. cbn. split_and!; try done; lia.
    - remember (S k) as k1 eqn:E. cbn [loop]. unfold turn. subst k1. rewrite decide_False by (intros Hne; by apply Hne).
      destruct (Z.leb_spec n (sim_steps s0)); [lia|].
      destruct (Hstep (sim_steps s0) (sim_m s0) (sim_world s0)) as (m' & w' & more & Hs & HI'); [lia|done|].
      rewrite He0, Hs. destruct more.
      + apply IH; unfold observe, set_observed, set_state, set_exec; cbn; rewrite ?u64_id by (unfold in_u64; lia); try done; lia.
      + destruct HI' as [HI' HD]. eexists. split; [done|]. cbn. split_and!; try done; [lia|by right]. }
  destruct (Hloop (Z.to_nat n) (set_state s StateRunning None 0)) as (s' & Hl & Hs' & HI & Hr); [done..|cbn; lia|].
  unfold RunN, begin_run, begin. rewrite decide_False by done. unfold run. rewrite Hl. eexists. split; [done|].
  unfold finalize. rewrite decide_False by (by rewrite Hs'). done.
Qed.
End invariants.

Section agenda.
Context `{R : GoRuntime}.
Implicit Types (w : World) (evs : list Event).

(** The pending events of a world, in firing order, after at most [k] were scheduled. *)
Record agenda (k : Z) w evs : Prop := {
  ag_queue : q_refines (w_Events w) (mkSQ evs (q_next (w_Events w)) (q_seq (w_Events w)));
  ag_seq : 0 ≤ q_seq (w_Events w) ≤ k;
  ag_now : duration (clk_time (w_Clock w));
  ag_future : Forall (λ e, duration (ev_Time e) ∧ flt (ev_Time e) (clk_time (w_Clock w)) = false) evs;
}.

Lemma agenda_same k k' w w' evs :
  agenda k w evs → k ≤ k' → w_Events w' = w_Events w → w_Clock w' = w_Clock w → agenda k' w' evs.
Proof. intros [Hq Hs Hn Hf] Hk He Hc. split; rewrite ?He, ?Hc; try done. lia. Qed.

Lemma agenda_new w : w_Events w = NewEventQueue → w_Clock w = NewClock → agenda 0 w [].
Proof. intros He Hc. split; rewrite ?He, ?Hc; [apply empty_refines|done|done|constructor]. Qed.

Lemma agenda_heap k w evs : agenda k w evs → evs ≡ₚ q_h (w_Events w).
Proof. intros Ha. apply (qr_perm _ _ (ag_queue _ _ _ Ha)). Qed.

(** No event is left. *)
Definition Drained w : Prop := q_h (w_Events w) = [].

(** The event as it is queued. *)
Definition queued w (e : Event) : Event := (stamp (q_next (w_Events w)) (q_seq (w_Events w)) e).1.1.

Lemma queued_fields w e :
  ev_Type (queued w e) = ev_Type e ∧ ev_Time (queued w e) = ev_Time e ∧ ev_Source (queued w e) = ev_Source e.
Proof. unfold queued, stamp. by destruct (ev_ID e =? 0). Qed.

Lemma agenda_push k w evs e :
  agenda k w evs → k < 2 ^ 63 → duration (ev_Time e) → flt (ev_Time e) (clk_time (w_Clock w)) = false →
  ∃ q, push_event w e = Done (set_Events w q, queued w e) ∧
    ∃ evs', agenda (k + 1) (set_Events w q) evs' ∧ evs' ≡ₚ queued w e :: evs.
Proof.
  intros [Hq Hs Hn Hf] Hk Hd Hl. destruct (queued_fields w e) as (_ & Ht & _).
  destruct (Push_refines _ _ e Hq) as (q & Hp & Hq' & _ & Hseq); [by apply duration_number|lia|lia|].
  unfold push_event. rewrite Hp. cbn [obind]. exists q. split; [done|].
  exists (insert_sorted eventLess (queued w e) evs). split; [|apply insert_sorted_perm].
  split; cbn [w_Events set_Events w_Clock]; [|lia|done|].
  - unfold spec_exec in Hq'. cbn [sq_next sq_seq sq_events] in Hq'. unfold queued.
    destruct (stamp _ _ e) as [[e' nx] sq]. cbn [fst] in *.
    pose proof (qr_next _ _ Hq') as Hx. pose proof (qr_seq _ _ Hq') as Hy. cbn in Hx, Hy. by rewrite <- Hx, <- Hy.
  - rewrite insert_sorted_perm. constructor; [by rewrite Ht|done].
Qed.

(** [w.ScheduleIn], and an event pushed with a delay from now. *)
Lemma agenda_push_in k w evs e delay :
  agenda k w evs → k < 2 ^ 63 → duration delay → ev_Time e = fadd (clk_time (w_Clock w)) delay →
  ∃ q, push_event w e = Done (set_Events w q, queued w e) ∧
    ∃ evs', agenda (k + 1) (set_Events w q) evs' ∧ evs' ≡ₚ queued w e :: evs.
Proof.
  intros Ha Hk Hd Ht. destruct (fadd_later (clk_time (w_Clock w)) delay) as [H1 H2]; [apply Ha|done|].
  apply agenda_push; rewrite ?Ht; done.
Qed.

Context {M : Type} (h : M → World → Event → outcome (M * World * option error)).

(** Time is up for the first event. *)
Definition fire w q (ev : Event) : World := set_Clock (set_Events w q) (Clock__AdvanceTime (w_Clock w) (ev_Time ev)).

Lemma agenda_step k m w evs :
  agenda k w evs →
  match evs with
  | [] => ∃ w', eventExecutor__step h m w = Done (m, w', false, None) ∧ agenda k w' [] ∧
      ∃ q, w' = set_Events w q
  | ev :: evs => ∃ q, agenda k (fire w q ev) evs ∧
      eventExecutor__step h m w =
      (let! (m, w, err) := h m (fire w q ev) ev in
       match err with Some e => Done (m, w, false, Some e) | None => Done (m, w, true, None) end)
  end.
Proof.
  intros [Hq Hs Hn Hf]. destruct (Pop_refines _ _ Hq) as (q & Hp & Hq' & Hseq). unfold eventExecutor__step.
  rewrite Hp. cbn [obind sq_events spec_exec fst sq_next sq_seq] in *. pose proof (qr_next _ _ Hq') as Hx. cbn in Hx.
  destruct evs as [|ev evs]; cbn [head].
  - exists (set_Events w q). split; [done|]. split; [|by eexists].
    split; cbn; [|lia|done|done]. cbn in Hq'. by rewrite <- Hx, Hseq.
  - apply Forall_cons in Hf as [[Hd Hl] Hf]. exists q. split.
    + split; cbn; [|lia|done|].
      * cbn in Hq'. by rewrite <- Hx, Hseq.
      * pose proof (qr_sorted _ _ Hq) as Hsort. cbn in Hsort. apply StronglySorted_cons in Hsort as [Hle _].
        apply Forall_forall. intros e He. rewrite Forall_forall in Hf, Hle. destruct (Hf e He) as [Hde _].
        split; [done|]. specialize (Hle e He). unfold le, eventLess in Hle.
        destruct (flt (ev_Time e) (ev_Time ev)) eqn:Hlt; [|done].
        destruct (feq (ev_Time e) (ev_Time ev)) eqn:Heq; [|done].
        destruct (flt_number _ _ Hlt) as [H1 H2]. apply feq_key in Heq; [|done..]. apply flt_key in Hlt; [|done..].
        rewrite Heq in Hlt. by apply lexlt_irrefl in Hlt.
    + change (Clock__Time (w_Clock (set_Events w q))) with (clk_time (w_Clock w)). by rewrite Hl.
Qed.
End agenda.
