(* ===== verification/Traffic.v ===== *)
(** * The traffic model: [examples/traffic/traffic.go]

    A route of edges whose nodes carry traffic lights.  Every tick the light system runs the
    light policy on each light, then the movement system advances the vehicles cell by cell.
    The model holds pointers to its two typed columns, which are fields here; the shared state
    of the world it also changes, the entity manager and the revision, is threaded through. *)

From S2P Require Import Prelude Float64 Rng SparseSet Entity GoValues Component Heap World Scheduler Population.
From stdpp Require Import pretty.
Local Open Scope Z_scope.

(* examples/traffic/traffic.go:139-145 Light *)
Record Light := mkLight { lt_Green : bool; lt_Phase : Z; lt_Queue : Z }.

(* examples/traffic/traffic.go:147-153 Vehicle *)
Record Vehicle := mkVehicle { vh_Edge : Z; vh_Pos : Z; vh_Wait : Z; vh_Speed : Z }.

(** A light policy; [Decide] gets the light and the demand and yields the light. *)
(* examples/traffic/traffic.go:21-28 LightAlgorithm *)
Record LightAlgorithm := mkAlg { alg_Name : string; alg_Decide : Light → Z → outcome Light }.

(* examples/traffic/traffic.go:37-41 Fixed.Decide *)
Definition Fixed__Decide (GreenTicks RedTicks : Z) (l : Light) (_ : Z) : outcome Light :=
  let cycle := i64 (GreenTicks + RedTicks) in
  if cycle =? 0 then Panic "integer divide by zero"
  else
    let phase := Z.rem (i64 (lt_Phase l + 1)) cycle in
    Done (mkLight (phase <? GreenTicks) phase (lt_Queue l)).

(* examples/traffic/traffic.go:30-36 Fixed *)
Definition Fixed (GreenTicks RedTicks : Z) : LightAlgorithm :=
  mkAlg "fixed" (Fixed__Decide GreenTicks RedTicks).

(* examples/traffic/traffic.go:52-70 Adaptive.Decide *)
Definition Adaptive__Decide (Threshold MaxRedTicks : Z) (l : Light) (q : Z) : outcome Light :=
  if Threshold <=? q then Done (mkLight true 0 (lt_Queue l))
  else if lt_Green l then Done (mkLight false 0 (lt_Queue l))
  else if 0 <? q then
    let phase := i64 (lt_Phase l + 1) in
    if MaxRedTicks <=? phase then Done (mkLight true 0 (lt_Queue l))
    else Done (mkLight false phase (lt_Queue l))
  else Done l.

(* examples/traffic/traffic.go:43-51 Adaptive *)
Definition Adaptive (Threshold MaxRedTicks : Z) : LightAlgorithm :=
  mkAlg "adaptive" (Adaptive__Decide Threshold MaxRedTicks).

(* examples/traffic/traffic.go:72-82 RegisterAlgorithm *)
Definition RegisterAlgorithm (algs : gmap string LightAlgorithm) (alg : LightAlgorithm)
  : gmap string LightAlgorithm := <[alg_Name alg := alg]> algs.

(* examples/traffic/traffic.go:89-94 Edge *)
Record Edge := mkEdge { ed_From : string; ed_To : string; ed_Length : Z }.

(* examples/traffic/traffic.go:84-101 Map *)
Record Map := mkMap { map_Nodes : list string; map_Edges : list Edge; map_Route : list string }.

(* examples/traffic/traffic.go:103-115 Config *)
Record Config := mkConfig {
  tc_Map : Map;
  tc_Intersections : Z;
  tc_Spacing : Z;
  tc_Vehicles : Z;
  tc_Algorithm : string;
  tc_GreenTicks : Z;
  tc_RedTicks : Z;
  tc_Threshold : Z;
  tc_MaxRedTicks : Z;
  tc_SeedJitter : float64;
}.

Definition zero_config : Config :=
  mkConfig (mkMap [] [] []) 0 0 0 "" 0 0 0 0 fzero.

Definition or_default (z d : Z) : Z := if z <=? 0 then d else z.

(* examples/traffic/traffic.go:117-137 Config.withDefaults *)
Definition withDefaults (c : Config) : Config :=
  mkConfig (tc_Map c) (tc_Intersections c) (tc_Spacing c)
    (or_default (tc_Vehicles c) 40)
    (if decide (tc_Algorithm c = ""%string) then "fixed"%string else tc_Algorithm c)
    (or_default (tc_GreenTicks c) 5) (or_default (tc_RedTicks c) 5)
    (or_default (tc_Threshold c) 2) (or_default (tc_MaxRedTicks c) 10) (tc_SeedJitter c).

(* examples/traffic/traffic.go:155-173 Traffic *)
Record Traffic := mkTraffic {
  t_cfg : Config;
  t_algorithm : option LightAlgorithm;
  t_vehCol : Column Vehicle;
  t_lightCol : Column Light;
  t_route : list string;
  t_edgeLen : gmap Z Z;
  t_nodeLight : gmap string EntityID;
  t_rng : RNG;
  t_completed : Z;
  t_totalWait : Z;
  t_peakQueue : Z;
}.

Definition set_cfg (m : Traffic) x : Traffic :=
  mkTraffic x (t_algorithm m) (t_vehCol m) (t_lightCol m) (t_route m) (t_edgeLen m) (t_nodeLight m)
    (t_rng m) (t_completed m) (t_totalWait m) (t_peakQueue m).
Definition set_algorithm (m : Traffic) x : Traffic :=
  mkTraffic (t_cfg m) x (t_vehCol m) (t_lightCol m) (t_route m) (t_edgeLen m) (t_nodeLight m)
    (t_rng m) (t_completed m) (t_totalWait m) (t_peakQueue m).
Definition set_vehCol (m : Traffic) x : Traffic :=
  mkTraffic (t_cfg m) (t_algorithm m) x (t_lightCol m) (t_route m) (t_edgeLen m) (t_nodeLight m)
    (t_rng m) (t_completed m) (t_totalWait m) (t_peakQueue m).
Definition set_lightCol (m : Traffic) x : Traffic :=
  mkTraffic (t_cfg m) (t_algorithm m) (t_vehCol m) x (t_route m) (t_edgeLen m) (t_nodeLight m)
    (t_rng m) (t_completed m) (t_totalWait m) (t_peakQueue m).
Definition set_network (m : Traffic) route edgeLen : Traffic :=
  mkTraffic (t_cfg m) (t_algorithm m) (t_vehCol m) (t_lightCol m) route edgeLen (t_nodeLight m)
    (t_rng m) (t_completed m) (t_totalWait m) (t_peakQueue m).
Definition set_nodeLight (m : Traffic) x : Traffic :=
  mkTraffic (t_cfg m) (t_algorithm m) (t_vehCol m) (t_lightCol m) (t_route m) (t_edgeLen m) x
    (t_rng m) (t_completed m) (t_totalWait m) (t_peakQueue m).
Definition set_rng (m : Traffic) x : Traffic :=
  mkTraffic (t_cfg m) (t_algorithm m) (t_vehCol m) (t_lightCol m) (t_route m) (t_edgeLen m)
    (t_nodeLight m) x (t_completed m) (t_totalWait m) (t_peakQueue m).
Definition set_counters (m : Traffic) completed totalWait peakQueue : Traffic :=
  mkTraffic (t_cfg m) (t_algorithm m) (t_vehCol m) (t_lightCol m) (t_route m) (t_edgeLen m)
    (t_nodeLight m) (t_rng m) completed totalWait peakQueue.

(** The zero value of the model. *)
Definition zero_model : Traffic :=
  mkTraffic zero_config None newColumn newColumn [] ∅ ∅ (Rng.New 0) 0 0 0.

(* examples/traffic/traffic.go:175-184 Traffic.Metadata *)
Definition Traffic__Metadata : ModelMetadata :=
  mkModelMeta "traffic" "Traffic" "1.0.0"
    "Traffic lights gate movement on a road network; congestion emerges from demand x policy." ModeTick.

(** [parse] is [json.Unmarshal] into a [Config]. *)
(* examples/traffic/traffic.go:186-196 Traffic.Configure *)
Definition Configure (parse : string → result Config) (m : Traffic) (raw : string)
  : Traffic * option error :=
  if decide (raw = ""%string) then (set_cfg m (withDefaults zero_config), None)
  else match parse raw with
       | Err e => (m, Some e)
       | Ok c => (set_cfg m (withDefaults c), None)
       end.

(* examples/traffic/traffic.go:198-203 Traffic.SetAlgorithm *)
Definition SetAlgorithm (m : Traffic) (alg : LightAlgorithm) : Traffic := set_algorithm m (Some alg).

(** The lengths of the first [n] edges of a route. *)
Definition edge_lengths (lengthOf : nat → Z) (n : nat) : gmap Z Z :=
  foldl (λ m i, <[Z.of_nat i := lengthOf i]> m) ∅ (seq 0 n).

(* examples/traffic/traffic.go:233-262 Traffic.buildNetwork *)
Definition buildNetwork (m : Traffic) : Traffic :=
  let c := t_cfg m in
  if negb (bool_decide (map_Nodes (tc_Map c) = [])) && negb (bool_decide (map_Route (tc_Map c) = []))
  then
    let lengthByEdge : gmap (string * string) Z :=
      foldl (λ l e, <[(ed_From e, ed_To e) := ed_Length e]> l) ∅ (map_Edges (tc_Map c)) in
    let route := map_Route (tc_Map c) in
    let lengthOf i :=
      match route !! i, route !! S i with
      | Some a, Some b => default (tc_Spacing c) (lengthByEdge !! (a, b))
      | _, _ => tc_Spacing c
      end in
    set_network m route (edge_lengths lengthOf (length route - 1))
  else
    let n := if tc_Intersections c <=? 1 then 5 else tc_Intersections c in
    let route := t_route m ++ ((λ i : nat, ("n" +:+ pretty (Z.of_nat i))%string) <$> seq 0 (Z.to_nat n)) in
    set_network m route (edge_lengths (λ _, tc_Spacing c) (length route - 1)).

(* examples/traffic/traffic.go:264-282 Traffic.resolveAlgorithm *)
Definition resolveAlgorithm (algs : gmap string LightAlgorithm) (m : Traffic) : Traffic :=
  match t_algorithm m with
  | Some _ => m
  | None =>
      let c := t_cfg m in
      match algs !! tc_Algorithm c with
      | Some alg => set_algorithm m (Some alg)
      | None =>
          if decide (tc_Algorithm c = "adaptive"%string)
          then set_algorithm m (Some (Adaptive (tc_Threshold c) (tc_MaxRedTicks c)))
          else set_algorithm m (Some (Fixed (tc_GreenTicks c) (tc_RedTicks c)))
      end
  end.

(** The state an operation of the model changes: the model and the world's entities. *)
Record City := mkCity { ci_model : Traffic; ci_entities : EntityManager; ci_revision : Z }.

(** The initial gap drawn for a vehicle. *)
Definition draw_jitter (m : Traffic) (r : RNG) : Z * RNG :=
  if flt fzero (tc_SeedJitter (t_cfg m)) then
    let '(f, r) := Float64 r in
    (i64_of_f64 (fmul (fmul f (tc_SeedJitter (t_cfg m)))
                   (f64_of_Z (default 0 (t_edgeLen m !! 0)))), r)
  else (0, r).

(** One turn of the loop over the nodes of the route. *)
Definition add_light (st : City) (n : string) : outcome City :=
  let '(mkCity m em rev) := st in
  let! (em, rev, id) := EntityManager__Create em rev in
  let! (col, rev) := Column__Set (t_lightCol m) rev id (mkLight true 0 0) in
  Done (mkCity (set_lightCol (set_nodeLight m (<[n := id]> (t_nodeLight m))) col) em rev).

(** One turn of the loop over the vehicles. *)
Definition add_vehicle (st : City) (i : nat) : outcome City :=
  let '(mkCity m em rev) := st in
  let '(jitter, r) := draw_jitter m (t_rng m) in
  let! (d, r) := Uint64n r 3 in
  let! (em, rev, id) := EntityManager__Create em rev in
  let pos := i64 (- Z.of_nat i - 1 - jitter) in
  let! (col, rev) := Column__Set (t_vehCol m) rev id (mkVehicle 0 pos 0 (1 + d)) in
  Done (mkCity (set_vehCol (set_rng m r) col) em rev).

(** [vehCol] and [lightCol] are the columns [RegisterComponent] returns, [streams] the random
    streams of the world. *)
(* examples/traffic/traffic.go:205-231 Traffic.Initialize *)
Definition Initialize (algs : gmap string LightAlgorithm) (vehCol : Column Vehicle)
    (lightCol : Column Light) (streams : RandomStreams) (st : City) : outcome City :=
  let '(mkCity m em rev) := st in
  let m := if tc_Vehicles (t_cfg m) =? 0 then set_cfg m (withDefaults (t_cfg m)) else m in
  let m := set_nodeLight (set_lightCol (set_vehCol m vehCol) lightCol) ∅ in
  let m := set_rng m (RandomStreams__StreamU64 streams 1) in
  let m := resolveAlgorithm algs (buildNetwork m) in
  let! st := ofold add_light (mkCity m em rev) (t_route m) in
  ofold add_vehicle st (seq 0 (Z.to_nat (tc_Vehicles (t_cfg m)))).

(** [math.Max(1, x)] for a number [x]. *)
Definition max_one (x : float64) : float64 := if flt fone x then x else fone.

(* examples/traffic/traffic.go:291-299 Traffic.Metrics *)
Definition Metrics (m : Traffic) : gmap string float64 :=
  {[ "completed"%string := f64_of_Z (t_completed m);
     "throughput"%string := f64_of_Z (t_completed m);
     "avg_wait"%string := fdiv (f64_of_Z (t_totalWait m)) (max_one (f64_of_Z (t_completed m)));
     "peak_queue"%string := f64_of_Z (t_peakQueue m) ]}.

(** One turn of the loop of the light system; a nil algorithm is a nil dereference. *)
Definition decide_light (m : Traffic) (id : EntityID) : outcome Traffic :=
  let! lt := Column__GetShard (t_lightCol m) id in
  match lt with
  | None => Done m
  | Some lt =>
      match t_algorithm m with
      | None => Panic "nil pointer dereference"
      | Some alg =>
          let! lt := alg_Decide alg lt (lt_Queue lt) in
          let lt := mkLight (lt_Green lt) (lt_Phase lt) 0 in
          let! col := Column__SetShard (t_lightCol m) id lt in
          Done (set_lightCol m col)
      end
  end.

(* examples/traffic/traffic.go:301-319 lightSystem.Run *)
Definition lightSystem__Run (m : Traffic) (shard : list EntityID) : outcome Traffic :=
  ofold decide_light m shard.

(* examples/traffic/traffic.go:423-430 Traffic.lightGreen *)
Definition lightGreen (m : Traffic) (node : string) : outcome bool :=
  match t_nodeLight m !! node with
  | None => Done true
  | Some id =>
      let! lt := Column__Get (t_lightCol m) id in
      Done (match lt with None => true | Some lt => lt_Green lt end)
  end.

(* examples/traffic/traffic.go:432-439 Traffic.bumpQueue *)
Definition bumpQueue (m : Traffic) (rev : Z) (node : string) : outcome (Traffic * Z) :=
  match t_nodeLight m !! node with
  | None => Done (m, rev)
  | Some id =>
      let! lt := Column__Get (t_lightCol m) id in
      match lt with
      | None => Done (m, rev)
      | Some lt =>
          let lt := mkLight (lt_Green lt) (lt_Phase lt) (i64 (lt_Queue lt + 1)) in
          let! (col, rev) := Column__Set (t_lightCol m) rev id lt in
          Done (set_lightCol m col, rev)
      end
  end.

(** The occupancy maps: [occ[e][p]]. A missing inner map reads as empty and panics on a write. *)
Abbreviation occupancy := (gmap Z (gset Z)).

Definition occupied (occ : occupancy) (e p : Z) : bool :=
  match occ !! e with Some s => bool_decide (p ∈ s) | None => false end.

Definition occupy (occ : occupancy) (e p : Z) : outcome occupancy :=
  match occ !! e with
  | Some s => Done (<[e := {[p]} ∪ s]> occ)
  | None => Panic "assignment to entry in nil map"
  end.

Definition vacate (occ : occupancy) (e p : Z) : occupancy := alter (λ s, s ∖ {[p]}) e occ.

Definition moved (v : Vehicle) (e p : Z) : Vehicle := mkVehicle e p (vh_Wait v) (vh_Speed v).

(** The result is the vehicle, the occupancy, blocked, finished and the node ahead. *)
(* examples/traffic/traffic.go:391-421 Traffic.advance *)
Definition advance (m : Traffic) (v : Vehicle) (occ : occupancy)
  : outcome (Vehicle * occupancy * bool * bool * string) :=
  let e := vh_Edge v in
  let l := default 0 (t_edgeLen m !! e) in
  let! dest := index (t_route m) (i64 (e + 1)) in
  let p := vh_Pos v in
  if p <? 0 then Done (moved v e (i64 (p + 1)), occ, false, false, dest)
  else if p =? l then
    if e =? len (t_route m) - 2 then Done (v, occ, false, true, dest)
    else
      let! green := lightGreen m dest in
      if negb green || occupied occ (i64 (e + 1)) 0 then Done (v, occ, true, false, dest)
      else
        let! occ := occupy occ (i64 (e + 1)) 0 in
        Done (moved v (i64 (e + 1)) 0, occ, false, false, dest)
  else
    let t := i64 (p + 1) in
    if occupied occ e t then Done (v, occ, true, false, dest)
    else
      let occ := vacate occ e p in
      let! occ := (if t <? l then occupy occ e t else Done occ) in
      Done (moved v e t, occ, false, false, dest).

(** The inner loop of [Run]: up to [Speed] cells, until blocked or finished. *)
Fixpoint advance_all (n : nat) (m : Traffic) (v : Vehicle) (occ : occupancy) (dest : string)
  : outcome (Vehicle * occupancy * bool * bool * string) :=
  match n with
  | O => Done (v, occ, false, false, dest)
  | S n =>
      let! (v, occ, blocked, finished, dest) := advance m v occ in
      if blocked || finished then Done (v, occ, blocked, finished, dest)
      else advance_all n m v occ dest
  end.

(** The vehicles in the order of [sort.Slice]: further edges first, then further cells. *)
Definition ahead (a b : EntityID * Vehicle) : bool :=
  if negb (vh_Edge a.2 =? vh_Edge b.2) then vh_Edge b.2 <? vh_Edge a.2
  else vh_Pos b.2 <? vh_Pos a.2.

(** [sort.Slice]: some permutation in which no element is less than an earlier one; it is not
    stable, so vehicles in one place come in an unspecified order. *)
Class SortSlice := {
  sort_Slice {A} : (A → A → bool) → list A → list A;
  sort_Slice_perm {A} (less : A → A → bool) l : sort_Slice less l ≡ₚ l;
  sort_Slice_sorted {A} (less : A → A → bool) l :
    (∀ a b, less a b = true → less b a = false) →
    (∀ a b c, less b a = false → less c b = false → less c a = false) →
    StronglySorted (λ a b, less b a = false) (sort_Slice less l);
}.

(** What the loop of [Run] accumulates. *)
Record Tally := mkTally { ta_completed : Z; ta_totalWait : Z; ta_queueSum : Z }.

(** One turn of the main loop of [Run]. *)
Definition move_vehicle (s : City * occupancy * Tally) (it : EntityID * Vehicle)
  : outcome (City * occupancy * Tally) :=
  let '(mkCity m em rev, occ, ta) := s in
  let '(id, v) := it in
  let! (v, occ, blocked, finished, dest) := advance_all (Z.to_nat (vh_Speed v)) m v occ "" in
  if finished then
    let! (em, rev, _) := EntityManager__Destroy em rev id in
    let! (col, rev, _) := Column__Remove (t_vehCol m) rev id in
    Done (mkCity (set_vehCol m col) em rev, occ,
          mkTally (i64 (ta_completed ta + 1)) (i64 (ta_totalWait ta + vh_Wait v)) (ta_queueSum ta))
  else
    let v' := if blocked then mkVehicle (vh_Edge v) (vh_Pos v) (i64 (vh_Wait v + 1)) (vh_Speed v) else v in
    let! (m, rev) := (if blocked then bumpQueue m rev dest else Done (m, rev)) in
    let! (col, rev) := Column__Set (t_vehCol m) rev id v' in
    Done (mkCity (set_vehCol m col) em rev, occ,
          if blocked then mkTally (ta_completed ta) (ta_totalWait ta) (i64 (ta_queueSum ta + 1)) else ta).

(** The cells occupied at the start of the tick. *)
Definition mark_vehicle (m : Traffic) (occ : occupancy) (it : EntityID * Vehicle) : outcome occupancy :=
  let v := it.2 in
  if (0 <=? vh_Pos v) && (vh_Pos v <? default 0 (t_edgeLen m !! vh_Edge v))
  then occupy occ (vh_Edge v) (vh_Pos v) else Done occ.

Definition empty_occupancy (m : Traffic) : occupancy := (λ _, ∅) <$> t_edgeLen m.

(* examples/traffic/traffic.go:321-389 movementSystem.Run *)
Definition movementSystem__Run `{SortSlice} (st : City) : outcome City :=
  let m := ci_model st in
  let vs := Column__Each (t_vehCol m) (λ vs id v, vs ++ [(id, v)]) [] in
  let vs := sort_Slice ahead vs in
  let! occ := ofold (mark_vehicle m) (empty_occupancy m) vs in
  let! (st, _, ta) := ofold move_vehicle (st, occ, mkTally 0 0 0) vs in
  let m := ci_model st in
  let peak := if t_peakQueue m <? ta_queueSum ta then ta_queueSum ta else t_peakQueue m in
  Done (mkCity (set_counters m (i64 (t_completed m + ta_completed ta))
                  (i64 (t_totalWait m + ta_totalWait ta)) peak)
               (ci_entities st) (ci_revision st)).

(** ** Light policies *)

(** The lights a policy produces over successive ticks with the given demands. *)
Fixpoint decisions (alg : LightAlgorithm) (l : Light) (qs : list Z) : outcome (list Light) :=
  match qs with
  | [] => Done []
  | q :: qs =>
      let! l := alg_Decide alg l q in
      let! ls := decisions alg l qs in
      Done (l :: ls)
  end.

(** The light after the [k]th decision of a fixed policy. *)
Definition fixed_light (g c : Z) (l : Light) (k : nat) : Light :=
  let phase := (lt_Phase l + Z.of_nat k) mod c in mkLight (phase <? g) phase (lt_Queue l).

Lemma Fixed_Decide_step g r l q :
  0 < g → 0 ≤ r → g + r < 2 ^ 63 → 0 ≤ lt_Phase l < g + r →
  Fixed__Decide g r l q = Done (fixed_light g (g + r) l 1).
Proof.
  intros Hg Hr Hc Hp. unfold Fixed__Decide. rewrite !i64_id by (unfold in_i64; lia).
  destruct (Z.eqb_spec (g + r) 0); [lia|]. unfold fixed_light.
  by rewrite Z.rem_mod_nonneg by lia.
Qed.

Lemma fixed_decisions g r l qs :
  0 < g → 0 ≤ r → g + r < 2 ^ 63 → 0 ≤ lt_Phase l < g + r →
  decisions (Fixed g r) l qs = Done (fixed_light g (g + r) l <$> seq 1 (length qs)).
Proof.
  intros Hg Hr Hc. revert l. induction qs as [|q qs IH]; intros l Hp; [done|].
  cbn [decisions Fixed alg_Decide]. rewrite Fixed_Decide_step by done. cbn [obind].
  pose proof (Z.mod_pos_bound (lt_Phase l + 1) (g + r) ltac:(lia)).
  fold (Fixed g r). rewrite IH by done. cbn [obind length seq fmap list_fmap]. f_equal. f_equal.
  rewrite <- (fmap_S_seq 1), <- list_fmap_compose. apply list_fmap_ext. intros i k _.
  unfold fixed_light, compose. cbn [lt_Phase lt_Queue]. rewrite Zplus_mod_idemp_l.
  by replace (lt_Phase l + Z.of_nat 1 + Z.of_nat k) with (lt_Phase l + Z.of_nat (S k)) by lia.
Qed.

Definition greens (ls : list Light) : nat := length (filter (λ l, lt_Green l = true) ls).

(** The greens among lights whose phases are the given numbers. *)
Definition below (g : Z) (ps : list Z) : nat := length (filter (λ p, p < g) ps).

Lemma below_seqZ g n : 0 ≤ g → below g (seqZ 0 (Z.of_nat n)) = Nat.min (Z.to_nat g) n.
Proof.
  intros Hg. unfold below. induction n as [|n IH]; [by rewrite Nat.min_0_r|].
  rewrite seqZ_S, filter_app, length_app, IH. rewrite filter_cons, !filter_nil.
  case_decide; cbn [length]; lia.
Qed.

#[global] Instance below_perm g : Proper ((≡ₚ) ==> (=)) (below g).
Proof. intros l l' Hl. unfold below. by rewrite Hl. Qed.

Lemma greens_below g c l ks :
  greens (fixed_light g c l <$> ks) = below g ((λ k, (lt_Phase l + Z.of_nat k) mod c) <$> ks).
Proof.
  unfold greens, below. induction ks as [|k ks IH]; [done|].
  cbn [fmap list_fmap]. rewrite !filter_cons. cbn [fixed_light lt_Green].
  destruct (Z.ltb_spec ((lt_Phase l + Z.of_nat k) mod c) g);
    repeat case_decide; try lia; try done; cbn [length]; congruence.
Qed.

(** The phases of one cycle, from [a] round to [a] again. *)
Lemma cycle_phases a (c : nat) :
  0 ≤ a < Z.of_nat c →
  (λ k, (a + Z.of_nat k) mod Z.of_nat c) <$> seq 1 c ≡ₚ seqZ 0 (Z.of_nat c).
Proof.
  intros Ha. trans (seqZ (a + 1) (Z.of_nat c - 1 - a) ++ seqZ 0 (a + 1)).
  - apply reflexive_eq, list_eq. intros i. rewrite list_lookup_fmap.
    destruct (decide (i < c)%nat) as [Hi|Hi].
    + rewrite lookup_seq_lt by done. cbn [fmap option_fmap option_map].
      destruct (decide (Z.of_nat i < Z.of_nat c - 1 - a)) as [Hlt|Hge].
      * rewrite lookup_app_l by (rewrite length_seqZ; lia). rewrite lookup_seqZ_lt by lia.
        f_equal. rewrite Z.mod_small by lia. lia.
      * rewrite lookup_app_r by (rewrite length_seqZ; lia). rewrite length_seqZ, lookup_seqZ_lt by lia.
        f_equal. symmetry. apply (Z.mod_unique_pos _ _ 1); lia.
    + rewrite lookup_seq_ge by lia. cbn. symmetry. apply lookup_ge_None.
      rewrite length_app, !length_seqZ. lia.
  - rewrite (Permutation_app_comm (seqZ (a + 1) _)).
    assert (seqZ 0 (Z.of_nat c) = seqZ 0 (a + 1) ++ seqZ (a + 1) (Z.of_nat c - 1 - a)) as ->; [|done].
    replace (Z.of_nat c) with (a + 1 + (Z.of_nat c - 1 - a)) at 1 by lia.
    by rewrite seqZ_app by lia.
Qed.

(** A fixed policy divides its cycle as configured: over any [GreenTicks + RedTicks]
    consecutive ticks, whatever the demand, the light is green for exactly [GreenTicks] of
    them, and then is in the phase it started from. *)
Theorem Fixed_green_share g r l qs :
  0 < g → 0 ≤ r → g + r < 2 ^ 63 → 0 ≤ lt_Phase l < g + r → len qs = g + r →
  ∃ ls l', decisions (Fixed g r) l qs = Done ls ∧ greens ls = Z.to_nat g ∧
    last ls = Some l' ∧ lt_Phase l' = lt_Phase l.
Proof.
  intros Hg Hr Hc Hp Hq. rewrite fixed_decisions by done. unfold len in Hq.
  exists (fixed_light g (g + r) l <$> seq 1 (length qs)), (fixed_light g (g + r) l (length qs)).
  split; [done|]. rewrite <- Hq. split_and!.
  - rewrite greens_below, cycle_phases by lia. rewrite below_seqZ by lia. lia.
  - destruct (length qs) as [|n] eqn:E; [lia|]. rewrite seq_S, fmap_app. cbn [fmap list_fmap].
    by rewrite last_snoc.
  - cbn. rewrite <- (Z.mul_1_l (Z.of_nat (length qs))) at 1. rewrite Z.mod_add by lia.
    apply Z.mod_small. lia.
Qed.

Lemma Fixed_green_share_witness :
  ∃ ls l', decisions (Fixed 2 3) (mkLight true 4 0) [0; 0; 7; 0; 0] = Done ls ∧ greens ls = 2%nat ∧
    last ls = Some l' ∧ lt_Phase l' = 4.
Proof. apply (Fixed_green_share 2 3 (mkLight true 4 0) [0; 0; 7; 0; 0]); done. Defined.

Lemma Adaptive_total t mx l q : ∃ l', Adaptive__Decide t mx l q = Done l'.
Proof. unfold Adaptive__Decide. repeat case_match; eauto. Qed.

Lemma adaptive_decisions_total t mx qs l : ∃ ls, decisions (Adaptive t mx) l qs = Done ls.
Proof.
  revert l. induction qs as [|q qs IH]; intros l; cbn; [by eexists|].
  destruct (Adaptive_total t mx l q) as [l' ->]. cbn. destruct (IH l') as [ls Hls].
  change (mkAlg _ _) with (Adaptive t mx). rewrite Hls. by eexists.
Qed.

(** A red light with waiting vehicles counts its phase up until it turns green. *)
Lemma adaptive_red t mx l qs :
  0 < mx < 2 ^ 63 → lt_Green l = false → 0 ≤ lt_Phase l < mx → Forall (λ q, 0 < q) qs →
  mx - lt_Phase l ≤ len qs →
  ∃ ls, decisions (Adaptive t mx) l qs = Done ls ∧ ∃ l', l' ∈ ls ∧ lt_Green l' = true.
Proof.
  intros Hmx. revert l. induction qs as [|q qs IH]; intros l Hg Hp Hqs Hlen; [unfold len in Hlen; cbn in Hlen; lia|].
  apply Forall_cons in Hqs as [Hq Hqs]. rewrite len_cons in Hlen.
  cbn [decisions Adaptive alg_Decide]. fold (Adaptive t mx). unfold Adaptive__Decide at 1. rewrite Hg.
  rewrite i64_id by (unfold in_i64; lia).
  assert (∀ l0, lt_Green l0 = true → ∃ ls, (let! ls := decisions (Adaptive t mx) l0 qs in Done (l0 :: ls)) = Done ls ∧
    ∃ l', l' ∈ ls ∧ lt_Green l' = true) as Hnow.
  { intros l0 Hl0. destruct (adaptive_decisions_total t mx qs l0) as [ls ->]. eexists. split; [done|].
    exists l0. split; [by left|done]. }
  destruct (Z.leb_spec t q); [by apply Hnow|]. destruct (Z.ltb_spec 0 q); [|lia].
  destruct (Z.leb_spec mx (lt_Phase l + 1)); [by apply Hnow|].
  destruct (IH (mkLight false (lt_Phase l + 1) (lt_Queue l))) as (ls & Hls & l' & Hl' & Hl'g);
    [done|cbn; lia|done|cbn; lia|].
  cbn [obind]. rewrite Hls. eexists. split; [done|]. exists l'. split; [by right|done].
Qed.

(** An adaptive light never strands waiting vehicles: it turns green at once when the demand
    reaches the threshold, and whatever its state, if vehicles wait for [MaxRedTicks + 1]
    consecutive ticks, it is green in one of them. *)
Theorem Adaptive_serves t mx l qs :
  0 < mx < 2 ^ 63 → 0 ≤ lt_Phase l < mx → Forall (λ q, 0 < q) qs → len qs = mx + 1 →
  (∀ q, t ≤ q → ∃ l', Adaptive__Decide t mx l q = Done l' ∧ lt_Green l' = true) ∧
  ∃ ls, decisions (Adaptive t mx) l qs = Done ls ∧ ∃ l', l' ∈ ls ∧ lt_Green l' = true.
Proof.
  intros Hmx Hp Hqs Hlen. split.
  { intros q Hq. unfold Adaptive__Decide. destruct (Z.leb_spec t q); [by eexists|lia]. }
  destruct (lt_Green l) eqn:Hg; [|apply adaptive_red; [done..|lia]].
  destruct qs as [|q qs]; [unfold len in Hlen; cbn in Hlen; lia|].
  rewrite len_cons in Hlen. apply Forall_cons in Hqs as [Hq Hqs].
  cbn [decisions Adaptive alg_Decide]. fold (Adaptive t mx). unfold Adaptive__Decide at 1. rewrite Hg.
  destruct (Z.leb_spec t q); cbn [obind].
  - destruct (adaptive_decisions_total t mx qs (mkLight true 0 (lt_Queue l))) as [ls ->].
    eexists. split; [done|]. eexists. by split; [left|].
  - destruct (adaptive_red t mx (mkLight false 0 (lt_Queue l)) qs) as (ls & -> & l' & Hl' & Hl'g);
      [done|done|cbn; lia|done|cbn; lia|].
    eexists. split; [done|]. exists l'. split; [by right|done].
Qed.

Lemma Adaptive_serves_witness :
  (∀ q, 3 ≤ q → ∃ l', Adaptive__Decide 3 2 (mkLight true 0 0) q = Done l' ∧ lt_Green l' = true) ∧
  ∃ ls, decisions (Adaptive 3 2) (mkLight true 0 0) [1; 2; 1] = Done ls ∧
    ∃ l', l' ∈ ls ∧ lt_Green l' = true.
Proof.
  apply (Adaptive_serves 3 2 (mkLight true 0 0) [1; 2; 1]); [lia|cbn; lia| |done].
  repeat constructor; lia.
Defined.

(** ** Movement *)

(** The length of the edge a vehicle is on. *)
Definition edge_len (m : Traffic) (e : Z) : Z := default 0 (t_edgeLen m !! e).

Record road_ok (m : Traffic) : Prop := {
  rd_route : 2 ≤ len (t_route m) < 2 ^ 62;
  rd_len e : 0 ≤ e ≤ len (t_route m) - 2 → ∃ l, t_edgeLen m !! e = Some l ∧ 0 ≤ l < 2 ^ 63;
}.

(** A vehicle is queued before the entry, on an edge of the route, or at its far node. *)
Record on_road (m : Traffic) (v : Vehicle) : Prop := {
  on_edge : 0 ≤ vh_Edge v ≤ len (t_route m) - 2;
  on_pos : - 2 ^ 63 ≤ vh_Pos v ≤ edge_len m (vh_Edge v);
  on_enter : 0 < vh_Edge v → 0 ≤ vh_Pos v;
}.

(** It occupies a cell that no other vehicle may be in: every cell of the road but the first
    cell of the first edge, which [advance] enters unchecked. *)
Definition in_cell (m : Traffic) (v : Vehicle) : Prop :=
  0 ≤ vh_Pos v < edge_len m (vh_Edge v) ∧ (0 < vh_Edge v ∨ 0 < vh_Pos v).

Definition same_place (v1 v2 : Vehicle) : Prop := vh_Edge v1 = vh_Edge v2 ∧ vh_Pos v1 = vh_Pos v2.

Abbreviation fleet := (gmap nat (EntityID * Vehicle)).

Record fleet_ok (m : Traffic) (M : fleet) : Prop := {
  fl_on i e v : M !! i = Some (e, v) → on_road m v;
  fl_apart i j a b va vb : i ≠ j → M !! i = Some (a, va) → M !! j = Some (b, vb) →
    in_cell m va → ¬ same_place va vb;
}.

(** The occupancy maps cover the vehicles. *)
Record marks (m : Traffic) (occ : occupancy) (M : fleet) : Prop := {
  mk_cell i e v : M !! i = Some (e, v) → in_cell m v → occupied occ (vh_Edge v) (vh_Pos v) = true;
  mk_edges e : 0 ≤ e ≤ len (t_route m) - 2 → is_Some (occ !! e);
}.

Lemma occupied_occupy occ occ' e p e' p' :
  occupy occ e p = Done occ' →
  occupied occ' e' p' = bool_decide (e = e' ∧ p = p') || occupied occ e' p'.
Proof.
  unfold occupy, occupied. destruct (occ !! e) as [s|] eqn:Es; [|done]. intros [= <-].
  destruct (decide (e = e')) as [<-|Hne].
  - rewrite lookup_insert_eq, Es. apply eq_true_iff_eq.
    rewrite orb_true_iff, !bool_decide_eq_true. set_solver.
  - rewrite lookup_insert_ne by done. by rewrite bool_decide_eq_false_2 by naive_solver.
Qed.

Lemma occupied_vacate occ e p e' p' :
  occupied (vacate occ e p) e' p' = negb (bool_decide (e = e' ∧ p = p')) && occupied occ e' p'.
Proof.
  unfold vacate, occupied. destruct (decide (e = e')) as [<-|Hne].
  - rewrite lookup_alter_eq. destruct (occ !! e) as [s|]; cbn; [|by rewrite andb_false_r].
    apply eq_true_iff_eq. rewrite andb_true_iff, negb_true_iff, bool_decide_eq_false, !bool_decide_eq_true.
    set_solver.
  - rewrite lookup_alter_ne by done. by rewrite bool_decide_eq_false_2 by naive_solver.
Qed.

Lemma occupy_done occ e p : is_Some (occ !! e) → ∃ occ', occupy occ e p = Done occ' ∧
  ∀ e', is_Some (occ !! e') → is_Some (occ' !! e').
Proof.
  intros [s Hs]. unfold occupy. rewrite Hs. eexists. split; [done|]. intros e' He'.
  destruct (decide (e = e')) as [<-|Hne]; [rewrite lookup_insert_eq; by eexists|by rewrite lookup_insert_ne].
Qed.

Section moving.
Context (m : Traffic) (Hroad : road_ok m).
Implicit Types (M : fleet) (v : Vehicle) (occ : occupancy).

Lemma edge_len_range e : 0 ≤ e ≤ len (t_route m) - 2 → 0 ≤ edge_len m e < 2 ^ 63.
Proof using Hroad. intros He. destruct (rd_len m Hroad e He) as (l & Hl & ?). unfold edge_len. by rewrite Hl. Qed.

(** Replacing the vehicle under [i]: the others must not be where it is now. *)
Lemma fleet_replace M i e v v' :
  fleet_ok m (<[i := (e, v)]> M) → on_road m v' →
  (∀ j e2 v2, j ≠ i → M !! j = Some (e2, v2) → in_cell m v' → ¬ same_place v' v2) →
  fleet_ok m (<[i := (e, v')]> M).
Proof using Type.
  intros [Hon Hap] Hv' Hnew. split.
  - intros j e2 v2. destruct (decide (i = j)) as [<-|Hne].
    + rewrite lookup_insert_eq. by intros [= _ <-].
    + intros Hj. apply (Hon j e2). by rewrite lookup_insert_ne in Hj |- *.
  - intros j k a b va vb Hjk Hj Hk Hc Hs.
    destruct (decide (i = j)) as [<-|Hnj], (decide (i = k)) as [<-|Hnk]; [done| | |].
    + rewrite lookup_insert_eq in Hj. injection Hj as _ <-. rewrite lookup_insert_ne in Hk by done.
      by apply (Hnew k b vb).
    + rewrite lookup_insert_eq in Hk. injection Hk as _ <-. rewrite lookup_insert_ne in Hj by done.
      destruct Hs as [He Hp]. apply (Hnew j a va); [done|done| |done].
      unfold in_cell in *. by rewrite <- He, <- Hp.
    + rewrite lookup_insert_ne in Hj, Hk by done.
      apply (Hap j k a b va vb); rewrite ?lookup_insert_ne by done; done.
Qed.

Lemma marks_replace M i e v v' occ occ' :
  marks m occ (<[i := (e, v)]> M) →
  (∀ e', is_Some (occ !! e') → is_Some (occ' !! e')) →
  (in_cell m v' → occupied occ' (vh_Edge v') (vh_Pos v') = true) →
  (∀ j e2 v2, j ≠ i → M !! j = Some (e2, v2) → in_cell m v2 →
     occupied occ (vh_Edge v2) (vh_Pos v2) = true → occupied occ' (vh_Edge v2) (vh_Pos v2) = true) →
  marks m occ' (<[i := (e, v')]> M).
Proof using Type.
  intros [Hc Hd] Hdom Hv' Hothers. split.
  - intros j e2 v2. destruct (decide (i = j)) as [<-|Hne].
    + rewrite lookup_insert_eq. by intros [= _ <-].
    + rewrite lookup_insert_ne by done. intros Hj Hin. apply (Hothers j e2); [done..|].
      apply (Hc j e2); [by rewrite lookup_insert_ne|done].
  - intros e2 He2. by apply Hdom, Hd.
Qed.

(** Another vehicle in a cell of the road makes [occupied] true there. *)
Lemma free_cell M i e v occ j e2 v2 v' :
  marks m occ (<[i := (e, v)]> M) → j ≠ i → M !! j = Some (e2, v2) → in_cell m v' →
  same_place v' v2 → occupied occ (vh_Edge v') (vh_Pos v') = true.
Proof using Type.
  intros [Hc _] Hj HM Hin [He Hp]. rewrite He, Hp. apply (Hc j e2); [by rewrite lookup_insert_ne|].
  unfold in_cell in *. by rewrite <- He, <- Hp.
Qed.

Context (ML : gmap nat (EntityID * Light)) (Hlights : col_refines (t_lightCol m) ML).

Lemma lightGreen_done node : ∃ b, lightGreen m node = Done b.
Proof using Hlights.
  unfold lightGreen. destruct (t_nodeLight m !! node) as [id|]; [|by eexists].
  rewrite (Get_refines _ _ id Hlights). cbn [obind]. by eexists.
Qed.

Lemma moved_place v e p : vh_Edge (moved v e p) = e ∧ vh_Pos (moved v e p) = p.
Proof using Type. done. Qed.

(** Moving up in the queue before the entry. *)
Lemma advance_enter M i e v occ (dest : string) :
  fleet_ok m (<[i := (e, v)]> M) → marks m occ (<[i := (e, v)]> M) → vh_Pos v < 0 →
  ∃ v' occ' (b f : bool) (d : string), Done (moved v (vh_Edge v) (vh_Pos v + 1), occ, false, false, dest)
      = Done (v', occ', b, f, d) ∧
    fleet_ok m (<[i := (e, v')]> M) ∧ marks m occ' (<[i := (e, v')]> M) ∧
    vh_Wait v' = vh_Wait v ∧ vh_Speed v' = vh_Speed v.
Proof using Hroad.
  intros Hfl Hmk Hneg.
  destruct (fl_on _ _ Hfl i e v) as [Hedge Hpos Henter]; [by rewrite lookup_insert_eq|].
  pose proof (edge_len_range _ Hedge) as Hl. set (v' := moved _ _ _).
  assert (¬ in_cell m v') as Hout by (unfold in_cell, v'; cbn; lia).
  exists v', occ, false, false, dest. split_and!; [done| | |done|done].
  - eapply fleet_replace; [done| |done]. split; unfold v'; cbn; lia.
  - eapply marks_replace; [done|done|done|done].
Qed.

(** Crossing a node into the first cell of the next edge. *)
Lemma advance_cross M i e v occ (dest : string) :
  fleet_ok m (<[i := (e, v)]> M) → marks m occ (<[i := (e, v)]> M) →
  vh_Edge v ≠ len (t_route m) - 2 → occupied occ (vh_Edge v + 1) 0 = false →
  ∃ v' occ' (b f : bool) (d : string),
    (let! occ := occupy occ (vh_Edge v + 1) 0 in
     Done (moved v (vh_Edge v + 1) 0, occ, false, false, dest)) = Done (v', occ', b, f, d) ∧
    fleet_ok m (<[i := (e, v')]> M) ∧ marks m occ' (<[i := (e, v')]> M) ∧
    vh_Wait v' = vh_Wait v ∧ vh_Speed v' = vh_Speed v.
Proof using Hroad.
  intros Hfl Hmk Hmore Hfree.
  destruct (fl_on _ _ Hfl i e v) as [Hedge Hpos Henter]; [by rewrite lookup_insert_eq|].
  assert (0 ≤ vh_Edge v + 1 ≤ len (t_route m) - 2) as Hnext by lia.
  pose proof (edge_len_range _ Hnext) as Hl.
  destruct (occupy_done occ (vh_Edge v + 1) 0) as (occ' & Hocc & Hdom); [by apply Hmk|].
  rewrite Hocc. cbn [obind]. set (v' := moved _ _ _).
  exists v', occ', false, false, dest. split_and!; [done| | |done|done].
  - eapply fleet_replace; [done|split; unfold v'; cbn; lia|].
    intros j e2 v2 Hj HM Hin Hs. pose proof (free_cell _ _ _ _ _ _ _ _ _ Hmk Hj HM Hin Hs) as Hbad.
    unfold v' in Hbad. cbn in Hbad. congruence.
  - eapply marks_replace; [done|done| |].
    + intros _. rewrite (occupied_occupy _ _ _ _ _ _ Hocc). by rewrite bool_decide_eq_true_2.
    + intros j e2 v2 _ _ _ Ho. by rewrite (occupied_occupy _ _ _ _ _ _ Hocc), Ho, orb_true_r.
Qed.

(** Moving to the next cell of the edge, or to its far node. *)
Lemma advance_cell M i e v occ (dest : string) :
  fleet_ok m (<[i := (e, v)]> M) → marks m occ (<[i := (e, v)]> M) →
  0 ≤ vh_Pos v < edge_len m (vh_Edge v) → occupied occ (vh_Edge v) (vh_Pos v + 1) = false →
  ∃ v' occ' (b f : bool) (d : string),
    (let! occ := (if vh_Pos v + 1 <? edge_len m (vh_Edge v)
                  then occupy (vacate occ (vh_Edge v) (vh_Pos v)) (vh_Edge v) (vh_Pos v + 1)
                  else Done (vacate occ (vh_Edge v) (vh_Pos v))) in
     Done (moved v (vh_Edge v) (vh_Pos v + 1), occ, false, false, dest)) = Done (v', occ', b, f, d) ∧
    fleet_ok m (<[i := (e, v')]> M) ∧ marks m occ' (<[i := (e, v')]> M) ∧
    vh_Wait v' = vh_Wait v ∧ vh_Speed v' = vh_Speed v.
Proof using Hroad.
  intros Hfl Hmk Hp Hfree.
  destruct (fl_on _ _ Hfl i e v) as [Hedge Hpos Henter]; [by rewrite lookup_insert_eq|].
  pose proof (edge_len_range _ Hedge) as Hl. set (v' := moved _ _ _). set (occ0 := vacate _ _ _).
  assert (∀ e', is_Some (occ !! e') → is_Some (occ0 !! e')) as Hdom0.
  { intros e' He'. unfold occ0, vacate. destruct (decide (vh_Edge v = e')) as [<-|Hne].
    - rewrite lookup_alter_eq. by apply fmap_is_Some.
    - by rewrite lookup_alter_ne. }
  assert (∀ j e2 v2, j ≠ i → M !! j = Some (e2, v2) → in_cell m v2 →
    occupied occ (vh_Edge v2) (vh_Pos v2) = true → occupied occ0 (vh_Edge v2) (vh_Pos v2) = true) as Hkeep.
  { intros j e2 v2 Hj HM Hin Ho. unfold occ0. rewrite occupied_vacate, Ho, andb_true_r, negb_true_iff.
    apply bool_decide_eq_false. intros [He Hpv].
    apply (fl_apart _ _ Hfl j i e2 e v2 v); [done|by rewrite lookup_insert_ne|by rewrite lookup_insert_eq|done|].
    split; congruence. }
  assert (fleet_ok m (<[i := (e, v')]> M)) as Hfl'.
  { eapply fleet_replace; [done|split; unfold v'; cbn; lia|].
    intros j e2 v2 Hj HM Hin Hs. pose proof (free_cell _ _ _ _ _ _ _ _ _ Hmk Hj HM Hin Hs) as Hbad.
    unfold v' in Hbad. cbn in Hbad. congruence. }
  destruct (Z.ltb_spec (vh_Pos v + 1) (edge_len m (vh_Edge v))) as [Hlt|Hge].
  - destruct (occupy_done occ0 (vh_Edge v) (vh_Pos v + 1)) as (occ' & Hocc & Hdom); [by apply Hdom0, Hmk|].
    rewrite Hocc. cbn [obind]. exists v', occ', false, false, dest. split_and!; [done|done| |done|done].
    eapply marks_replace; [done|auto| |].
    + intros _. rewrite (occupied_occupy _ _ _ _ _ _ Hocc). by rewrite bool_decide_eq_true_2.
    + intros j e2 v2 Hj HM Hin Ho. rewrite (occupied_occupy _ _ _ _ _ _ Hocc).
      by rewrite (Hkeep j e2 v2), orb_true_r.
  - cbn [obind]. exists v', occ0, false, false, dest. split_and!; [done|done| |done|done].
    eapply marks_replace; [done|done| |done].
    unfold in_cell, v'. cbn. lia.
Qed.

(** [advance] never panics on the road, keeps the vehicles apart and the occupancy covering, and
    reports "finished" only at the end of the last edge. *)
Lemma advance_ok M i e v occ :
  fleet_ok m (<[i := (e, v)]> M) → marks m occ (<[i := (e, v)]> M) →
  ∃ v' occ' b f dest, advance m v occ = Done (v', occ', b, f, dest) ∧
    fleet_ok m (<[i := (e, v')]> M) ∧ marks m occ' (<[i := (e, v')]> M) ∧
    vh_Wait v' = vh_Wait v ∧ vh_Speed v' = vh_Speed v.
Proof using Hlights Hroad.
  intros Hfl Hmk.
  destruct (fl_on _ _ Hfl i e v) as [Hedge Hpos Henter]; [by rewrite lookup_insert_eq|].
  pose proof (rd_route m Hroad) as Hr. pose proof (edge_len_range _ Hedge) as Hl.
  unfold advance. rewrite !(i64_id (vh_Edge v + 1)) by (unfold in_i64; lia).
  destruct (index_in_range (t_route m) (vh_Edge v + 1)) as [dest ->]; [lia|]. cbn [obind].
  fold (edge_len m (vh_Edge v)).
  destruct (Z.ltb_spec (vh_Pos v) 0) as [Hneg|Hnn];
    [rewrite i64_id by (unfold in_i64; lia); by apply advance_enter|].
  destruct (Z.eqb_spec (vh_Pos v) (edge_len m (vh_Edge v))) as [Hat|Hin].
  - destruct (Z.eqb_spec (vh_Edge v) (len (t_route m) - 2)) as [Hlast|Hmore];
      [by do 5 eexists|].
    destruct (lightGreen_done dest) as [g ->]. cbn [obind].
    destruct (negb g || occupied occ (vh_Edge v + 1) 0) eqn:Hstop; [by do 5 eexists|].
    apply orb_false_iff in Hstop as [_ Hfree]. by apply advance_cross.
  - rewrite i64_id by (unfold in_i64; lia).
    destruct (occupied occ (vh_Edge v) (vh_Pos v + 1)) eqn:Hfree; [by do 5 eexists|].
    apply advance_cell; try done. lia.
Qed.

Lemma advance_all_ok n M i e v occ dest :
  fleet_ok m (<[i := (e, v)]> M) → marks m occ (<[i := (e, v)]> M) →
  ∃ v' occ' b f d, advance_all n m v occ dest = Done (v', occ', b, f, d) ∧
    fleet_ok m (<[i := (e, v')]> M) ∧ marks m occ' (<[i := (e, v')]> M).
Proof using Hlights Hroad.
  revert v occ dest. induction n as [|n IH]; intros v occ dest Hfl Hmk; [by do 5 eexists|].
  cbn [advance_all]. destruct (advance_ok _ _ _ _ _ Hfl Hmk) as (v1 & occ1 & b & f & d & -> & Hfl1 & Hmk1 & _).
  cbn [obind]. destruct (b || f); [by do 5 eexists|]. by apply IH.
Qed.

(** Marking the vehicles of a list covers them. *)
Lemma mark_all_ok (vs : list (EntityID * Vehicle)) occ :
  (∀ e, 0 ≤ e ≤ len (t_route m) - 2 → is_Some (occ !! e)) →
  Forall (λ it, on_road m it.2) vs →
  ∃ occ', ofold (mark_vehicle m) occ vs = Done occ' ∧
    (∀ e, is_Some (occ !! e) → is_Some (occ' !! e)) ∧
    (∀ e p, occupied occ e p = true → occupied occ' e p = true) ∧
    (∀ it, it ∈ vs → in_cell m it.2 → occupied occ' (vh_Edge it.2) (vh_Pos it.2) = true).
Proof using Type.
  revert occ. induction vs as [|it vs IH]; intros occ Hdom Hon.
  { exists occ. split_and!; try done. intros it []%not_elem_of_nil. }
  apply Forall_cons in Hon as [Hit Hon]. cbn [ofold]. unfold mark_vehicle at 1. fold (edge_len m (vh_Edge it.2)).
  destruct ((0 <=? vh_Pos it.2) && (vh_Pos it.2 <? edge_len m (vh_Edge it.2))) eqn:Hin.
  - destruct (occupy_done occ (vh_Edge it.2) (vh_Pos it.2)) as (occ1 & Hocc & Hd1); [apply Hdom, Hit|].
    rewrite Hocc. cbn [obind].
    destruct (IH occ1) as (occ' & Hf & Hd & Hm & Hc); [auto|done|].
    pose proof (occupied_occupy _ _ _ _ (vh_Edge it.2) (vh_Pos it.2) Hocc) as Hhere.
    rewrite bool_decide_eq_true_2 in Hhere by done.
    exists occ'. split_and!; [done|auto| |].
    + intros e p Ho. apply Hm. by rewrite (occupied_occupy _ _ _ _ _ _ Hocc), Ho, orb_true_r.
    + intros it' [->|Hit']%elem_of_cons Hc'; [by apply Hm|auto].
  - cbn [obind]. destruct (IH occ) as (occ' & Hf & Hd & Hm & Hc); [done|done|].
    exists occ'. split_and!; try done. intros it' [->|Hit']%elem_of_cons Hc'; [|by apply Hc].
    destruct Hc' as [Hc' _]. apply andb_false_iff in Hin as [?%Z.leb_gt|?%Z.ltb_ge]; lia.
Qed.
End moving.

(** ** Ticks *)

(** The state between two ticks: the road and the columns are well formed, the vehicles apart,
    every vehicle a live entity, and none of the [n] vehicles lost. *)
Record fleet_state (st : City) (M : fleet) : Prop := {
  fs_road : road_ok (ci_model st);
  fs_col : col_refines (t_vehCol (ci_model st)) M;
  fs_fleet : fleet_ok (ci_model st) M;
  fs_live i e v : M !! i = Some (e, v) → e ∈ em_dense (ci_entities st);
  fs_em : em_inv (ci_entities st);
  fs_entities : len (em_dense (ci_entities st)) < 2 ^ 31;
  fs_vehicles : len (col_dense (t_vehCol (ci_model st))) < 2 ^ 31 - 1;
  fs_lights : ∃ ML, col_refines (t_lightCol (ci_model st)) ML;
  fs_nlights : len (col_dense (t_lightCol (ci_model st))) < 2 ^ 31 - 1;
}.

Definition vehicles (st : City) : Z := len (col_dense (t_vehCol (ci_model st))).

(** The parts of the model that moving does not touch. *)
Definition same_net (m m' : Traffic) : Prop :=
  t_route m' = t_route m ∧ t_edgeLen m' = t_edgeLen m.

Definition same_road (m m' : Traffic) : Prop :=
  same_net m m' ∧ t_algorithm m' = t_algorithm m ∧ t_completed m' = t_completed m.

Lemma same_road_trans m1 m2 m3 : same_road m1 m2 → same_road m2 m3 → same_road m1 m3.
Proof. intros ([H1 H2] & H3 & H4) ([H5 H6] & H7 & H8). unfold same_road, same_net. split_and!; congruence. Qed.

Lemma road_same m m' : same_net m m' → road_ok m → road_ok m'.
Proof. intros [Hr He] [H1 H2]. split; rewrite ?Hr, ?He; done. Qed.

Lemma fleet_same m m' M : same_net m m' → fleet_ok m M → fleet_ok m' M.
Proof.
  intros [Hr He] [H1 H2]. split.
  - intros i e v Hi. destruct (H1 _ _ _ Hi) as [A B C]. split; [by rewrite Hr|unfold edge_len; by rewrite He|done].
  - intros i j a b va vb Hij Hi Hj Hc. apply (H2 i j a b); [done..|]. unfold in_cell, edge_len in *. by rewrite He in Hc.
Qed.

Lemma marks_same m m' occ M : same_net m m' → marks m occ M → marks m' occ M.
Proof.
  intros [Hr He] [H1 H2]. split.
  - intros i e v Hi Hc. apply (H1 i e); [done|]. unfold in_cell, edge_len in *. by rewrite He in Hc.
  - intros e. rewrite Hr. apply H2.
Qed.

Lemma bumpQueue_ok m rev node :
  (∃ ML, col_refines (t_lightCol m) ML) → len (col_dense (t_lightCol m)) < 2 ^ 31 - 1 →
  ∃ m' rev', bumpQueue m rev node = Done (m', rev') ∧ same_road m m' ∧ t_vehCol m' = t_vehCol m ∧
    (∃ ML, col_refines (t_lightCol m') ML) ∧ len (col_dense (t_lightCol m')) < 2 ^ 31 - 1.
Proof.
  intros [ML HML] Hlen. unfold bumpQueue.
  assert (same_road m m) as Hsame by done.
  destruct (t_nodeLight m !! node) as [id|]; [|by eauto 10].
  rewrite (Get_refines _ _ id HML). cbn [obind].
  destruct (ML !! eidx id) as [[e0 lt]|] eqn:Elt; cbn [fmap option_fmap option_map snd]; [|by eauto 10].
  destruct (Set_refines _ _ rev id (mkLight (lt_Green lt) (lt_Phase lt) (i64 (lt_Queue lt + 1))) HML Hlen)
    as (c' & -> & Href & Hl & _).
  rewrite Elt in Hl |- *. cbn [obind]. do 2 eexists. split; [done|]. split; [done|]. split; [done|].
  cbn. split; [by eexists|lia].
Qed.

Lemma fleet_place m M i e v v' :
  same_place v v' → fleet_ok m (<[i := (e, v)]> M) → fleet_ok m (<[i := (e, v')]> M).
Proof.
  intros [He Hp] Hfl. eapply fleet_replace; [done| |].
  - destruct (fl_on _ _ Hfl i e v) as [A B C]; [by rewrite lookup_insert_eq|].
    split; by rewrite <- ?He, <- ?Hp.
  - intros j e2 v2 Hj HM Hc Hs. apply (fl_apart _ _ Hfl i j e e2 v v2);
      [done|by rewrite lookup_insert_eq|by rewrite lookup_insert_ne| |].
    + unfold in_cell in *. by rewrite He, Hp.
    + unfold same_place in *. by rewrite He, Hp.
Qed.

Lemma marks_place m occ M i e v v' :
  same_place v v' → marks m occ (<[i := (e, v)]> M) → marks m occ (<[i := (e, v')]> M).
Proof.
  intros [He Hp] Hmk. eapply marks_replace; [done|done| |done].
  intros Hc. unfold in_cell in Hc. rewrite <- He, <- Hp in Hc |- *.
  apply (mk_cell _ _ _ Hmk i e v); [by rewrite lookup_insert_eq|done].
Qed.

Lemma fleet_delete m M i x : fleet_ok m (<[i := x]> M) → fleet_ok m (delete i M).
Proof.
  intros [H1 H2]. split.
  - intros j e v [Hne Hj]%lookup_delete_Some. apply (H1 j e). by rewrite lookup_insert_ne.
  - intros j k a b va vb Hjk [Hnj Hj]%lookup_delete_Some [Hnk Hk]%lookup_delete_Some.
    apply (H2 j k a b); [done|by rewrite lookup_insert_ne..].
Qed.

Lemma marks_delete m occ M i x : marks m occ (<[i := x]> M) → marks m occ (delete i M).
Proof.
  intros [H1 H2]. split; [|done].
  intros j e v [Hne Hj]%lookup_delete_Some. apply (H1 j e). by rewrite lookup_insert_ne.
Qed.

(** A finished vehicle leaves: its entity is destroyed and its component removed. *)
Lemma leave_ok m em rev M id v x :
  fleet_state (mkCity m em rev) M → M !! eidx id = Some (id, v) → fleet_ok m (<[eidx id := x]> M) →
  ∃ em' rev1 col' rev2, EntityManager__Destroy em rev id = Done (em', rev1, true) ∧
    Column__Remove (t_vehCol m) rev1 id = Done (col', rev2, true) ∧
    fleet_state (mkCity (set_vehCol m col') em' rev2) (delete (eidx id) M) ∧
    vehicles (mkCity (set_vehCol m col') em' rev2) = vehicles (mkCity m em rev) - 1.
Proof.
  intros [Hroad Hcol Hfleet Hlive Hem Hent Hveh Hlt Hnl] Hid Hfl. cbn in *.
  pose proof (Hlive _ _ _ Hid) as Hin. pose proof (inv_live _ Hem _ Hin) as (Hu & _ & _).
  destruct (Destroy_live em rev id Hem Hu Hin Hent) as (em' & Hd & Hem' & Hperm & _ & _).
  pose proof (Remove_refines _ _ (bump rev) id Hcol ltac:(lia)) as Hrem. rewrite Hid in Hrem.
  destruct Hrem as (col' & Hr & Href & Hl & _).
  exists em', (bump rev), col', (bump (bump rev)). split; [done|]. split; [done|]. split; [|done].
  split; cbn; try done.
  - by apply (road_same m).
  - apply (fleet_same m); [done|]. by eapply fleet_delete.
  - intros i e v' [Hne Hi]%lookup_delete_Some. pose proof (Hlive _ _ _ Hi) as He. rewrite Hperm in He.
    apply elem_of_cons in He as [->|He]; [|done].
    apply (cref_map _ _ Hcol) in Hi as (pos & _ & _ & Hi). done.
  - apply Permutation_length in Hperm. unfold len in *. cbn in Hperm. lia.
  - lia.
Qed.

(** A vehicle that stays is filed with its new place. *)
Lemma stay_ok m em rev M id v v' :
  fleet_state (mkCity m em rev) M → M !! eidx id = Some (id, v) →
  fleet_ok m (<[eidx id := (id, v')]> M) →
  ∃ col', Column__Set (t_vehCol m) rev id v' = Done (col', rev) ∧
    fleet_state (mkCity (set_vehCol m col') em rev) (<[eidx id := (id, v')]> M) ∧
    vehicles (mkCity (set_vehCol m col') em rev) = vehicles (mkCity m em rev).
Proof.
  intros [Hroad Hcol Hfleet Hlive Hem Hent Hveh Hlt Hnl] Hid Hfl. cbn in *.
  destruct (Set_refines _ _ rev id v' Hcol Hveh) as (col' & Hset & Href & Hl & _).
  unfold owner in Href. rewrite Hid in Hset, Href, Hl. exists col'. split; [done|].
  split; [|unfold vehicles; cbn; lia]. split; cbn; try done.
  - by apply (road_same m).
  - by apply (fleet_same m).
  - intros i e w. destruct (decide (eidx id = i)) as [<-|Hne].
    + rewrite lookup_insert_eq. intros [= <- _]. by eapply Hlive.
    + rewrite lookup_insert_ne by done. apply Hlive.
  - lia.
Qed.

Lemma move_vehicle_ok m em rev occ ta id v M n :
  fleet_state (mkCity m em rev) M → marks m occ M → M !! eidx id = Some (id, v) →
  0 ≤ ta_completed ta → ta_completed ta + vehicles (mkCity m em rev) = n → n < 2 ^ 31 →
  ∃ st' occ' ta' M', move_vehicle (mkCity m em rev, occ, ta) (id, v) = Done (st', occ', ta') ∧
    fleet_state st' M' ∧ marks (ci_model st') occ' M' ∧ same_road m (ci_model st') ∧
    0 ≤ ta_completed ta' ∧ ta_completed ta' + vehicles st' = n ∧
    ∀ j, j ≠ eidx id → M' !! j = M !! j.
Proof.
  intros Hst Hmk Hid Hta Hn Hsmall. pose proof (fs_lights _ _ Hst) as [ML HML]. cbn in HML.
  assert (<[eidx id := (id, v)]> M = M) as Hself by by apply insert_id.
  destruct (advance_all_ok m (fs_road _ _ Hst) ML HML (Z.to_nat (vh_Speed v)) M (eidx id) id v occ "")
    as (v1 & occ1 & b & f & dest & Ha & Hfl & Hmk1); [rewrite Hself; by apply Hst|by rewrite Hself|].
  cbn [move_vehicle]. rewrite Ha. cbn [obind]. assert (0 ≤ vehicles (mkCity m em rev)) by apply len_nonneg.
  destruct f.
  - destruct (leave_ok m em rev M id v (id, v1) Hst Hid Hfl) as (em' & r1 & col' & r2 & -> & Hrem & Hst' & Hv).
    cbn [obind]. rewrite Hrem. cbn [obind]. do 4 eexists. split; [done|]. split; [done|].
    cbn [ta_completed ci_model]. rewrite i64_id by (unfold in_i64; lia). split_and!; [|done|lia|lia|].
    + apply (marks_same m); [done|]. by eapply marks_delete.
    + intros j Hj. by rewrite lookup_delete_ne.
  - set (v2 := if b then mkVehicle _ _ _ _ else _).
    assert (same_place v1 v2) as Hplace by (unfold v2; by destruct b).
    assert (∃ m' rev', (if b then bumpQueue m rev dest else Done (m, rev)) = Done (m', rev') ∧
      same_road m m' ∧ fleet_state (mkCity m' em rev') M ∧
      vehicles (mkCity m' em rev') = vehicles (mkCity m em rev)) as (m' & rev' & -> & Hsame & Hst' & Hv).
    { destruct b; [|by do 2 eexists]. destruct Hst as [Hroad Hcol Hfleet Hlive Hem Hent Hveh Hlt Hnl].
      destruct (bumpQueue_ok m rev dest Hlt Hnl) as (m' & rev' & -> & Hsame & Hvc & Hlt' & Hnl').
      exists m', rev'. split_and!; [done|done| |unfold vehicles; cbn; by rewrite Hvc].
      split; cbn in *; rewrite ?Hvc; try done; [by eapply road_same, Hroad; apply Hsame|by eapply fleet_same, Hfleet; apply Hsame]. }
    cbn [obind]. pose proof (fleet_place _ _ _ _ _ _ Hplace Hfl) as Hfl2.
    destruct (stay_ok m' em rev' M id v v2 Hst' Hid) as (col' & -> & Hst2 & Hv2);
      [by eapply fleet_same, Hfl2; apply Hsame|].
    cbn [obind]. do 4 eexists. split; [done|]. split; [done|]. cbn [ci_model].
    assert (∀ t', t' = (if b then mkTally (ta_completed ta) (ta_totalWait ta) (i64 (ta_queueSum ta + 1)) else ta) →
      ta_completed t' = ta_completed ta) as Hsum by (by intros ? ->; destruct b).
    rewrite (Hsum _ eq_refl). split_and!; [|done|done|lia|].
    + apply (marks_same m); [apply Hsame|]. by eapply marks_place.
    + intros j Hj. by rewrite lookup_insert_ne.
Qed.

(** The main loop of [Run], over vehicles with distinct entity indices. *)
Lemma move_all_ok (vs : list (EntityID * Vehicle)) st occ ta M n :
  fleet_state st M → marks (ci_model st) occ M →
  Forall (λ it, M !! eidx it.1 = Some it) vs → NoDup (eidx ∘ fst <$> vs) →
  0 ≤ ta_completed ta → ta_completed ta + vehicles st = n → n < 2 ^ 31 →
  ∃ st' occ' ta' M', ofold move_vehicle (st, occ, ta) vs = Done (st', occ', ta') ∧
    fleet_state st' M' ∧ same_road (ci_model st) (ci_model st') ∧
    0 ≤ ta_completed ta' ∧ ta_completed ta' + vehicles st' = n.
Proof.
  revert st occ ta M. induction vs as [|[id v] vs IH]; intros st occ ta M Hst Hmk Hvs Hnd Hta Hn Hsmall.
  { by do 4 eexists. }
  apply Forall_cons in Hvs as [Hid Hvs]. rewrite fmap_cons in Hnd. apply NoDup_cons in Hnd as [Hnew Hnd].
  destruct st as [m em rev]. cbn [ofold].
  destruct (move_vehicle_ok m em rev occ ta id v M n) as
    (st1 & occ1 & ta1 & M1 & -> & Hst1 & Hmk1 & Hs & Hta1 & Hn1 & Hrest); [assumption..|].
  cbn [obind]. destruct (IH st1 occ1 ta1 M1) as
    (st' & occ' & ta' & M' & Hf & Hst' & Hr & Hta' & Hn'); [assumption|assumption| |assumption..|].
  - apply Forall_forall. intros it Hit. rewrite Forall_forall in Hvs. rewrite Hrest; [by apply Hvs|].
    intros E. apply Hnew. apply list_elem_of_fmap. by exists it.
  - exists st', occ', ta', M'. split_and!; try assumption. by eapply same_road_trans.
Qed.

(** The invariant of the scenario with [n] vehicles. *)
Record city_ok (n : Z) (st : City) : Prop := {
  city_fleet : ∃ M, fleet_state st M;
  city_count : t_completed (ci_model st) + vehicles st = n;
  city_completed : 0 ≤ t_completed (ci_model st);
  city_small : n < 2 ^ 31 - 1;
}.

Lemma movement_ok `{SortSlice} n st :
  city_ok n st → ∃ st', movementSystem__Run st = Done st' ∧ city_ok n st' ∧
    t_algorithm (ci_model st') = t_algorithm (ci_model st).
Proof.
  intros [[M Hst] Hcount Hcomp Hsmall]. unfold movementSystem__Run. rewrite Each_items.
  set (m := ci_model st) in *. set (vs := sort_Slice _ _).
  destruct (items_ok (t_vehCol m) M vs (fs_col _ _ Hst)) as [Hitems Hnd]; [apply sort_Slice_perm|].
  pose proof (fs_fleet _ _ Hst) as Hfl. pose proof (fs_road _ _ Hst) as Hroad.
  destruct (mark_all_ok m vs (empty_occupancy m)) as (occ & -> & Hd & _ & Hc).
  { intros e He. destruct (rd_len m Hroad e He) as (l & Hl & _). unfold empty_occupancy.
    rewrite lookup_fmap, Hl. by eexists. }
  { apply Forall_forall. intros [e v] Hit. apply Hitems in Hit. by eapply (fl_on _ _ Hfl). }
  assert (marks m occ M) as Hmk.
  { split.
    - intros i e v Hi. apply (Hc (e, v)), Hitems. cbn [fst].
      by pose proof Hi as (_ & _ & _ & ->)%(cref_map _ _ (fs_col _ _ Hst)).
    - intros e He. destruct (rd_len m Hroad e He) as (l & Hl & _). apply Hd. unfold empty_occupancy.
      rewrite lookup_fmap, Hl. by eexists. }
  cbn [obind].
  destruct (move_all_ok vs st occ (mkTally 0 0 0) M (vehicles st)) as
    (st' & occ' & ta & M' & -> & Hst' & (_ & Hs3 & Hs4) & Hta & Hn); [done|done| |done|done|done|lia|].
  { apply Forall_forall. intros it. apply Hitems. }
  cbn [obind]. eexists. split; [done|]. assert (0 ≤ vehicles st') by apply len_nonneg.
  assert (t_completed (ci_model st') = t_completed m) as Ecomp by done.
  split; [|done]. split; cbn [ci_model set_counters t_completed].
  - exists M'. destruct Hst'. split; cbn in *; try done.
    + by apply (road_same (ci_model st')).
    + by apply (fleet_same (ci_model st')).
  - rewrite i64_id by (unfold in_i64; lia). unfold vehicles in *. cbn. lia.
  - rewrite i64_id by (unfold in_i64; lia). lia.
  - done.
Qed.

Definition alg_total (alg : LightAlgorithm) : Prop := ∀ l q, ∃ l', alg_Decide alg l q = Done l'.

Definition policy_total (st : City) : Prop :=
  ∃ alg, t_algorithm (ci_model st) = Some alg ∧ alg_total alg.

Lemma decide_light_ok n m em rev id :
  city_ok n (mkCity m em rev) → policy_total (mkCity m em rev) →
  ∃ m', decide_light m id = Done m' ∧ city_ok n (mkCity m' em rev) ∧ policy_total (mkCity m' em rev).
Proof.
  intros Hok Hpol. pose proof Hok as [[M Hst] Hcount Hcomp Hsmall].
  pose proof (fs_lights _ _ Hst) as [ML HML]. cbn in HML. unfold decide_light.
  change (Column__GetShard (t_lightCol m) id) with (Column__Get (t_lightCol m) id).
  rewrite (Get_refines _ _ id HML). cbn [obind].
  destruct (ML !! eidx id) as [[e0 lt]|] eqn:Elt; cbn [fmap option_fmap option_map snd]; [|by eexists].
  destruct Hpol as (alg & Ealg & Htot). cbn in Ealg. rewrite Ealg. destruct (Htot lt (lt_Queue lt)) as [lt' ->].
  cbn [obind]. pose proof (SetShard_refines _ _ id (mkLight (lt_Green lt') (lt_Phase lt') 0) HML) as Hset.
  rewrite Elt in Hset. destruct Hset as (c' & -> & Href & Hd). cbn [obind].
  eexists. split; [done|]. split; [|by exists alg]. split; [|done|done|done].
  exists M. destruct Hst. split; cbn in *; rewrite ?Hd; try done.
  - by apply (road_same m).
  - by apply (fleet_same m).
  - by eexists.
Qed.

Lemma lights_ok n (ids : list EntityID) m em rev :
  city_ok n (mkCity m em rev) → policy_total (mkCity m em rev) →
  ∃ m', lightSystem__Run m ids = Done m' ∧ city_ok n (mkCity m' em rev) ∧ policy_total (mkCity m' em rev).
Proof.
  unfold lightSystem__Run. revert m. induction ids as [|id ids IH]; intros m Hok Hpol; [by eexists|].
  cbn [ofold]. destruct (decide_light_ok n m em rev id Hok Hpol) as (m1 & -> & Hok1 & Hpol1).
  cbn [obind]. by apply IH.
Qed.

Section systems.
Context `{R : GoRuntime} (lightRun movementRun : World → list EntityID → outcome (World * option error)).

(** The two systems with the components they declare; their [Run]s are [lightSystem__Run] and
    [movementSystem__Run] on the fields of the model. *)
(* examples/traffic/traffic.go:284-289 Traffic.Systems *)
Definition Traffic__Systems (vehID lightID : Z) : list System :=
  [mkSystem "traffic.light" [lightID] [lightID] false lightRun;
   mkSystem "traffic.movement" [vehID; lightID] [vehID; lightID] true movementRun].

(** Whatever the identifiers, the lights have a level of their own before the movement. *)
Lemma Traffic_levels vehID lightID : dependencyLevels (Traffic__Systems vehID lightID) = Done [[0]; [1]].
Proof.
  assert (conflicts (mkSystem "traffic.movement" [vehID; lightID] [vehID; lightID] true movementRun)
    (mkSystem "traffic.light" [lightID] [lightID] false lightRun) = true) as Hc.
  { unfold conflicts, intersectsWrite. cbn. by rewrite Z.eqb_refl, !orb_true_r. }
  unfold dependencyLevels, Traffic__Systems. cbn [assign_levels app conflict_level foldl fst snd]. by rewrite Hc.
Qed.
End systems.

(** A tick: the light system over its shards, then the movement system. *)
Definition traffic_tick `{SortSlice} (shards : list (list EntityID)) (st : City) : outcome City :=
  let! m := ofold lightSystem__Run (ci_model st) shards in
  movementSystem__Run (mkCity m (ci_entities st) (ci_revision st)).

Lemma traffic_tick_ok `{SortSlice} n shards st :
  city_ok n st → policy_total st →
  ∃ st', traffic_tick shards st = Done st' ∧ city_ok n st' ∧ policy_total st'.
Proof.
  intros Hok Hpol. destruct st as [m em rev]. unfold traffic_tick. cbn [ci_model ci_entities ci_revision].
  assert (∃ m', ofold lightSystem__Run m shards = Done m' ∧ city_ok n (mkCity m' em rev) ∧
    policy_total (mkCity m' em rev)) as (m' & -> & Hok' & Hpol').
  { revert m Hok Hpol. induction shards as [|ids shards IH]; intros m Hok Hpol; [by eexists|].
    cbn [ofold]. destruct (lights_ok n ids m em rev Hok Hpol) as (m1 & -> & Hok1 & Hpol1). by apply IH. }
  cbn [obind]. destruct (movement_ok n _ Hok') as (st' & -> & Hst' & Halg).
  eexists. split; [done|]. split; [done|]. destruct Hpol' as (alg & Ea & Ht). exists alg.
  split; [|done]. by rewrite Halg.
Qed.

(** ** Initialisation *)

Lemma fleet_add m M i e v :
  M !! i = None → fleet_ok m M → on_road m v → ¬ in_cell m v → fleet_ok m (<[i := (e, v)]> M).
Proof.
  intros HM [Hon Hap] Hv Hout. split.
  - intros j e2 v2 [[_ [= _ <-]]|[_ Hj]]%lookup_insert_Some; [done|by eapply Hon].
  - intros j k a b va vb Hjk [[_ [= _ <-]]|[_ Hj]]%lookup_insert_Some
      [[_ [= _ <-]]|[_ Hk]]%lookup_insert_Some Hc [He Hp]; [done|done| |].
    + apply Hout. unfold in_cell in *. by rewrite <- He, <- Hp.
    + by apply (Hap j k a b va vb).
Qed.

(** The state during [Initialize], after at most [k] creations. *)
Record building (k : Z) (st : City) (M : fleet) : Prop := {
  bd_state : fleet_state st M;
  bd_room : room k (ci_entities st);
  bd_lights : len (col_dense (t_lightCol (ci_model st))) ≤ k;
}.

(** Two states of the model with the same network, policy, configuration and counters. *)
Definition same_setup (m m' : Traffic) : Prop := same_road m m' ∧ t_cfg m' = t_cfg m.

Lemma add_light_ok k st M n :
  building k st M → 0 ≤ k < 2 ^ 31 - 2 →
  ∃ st', add_light st n = Done st' ∧ building (k + 1) st' M ∧ vehicles st' = vehicles st ∧
    same_setup (ci_model st) (ci_model st').
Proof.
  intros [Hst Hroom Hl] Hk. destruct st as [m em rev]. cbn in Hroom, Hl. cbn [add_light].
  destruct (Create_room k em rev Hroom) as (em' & id & -> & Hroom' & Hd & _); [lia|]. cbn [obind].
  destruct Hst as [Hroad Hcol Hfleet Hlive Hem Hent Hveh [ML HML] Hnl]. cbn in *.
  destruct (Set_refines _ _ (bump rev) id (mkLight true 0 0) HML Hnl) as (c' & -> & Href & Hl' & _).
  cbn [obind]. eexists. split; [done|]. cbn. split; [|done].
  assert (len (col_dense c') ≤ k + 1) by (destruct (ML !! eidx id); lia).
  pose proof (rm_dense _ _ Hroom'). split; cbn; [|done|done].
  split; cbn; try done; try lia.
  - by apply (road_same m).
  - by apply (fleet_same m).
  - intros i e v Hi. rewrite Hd. apply elem_of_app. left. by eapply Hlive.
  - apply Hroom'.
  - by eexists.
Qed.

Lemma add_lights_ok ns k st M :
  building k st M → 0 ≤ k → k + len ns < 2 ^ 31 - 2 →
  ∃ st', ofold add_light st ns = Done st' ∧ building (k + len ns) st' M ∧ vehicles st' = vehicles st ∧
    same_setup (ci_model st) (ci_model st').
Proof.
  revert k st. induction ns as [|n ns IH]; intros k st Hb Hk Hn.
  { exists st. unfold len. cbn. by rewrite Z.add_0_r. }
  rewrite len_cons in *. pose proof (len_nonneg ns).
  destruct (add_light_ok k st M n Hb) as (st1 & Ha & Hb1 & Hv1 & Hr1 & Hc1); [lia|].
  cbn [ofold]. rewrite Ha. cbn [obind].
  destruct (IH (k + 1) st1 Hb1) as (st' & Hf & Hb' & Hv' & Hr' & Hc'); [lia|lia|].
  exists st'. split; [done|]. replace (k + (len ns + 1)) with (k + 1 + len ns) by lia.
  split; [done|]. split; [congruence|]. split; [by eapply same_road_trans|congruence].
Qed.

Lemma Uint64n_3 r : ∃ d r', Uint64n r 3 = Done (d, r') ∧ 0 ≤ d < 3.
Proof. destruct (Uint64n_Done r 3) as (d & x & H & Hx & _); [lia|]. by eexists _, _. Qed.

(** The gaps drawn between the vehicles before the entry do not overflow a position. *)
Definition gaps_ok (m : Traffic) : Prop := ∀ r, 0 ≤ fst (draw_jitter m r) < 2 ^ 62.

Lemma draw_jitter_same m m' r :
  t_cfg m' = t_cfg m → t_edgeLen m' = t_edgeLen m → draw_jitter m' r = draw_jitter m r.
Proof. intros Hc He. unfold draw_jitter. by rewrite Hc, He. Qed.

Lemma add_vehicle_ok k st M (i : nat) :
  building k st M → gaps_ok (ci_model st) → 0 ≤ k < 2 ^ 31 - 2 → Z.of_nat i < 2 ^ 31 →
  vehicles st ≤ k →
  ∃ st' M', add_vehicle st i = Done st' ∧ building (k + 1) st' M' ∧ vehicles st' = vehicles st + 1 ∧
    same_setup (ci_model st) (ci_model st').
Proof.
  intros [Hst Hroom Hl] Hgap Hk Hi Hveh'. destruct st as [m em rev].
  cbn [ci_model ci_entities add_vehicle] in *. unfold vehicles in Hveh'. cbn in Hveh'.
  pose proof (Hgap (t_rng m)) as Hj. destruct (draw_jitter m (t_rng m)) as [j r]. cbn [fst] in Hj.
  destruct (Uint64n_3 r) as (d & r' & -> & Hd3). cbn [obind].
  destruct (Create_room k em rev Hroom) as (em' & id & -> & Hroom' & Hd & Hfresh); [lia|]. cbn [obind].
  destruct Hst as [Hroad Hcol Hfleet Hlive Hem Hent Hveh HML Hnl]. cbn in Hroad, Hcol, Hfleet, Hlive, Hem, Hent, Hveh, HML, Hnl.
  rewrite i64_id by (unfold in_i64; lia). set (v := mkVehicle _ _ _ _).
  assert (M !! eidx id = None) as Hnone.
  { destruct (M !! eidx id) as [[e w]|] eqn:E; [|done]. pose proof (Hlive _ _ _ E) as He.
    apply (cref_map _ _ Hcol) in E as (_ & _ & _ & E). by destruct (Hfresh e He). }
  destruct (Set_refines _ _ (bump rev) id v Hcol) as (c' & -> & Href & Hl' & _); [lia|].
  unfold owner in Href. rewrite Hnone in Hl', Href |- *. cbn [obind].
  eexists _, (<[eidx id := (id, v)]> M). split; [done|].
  pose proof (rm_dense _ _ Hroom'). pose proof (rd_route _ Hroad) as Hrt.
  split; [|by split; [unfold vehicles; cbn; lia|]]. split; cbn; [|done|lia].
  split; cbn; try done; try lia.
  - by apply (road_same m).
  - apply (fleet_same m); [done|]. pose proof (edge_len_range m Hroad 0 ltac:(lia)).
    apply fleet_add; [done|done| |]; unfold v; [split; cbn; lia|unfold in_cell; cbn; lia].
  - intros i' e w [[<- [= <- _]]|[_ Hi']]%lookup_insert_Some; rewrite Hd; apply elem_of_app;
      [right; by left|left; by eapply Hlive].
  - apply Hroom'.
Qed.

Lemma add_vehicles_ok c (is_ : list nat) k st M :
  building k st M → (∀ m', same_setup (ci_model st) m' → gaps_ok m') → 0 ≤ k →
  k + len is_ < 2 ^ 31 - 2 → Forall (λ i : nat, Z.of_nat i < 2 ^ 31) is_ → vehicles st ≤ k →
  t_cfg (ci_model st) = c →
  ∃ st' M', ofold add_vehicle st is_ = Done st' ∧ building (k + len is_) st' M' ∧
    vehicles st' = vehicles st + len is_ ∧ same_setup (ci_model st) (ci_model st').
Proof.
  revert k st M. induction is_ as [|i is_ IH]; intros k st M Hb Hgap Hk Hn His Hv Hc.
  { exists st, M. unfold len. cbn. by rewrite !Z.add_0_r. }
  rewrite len_cons in *. pose proof (len_nonneg is_). apply Forall_cons in His as [Hi His].
  destruct (add_vehicle_ok k st M i Hb) as (st1 & M1 & Ha & Hb1 & Hv1 & Hs1);
    [by apply Hgap|lia|done|done|].
  cbn [ofold]. rewrite Ha. cbn [obind].
  assert (∀ m', same_setup (ci_model st1) m' → same_setup (ci_model st) m') as Htr.
  { intros m' [Hr' Hc']. destruct Hs1 as [Hr1 Hc1]. split; [by eapply same_road_trans|congruence]. }
  destruct (IH (k + 1) st1 M1 Hb1) as (st' & M' & Hf & Hb' & Hv' & Hs');
    [auto|lia|lia|done|lia|by rewrite (proj2 Hs1)|].
  exists st', M'. split; [done|]. replace (k + (len is_ + 1)) with (k + 1 + len is_) by lia.
  split; [done|]. split; [lia|auto].
Qed.

(** A configuration whose road can be built: lengths are not negative, a given route has at
    least two nodes, and there is room for every light and vehicle. *)
Record scenario_ok (c : Config) : Prop := {
  sc_spacing : 0 ≤ tc_Spacing c < 2 ^ 63;
  sc_edges : Forall (λ e, 0 ≤ ed_Length e < 2 ^ 63) (map_Edges (tc_Map c));
  sc_route : map_Route (tc_Map c) = [] ∨ 2 ≤ len (map_Route (tc_Map c));
  sc_ticks : tc_GreenTicks c < 2 ^ 63 ∧ tc_RedTicks c < 2 ^ 63;
  sc_room : len (t_route (buildNetwork (set_cfg zero_model (withDefaults c))))
            + tc_Vehicles (withDefaults c) < 2 ^ 31 - 2;
  sc_gaps : gaps_ok (buildNetwork (set_cfg zero_model (withDefaults c)));
}.

Lemma edge_lengths_lookup f n (e : Z) :
  0 ≤ e < Z.of_nat n → edge_lengths f n !! e = Some (f (Z.to_nat e)).
Proof.
  unfold edge_lengths. induction n as [|n IH]; intros He; [lia|].
  rewrite seq_S, foldl_app. cbn [foldl Nat.add]. destruct (decide (Z.of_nat n = e)) as [<-|Hne].
  - by rewrite lookup_insert_eq, Nat2Z.id.
  - rewrite lookup_insert_ne by done. apply IH. lia.
Qed.

Lemma lengthByEdge_range (es : list Edge) (l0 : gmap (string * string) Z) :
  Forall (λ e, 0 ≤ ed_Length e < 2 ^ 63) es → map_Forall (λ _ l, 0 ≤ l < 2 ^ 63) l0 →
  map_Forall (λ _ l, 0 ≤ l < 2 ^ 63) (foldl (λ l e, <[(ed_From e, ed_To e) := ed_Length e]> l) l0 es).
Proof.
  revert l0. induction es as [|e es IH]; intros l0 Hes Hl; [done|].
  apply Forall_cons in Hes as [He Hes]. cbn [foldl]. apply IH; [done|]. by apply map_Forall_insert_2.
Qed.

(** A network of at least two nodes with lengths in range is a road. *)
Lemma network_road m route f :
  2 ≤ len route < 2 ^ 62 → (∀ i, 0 ≤ f i < 2 ^ 63) →
  road_ok (set_network m route (edge_lengths f (length route - 1))).
Proof.
  intros Hr Hf. split; [done|]. cbn. intros e He. exists (f (Z.to_nat e)). split; [|done].
  apply edge_lengths_lookup. unfold len in *. lia.
Qed.

Lemma buildNetwork_ok c :
  scenario_ok c → road_ok (buildNetwork (set_cfg zero_model (withDefaults c))).
Proof.
  intros [Hsp Hes Hrt _ Hroom _].
  assert (0 < tc_Vehicles (withDefaults c)) as Hv.
  { cbn. unfold or_default. destruct (Z.leb_spec (tc_Vehicles c) 0); lia. }
  set (nv := tc_Vehicles (withDefaults c)) in *. clearbody nv.
  unfold buildNetwork in *. cbn [t_cfg set_cfg withDefaults tc_Map] in *.
  destruct (negb (bool_decide (map_Nodes (tc_Map c) = [])) && negb (bool_decide (map_Route (tc_Map c) = []))) eqn:E.
  - apply andb_true_iff in E as [_ E]. apply negb_true_iff, bool_decide_eq_false in E.
    cbn in Hroom. destruct Hrt as [|Hrt]; [done|]. apply network_road; [lia|]. intros i.
    destruct (map_Route (tc_Map c) !! i) as [a|]; [|done].
    destruct (map_Route (tc_Map c) !! S i) as [b|]; [|done].
    pose proof (lengthByEdge_range _ ∅ Hes (map_Forall_empty _)) as Hl.
    destruct (foldl _ _ _ !! (a, b)) as [l|] eqn:El; cbn; [by apply (Hl (a, b))|done].
  - apply network_road; [|done]. unfold len in *. cbn [t_route set_network] in Hroom.
    rewrite length_app, length_fmap, length_seq in *.
    cbn [length t_route zero_model set_cfg tc_Intersections] in *.
    destruct (Z.leb_spec (tc_Intersections (withDefaults c)) 1); lia.
Qed.

Lemma Fixed_total g r : 0 < g < 2 ^ 63 → 0 < r < 2 ^ 63 → alg_total (Fixed g r).
Proof.
  intros Hg Hr l q. cbn. unfold Fixed__Decide.
  destruct (Z.eqb_spec (i64 (g + r)) 0) as [E|]; [|by eexists]. exfalso. unfold i64 in E.
  pose proof (Z.div_mod (g + r + 2 ^ 63) (2 ^ 64) ltac:(lia)). nia.
Qed.

Lemma or_default_range z d : 0 < d < 2 ^ 63 → z < 2 ^ 63 → 0 < or_default z d < 2 ^ 63.
Proof. intros Hd Hz. unfold or_default. destruct (Z.leb_spec z 0); lia. Qed.

Lemma resolveAlgorithm_ok algs m :
  t_algorithm m = None → (∀ name alg, algs !! name = Some alg → alg_total alg) →
  0 < tc_GreenTicks (t_cfg m) < 2 ^ 63 → 0 < tc_RedTicks (t_cfg m) < 2 ^ 63 →
  ∃ alg, resolveAlgorithm algs m = set_algorithm m (Some alg) ∧ alg_total alg.
Proof.
  intros Hnone Htot Hg Hr. unfold resolveAlgorithm. rewrite Hnone.
  destruct (algs !! tc_Algorithm (t_cfg m)) as [alg|] eqn:E; [by eauto|].
  case_decide; eexists; (split; [done|]); [intros l q; apply Adaptive_total|by apply Fixed_total].
Qed.

(** The scenario in a fresh world. *)
Definition fresh_city (c : Config) : City :=
  mkCity (set_cfg zero_model (withDefaults c)) NewEntityManager 0.

(** The model of a fresh city when the loops of [Initialize] start. *)
Definition setup (algs : gmap string LightAlgorithm) (streams : RandomStreams) (c : Config) : Traffic :=
  resolveAlgorithm algs (buildNetwork (set_rng
    (set_nodeLight (set_lightCol (set_vehCol (ci_model (fresh_city c)) newColumn) newColumn) ∅)
    (RandomStreams__StreamU64 streams 1))).

Lemma withDefaults_Vehicles c : 0 < tc_Vehicles (withDefaults c).
Proof. cbn. unfold or_default. destruct (Z.leb_spec (tc_Vehicles c) 0); lia. Qed.

Lemma Initialize_setup algs streams c :
  Initialize algs newColumn newColumn streams (fresh_city c)
  = (let! st := ofold add_light (mkCity (setup algs streams c) NewEntityManager 0) (t_route (setup algs streams c)) in
     ofold add_vehicle st (seq 0 (Z.to_nat (tc_Vehicles (t_cfg (setup algs streams c)))))).
Proof.
  unfold Initialize, fresh_city, setup. cbn [t_cfg set_cfg ci_model].
  pose proof (withDefaults_Vehicles c). by destruct (Z.eqb_spec (tc_Vehicles (withDefaults c)) 0); [lia|].
Qed.

Lemma buildNetwork_cfg m : t_cfg (buildNetwork m) = t_cfg m.
Proof. unfold buildNetwork. by destruct (negb _ && negb _). Qed.

(** What the loops start from: the road of the configuration, empty columns, a total policy. *)
Lemma setup_ok algs streams c :
  scenario_ok c → (∀ name alg, algs !! name = Some alg → alg_total alg) →
  let m := setup algs streams c in
  same_net (buildNetwork (ci_model (fresh_city c))) m ∧ t_cfg m = withDefaults c ∧
  policy_total (mkCity m NewEntityManager 0) ∧ t_completed m = 0 ∧
  vehicles (mkCity m NewEntityManager 0) = 0 ∧ building 0 (mkCity m NewEntityManager 0) ∅.
Proof.
  intros Hsc Htot. pose proof (buildNetwork_ok c Hsc) as Hroad. unfold setup. set (m1 := set_rng _ _).
  set (m0 := ci_model (fresh_city c)) in *.
  assert (same_net (buildNetwork m0) (buildNetwork m1) ∧
    t_algorithm (buildNetwork m1) = None ∧ t_completed (buildNetwork m1) = 0 ∧
    t_vehCol (buildNetwork m1) = newColumn ∧ t_lightCol (buildNetwork m1) = newColumn)
    as (Hnet & Halg & Hcomp & Hvc & Hlc).
  { unfold buildNetwork, m1, m0. cbn [fresh_city ci_model t_cfg set_cfg set_rng set_nodeLight set_lightCol set_vehCol].
    by destruct (negb _ && negb _). }
  pose proof (buildNetwork_cfg m1) as Hcfg. pose proof (sc_ticks _ Hsc) as [Hgt Hrt].
  destruct (resolveAlgorithm_ok algs (buildNetwork m1)) as (alg & -> & Hat); [done|done|..].
  { rewrite Hcfg. cbn. apply or_default_range; lia. } { rewrite Hcfg. cbn. apply or_default_range; lia. }
  split; [done|]. split; [done|]. split; [by exists alg|]. split; [done|].
  split; [unfold vehicles; cbn; by rewrite Hvc|].
  split; cbn; [|apply New_room|by rewrite Hlc]. split; cbn; rewrite ?Hvc, ?Hlc; try done.
  - by apply (road_same (buildNetwork m0)).
  - apply newColumn_refines.
  - apply NewEntityManager_inv.
  - exists ∅. apply newColumn_refines.
Qed.

(** The loops of [Initialize] over the lights and the vehicles. *)
Lemma populate_ok m :
  policy_total (mkCity m NewEntityManager 0) → t_completed m = 0 →
  vehicles (mkCity m NewEntityManager 0) = 0 → building 0 (mkCity m NewEntityManager 0) ∅ →
  gaps_ok m → 0 ≤ tc_Vehicles (t_cfg m) → len (t_route m) + tc_Vehicles (t_cfg m) < 2 ^ 31 - 2 →
  ∃ st, (let! st := ofold add_light (mkCity m NewEntityManager 0) (t_route m) in
         ofold add_vehicle st (seq 0 (Z.to_nat (tc_Vehicles (t_cfg m))))) = Done st ∧
    city_ok (tc_Vehicles (t_cfg m)) st ∧ policy_total st.
Proof.
  intros (alg & Ha & Hat) Hk Hv0 Hb Hgap Hv Hroom. pose proof (len_nonneg (t_route m)) as Hrt.
  destruct (add_lights_ok (t_route m) 0 (mkCity m NewEntityManager 0) ∅ Hb)
    as (st1 & -> & Hb1 & Hv1 & Hr1 & Hc1); [lia|lia|]. cbn [obind].
  assert (len (seq 0 (Z.to_nat (tc_Vehicles (t_cfg m)))) = tc_Vehicles (t_cfg m)) as Hlen
    by (unfold len; rewrite length_seq; lia).
  destruct (add_vehicles_ok (t_cfg m) (seq 0 (Z.to_nat (tc_Vehicles (t_cfg m)))) (0 + len (t_route m)) st1 ∅)
    as (st2 & M2 & -> & Hb2 & Hv2 & Hr2 & Hc2); [exact Hb1| |lia|lia| |lia|exact Hc1|].
  - intros m' [([_ He'] & _) Hc'] r. destruct Hr1 as ([_ He1] & _). cbn [ci_model] in He1, Hc1.
    rewrite (draw_jitter_same m); [apply Hgap|congruence..].
  - apply Forall_forall. intros i Hi%elem_of_seq. lia.
  - destruct Hr1 as (_ & Ha1 & Hk1), Hr2 as (_ & Ha2 & Hk2). cbn [ci_model] in Ha1, Hk1, Ha.
    exists st2. split; [done|]. split; [split|exists alg; split; [by rewrite Ha2, Ha1|done]].
    + exists M2. apply Hb2.
    + rewrite Hk2, Hk1, Hk, Hv2, Hv1, Hv0. lia.
    + by rewrite Hk2, Hk1, Hk.
    + lia.
Qed.

Lemma traffic_Initialize_ok algs streams c :
  scenario_ok c → (∀ name alg, algs !! name = Some alg → alg_total alg) →
  ∃ st, Initialize algs newColumn newColumn streams (fresh_city c) = Done st ∧
    city_ok (tc_Vehicles (withDefaults c)) st ∧ policy_total st.
Proof.
  intros Hsc Htot. rewrite Initialize_setup. pose proof (withDefaults_Vehicles c) as Hv.
  destruct (setup_ok algs streams c Hsc Htot) as ([Hroute Hel] & Hcfg & Hpol & Hk & Hv0 & Hb).
  rewrite <- Hcfg. apply populate_ok; try done.
  - intros r. rewrite (draw_jitter_same (buildNetwork (ci_model (fresh_city c)))); [apply (sc_gaps _ Hsc)| |done].
    by rewrite buildNetwork_cfg.
  - rewrite Hcfg. lia.
  - rewrite Hroute, Hcfg. apply (sc_room _ Hsc).
Qed.

(** C18: the traffic scenario loses nobody and lets nobody crash: for every configuration with
    lengths that are not negative and a route of at least two nodes, initialisation and any
    number of ticks (however the lights are sharded, whatever the total policies) complete
    without a panic; completed and travelling vehicles always add up to the configured number,
    every travelling vehicle is a live entity, and no two vehicles are in the same cell of the
    road, the entry cell apart. *)
Theorem traffic_conserves_vehicles `{SortSlice} c algs streams (ticks : list (list (list EntityID))) :
  scenario_ok c → (∀ name alg, algs !! name = Some alg → alg_total alg) →
  ∃ st0 st, Initialize algs newColumn newColumn streams (fresh_city c) = Done st0 ∧
    ofold (λ st shards, traffic_tick shards st) st0 ticks = Done st ∧
    t_completed (ci_model st) + vehicles st = tc_Vehicles (withDefaults c) ∧
    (∀ e, e ∈ col_dense (t_vehCol (ci_model st)) → EntityManager__Alive (ci_entities st) e = Done true) ∧
    (∀ i j vi vj, i ≠ j → col_data (t_vehCol (ci_model st)) !! i = Some vi →
       col_data (t_vehCol (ci_model st)) !! j = Some vj → in_cell (ci_model st) vi → ¬ same_place vi vj).
Proof.
  intros Hsc Htot. destruct (traffic_Initialize_ok algs streams c Hsc Htot) as (st0 & -> & Hok0 & Hpol0).
  assert (∃ st, ofold (λ st shards, traffic_tick shards st) st0 ticks = Done st ∧
    city_ok (tc_Vehicles (withDefaults c)) st) as (st & Hrun & [[M Hst] Hcount _ _]).
  { revert st0 Hok0 Hpol0. induction ticks as [|sh ticks IH]; intros st0 Hok Hpol; [by eexists|].
    cbn [ofold]. destruct (traffic_tick_ok _ sh st0 Hok Hpol) as (st1 & -> & Hok1 & Hpol1). by apply IH. }
  exists st0, st. split; [done|]. split; [done|]. split; [done|].
  pose proof (fs_col _ _ Hst) as [[_ Hss Hlen] HM].
  assert (∀ pos e v, col_dense (t_vehCol (ci_model st)) !! pos = Some e →
    col_data (t_vehCol (ci_model st)) !! pos = Some v → M !! eidx e = Some (e, v)) as Hat.
  { intros pos e v He Hv. apply HM. by exists pos. }
  split.
  - intros e [pos He]%list_elem_of_lookup.
    destruct (lookup_lt_is_Some_2 (col_data (t_vehCol (ci_model st))) pos) as [v Hv];
      [rewrite Hlen; by eapply lookup_lt_Some|].
    pose proof (fs_live _ _ Hst _ _ _ (Hat pos e v He Hv)) as Hl.
    pose proof (fs_em _ _ Hst) as Hem. destruct (inv_live _ Hem e Hl) as (Hu & _ & _).
    unfold EntityManager__Alive. rewrite aliveLocked_spec by done. by rewrite bool_decide_eq_true_2.
  - intros i j vi vj Hij Hi Hj. pose proof (lookup_lt_Some _ _ _ Hi). pose proof (lookup_lt_Some _ _ _ Hj).
    destruct (lookup_lt_is_Some_2 (col_dense (t_vehCol (ci_model st))) i) as [ei Hei]; [lia|].
    destruct (lookup_lt_is_Some_2 (col_dense (t_vehCol (ci_model st))) j) as [ej Hej]; [lia|].
    apply (fl_apart _ _ (fs_fleet _ _ Hst) (eidx ei) (eidx ej) ei ej); [|by eapply Hat..].
    intros E. apply Hij. by eapply ss_inj.
Qed.

(** ** A concrete scenario *)

Module ToyTraffic.

#[global] Instance insertion_sort : SortSlice.
Proof.
  refine {| sort_Slice := λ A, sort_by |}.
  - intros A less l. apply sort_by_perm.
  - intros A less l Hasym Htrans. apply (sort_by_sorted less (λ _, True)); [..|by apply Forall_true]; eauto.
Defined.

(** Three nodes three cells apart, two vehicles, fixed lights. *)
Definition config : Config := mkConfig (mkMap [] [] []) 3 3 2 "" 1 1 0 0 fzero.

Lemma config_ok : scenario_ok config.
Proof. split; try done. by left. Qed.
End ToyTraffic.

Lemma traffic_conserves_vehicles_witness :
  let lights := [[1; 4294967297; 8589934593]] in
  ∃ st0 st, Initialize ∅ newColumn newColumn (NewRandomStreams 7) (fresh_city ToyTraffic.config) = Done st0 ∧
    ofold (λ st shards, traffic_tick shards st) st0 [lights; lights; lights] = Done st ∧
    t_completed (ci_model st) + vehicles st = 2 ∧
    (∀ e, e ∈ col_dense (t_vehCol (ci_model st)) → EntityManager__Alive (ci_entities st) e = Done true) ∧
    (∀ i j vi vj, i ≠ j → col_data (t_vehCol (ci_model st)) !! i = Some vi →
       col_data (t_vehCol (ci_model st)) !! j = Some vj → in_cell (ci_model st) vi → ¬ same_place vi vj).
Proof.
  intros lights.
  apply (traffic_conserves_vehicles ToyTraffic.config ∅ (NewRandomStreams 7) [lights; lights; lights]).
  - apply ToyTraffic.config_ok.
  - intros name alg H. by rewrite lookup_empty in H.
Defined.

(** The entry cell is taken without a look at the occupancy: a vehicle that waits before the
    entry joins another one in the first cell of the road. *)
Theorem entry_cell_shared :
  ∃ m occ v v',
    road_ok m ∧ occupied occ 0 0 = true ∧ vh_Pos v = -1 ∧
    advance m v occ = Done (v', occ, false, false, "b"%string) ∧ vh_Edge v' = 0 ∧ vh_Pos v' = 0.
Proof.
  exists (set_network zero_model ["a"; "b"]%string {[0 := 3]}), {[0 := {[0]}]}, (mkVehicle 0 (-1) 0 1), (mkVehicle 0 0 0 1).
  split; [|by vm_compute]. split; [done|]. intros e He. cbn in He.
  assert (e = 0) as -> by (unfold len in He; cbn in He; lia). by exists 3.
Qed.
