(* ===== verification/Queueing.v ===== *)
(** * The queueing model: [examples/queue/queueing.go]

    Customers arrive, wait in line and are served by a pool of servers; arrivals and service
    completions are events.  The typed column of the servers is a field of the model; the rest of
    the world (entities, tags, events, clock) is threaded through. *)

From S2P Require Import Prelude Float64 FloatRound Rng SparseSet Entity GoValues Interning Component Tags Heap Events World.
From S2P Require Import Snapshot Scheduler Runtime Population ModelRuns.
Local Open Scope Z_scope.

(* examples/queue/queueing.go:15-16 Busy *)
Record Busy := mkBusy { B : bool }.

(* examples/queue/queueing.go:18-24 Config *)
Record Config := mkConfig {
  qc_Servers : Z;
  qc_Interarrival : float64;
  qc_ServiceTime : float64;
  qc_MaxTime : float64;
}.

(* examples/queue/queueing.go:26-40 Config.withDefaults *)
Definition withDefaults (c : Config) : Config :=
  mkConfig (if qc_Servers c <=? 0 then 3 else qc_Servers c)
    (if fle (qc_Interarrival c) fzero then fone else qc_Interarrival c)
    (if fle (qc_ServiceTime c) fzero then f64_of_Z 2 else qc_ServiceTime c)
    (if fle (qc_MaxTime c) fzero then f64_of_Z 100 else qc_MaxTime c).

Section queueing.
Context `{R : GoRuntime}.

(* examples/queue/queueing.go:42-55 Queueing *)
Record Queueing := mkQueueing {
  qg_cfg : Config;
  qg_busyID : Z;
  qg_busyCol : Column Busy;
  qg_customerTag : Z;
  qg_rng : RNG;
  qg_queue : list EntityID;
  qg_arrived : Z;
  qg_served : Z;
  qg_peak : Z;
}.

(* examples/queue/queueing.go:57-66 Queueing.Metadata *)
Definition Queueing__Metadata : ModelMetadata :=
  mkModelMeta "queueing" "Queueing" "1.0.0" "Customers arrive, queue, and are served by servers." ModeEvent.

(** The JSON decoding of the configuration is an argument. *)
(* examples/queue/queueing.go:68-78 Queueing.Configure *)
Definition Configure (parse : string → result Config) (m : Queueing) (raw : string) : Queueing * option error :=
  let c := if decide (raw = ""%string) then Ok (mkConfig 0 fzero fzero fzero) else parse raw in
  match c with
  | Err e => (m, Some e)
  | Ok c => (mkQueueing (withDefaults c) (qg_busyID m) (qg_busyCol m) (qg_customerTag m) (qg_rng m) (qg_queue m)
               (qg_arrived m) (qg_served m) (qg_peak m), None)
  end.

(* examples/queue/queueing.go:80-94 Queueing.Initialize *)
Definition Initialize (m : Queueing) (w : World) : outcome (Queueing * World * option error) :=
  let cfg := if qc_Servers (qg_cfg m) =? 0 then withDefaults (qg_cfg m) else qg_cfg m in
  let '(cs, busyID) := ComponentStore__Register (w_Components w) "q.busy" in
  let w := set_Components w cs (w_revision w) in
  let '(tags, customerTag) := TagRegistry__Register (w_Tags w) "customer" in
  let w := set_Tags w tags in
  let rng := RandomStreams__StreamU64 (w_Random w) 1 in
  let! (busyCol, w, rng) :=
    spawn (λ r, Done (mkBusy false, r)) (Z.to_nat (qc_Servers cfg)) (newColumn, w, rng) in
  let! (w, _) := ScheduleNow w "arrival" None in
  Done (mkQueueing cfg busyID busyCol customerTag rng (qg_queue m) (qg_arrived m) (qg_served m) (qg_peak m), w, None).

(** The first server of the column that is not busy. *)
Definition find_free (c : Column Busy) : option EntityID :=
  Column__Each c (λ found id b, match found with Some _ => found | None => if B b then None else Some id end) None.

(** A pass of the loop of [dispatch]: the customer at the head of the line goes to [free]. *)
Definition dispatch_one (m : Queueing) (w : World) (c : EntityID) (rest : list EntityID) (free : EntityID)
  : outcome (Queueing * World) :=
  let! (busyCol, w) := set_in (qg_busyCol m) w free (mkBusy true) in
  let! (w, _) := World__Destroy w c in
  let w := set_TagStore w (TagStore__RemoveEntity (w_TagStore w) c) in
  let '(delay, rng) := random_delay (qc_ServiceTime (qg_cfg m)) (qg_rng m) in
  let! (w, _) := push_event w (mkEvent 0 "done" (fadd (Clock__Time (w_Clock w)) delay) 0 0 free 0 None) in
  Done (mkQueueing (qg_cfg m) (qg_busyID m) busyCol (qg_customerTag m) rng rest
          (qg_arrived m) (qg_served m) (qg_peak m), w).

(** Every pass shortens the line, so its length bounds the number of passes. *)
Fixpoint dispatch_loop (fuel : nat) (m : Queueing) (w : World) : outcome (Queueing * World) :=
  match fuel, qg_queue m with
  | S fuel, c :: rest =>
      match find_free (qg_busyCol m) with
      | None => Done (m, w)
      | Some free => let! (m, w) := dispatch_one m w c rest free in dispatch_loop fuel m w
      end
  | _, _ => Done (m, w)
  end.

(* examples/queue/queueing.go:120-141 Queueing.dispatch *)
Definition dispatch (m : Queueing) (w : World) : outcome (Queueing * World) :=
  dispatch_loop (length (qg_queue m)) m w.

(** A customer joins the line. *)
Definition join (m : Queueing) (w : World) : outcome (Queueing * World) :=
  let! (w, c) := World__Create w in
  let! tags := TagStore__Add (w_TagStore w) c (qg_customerTag m) in
  let queue := qg_queue m ++ [c] in
  Done (mkQueueing (qg_cfg m) (qg_busyID m) (qg_busyCol m) (qg_customerTag m) (qg_rng m) queue
          (i64 (qg_arrived m + 1)) (qg_served m) (Z.max (len queue) (qg_peak m)), set_TagStore w tags).

(* examples/queue/queueing.go:96-118 Queueing.HandleEvent *)
Definition HandleEvent (m : Queueing) (w : World) (e : Event) : outcome (Queueing * World * option error) :=
  if decide (ev_Type e = "arrival"%string) then
    let! (m, w) := join m w in
    let! (m, w) := dispatch m w in
    if flt (ev_Time e) (qc_MaxTime (qg_cfg m)) then
      let '(delay, rng) := random_delay (qc_Interarrival (qg_cfg m)) (qg_rng m) in
      let m := mkQueueing (qg_cfg m) (qg_busyID m) (qg_busyCol m) (qg_customerTag m) rng (qg_queue m)
                 (qg_arrived m) (qg_served m) (qg_peak m) in
      let! (w, _) := ScheduleIn w delay "arrival" None in
      Done (m, w, None)
    else Done (m, w, None)
  else if decide (ev_Type e = "done"%string) then
    let! (busyCol, w) := set_in (qg_busyCol m) w (ev_Source e) (mkBusy false) in
    let m := mkQueueing (qg_cfg m) (qg_busyID m) busyCol (qg_customerTag m) (qg_rng m) (qg_queue m)
               (qg_arrived m) (i64 (qg_served m + 1)) (qg_peak m) in
    let! (m, w) := dispatch m w in
    Done (m, w, None)
  else Done (m, w, None).

(* examples/queue/queueing.go:143-155 Queueing.Metrics *)
Definition Metrics (m : Queueing) : gmap string float64 :=
  let utilization := if 0 <? qg_arrived m then fdiv (f64_of_Z (qg_served m)) (f64_of_Z (qg_arrived m)) else fzero in
  list_to_map [("arrived"%string, f64_of_Z (qg_arrived m)); ("served"%string, f64_of_Z (qg_served m));
               ("peak_backlog"%string, f64_of_Z (qg_peak m)); ("completion"%string, utilization)].

(** The model as the runtime sees it: an event model, not configurable through snapshots. *)
Definition queueing_model : Model Queueing :=
  mkModel Queueing__Metadata Initialize None None (Some HandleEvent) None.

(** A model value as the registry's factory makes it, configured. *)
Definition configured (c : Config) : Queueing :=
  mkQueueing (withDefaults c) 0 newColumn 0 (mkRNG 0) [] 0 0 0.

End queueing.

(** ** The invariant of the shop *)

Section shop.
Context `{R : GoRuntime}.
Implicit Types (m : Queueing) (w : World) (M : gmap nat (EntityID * Busy)) (evs : list Event).

Abbreviation servers := (gmap nat (EntityID * Busy)).

(** The positions of the busy servers. *)
Definition busy M : gset nat := selected B M.

Definition all_busy M : Prop := ∀ i it, M !! i = Some it → B it.2 = true.

Definition is_done (e : Event) : Prop := ev_Type e = "done"%string.
#[global] Instance is_done_dec e : Decision (is_done e).
Proof. unfold is_done. apply _. Defined.

(** The servers whose service is scheduled to end. *)
Definition serving evs : list nat := (λ e, eidx (ev_Source e)) <$> filter is_done evs.

(** A configuration the defaults leave alone. *)
Record cfg_ok (c : Config) : Prop := {
  co_servers : 0 < qc_Servers c;
  co_interarrival : positive_duration (qc_Interarrival c);
  co_service : positive_duration (qc_ServiceTime c);
}.

(** After at most [k] creations; [b] bounds the events scheduled plus those the line will need. *)
Record shop (k b : Z) m w M evs : Prop := {
  sh_cfg : cfg_ok (qg_cfg m);
  sh_room : room k (w_Entities w);
  sh_col : col_refines (qg_busyCol m) M;
  sh_home : homed (w_Entities w) M;
  sh_agenda : agenda (b - len (qg_queue m)) w evs;
  sh_tag : 0 ≤ qg_customerTag m;
  sh_people : em_dense (w_Entities w) ≡ₚ col_dense (qg_busyCol m) ++ qg_queue m;
  sh_servers : len (col_dense (qg_busyCol m)) = qc_Servers (qg_cfg m);
  sh_serving : serving evs ≡ₚ elements (busy M);
  sh_count : qg_arrived m = qg_served m + Z.of_nat (size (busy M)) + len (qg_queue m);
  sh_served : 0 ≤ qg_served m;
  sh_arrived : qg_arrived m + qc_Servers (qg_cfg m) ≤ k;
  sh_small : 0 ≤ k < 2 ^ 31 - 1 ∧ b < 2 ^ 62;
}.

Lemma elem_of_busy M i : i ∈ busy M ↔ ∃ e v, M !! i = Some (e, v) ∧ B v = true.
Proof. apply elem_of_selected. Qed.

Lemma busy_insert M i e : i ∉ busy M → elements (busy (<[i := (e, mkBusy true)]> M)) ≡ₚ i :: elements (busy M).
Proof. intros Hi. by apply selected_in. Qed.

Lemma busy_release M i e : i ∈ busy M → elements (busy M) ≡ₚ i :: elements (busy (<[i := (e, mkBusy false)]> M)).
Proof. intros Hi. by apply selected_out. Qed.

Lemma busy_size M i e : i ∉ busy M → size (busy (<[i := (e, mkBusy true)]> M)) = S (size (busy M)).
Proof. intros Hi. unfold size, set_size. cbn. by rewrite (busy_insert M i e Hi). Qed.

Lemma release_size M i e : i ∈ busy M → size (busy M) = S (size (busy (<[i := (e, mkBusy false)]> M))).
Proof. intros Hi. unfold size, set_size. cbn. by rewrite (busy_release M i e Hi). Qed.

(** The scan of [dispatch] finds a free server unless all are busy. *)
Lemma find_free_spec c M :
  col_refines c M →
  match find_free c with
  | Some id => ∃ v, M !! eidx id = Some (id, v) ∧ B v = false
  | None => all_busy M
  end.
Proof.
  intros Hc. destruct (items_ok c M _ Hc (Permutation_refl _)) as [Hin _].
  unfold find_free, Column__Each. set (l := zip _ _) in *. clearbody l.
  assert (∀ (l : list (EntityID * Busy)) found, match foldl (λ s ev, match s with Some _ => s | None => if B ev.2 then None else Some ev.1 end) found l with
    | Some id => found = Some id ∨ ∃ v, (id, v) ∈ l ∧ B v = false
    | None => found = None ∧ ∀ it : EntityID * Busy, it ∈ l → B it.2 = true
    end) as Hfold.
  { clear. induction l as [|[e v] l IH]; intros found; cbn [foldl].
    - destruct found; [by left|]. split; [done|]. by intros it ?%elem_of_nil.
    - specialize (IH (match found with Some _ => found | None => if B v then None else Some e end)). cbn [fst snd].
      destruct (foldl _ _ l) as [id|].
      + destruct IH as [IH|(v' & Hin & Hb)]; [|right; exists v'; split; [by right|done]].
        destruct found; [by left|]. destruct (B v) eqn:Hb; [done|]. injection IH as ->. right. exists v. split; [by left|done].
      + destruct IH as [IH Hall]. destruct found; [done|]. destruct (B v) eqn:Hb; [|done]. split; [done|].
        intros it [->|?]%elem_of_cons; [done|auto]. }
  specialize (Hfold l None). destruct (foldl _ None l) as [id|].
  - destruct Hfold as [?|(v & Hv & Hb)]; [done|]. exists v. split; [by apply (Hin (id, v))|done].
  - destruct Hfold as [_ Hall]. intros i [e v] Hl. apply Hall, Hin. cbn.
    apply (cref_map _ _ Hc) in Hl as Hpos. destruct Hpos as (pos & _ & _ & Hi). by rewrite Hi.
Qed.

(** One customer goes to a free server. *)
Lemma dispatch_one_ok k b m w M evs c rest free v :
  shop k b m w M evs → qg_queue m = c :: rest → M !! eidx free = Some (free, v) → B v = false →
  ∃ m' w' evs', dispatch_one m w c rest free = Done (m', w') ∧ qg_queue m' = rest ∧ qg_cfg m' = qg_cfg m ∧
    shop k b m' w' (<[eidx free := (free, mkBusy true)]> M) evs'.
Proof.
  intros [Hcfg Hroom Hcol Hhome Hag Htag Hpeople Hsrv Hserving Hcount Hserved Harr [Hk Hb]] Hq Hfree Hv.
  assert (eidx free ∉ busy M) as Hnb.
  { rewrite elem_of_busy. intros (e & v' & Hl & Hv'). rewrite Hl in Hfree. injection Hfree as -> ->. congruence. }
  assert (len (col_dense (qg_busyCol m)) ≤ k) as Hlen.
  { pose proof (rm_dense _ _ Hroom) as Hd. unfold len in *. rewrite Hpeople, length_app in Hd. lia. }
  unfold dispatch_one, set_in.
  destruct (Set_refines (qg_busyCol m) M (w_revision w) free (mkBusy true) Hcol) as (col' & Hset & Hcol' & _ & Hdense); [lia|].
  unfold owner in Hcol'. rewrite Hfree in Hset, Hcol', Hdense. rewrite app_nil_r in Hdense.
  rewrite Hset. cbn [obind]. unfold World__Destroy.
  change (w_Entities (touch w (w_revision w))) with (w_Entities w). rewrite Hq in Hpeople.
  destruct (Destroy_room k (w_Entities w) (w_revision (touch w (w_revision w))) c Hroom Hk) as (em & -> & Hroom' & Hem).
  { rewrite Hpeople. apply elem_of_app. right. by left. }
  cbn [obind]. assert (em_dense em ≡ₚ col_dense (qg_busyCol m) ++ rest) as Hpeople'.
  { apply (Permutation_cons_inv (a := c)). rewrite <- Hem, Hpeople. by rewrite Permutation_middle. }
  destruct (random_delay _ _) as [delay rng] eqn:Hdelay.
  pose proof (random_delay_duration _ (qg_rng m) (co_service _ Hcfg)) as Hdur. rewrite Hdelay in Hdur. cbn [fst] in Hdur.
  set (w1 := set_TagStore _ _). assert (len (qg_queue m) = len rest + 1) as Hql by (rewrite Hq, len_cons; lia).
  set (ev := mkEvent 0 "done" _ 0 0 free 0 None).
  destruct (agenda_push_in (b - len (qg_queue m)) w1 evs ev delay) as (q & -> & evs' & Hag' & Hevs');
    [by eapply agenda_same| unfold len; lia|done|done|].
  cbn [obind]. destruct (queued_fields w1 ev) as (Hty & _ & Hsrc). eexists _, _, evs'. split; [done|]. split; [done|]. split; [done|].
  split; cbn [qg_cfg qg_busyCol qg_customerTag qg_queue qg_arrived qg_served]; try done.
  - intros i e v' [[<- [= <- <-]]|[Hne Hl]]%lookup_insert_Some; cbn.
    + split; [done|]. rewrite Hpeople'. apply elem_of_app. left.
      apply (cref_map _ _ Hcol) in Hfree as (pos & Hp & _). by eapply list_elem_of_lookup_2.
    + destruct (Hhome _ _ _ Hl) as [? _]. split; [done|]. rewrite Hpeople'. apply elem_of_app. left.
      apply (cref_map _ _ Hcol) in Hl as (pos & Hp & _). by eapply list_elem_of_lookup_2.
  - eapply agenda_same; [exact Hag'|lia|done|done].
  - cbn. by rewrite Hdense.
  - by rewrite Hdense.
  - rewrite (busy_insert M _ free Hnb), <- Hserving. unfold serving. rewrite Hevs', filter_cons_True by exact Hty.
    rewrite fmap_cons. by rewrite Hsrc.
  - rewrite (busy_size M _ free Hnb). lia.
Qed.

(** [dispatch] ends with an empty line or no free server. *)
Lemma dispatch_ok k b m w M evs :
  shop k b m w M evs →
  ∃ m' w' M' evs', dispatch m w = Done (m', w') ∧ qg_cfg m' = qg_cfg m ∧ shop k b m' w' M' evs' ∧
    (qg_queue m' = [] ∨ all_busy M').
Proof.
  unfold dispatch. remember (length (qg_queue m)) as n eqn:Hn. revert m w M evs Hn.
  induction n as [|n IH]; intros m w M evs Hn Hs; cbn [dispatch_loop].
  { exists m, w, M, evs. split_and!; [by destruct (qg_queue m)|done|done|left]. by destruct (qg_queue m). }
  destruct (qg_queue m) as [|c rest] eqn:Hq; [done|].
  pose proof (find_free_spec (qg_busyCol m) M (sh_col _ _ _ _ _ _ Hs)) as Hf.
  destruct (find_free (qg_busyCol m)) as [free|]; [|exists m, w, M, evs; split_and!; try done; by right].
  destruct Hf as (v & Hfree & Hv).
  destruct (dispatch_one_ok k b m w M evs c rest free v Hs Hq Hfree Hv) as (m1 & w1 & evs1 & -> & Hq1 & Hc1 & Hs1).
  cbn [obind]. destruct (IH m1 w1 _ evs1 ltac:(rewrite Hq1; by injection Hn) Hs1) as (m' & w' & M' & evs' & He & Hc & Hs' & Hor).
  exists m', w', M', evs'. split_and!; try done. congruence.
Qed.

Lemma shop_mono k k' b b' m w M evs :
  shop k b m w M evs → k ≤ k' < 2 ^ 31 - 1 → b ≤ b' < 2 ^ 62 → shop k' b' m w M evs.
Proof.
  intros [Hcfg [Hinv Hn Hd Hv] Hcol Hhome Hag Htag Hpeople Hsrv Hserving Hcount Hserved Harr [Hk Hb]] Hk' Hb'.
  split; try done; [|by eapply agenda_same; [exact Hag|lia|..]|lia|lia].
  split; [done|lia|lia|]. intros i v Hi. specialize (Hv i v Hi). lia.
Qed.

(** The next event has been taken from the agenda. *)
Lemma shop_fire k b m w q M ev evs :
  shop k b m w M (ev :: evs) → agenda (b - len (qg_queue m)) (fire w q ev) evs → ¬ is_done ev →
  shop k b m (fire w q ev) M evs.
Proof.
  intros [Hcfg Hroom Hcol Hhome Hag Htag Hpeople Hsrv Hserving Hcount Hserved Harr Hsmall] Hag' Hnd.
  split; try done. unfold serving in *. by rewrite filter_cons_False in Hserving.
Qed.

(** A customer joins: one event more will be needed. *)
Lemma join_ok k b m w M evs :
  shop k b m w M evs → k + 1 < 2 ^ 31 - 1 → b + 1 < 2 ^ 62 →
  ∃ m' w', join m w = Done (m', w') ∧ qg_cfg m' = qg_cfg m ∧ shop (k + 1) (b + 1) m' w' M evs.
Proof.
  intros [Hcfg Hroom Hcol Hhome Hag Htag Hpeople Hsrv Hserving Hcount Hserved Harr [Hk Hb]] Hk' Hb'.
  unfold join, World__Create.
  destruct (Create_room k (w_Entities w) (w_revision w) Hroom Hk) as (em & id & -> & Hroom' & Hd & Hnew). cbn [obind].
  destruct (Add_correct (w_TagStore (set_Entities w em (bump (w_revision w)))) id (qg_customerTag m) Htag) as (tags & -> & _).
  cbn [obind]. eexists _, _. split; [done|]. split; [done|].
  pose proof (co_servers _ Hcfg). assert (len (qg_queue m ++ [id]) = len (qg_queue m) + 1) as Hl by (rewrite len_app; done).
  assert (i64 (qg_arrived m + 1) = qg_arrived m + 1) as Hi by (apply i64_id; unfold in_i64, len in *; lia).
  split; cbn [qg_cfg qg_busyCol qg_customerTag qg_queue qg_arrived qg_served]; rewrite ?Hl, ?Hi; try done; try lia.
  - eapply homed_mono; [exact Hhome|]. intros e He. cbn. rewrite Hd. apply elem_of_app. by left.
  - eapply agenda_same; [exact Hag|lia|done|done].
  - cbn. by rewrite Hd, Hpeople, app_assoc.
Qed.

(** A server becomes free. *)
Lemma release_ok k b m w q M ev evs :
  shop k b m w M (ev :: evs) → agenda (b - len (qg_queue m)) (fire w q ev) evs → is_done ev →
  ∃ col' w' M', set_in (qg_busyCol m) (fire w q ev) (ev_Source ev) (mkBusy false) = Done (col', w') ∧
    shop k b (mkQueueing (qg_cfg m) (qg_busyID m) col' (qg_customerTag m) (qg_rng m) (qg_queue m)
      (qg_arrived m) (i64 (qg_served m + 1)) (qg_peak m)) w' M' evs.
Proof.
  intros [Hcfg Hroom Hcol Hhome Hag Htag Hpeople Hsrv Hserving Hcount Hserved Harr [Hk Hb]] Hag' Hd.
  unfold serving in Hserving. rewrite filter_cons_True, fmap_cons in Hserving by done.
  assert (eidx (ev_Source ev) ∈ busy M) as Hin.
  { apply elem_of_elements. rewrite <- Hserving. by left. }
  pose proof Hin as (e & v & He & Hv)%elem_of_busy. pose proof (co_servers _ Hcfg).
  assert (len (col_dense (qg_busyCol m)) ≤ k) as Hlen.
  { pose proof (rm_dense _ _ Hroom) as Hde. unfold len in *. rewrite Hpeople, length_app in Hde. lia. }
  unfold set_in.
  destruct (Set_refines (qg_busyCol m) M (w_revision (fire w q ev)) (ev_Source ev) (mkBusy false) Hcol)
    as (col' & Hset & Hcol' & _ & Hdense); [lia|].
  unfold owner in Hcol'. rewrite He in Hset, Hcol', Hdense. rewrite app_nil_r in Hdense.
  rewrite Hset. cbn [obind]. eexists _, _, _. split; [done|].
  pose proof (release_size M _ e Hin) as Hsz.
  assert (i64 (qg_served m + 1) = qg_served m + 1) as Hi by (apply i64_id; unfold in_i64, len in *; lia).
  split; cbn [qg_cfg qg_busyCol qg_customerTag qg_queue qg_arrived qg_served]; rewrite ?Hdense, ?Hi; try done; try lia.
  - intros i e' v' [[<- [= <- <-]]|[Hne Hl]]%lookup_insert_Some; by eapply Hhome.
  - rewrite (busy_release M _ e Hin) in Hserving. by apply Permutation_cons_inv in Hserving.
Qed.

Lemma queueing_HandleEvent_ok k b m w q M ev evs :
  shop k b m w M (ev :: evs) → (qg_queue m = [] ∨ all_busy M) →
  agenda (b - len (qg_queue m)) (fire w q ev) evs → k + 1 < 2 ^ 31 - 1 → b + 2 < 2 ^ 62 →
  ∃ m' w' M' evs', HandleEvent m (fire w q ev) ev = Done (m', w', None) ∧ qg_cfg m' = qg_cfg m ∧
    shop (k + 1) (b + 2) m' w' M' evs' ∧ (qg_queue m' = [] ∨ all_busy M').
Proof.
  intros Hs Hor Hag Hk Hb. unfold HandleEvent.
  destruct (decide (ev_Type ev = "arrival"%string)) as [Ha|Hna]; [|destruct (decide (ev_Type ev = "done"%string)) as [Hd|Hnd]].
  - assert (¬ is_done ev) as Hnd by (unfold is_done; congruence).
    destruct (join_ok k b m (fire w q ev) M evs) as (m1 & w1 & -> & Hc1 & Hs1); [by apply shop_fire|lia|lia|].
    cbn [obind]. destruct (dispatch_ok _ _ _ _ _ _ Hs1) as (m2 & w2 & M2 & evs2 & -> & Hc2 & Hs2 & Hor2). cbn [obind].
    destruct (flt _ _); [|exists m2, w2, M2, evs2; split_and!; [done|congruence| |done];
      eapply shop_mono; [exact Hs2|lia|lia]].
    destruct Hs2 as [Hcfg Hroom Hcol Hhome Hag2 Htag Hpeople Hsrv Hserving Hcount Hserved Harr [Hk2 Hb2]].
    destruct (random_delay _ _) as [delay rng] eqn:Hdelay.
    pose proof (random_delay_duration _ (qg_rng m2) (co_interarrival _ Hcfg)) as Hdur. rewrite Hdelay in Hdur. cbn [fst] in Hdur.
    unfold ScheduleIn. set (e2 := mkEvent _ _ _ _ _ _ _ _).
    destruct (agenda_push_in _ w2 evs2 e2 delay Hag2) as (q' & -> & evs3 & Hag3 & Hevs3); [unfold len; lia|done|done|].
    destruct (queued_fields w2 e2) as (Hty & _). cbn [obind]. eexists _, _, M2, evs3.
    split_and!; [done|cbn; congruence| |exact Hor2].
    split; cbn [qg_cfg qg_busyCol qg_customerTag qg_queue qg_arrived qg_served]; try done; try lia.
    + eapply agenda_same; [exact Hag3|lia|done|done].
    + rewrite <- Hserving. unfold serving. rewrite Hevs3, filter_cons_False; [done|]. unfold is_done. by rewrite Hty.
  - destruct (release_ok k b m w q M ev evs Hs Hag Hd) as (col' & w1 & M1 & -> & Hs1). cbn [obind].
    destruct (dispatch_ok _ _ _ _ _ _ Hs1) as (m2 & w2 & M2 & evs2 & -> & Hc2 & Hs2 & Hor2). cbn [obind].
    exists m2, w2, M2, evs2. split_and!; try done. eapply shop_mono; [exact Hs2|lia|lia].
  - exists m, (fire w q ev), M, evs. split_and!; try done. eapply shop_mono; [by apply shop_fire|..].
    + destruct Hs as [_ _ _ _ _ _ _ _ _ _ _ _ [? ?]]. lia.
    + lia.
Qed.
End shop.

(** ** Whole runs *)

Section runs.
Context `{R : GoRuntime}.
Implicit Types (m : Queueing) (w : World) (c : Config).

(** Any numbers but NaN, which JSON cannot express, for the mean times. *)
Definition scenario_ok c : Prop := proper (qc_Interarrival c) ∧ proper (qc_ServiceTime c).

Lemma queueing_withDefaults_ok c : scenario_ok c → cfg_ok (withDefaults c).
Proof.
  intros [Hi Hs]. split; cbn.
  - destruct (Z.leb_spec (qc_Servers c) 0); lia.
  - destruct (fle (qc_Interarrival c) fzero) eqn:E; [by vm_compute|by apply proper_positive].
  - destruct (fle (qc_ServiceTime c) fzero) eqn:E; [by vm_compute|by apply proper_positive].
Qed.

Definition in_service m : Z := len (filter (λ b, B b = true) (col_data (qg_busyCol m))).

(** The invariant after [j] steps. *)
Definition open_shop c (j : Z) m w : Prop :=
  qg_cfg m = withDefaults c ∧
  ∃ M evs, shop (qc_Servers (withDefaults c) + j) (1 + 2 * j) m w M evs ∧ (qg_queue m = [] ∨ all_busy M).

Lemma queueing_event_step_ok c j m w :
  0 ≤ j → qc_Servers (withDefaults c) + j + 1 < 2 ^ 31 - 1 → open_shop c j m w →
  ∃ m' w' more, eventExecutor__step HandleEvent m w = Done (m', w', more, None) ∧
    if more : bool then open_shop c (j + 1) m' w' else open_shop c j m' w' ∧ Drained w'.
Proof.
  intros Hj Hk (Hcfg & M & evs & Hs & Hor).
  pose proof (agenda_step HandleEvent _ m w evs (sh_agenda _ _ _ _ _ _ Hs)) as Hstep. destruct evs as [|ev evs].
  - destruct Hstep as (w' & -> & Ha & q & ->). exists m, (set_Events w q), false. split; [done|]. split.
    + split; [done|]. exists M, []. split; [|done]. by destruct Hs.
    + by apply agenda_heap, Permutation_nil_l in Ha.
  - destruct Hstep as (q & Ha & ->). pose proof (co_servers _ (sh_cfg _ _ _ _ _ _ Hs)) as Hpos. rewrite Hcfg in Hpos.
    destruct (queueing_HandleEvent_ok _ _ m w q M ev evs Hs Hor Ha) as (m' & w' & M' & evs' & -> & Hc & Hs' & Hor'); [lia|lia|].
    cbn [obind]. exists m', w', true. split; [done|]. split; [congruence|]. exists M', evs'. split; [|done].
    eapply shop_mono; [exact Hs'|lia|lia].
Qed.

Lemma queueing_Initialize_ok c id seed meta :
  scenario_ok c → qc_Servers (withDefaults c) < 2 ^ 31 - 1 →
  ∃ m w, Initialize (configured c) (set_Meta (NewWorld id seed) meta 0) = Done (m, w, None) ∧ open_shop c 0 m w.
Proof.
  intros Hc Hn. pose proof (queueing_withDefaults_ok c Hc) as Hok. pose proof (co_servers _ Hok) as Hpos.
  unfold Initialize. cbn [configured qg_cfg qg_queue qg_arrived qg_served qg_peak].
  destruct (Z.eqb_spec (qc_Servers (withDefaults c)) 0); [lia|].
  destruct (ComponentStore__Register _ _) as [cs busyID]. destruct (TagRegistry__Register _ _) as [tags tag] eqn:Htag.
  assert (0 ≤ tag) as Ht by (cbn in Htag; by injection Htag as <- <-).
  set (w0 := set_Tags _ tags).
  destruct (spawn_ok (λ b, B b = false) (λ r, Done (mkBusy false, r)) (Z.to_nat (qc_Servers (withDefaults c))) 0
    newColumn ∅ w0 (RandomStreams__StreamU64 (w_Random w0) 1))
    as (col & em & rev & rng & M & ids & -> & Hroom & Hd & Hids & Hcol & Hhome & Hcd & _ & HM).
  { intros r. by exists (mkBusy false), r. }
  { apply New_room. } { done. } { lia. } { apply newColumn_refines. } { by intros i e v ?%lookup_empty_Some. } { done. }
  cbn [obind]. unfold ScheduleNow. set (w1 := set_Entities w0 em rev). set (ev := mkEvent _ _ _ _ _ _ _ _).
  assert (agenda 0 w1 []) as Ha by by apply agenda_new.
  destruct (agenda_push 0 w1 [] ev Ha) as (q & -> & evs & Ha' & Hevs); [lia|done|done|].
  destruct (queued_fields w1 ev) as (Hty & _). cbn [obind]. eexists _, _. split; [done|]. split; [done|].
  assert (busy M = ∅) as Hb.
  { apply set_eq. intros i. rewrite elem_of_busy. split; [|by intros ?%elem_of_empty].
    intros (e & v & Hl & Hv). destruct (HM i e v Hl) as [?|[_ ?]]; [done|congruence]. }
  assert (len ids = qc_Servers (withDefaults c)) as Hlen by (unfold len; rewrite Hids; lia).
  exists M, evs. split; [|by left].
  split; cbn [qg_cfg qg_busyCol qg_customerTag qg_queue qg_arrived qg_served]; rewrite ?Hb; try done; try lia.
  - by replace (qc_Servers (withDefaults c) + 0) with (0 + Z.of_nat (Z.to_nat (qc_Servers (withDefaults c)))) by lia.
  - cbn. by rewrite Hd, Hcd, app_nil_r.
  - by rewrite Hcd.
  - unfold serving. rewrite Hevs, filter_cons_False; [done|]. unfold is_done. by rewrite Hty.
Qed.

(** What the invariant says about the numbers the model reports. *)
Lemma open_shop_accounts c j m w :
  open_shop c j m w →
  qg_arrived m = qg_served m + in_service m + len (qg_queue m) ∧
  (qg_queue m = [] ∨ in_service m = qc_Servers (withDefaults c)) ∧
  EntityManager__Len (w_Entities w) = qc_Servers (withDefaults c) + len (qg_queue m) ∧
  len (filter is_done (q_h (w_Events w))) = in_service m ∧
  (Drained w → qg_queue m = [] ∧ qg_served m = qg_arrived m).
Proof.
  intros (Hcfg & M & evs & Hs & Hor).
  destruct Hs as [Hok Hroom Hcol Hhome Hag Htag Hpeople Hsrv Hserving Hcount Hserved Harr _]. rewrite Hcfg in *.
  assert (Z.of_nat (size (busy M)) = in_service m) as Hb.
  { unfold in_service, len. f_equal. by apply selected_size. }
  assert (len (filter is_done (q_h (w_Events w))) = in_service m) as Hdone.
  { rewrite <- Hb. unfold len. f_equal. rewrite <- (agenda_heap _ _ _ Hag).
    transitivity (length (serving evs)); [unfold serving; by rewrite length_fmap|]. by rewrite Hserving. }
  assert (qg_queue m = [] ∨ in_service m = qc_Servers (withDefaults c)) as Hfull.
  { destruct Hor as [?|Hall]; [by left|right]. rewrite <- Hsrv. unfold in_service, len. f_equal.
    rewrite <- (cinv_data _ (cref_inv _ _ Hcol)). f_equal. apply filter_all, Forall_forall. intros b Hin.
    apply list_elem_of_lookup in Hin as [pos Hp].
    destruct (lookup_lt_is_Some_2 (col_dense (qg_busyCol m)) pos) as [e He].
    { rewrite <- (cinv_data _ (cref_inv _ _ Hcol)). by eapply lookup_lt_Some. }
    apply (Hall (eidx e) (e, b)). apply (cref_map _ _ Hcol). eauto. }
  split_and!; [lia|done| |done|].
  - unfold EntityManager__Len. rewrite (inv_count _ (rm_inv _ _ Hroom)), <- Hsrv.
    unfold len. rewrite Hpeople, length_app. lia.
  - intros Hd. rewrite Hd in Hdone. change (0 = in_service m) in Hdone. pose proof (co_servers _ Hok).
    destruct Hfull as [E|?]; [|lia]. split; [done|]. rewrite E in Hcount. change (len []) with 0 in Hcount. lia.
Qed.

(** C19: the queueing model conserves customers and never idles: for every scenario, creating the
    simulation and running it for any number of events completes without an error or a panic; every customer who arrived has been served, is being served or waits in line; nobody
    waits while a server is free; the entities of the world are the servers and the waiting
    customers; each busy server has one pending completion; and when no event is left, everybody
    has been served. *)
Theorem queueing_conserves_customers {U : Unwinding Queueing} GOMAXPROCS (cfg : Runtime.Config) c n :
  cfg_Mode cfg = ModeEvent → scenario_ok c → 0 ≤ n → qc_Servers (withDefaults c) + n < 2 ^ 31 - 1 →
  ∃ sim s, Runtime.New GOMAXPROCS cfg queueing_model (configured c) = Done (Ok sim) ∧
    RunN (S (Z.to_nat n)) sim n = Some (Done (s, None)) ∧ sim_state s = StateCompleted ∧
    let m := sim_m s in let w := sim_world s in
    qg_arrived m = qg_served m + in_service m + len (qg_queue m) ∧
    (qg_queue m = [] ∨ in_service m = qc_Servers (withDefaults c)) ∧
    EntityManager__Len (w_Entities w) = qc_Servers (withDefaults c) + len (qg_queue m) ∧
    len (filter is_done (q_h (w_Events w))) = in_service m ∧
    (sim_steps s = n ∨ qg_queue m = [] ∧ qg_served m = qg_arrived m).
Proof.
  intros Hmode Hc Hn Hk. pose proof (co_servers _ (queueing_withDefaults_ok c Hc)) as Hpos.
  unfold Runtime.New, newExecutor. rewrite Hmode. cbn [Z.eqb ModeTick ModeEvent obind].
  destruct (queueing_Initialize_ok c (cfg_ID cfg) (cfg_Seed cfg)
    (mkMeta (cfg_ID cfg) "queueing" "1.0.0" (cfg_Seed cfg) ModeEvent)) as (m0 & w0 & Hi & H0); [done|lia|].
  cbn in Hi |- *. rewrite Hi. cbn [obind]. eexists. set (sim := mkSim _ _ _ _ _ _ _ _ _).
  destruct (RunN_invariant (eventExecutor HandleEvent) (open_shop c) Drained sim n) as (s & Hrun & Hst & HI & Hsteps & Hor).
  { done. } { done. } { lia. } { done. }
  { intros j m w Hj HI. destruct (queueing_event_step_ok c j m w) as (m' & w' & more & Hstep & HI'); [lia|lia|done|].
    exists m', w', more. split; [|done]. cbn. by rewrite Hstep. }
  exists s. split; [done|]. split; [exact Hrun|]. split; [done|].
  destruct (open_shop_accounts _ _ _ _ HI) as (H1 & H2 & H3 & H4 & H5). split_and!; try done. naive_solver.
Qed.
End runs.

(** Two servers and twelve events. *)
Definition small : Config := mkConfig 2 fone (f64_of_Z 2) (f64_of_Z 50).
Definition event_config : Runtime.Config := Runtime.mkConfig "q" 7 ModeEvent 0 fzero 0.

Lemma queueing_conserves_customers_witness :
  ∃ sim s, Runtime.New (R := Toy.runtime) 1 event_config queueing_model (configured small) = Done (Ok sim) ∧
    RunN (S (Z.to_nat 12)) sim 12 = Some (Done (s, None)) ∧
    qg_arrived (sim_m s) = qg_served (sim_m s) + in_service (sim_m s) + len (qg_queue (sim_m s)).
Proof.
  destruct (queueing_conserves_customers (R := Toy.runtime) 1 event_config small 12) as (sim & s & Hn & Hr & _ & Ha & _);
    [reflexivity|split; split; reflexivity|lia|vm_compute; reflexivity|].
  exists sim, s. split; [exact Hn|]. split; [exact Hr|exact Ha].
Defined.
