(* ===== verification/DSystem.v ===== *)
(** * The distributed-system model: [examples/distributed-system/dsystem.go]

    Requests are routed round robin to the healthy servers of a pool; servers fail and recover.
    Arrivals, completions, failures and recoveries are events.  The typed column of the servers is
    a field of the model; [w.Components.Entities(m.srvID)] lists its entities. *)

From S2P Require Import Prelude Float64 FloatRound Rng SparseSet Entity GoValues Interning Component Tags Heap Events World.
From S2P Require Import Snapshot Scheduler Runtime Population ModelRuns.
Local Open Scope Z_scope.

(* examples/distributed-system/dsystem.go:15-19 SrvState *)
Record SrvState := mkSrv { Healthy : bool; Load : Z }.

(* examples/distributed-system/dsystem.go:21-29 Config *)
Record Config := mkConfig {
  dc_Servers : Z;
  dc_ArrivalInterval : float64;
  dc_ProcessingTime : float64;
  dc_FailureInterval : float64;
  dc_RecoveryTime : float64;
  dc_MaxTime : float64;
}.

(* examples/distributed-system/dsystem.go:31-51 Config.withDefaults *)
Definition withDefaults (c : Config) : Config :=
  let d (x : float64) (default : Z) := if fle x fzero then f64_of_Z default else x in
  mkConfig (if dc_Servers c <=? 0 then 4 else dc_Servers c)
    (d (dc_ArrivalInterval c) 1) (d (dc_ProcessingTime c) 2) (d (dc_FailureInterval c) 10)
    (d (dc_RecoveryTime c) 5) (d (dc_MaxTime c) 100).

Section dsystem.
Context `{R : GoRuntime}.

(* examples/distributed-system/dsystem.go:53-64 DistributedSystem *)
Record DistributedSystem := mkDS {
  ds_cfg : Config;
  ds_srvID : Z;
  ds_srvCol : Column SrvState;
  ds_rng : RNG;
  ds_rr : Z;
  ds_processed : Z;
  ds_dropped : Z;
}.

Definition set_col (m : DistributedSystem) col : DistributedSystem :=
  mkDS (ds_cfg m) (ds_srvID m) col (ds_rng m) (ds_rr m) (ds_processed m) (ds_dropped m).
Definition set_rr (m : DistributedSystem) rr : DistributedSystem :=
  mkDS (ds_cfg m) (ds_srvID m) (ds_srvCol m) (ds_rng m) rr (ds_processed m) (ds_dropped m).
Definition set_counts (m : DistributedSystem) processed dropped : DistributedSystem :=
  mkDS (ds_cfg m) (ds_srvID m) (ds_srvCol m) (ds_rng m) (ds_rr m) processed dropped.

(* examples/distributed-system/dsystem.go:66-75 DistributedSystem.Metadata *)
Definition DSystem__Metadata : ModelMetadata :=
  mkModelMeta "distributed-system" "DistributedSystem" "1.0.0"
    "Requests route across servers that fail and recover." ModeEvent.

(** The JSON decoding of the configuration is an argument. *)
(* examples/distributed-system/dsystem.go:77-87 DistributedSystem.Configure *)
Definition Configure (parse : string → result Config) (m : DistributedSystem) (raw : string)
  : DistributedSystem * option error :=
  let c := if decide (raw = ""%string) then Ok (mkConfig 0 fzero fzero fzero fzero fzero) else parse raw in
  match c with
  | Err e => (m, Some e)
  | Ok c => (mkDS (withDefaults c) (ds_srvID m) (ds_srvCol m) (ds_rng m) (ds_rr m) (ds_processed m) (ds_dropped m), None)
  end.

(* examples/distributed-system/dsystem.go:89-102 DistributedSystem.Initialize *)
Definition Initialize (m : DistributedSystem) (w : World) : outcome (DistributedSystem * World * option error) :=
  let cfg := if dc_Servers (ds_cfg m) =? 0 then withDefaults (ds_cfg m) else ds_cfg m in
  let '(cs, srvID) := ComponentStore__Register (w_Components w) "ds.state" in
  let w := set_Components w cs (w_revision w) in
  let rng := RandomStreams__StreamU64 (w_Random w) 1 in
  let! (srvCol, w, rng) :=
    spawn (λ r, Done (mkSrv true 0, r)) (Z.to_nat (dc_Servers cfg)) (newColumn, w, rng) in
  let! (w, _) := ScheduleNow w "request" None in
  let! (w, _) := ScheduleIn w (dc_FailureInterval cfg) "fail" None in
  Done (mkDS cfg srvID srvCol rng (ds_rr m) (ds_processed m) (ds_dropped m), w, None).

(** The loop of [pick], over as many passes as there are servers. *)
Fixpoint pick_loop (passes : nat) (ids : list EntityID) (col : Column SrvState) (rr : Z)
  : outcome (Z * option EntityID) :=
  match passes with
  | O => Done (rr, None)
  | S passes =>
      let rr := Z.rem (i64 (rr + 1)) (len ids) in
      let! id := index ids rr in
      let! r := Column__Get col id in
      match r with
      | Some st => if Healthy st then Done (rr, Some id) else pick_loop passes ids col rr
      | None => pick_loop passes ids col rr
      end
  end.

(* examples/distributed-system/dsystem.go:148-159 DistributedSystem.pick *)
Definition pick (m : DistributedSystem) : outcome (DistributedSystem * option EntityID) :=
  let ids := Column__entityIDs (ds_srvCol m) in
  let! (rr, r) := pick_loop (length ids) ids (ds_srvCol m) (ds_rr m) in
  Done (set_rr m rr, r).

(** [st, _ := m.srvCol.Get(srv)]: the zero value when there is none. *)
Definition get_or_zero (col : Column SrvState) (e : EntityID) : outcome SrvState :=
  let! r := Column__Get col e in Done (default (mkSrv false 0) r).

(** [m.srvCol.Set(srv, st)] and the event that will end the new condition. *)
Definition mark (m : DistributedSystem) (w : World) (srv : EntityID) (st : SrvState) (typ : string) (delay : float64)
  : outcome (DistributedSystem * World) :=
  let! (col, w) := set_in (ds_srvCol m) w srv st in
  let! (w, _) := push_event w (mkEvent 0 typ (fadd (Clock__Time (w_Clock w)) delay) 0 0 srv 0 None) in
  Done (set_col m col, w).

(** [if w.Clock.Time() < m.cfg.MaxTime { w.ScheduleIn(interval, typ, nil) }]. *)
Definition again (m : DistributedSystem) (w : World) (typ : string) (interval : float64) : outcome World :=
  if flt (Clock__Time (w_Clock w)) (dc_MaxTime (ds_cfg m)) then
    let! (w, _) := ScheduleIn w interval typ None in Done w
  else Done w.

(** What a request does once a server has been looked for, and what a failure does. *)
Definition accept (m : DistributedSystem) (w : World) (r : option EntityID) : outcome (DistributedSystem * World) :=
  match r with
  | Some srv =>
      let! st := get_or_zero (ds_srvCol m) srv in
      mark m w srv (mkSrv (Healthy st) (i64 (Load st + 1))) "done" (dc_ProcessingTime (ds_cfg m))
  | None => Done (set_counts m (ds_processed m) (i64 (ds_dropped m + 1)), w)
  end.

Definition crash (m : DistributedSystem) (w : World) (r : option EntityID) : outcome (DistributedSystem * World) :=
  match r with
  | Some srv =>
      let! st := get_or_zero (ds_srvCol m) srv in
      mark m w srv (mkSrv false (Load st)) "recover" (dc_RecoveryTime (ds_cfg m))
  | None => Done (m, w)
  end.

(* examples/distributed-system/dsystem.go:104-146 DistributedSystem.HandleEvent *)
Definition HandleEvent (m : DistributedSystem) (w : World) (e : Event)
  : outcome (DistributedSystem * World * option error) :=
  if decide (ev_Type e = "request"%string) then
    let! (m, r) := pick m in
    let! (m, w) := accept m w r in
    let! w := again m w "request" (dc_ArrivalInterval (ds_cfg m)) in
    Done (m, w, None)
  else if decide (ev_Type e = "done"%string) then
    let! r := Column__Get (ds_srvCol m) (ev_Source e) in
    match r with
    | Some st =>
        let! (col, w) := set_in (ds_srvCol m) w (ev_Source e) (mkSrv (Healthy st) (i64 (Load st - 1))) in
        Done (set_counts (set_col m col) (i64 (ds_processed m + 1)) (ds_dropped m), w, None)
    | None => Done (m, w, None)
    end
  else if decide (ev_Type e = "fail"%string) then
    let! (m, r) := pick m in
    let! (m, w) := crash m w r in
    let! w := again m w "fail" (dc_FailureInterval (ds_cfg m)) in
    Done (m, w, None)
  else if decide (ev_Type e = "recover"%string) then
    let! r := Column__Get (ds_srvCol m) (ev_Source e) in
    match r with
    | Some st =>
        let! (col, w) := set_in (ds_srvCol m) w (ev_Source e) (mkSrv true (Load st)) in
        Done (set_col m col, w, None)
    | None => Done (m, w, None)
    end
  else Done (m, w, None).

(* examples/distributed-system/dsystem.go:161-173 DistributedSystem.Metrics *)
Definition Metrics (m : DistributedSystem) : gmap string float64 :=
  let total := i64 (ds_processed m + ds_dropped m) in
  let availability := if 0 <? total then fdiv (f64_of_Z (ds_processed m)) (f64_of_Z total) else fone in
  list_to_map [("processed"%string, f64_of_Z (ds_processed m)); ("dropped"%string, f64_of_Z (ds_dropped m));
               ("availability"%string, availability)].

Definition dsystem_model : Model DistributedSystem :=
  mkModel DSystem__Metadata Initialize None None (Some HandleEvent) None.

Definition configured (c : Config) : DistributedSystem := mkDS (withDefaults c) 0 newColumn (mkRNG 0) 0 0 0.
End dsystem.

(** ** Round robin *)

Section routing.
Context `{R : GoRuntime}.
Implicit Types (m : DistributedSystem) (M : gmap nat (EntityID * SrvState)).

(** The server [d] places after the last one picked, counting around. *)
Definition ahead (ids : list EntityID) (rr d : Z) : option EntityID := ids !! Z.to_nat ((rr + d) mod len ids).

Definition healthy M (e : EntityID) : bool :=
  match M !! eidx e with Some (_, st) => Healthy st | None => false end.

(** [d] is the first place after [rr] with a healthy server. *)
Definition next_healthy M (ids : list EntityID) (rr d : Z) : Prop :=
  (∃ e, ahead ids rr d = Some e ∧ healthy M e = true) ∧
  ∀ d' e, 1 ≤ d' < d → ahead ids rr d' = Some e → healthy M e = false.

(** Going around the list once passes every server. *)
Lemma ahead_covers ids rr e : 0 < len ids → e ∈ ids → ∃ d, 1 ≤ d ≤ len ids ∧ ahead ids rr d = Some e.
Proof.
  intros Hl [pos Hpos]%list_elem_of_lookup. pose proof (lookup_lt_Some _ _ _ Hpos) as Hlt.
  exists ((Z.of_nat pos - rr - 1) mod len ids + 1).
  pose proof (Z.mod_pos_bound (Z.of_nat pos - rr - 1) (len ids) ltac:(lia)). split; [lia|].
  unfold ahead. rewrite Z.add_assoc, (Z.add_comm rr), <- Z.add_assoc, Zplus_mod_idemp_l.
  replace (Z.of_nat pos - rr - 1 + (rr + 1)) with (Z.of_nat pos) by lia.
  rewrite Z.mod_small by (unfold len; lia). by rewrite Nat2Z.id.
Qed.

(** And passes it only once. *)
Lemma ahead_inj ids rr d d' e :
  NoDup ids → 1 ≤ d ≤ len ids → 1 ≤ d' ≤ len ids → ahead ids rr d = Some e → ahead ids rr d' = Some e → d = d'.
Proof.
  intros Hnd Hd Hd' Ha Ha'. pose proof (NoDup_lookup _ _ _ _ Hnd Ha Ha') as E.
  apply Z2Nat.inj in E as Hm; [|apply Z.mod_pos_bound; lia..].
  assert ((d - d') mod len ids = 0) as Hz.
  { replace (d - d') with ((rr + d) - (rr + d')) by lia. by rewrite Zminus_mod, Hm, Z.sub_diag, Z.mod_0_l by lia. }
  apply Z.mod_divide in Hz as [q Hq]; [|lia].
  assert (q = 0) as ->; [|lia]. assert (- len ids < q * len ids < len ids) as Hb by lia. clear -Hb. nia.
Qed.

Lemma pick_loop_ok passes ids col M rr d0 :
  col_refines col M → 0 < len ids < 2 ^ 62 → 0 ≤ rr < len ids → 0 ≤ d0 →
  ∃ d r, pick_loop passes ids col ((rr + d0) mod len ids) = Done ((rr + d) mod len ids, r) ∧ d0 ≤ d ≤ d0 + Z.of_nat passes ∧
    (∀ d' e, d0 < d' < d → ahead ids rr d' = Some e → healthy M e = false) ∧
    match r with
    | Some id => d0 < d ∧ ahead ids rr d = Some id ∧ healthy M id = true
    | None => d = d0 + Z.of_nat passes ∧ ∀ e, d0 < d → ahead ids rr d = Some e → healthy M e = false
    end.
Proof.
  intros Hc Hl Hrr. revert d0. induction passes as [|n IH]; intros d0 Hd0; cbn [pick_loop].
  { exists d0, None. split; [done|]. split_and!; [lia|lia|lia|lia|lia]. }
  pose proof (Z.mod_pos_bound (rr + d0) (len ids) ltac:(lia)) as Hb.
  rewrite i64_id by (unfold in_i64; lia).
  assert (Z.rem ((rr + d0) mod len ids + 1) (len ids) = (rr + (d0 + 1)) mod len ids) as ->.
  { rewrite Z.rem_mod_nonneg by lia. rewrite Zplus_mod_idemp_l. f_equal. lia. }
  pose proof (Z.mod_pos_bound (rr + (d0 + 1)) (len ids) ltac:(lia)) as Hb'.
  destruct (index_in_range ids ((rr + (d0 + 1)) mod len ids)) as [id Hid]; [lia|]. rewrite Hid. cbn [obind].
  apply index_Done in Hid as [_ Hid]. rewrite (Get_refines _ _ _ Hc). cbn [obind].
  destruct (healthy M id) eqn:Hh.
  - exists (d0 + 1), (Some id). unfold healthy in Hh. destruct (M !! eidx id) as [[e0 st]|] eqn:HM; [|done]. cbn.
    rewrite Hh. split; [done|]. split_and!; try lia; [done|]. unfold healthy. by rewrite HM.
  - destruct (IH (d0 + 1) ltac:(lia)) as (d & r & He & Hd & Hno & Hr). exists d, r.
    assert (∀ e, ahead ids rr (d0 + 1) = Some e → healthy M e = false) as H1 by (unfold ahead; intros e ?; congruence).
    split.
    + rewrite <- He. unfold healthy in Hh. destruct (M !! eidx id) as [[e0 st]|]; [|done]. cbn. by rewrite Hh.
    + split; [lia|]. split.
      * intros d' e Hd' Ha. destruct (decide (d' = d0 + 1)) as [->|]; [by apply H1|]. apply (Hno d'); [lia|done].
      * destruct r; [destruct Hr as (? & ? & ?); split_and!; [lia|done|done]|]. destruct Hr as [Hdn Hn]. split; [lia|].
        intros e _ Ha. destruct (decide (d = d0 + 1)) as [->|]; [by apply H1|]. apply Hn; [lia|done].
Qed.

(** [pick] returns the first healthy server after the last one picked, going around once, and
    none exactly when no server is healthy; the cursor stays inside the list. *)
Lemma pick_next m M :
  col_refines (ds_srvCol m) M → 0 < len (col_dense (ds_srvCol m)) < 2 ^ 62 →
  0 ≤ ds_rr m < len (col_dense (ds_srvCol m)) →
  ∃ rr r, pick m = Done (set_rr m rr, r) ∧ 0 ≤ rr < len (col_dense (ds_srvCol m)) ∧
    match r with
    | Some id => ∃ d, 1 ≤ d ≤ len (col_dense (ds_srvCol m)) ∧ next_healthy M (col_dense (ds_srvCol m)) (ds_rr m) d ∧
        ahead (col_dense (ds_srvCol m)) (ds_rr m) d = Some id ∧ rr = (ds_rr m + d) mod len (col_dense (ds_srvCol m)) ∧
        healthy M id = true
    | None => ∀ e, e ∈ col_dense (ds_srvCol m) → healthy M e = false
    end.
Proof.
  intros Hc Hl Hrr. unfold pick, Column__entityIDs. set (ids := col_dense (ds_srvCol m)) in *.
  destruct (pick_loop_ok (length ids) ids (ds_srvCol m) M (ds_rr m) 0 Hc Hl Hrr ltac:(done)) as (d & r & He & Hd & Hno & Hr).
  rewrite Z.add_0_r, Z.mod_small in He by lia. rewrite He. cbn [obind]. eexists _, r. split; [done|].
  split; [apply Z.mod_pos_bound; lia|]. destruct r as [id|].
  - destruct Hr as (H0 & Ha & Hh). exists d. split; [unfold len; lia|]. split; [|done]. split; [by exists id|].
    intros d' e Hd'. apply Hno. lia.
  - destruct Hr as [Hdn Hn]. intros e Hin. destruct (ahead_covers ids (ds_rr m) e ltac:(lia) Hin) as (d' & Hd' & Ha).
    destruct (decide (d' = d)) as [->|]; [apply Hn; [lia|done]|]. apply (Hno d'); [unfold len in *; lia|done].
Qed.
End routing.

(** ** The invariant of the cluster *)

Section cluster.
Context `{R : GoRuntime}.
Implicit Types (m : DistributedSystem) (w : World) (M : gmap nat (EntityID * SrvState)) (evs : list Event).

Definition ends (typ : string) (i : nat) (e : Event) : Prop := ev_Type e = typ ∧ eidx (ev_Source e) = i.
#[global] Instance ends_dec typ i e : Decision (ends typ i e).
Proof. unfold ends. apply _. Defined.

(** How many completions are scheduled for the server at position [i]. *)
Definition completions evs (i : nat) : Z := len (filter (ends "done" i) evs).

Definition is_recover (e : Event) : Prop := ev_Type e = "recover"%string.
#[global] Instance is_recover_dec e : Decision (is_recover e).
Proof. unfold is_recover. apply _. Defined.

(** The servers whose recovery is scheduled. *)
Definition recovering evs : list nat := (λ e, eidx (ev_Source e)) <$> filter is_recover evs.

Definition down (st : SrvState) : bool := negb (Healthy st).

Record cfg_ok (c : Config) : Prop := {
  dk_servers : 0 < dc_Servers c < 2 ^ 31 - 1;
  dk_arrival : positive_duration (dc_ArrivalInterval c);
  dk_processing : positive_duration (dc_ProcessingTime c);
  dk_failure : positive_duration (dc_FailureInterval c);
  dk_recovery : positive_duration (dc_RecoveryTime c);
}.

(** After at most [k] scheduled and [j] handled events. *)
Record cluster (k j : Z) m w M evs : Prop := {
  cl_cfg : cfg_ok (ds_cfg m);
  cl_col : col_refines (ds_srvCol m) M;
  cl_size : len (col_dense (ds_srvCol m)) = dc_Servers (ds_cfg m);
  cl_rr : 0 ≤ ds_rr m < dc_Servers (ds_cfg m);
  cl_agenda : agenda k w evs;
  cl_len : len evs ≤ k;
  cl_loads i e st : M !! i = Some (e, st) → Load st = completions evs i;
  cl_known e : e ∈ evs → ev_Type e = "done"%string → is_Some (M !! eidx (ev_Source e));
  cl_down : recovering evs ≡ₚ elements (selected down M);
  cl_counts : 0 ≤ ds_processed m ≤ j ∧ 0 ≤ ds_dropped m ≤ j;
  cl_small : k < 2 ^ 62 ∧ j < 2 ^ 62;
}.

#[global] Instance completions_perm : Proper ((≡ₚ) ==> (=) ==> (=)) completions.
Proof. intros evs evs' Hp i i' <-. unfold completions, len. by rewrite Hp. Qed.

#[global] Instance recovering_perm : Proper ((≡ₚ) ==> (≡ₚ)) recovering.
Proof. intros evs evs' Hp. unfold recovering. by rewrite Hp. Qed.

Lemma completions_cons e evs i :
  completions (e :: evs) i = completions evs i + (if decide (ends "done" i e) then 1 else 0).
Proof. unfold completions. rewrite filter_cons. destruct (decide _); rewrite ?len_cons; lia. Qed.

Lemma recovering_cons e evs :
  recovering (e :: evs) = if decide (is_recover e) then eidx (ev_Source e) :: recovering evs else recovering evs.
Proof. unfold recovering. rewrite filter_cons. by destruct (decide _). Qed.

Lemma completions_le evs i : 0 ≤ completions evs i ≤ len evs.
Proof. unfold completions, len. pose proof (length_filter (ends "done" i) evs). lia. Qed.

(** Scheduling or consuming an event that is neither a completion nor a recovery. *)
Lemma cluster_other k k' j j' m w w' M ev evs evs' :
  cluster k j m w M evs → (evs' ≡ₚ ev :: evs ∨ evs ≡ₚ ev :: evs' ∨ evs' = evs) →
  ev_Type ev ≠ "done"%string → ev_Type ev ≠ "recover"%string →
  agenda k' w' evs' → len evs' ≤ k' < 2 ^ 62 → j ≤ j' < 2 ^ 62 → cluster k' j' m w' M evs'.
Proof.
  intros [Hcfg Hcol Hsize Hrr Hag Hlen Hloads Hknown Hdown Hcounts Hsmall] Hevs Hnd Hnr Hag' Hk Hj.
  assert (∀ i, ¬ ends "done" i ev) as Hne by (intros i [? _]; done).
  assert ((∀ i, completions evs' i = completions evs i) ∧ recovering evs' ≡ₚ recovering evs ∧
    ∀ e, e ∈ evs' → ev_Type e = "done"%string → e ∈ evs) as (Hc & Hr & Hk').
  { destruct Hevs as [Hp|[Hp| ->]]; [..|done].
    - split_and!.
      + intros i. by rewrite Hp, completions_cons, decide_False, Z.add_0_r.
      + by rewrite Hp, recovering_cons, decide_False.
      + intros e. rewrite Hp, elem_of_cons. by intros [->|?] Ht.
    - split_and!.
      + intros i. by rewrite Hp, completions_cons, decide_False, Z.add_0_r.
      + by rewrite Hp, recovering_cons, decide_False.
      + intros e He _. rewrite Hp. by right. }
  split; try done; try lia.
  - intros i e st Hl. rewrite Hc. by eapply Hloads.
  - intros e He Ht. by apply Hknown, Ht; apply Hk'.
  - by rewrite Hr.
Qed.

(** What [mark] does to the column and the agenda. *)
Lemma mark_ok k j m w M evs srv e0 st0 st typ delay :
  cluster k j m w M evs → M !! eidx srv = Some (e0, st0) → positive_duration delay →
  ∃ col w' ev evs', mark m w srv st typ delay = Done (set_col m col, w') ∧
    col_refines col (<[eidx srv := (e0, st)]> M) ∧ col_dense col = col_dense (ds_srvCol m) ∧
    agenda (k + 1) w' evs' ∧ evs' ≡ₚ ev :: evs ∧ ev_Type ev = typ ∧ ev_Source ev = srv.
Proof.
  intros [Hcfg Hcol Hsize Hrr Hag Hlen Hloads Hknown Hdown Hcounts [Hk Hj]] HM Hd. pose proof (dk_servers _ Hcfg).
  unfold mark, set_in.
  destruct (Set_refines (ds_srvCol m) M (w_revision w) srv st Hcol) as (col & Hset & Hcol' & _ & Hdense); [lia|].
  unfold owner in Hcol'. rewrite HM in Hset, Hcol', Hdense. rewrite app_nil_r in Hdense. rewrite Hset. cbn [obind].
  set (ev := mkEvent 0 typ _ 0 0 srv 0 None). set (w1 := touch w (w_revision w)).
  destruct (agenda_push_in k w1 evs ev delay) as (q & -> & evs' & Ha & Hp);
    [by eapply agenda_same|lia|apply Hd|done|].
  destruct (queued_fields w1 ev) as (Ht & _ & Hs). cbn [obind]. by eexists _, _, (queued w1 ev), evs'.
Qed.

Lemma again_ok k j m w M evs typ interval :
  cluster k j m w M evs → k + 1 < 2 ^ 62 → positive_duration interval →
  typ ≠ "done"%string → typ ≠ "recover"%string →
  ∃ w' evs', again m w typ interval = Done w' ∧ cluster (k + 1) j m w' M evs'.
Proof.
  intros Hcl Hk Hd Hnd Hnr. pose proof (cl_agenda _ _ _ _ _ _ Hcl) as Hag. pose proof (cl_len _ _ _ _ _ _ Hcl) as Hlen.
  pose proof (cl_small _ _ _ _ _ _ Hcl) as [_ Hj]. unfold again. set (ev := mkEvent 0 typ fzero 0 0 0 0 None).
  destruct (flt _ _).
  - unfold ScheduleIn. set (ev' := mkEvent _ _ _ _ _ _ _ _).
    destruct (agenda_push_in k w evs ev' interval Hag) as (q & -> & evs' & Ha & Hp); [lia|apply Hd|done|].
    destruct (queued_fields w ev') as (Ht & _). cbn [obind]. exists (set_Events w q), evs'. split; [done|].
    eapply (cluster_other k _ j j m w _ M (queued w ev') evs); try done; try lia; try (rewrite Ht; done).
    + by left.
    + unfold len in *. rewrite Hp. cbn. lia.
  - exists w, evs. split; [done|]. eapply (cluster_other k _ j j m w _ M ev evs); try done; try lia.
    + by right; right.
    + eapply agenda_same; [exact Hag|lia|done|done].
Qed.

Lemma get_entry col M e e0 st : col_refines col M → M !! eidx e = Some (e0, st) → get_or_zero col e = Done st.
Proof. intros Hc HM. unfold get_or_zero. by rewrite (Get_refines _ _ _ Hc), HM. Qed.

Definition picked M (r : option EntityID) : Prop :=
  match r with Some srv => ∃ e0 st, M !! eidx srv = Some (e0, st) ∧ Healthy st = true | None => True end.

Lemma pick_ok k j m w M evs :
  cluster k j m w M evs →
  ∃ rr r, pick m = Done (set_rr m rr, r) ∧ cluster k j (set_rr m rr) w M evs ∧
    picked M r.
Proof.
  intros [Hcfg Hcol Hsize Hrr Hag Hlen Hloads Hknown Hdown Hcounts Hsmall]. pose proof (dk_servers _ Hcfg).
  destruct (pick_next m M Hcol) as (rr & r & -> & Hb & Hr); [lia|lia|]. exists rr, r. split; [done|]. split.
  - split; try done. cbn. lia.
  - unfold picked. destruct r as [id|]; [|done]. destruct Hr as (d & _ & _ & _ & _ & Hh). unfold healthy in Hh.
    destruct (M !! eidx id) as [[e0 st]|]; [|done]. by exists e0, st.
Qed.

(** A request goes to the healthy server found, or is dropped. *)
Lemma accept_ok k j m w M evs r :
  cluster k j m w M evs → picked M r → k + 1 < 2 ^ 62 → j + 1 < 2 ^ 62 →
  ∃ m2 w2 M2 evs2, accept m w r = Done (m2, w2) ∧ ds_cfg m2 = ds_cfg m ∧ cluster (k + 1) (j + 1) m2 w2 M2 evs2.
Proof.
  intros Hcl Hr Hk Hj. unfold accept.
  pose proof Hcl as [Hcfg Hcol Hsize Hrr Hag Hlen Hloads Hknown Hdown [Hcp Hcd] Hsmall]. destruct r as [srv|].
  - destruct Hr as (e0 & st & HM & Hh). rewrite (get_entry _ _ _ _ _ Hcol HM). cbn [obind].
    pose proof (Hloads _ _ _ HM) as Hl. pose proof (completions_le evs (eidx srv)).
    rewrite i64_id by (unfold in_i64; lia).
    destruct (mark_ok k j m w M evs srv e0 st (mkSrv (Healthy st) (Load st + 1)) "done" (dc_ProcessingTime (ds_cfg m)) Hcl HM)
      as (col & w2 & ev' & evs2 & -> & Hcol2 & Hd2 & Hag2 & Hp2 & Ht2 & Hs2); [apply Hcfg|].
    eexists _, _, _, evs2. split; [done|]. split; [done|]. split; cbn [set_col ds_cfg ds_srvCol ds_rr ds_processed ds_dropped]; try done; try lia.
    + by rewrite Hd2.
    + unfold len in *. rewrite Hp2. cbn. lia.
    + intros i e s [[<- [= <- <-]]|[Hne Hl']]%lookup_insert_Some; rewrite Hp2, completions_cons.
      * rewrite decide_True by (split; congruence). cbn. lia.
      * rewrite decide_False, Z.add_0_r by (intros [_ ?]; congruence). by eapply Hloads.
    + intros e He Hty. rewrite Hp2 in He. apply elem_of_cons in He as [->|He].
      * rewrite Hs2, lookup_insert_eq. by eexists.
      * destruct (decide (eidx srv = eidx (ev_Source e))) as [<-|Hne]; [rewrite lookup_insert_eq; by eexists|].
        rewrite lookup_insert_ne by done. by apply Hknown.
    + rewrite (selected_same down M _ e0 _ e0 st HM) by done. rewrite Hp2, recovering_cons, decide_False; [done|].
      unfold is_recover. by rewrite Ht2.
  - rewrite i64_id by (unfold in_i64; cbn in *; lia). eexists _, w, M, evs. split; [done|]. split; [done|].
    split; cbn [set_counts ds_cfg ds_srvCol ds_rr ds_processed ds_dropped] in *; try done; try lia.
    eapply agenda_same; [exact Hag|lia|done|done].
Qed.

(** A failure hits the healthy server found, if there is one. *)
Lemma crash_ok k j m w M evs r :
  cluster k j m w M evs → picked M r → k + 1 < 2 ^ 62 → j + 1 < 2 ^ 62 →
  ∃ m2 w2 M2 evs2, crash m w r = Done (m2, w2) ∧ ds_cfg m2 = ds_cfg m ∧ cluster (k + 1) (j + 1) m2 w2 M2 evs2.
Proof.
  intros Hcl Hr Hk Hj. unfold crash.
  pose proof Hcl as [Hcfg Hcol Hsize Hrr Hag Hlen Hloads Hknown Hdown [Hcp Hcd] Hsmall]. destruct r as [srv|].
  - destruct Hr as (e0 & st & HM & Hh). rewrite (get_entry _ _ _ _ _ Hcol HM). cbn [obind].
    assert (eidx srv ∉ selected down M) as Hup.
    { rewrite elem_of_selected. intros (e & v & Hl & Hv). rewrite HM in Hl. injection Hl as <- <-. unfold down in Hv. by rewrite Hh in Hv. }
    destruct (mark_ok k j m w M evs srv e0 st (mkSrv false (Load st)) "recover" (dc_RecoveryTime (ds_cfg m)) Hcl HM)
      as (col & w2 & ev' & evs2 & -> & Hcol2 & Hd2 & Hag2 & Hp2 & Ht2 & Hs2); [apply Hcfg|].
    assert (∀ i, ¬ ends "done" i ev') as Hne by (intros i [? _]; congruence).
    eexists _, _, _, evs2. split; [done|]. split; [done|]. split; cbn [set_col ds_cfg ds_srvCol ds_rr ds_processed ds_dropped]; try done; try lia.
    + by rewrite Hd2.
    + unfold len in *. rewrite Hp2. cbn. lia.
    + intros i e s Hl. rewrite Hp2, completions_cons, decide_False, Z.add_0_r by done.
      apply lookup_insert_Some in Hl as [[<- [= <- <-]]|[_ Hl]]; [by eapply (Hloads _ e0 st)|by eapply Hloads].
    + intros e He Hty. rewrite Hp2 in He. apply elem_of_cons in He as [->|He]; [congruence|].
      destruct (decide (eidx srv = eidx (ev_Source e))) as [<-|Hn]; [rewrite lookup_insert_eq; by eexists|].
      rewrite lookup_insert_ne by done. by apply Hknown.
    + rewrite (selected_in down M _ e0 _ Hup) by done. rewrite Hp2, recovering_cons, decide_True by done. by rewrite Hs2, Hdown.
  - exists m, w, M, evs. split; [done|]. split; [done|].
    eapply (cluster_other k _ j _ m w _ M (mkEvent 0 "fail" fzero 0 0 0 0 None) evs);
      [exact Hcl|by right; right|done|done|eapply agenda_same; [exact Hag|lia|done|done]|lia|lia].
Qed.

Lemma request_ok k j m w M evs ev :
  cluster k j m w M evs → ev_Type ev = "request"%string → k + 2 < 2 ^ 62 → j + 1 < 2 ^ 62 →
  ∃ m' w' M' evs', HandleEvent m w ev = Done (m', w', None) ∧ ds_cfg m' = ds_cfg m ∧ cluster (k + 2) (j + 1) m' w' M' evs'.
Proof.
  intros Hcl Ht Hk Hj. unfold HandleEvent. rewrite Ht.
  destruct (decide ("request"%string = "request"%string)) as [_|?]; [|done].
  destruct (pick_ok _ _ _ _ _ _ Hcl) as (rr & r & -> & Hcl1 & Hr). cbn [obind].
  destruct (accept_ok _ _ _ _ _ _ r Hcl1 Hr) as (m2 & w2 & M2 & evs2 & -> & Hc2 & Hcl2); [lia|lia|].
  cbn [obind]. destruct (again_ok _ _ m2 w2 M2 evs2 "request" (dc_ArrivalInterval (ds_cfg m2)) Hcl2) as (w3 & evs3 & -> & Hcl3);
    [lia|apply Hcl2|done|done|].
  cbn [obind]. exists m2, w3, M2, evs3. split_and!; try done. by replace (k + 2) with (k + 1 + 1) by lia.
Qed.

Lemma fail_ok k j m w M evs ev :
  cluster k j m w M evs → ev_Type ev = "fail"%string → k + 2 < 2 ^ 62 → j + 1 < 2 ^ 62 →
  ∃ m' w' M' evs', HandleEvent m w ev = Done (m', w', None) ∧ ds_cfg m' = ds_cfg m ∧ cluster (k + 2) (j + 1) m' w' M' evs'.
Proof.
  intros Hcl Ht Hk Hj. unfold HandleEvent. rewrite Ht.
  destruct (decide ("fail"%string = "request"%string)) as [?|_]; [done|].
  destruct (decide ("fail"%string = "done"%string)) as [?|_]; [done|].
  destruct (decide ("fail"%string = "fail"%string)) as [_|?]; [|done].
  destruct (pick_ok _ _ _ _ _ _ Hcl) as (rr & r & -> & Hcl1 & Hr). cbn [obind].
  destruct (crash_ok _ _ _ _ _ _ r Hcl1 Hr) as (m2 & w2 & M2 & evs2 & -> & Hc2 & Hcl2); [lia|lia|].
  cbn [obind]. destruct (again_ok _ _ m2 w2 M2 evs2 "fail" (dc_FailureInterval (ds_cfg m2)) Hcl2) as (w3 & evs3 & -> & Hcl3);
    [lia|apply Hcl2|done|done|].
  cbn [obind]. exists m2, w3, M2, evs3. split_and!; try done. by replace (k + 2) with (k + 1 + 1) by lia.
Qed.

(** A completion lowers the load of its server. *)
Lemma done_ok k j m w q M ev evs :
  cluster k j m w M (ev :: evs) → agenda k (fire w q ev) evs → ev_Type ev = "done"%string → j + 1 < 2 ^ 62 →
  ∃ m' w' M', HandleEvent m (fire w q ev) ev = Done (m', w', None) ∧ ds_cfg m' = ds_cfg m ∧ cluster k (j + 1) m' w' M' evs.
Proof.
  intros [Hcfg Hcol Hsize Hrr Hag Hlen Hloads Hknown Hdown [Hcp Hcd] Hsmall] Hag' Ht Hj. unfold HandleEvent. rewrite Ht.
  destruct (decide ("done"%string = "request"%string)) as [?|_]; [done|].
  destruct (decide ("done"%string = "done"%string)) as [_|?]; [|done]. pose proof (dk_servers _ Hcfg).
  destruct (Hknown ev ltac:(by left) Ht) as [[e0 st] HM]. rewrite (Get_refines _ _ _ Hcol), HM. cbn [obind fmap option_fmap option_map snd].
  pose proof (Hloads _ _ _ HM) as Hl. rewrite completions_cons, decide_True in Hl by done.
  rewrite len_cons in Hlen. pose proof (completions_le evs (eidx (ev_Source ev))).
  rewrite !i64_id by (unfold in_i64; lia). unfold set_in.
  destruct (Set_refines (ds_srvCol m) M (w_revision (fire w q ev)) (ev_Source ev) (mkSrv (Healthy st) (Load st - 1)) Hcol)
    as (col & Hset & Hcol' & _ & Hdense); [lia|].
  unfold owner in Hcol'. rewrite HM in Hset, Hcol', Hdense. rewrite app_nil_r in Hdense. rewrite Hset. cbn [obind].
  eexists _, _, _. split; [done|]. split; [done|].
  split; cbn [set_counts set_col ds_cfg ds_srvCol ds_rr ds_processed ds_dropped]; rewrite ?Hdense; try done; try lia.
  - intros i e s [[<- [= <- <-]]|[Hne Hl']]%lookup_insert_Some; [cbn; lia|].
    rewrite (Hloads i e s Hl'), completions_cons, decide_False; [lia|]. intros [_ ?]. congruence.
  - intros e He Hty. destruct (decide (eidx (ev_Source ev) = eidx (ev_Source e))) as [<-|Hn]; [rewrite lookup_insert_eq; by eexists|].
    rewrite lookup_insert_ne by done. apply Hknown; [by right|done].
  - rewrite (selected_same down M _ e0 _ e0 st HM) by done. rewrite recovering_cons, decide_False in Hdown; [done|].
    unfold is_recover. by rewrite Ht.
Qed.

(** A recovery brings its server back. *)
Lemma recover_ok k j m w q M ev evs :
  cluster k j m w M (ev :: evs) → agenda k (fire w q ev) evs → ev_Type ev = "recover"%string → j + 1 < 2 ^ 62 →
  ∃ m' w' M', HandleEvent m (fire w q ev) ev = Done (m', w', None) ∧ ds_cfg m' = ds_cfg m ∧ cluster k (j + 1) m' w' M' evs.
Proof.
  intros [Hcfg Hcol Hsize Hrr Hag Hlen Hloads Hknown Hdown Hcounts Hsmall] Hag' Ht Hj. unfold HandleEvent. rewrite Ht.
  destruct (decide ("recover"%string = "request"%string)) as [?|_]; [done|].
  destruct (decide ("recover"%string = "done"%string)) as [?|_]; [done|].
  destruct (decide ("recover"%string = "fail"%string)) as [?|_]; [done|].
  destruct (decide ("recover"%string = "recover"%string)) as [_|?]; [|done]. pose proof (dk_servers _ Hcfg).
  rewrite recovering_cons, decide_True in Hdown by done.
  assert (eidx (ev_Source ev) ∈ selected down M) as Hin by (apply elem_of_elements; rewrite <- Hdown; by left).
  pose proof Hin as (e0 & st & HM & Hst)%elem_of_selected.
  rewrite (Get_refines _ _ _ Hcol), HM. cbn [obind fmap option_fmap option_map snd]. unfold set_in.
  destruct (Set_refines (ds_srvCol m) M (w_revision (fire w q ev)) (ev_Source ev) (mkSrv true (Load st)) Hcol)
    as (col & Hset & Hcol' & _ & Hdense); [lia|].
  unfold owner in Hcol'. rewrite HM in Hset, Hcol', Hdense. rewrite app_nil_r in Hdense. rewrite Hset. cbn [obind].
  assert (∀ i, completions evs i = completions (ev :: evs) i) as Hc.
  { intros i. rewrite completions_cons, decide_False, Z.add_0_r; [done|]. intros [? _]. congruence. }
  eexists _, _, _. split; [done|]. split; [done|].
  split; cbn [set_col ds_cfg ds_srvCol ds_rr ds_processed ds_dropped]; rewrite ?Hdense; try done; try lia.
  - rewrite len_cons in Hlen. lia.
  - intros i e s [[<- [= <- <-]]|[Hne Hl']]%lookup_insert_Some; rewrite Hc; [by eapply (Hloads _ e0 st)|by eapply Hloads].
  - intros e He Hty. destruct (decide (eidx (ev_Source ev) = eidx (ev_Source e))) as [<-|Hn]; [rewrite lookup_insert_eq; by eexists|].
    rewrite lookup_insert_ne by done. apply Hknown; [by right|done].
  - rewrite (selected_out down M _ e0 (mkSrv true (Load st)) Hin) in Hdown by done. by apply Permutation_cons_inv in Hdown.
Qed.
End cluster.

(** ** Whole runs *)

Section runs.
Context `{R : GoRuntime}.
Implicit Types (m : DistributedSystem) (w : World) (c : Config).

(** Any numbers but NaN, which JSON cannot express, for the times. *)
Record scenario_ok c : Prop := {
  sc_servers : dc_Servers c < 2 ^ 31 - 1;
  sc_arrival : proper (dc_ArrivalInterval c);
  sc_processing : proper (dc_ProcessingTime c);
  sc_failure : proper (dc_FailureInterval c);
  sc_recovery : proper (dc_RecoveryTime c);
}.

Lemma default_positive x d : proper x → 0 < d → positive_duration (if fle x fzero then f64_of_Z d else x).
Proof. intros Hx Hd. destruct (fle x fzero) eqn:E; [by apply f64_of_Z_positive|by apply proper_positive]. Qed.

Lemma dsystem_withDefaults_ok c : scenario_ok c → cfg_ok (withDefaults c).
Proof.
  intros [Hn Ha Hp Hf Hr]. split; [cbn; destruct (Z.leb_spec (dc_Servers c) 0); lia|by apply default_positive..].
Qed.

(** The invariant after [j] steps. *)
Definition up_and_running c (j : Z) m w : Prop :=
  ds_cfg m = withDefaults c ∧ ∃ M evs, cluster (2 + 2 * j) j m w M evs.

Lemma dsystem_HandleEvent_ok k j m w q M ev evs :
  cluster k j m w M (ev :: evs) → agenda k (fire w q ev) evs → k + 2 < 2 ^ 62 → j + 1 < 2 ^ 62 →
  ∃ m' w' M' evs', HandleEvent m (fire w q ev) ev = Done (m', w', None) ∧ ds_cfg m' = ds_cfg m ∧
    cluster (k + 2) (j + 1) m' w' M' evs'.
Proof.
  intros Hcl Hag Hk Hj. pose proof (cl_len _ _ _ _ _ _ Hcl) as Hlen. rewrite len_cons in Hlen.
  assert (∀ m' w' M', cluster k (j + 1) m' w' M' evs → cluster (k + 2) (j + 1) m' w' M' evs) as Hmono.
  { intros m' w' M' Hcl'. eapply (cluster_other k _ (j + 1) _ m' w' _ M' (mkEvent 0 "" fzero 0 0 0 0 None) evs);
      [exact Hcl'|by right; right|done|done| |lia|lia].
    eapply agenda_same; [apply Hcl'|lia|done|done]. }
  destruct (decide (ev_Type ev = "done"%string)) as [Hd|Hnd].
  { destruct (done_ok k j m w q M ev evs Hcl Hag Hd Hj) as (m' & w' & M' & He & Hc & Hcl').
    exists m', w', M', evs. split_and!; [done|done|by apply Hmono]. }
  destruct (decide (ev_Type ev = "recover"%string)) as [Hr|Hnr].
  { destruct (recover_ok k j m w q M ev evs Hcl Hag Hr Hj) as (m' & w' & M' & He & Hc & Hcl').
    exists m', w', M', evs. split_and!; [done|done|by apply Hmono]. }
  assert (cluster k j m (fire w q ev) M evs) as Hcl'.
  { eapply (cluster_other k _ j _ m w _ M ev (ev :: evs)); [exact Hcl|by right; left|done|done|exact Hag|lia|lia]. }
  destruct (decide (ev_Type ev = "request"%string)) as [Hq|Hnq]; [by eapply request_ok|].
  destruct (decide (ev_Type ev = "fail"%string)) as [Hf|Hnf]; [by eapply fail_ok|].
  exists m, (fire w q ev), M, evs. split_and!; [|done|].
  - unfold HandleEvent. by repeat (rewrite decide_False by done).
  - apply Hmono. eapply (cluster_other k _ j _ m _ _ M ev evs); [exact Hcl'|by right; right|done|done|exact Hag|lia|lia].
Qed.

Lemma dsystem_event_step_ok c j m w :
  0 ≤ j < 2 ^ 60 → up_and_running c j m w →
  ∃ m' w' more, eventExecutor__step HandleEvent m w = Done (m', w', more, None) ∧
    if more : bool then up_and_running c (j + 1) m' w' else up_and_running c j m' w' ∧ Drained w'.
Proof.
  intros Hj (Hcfg & M & evs & Hs).
  pose proof (agenda_step HandleEvent _ m w evs (cl_agenda _ _ _ _ _ _ Hs)) as Hstep. destruct evs as [|ev evs].
  - destruct Hstep as (w' & -> & Ha & q & ->). exists m, (set_Events w q), false. split; [done|]. split.
    + split; [done|]. exists M, []. by destruct Hs.
    + by apply agenda_heap, Permutation_nil_l in Ha.
  - destruct Hstep as (q & Ha & ->).
    destruct (dsystem_HandleEvent_ok _ _ m w q M ev evs Hs Ha) as (m' & w' & M' & evs' & -> & Hc & Hs'); [lia|lia|].
    cbn [obind]. exists m', w', true. split; [done|]. split; [congruence|]. exists M', evs'.
    by replace (2 + 2 * (j + 1)) with (2 + 2 * j + 2) by lia.
Qed.

Lemma dsystem_Initialize_ok c id seed meta :
  scenario_ok c →
  ∃ m w, Initialize (configured c) (set_Meta (NewWorld id seed) meta 0) = Done (m, w, None) ∧ up_and_running c 0 m w.
Proof.
  intros Hc. pose proof (dsystem_withDefaults_ok c Hc) as Hok. pose proof (dk_servers _ Hok) as Hpos.
  unfold Initialize. cbn [configured ds_cfg ds_rr ds_processed ds_dropped].
  destruct (Z.eqb_spec (dc_Servers (withDefaults c)) 0); [lia|].
  destruct (ComponentStore__Register _ _) as [cs srvID]. set (w0 := set_Components _ cs _).
  destruct (spawn_ok (λ st, st = mkSrv true 0) (λ r, Done (mkSrv true 0, r)) (Z.to_nat (dc_Servers (withDefaults c))) 0
    newColumn ∅ w0 (RandomStreams__StreamU64 (w_Random w0) 1))
    as (col & em & rev & rng & M & ids & -> & Hroom & Hd & Hids & Hcol & Hhome & Hcd & _ & HM).
  { intros r. by exists (mkSrv true 0), r. }
  { apply New_room. } { done. } { lia. } { apply newColumn_refines. } { by intros i e v ?%lookup_empty_Some. } { done. }
  assert (∀ i e st, M !! i = Some (e, st) → st = mkSrv true 0) as Hfresh.
  { intros i e st Hl. by destruct (HM i e st Hl) as [?|[_ ?]]. }
  cbn [obind]. unfold ScheduleNow. set (w1 := set_Entities w0 em rev). set (ev1 := mkEvent _ _ _ _ _ _ _ _).
  destruct (agenda_push 0 w1 [] ev1) as (q & -> & evs1 & Ha1 & Hevs1); [by apply agenda_new|lia|done|done|].
  destruct (queued_fields w1 ev1) as (Hty1 & _). cbn [obind]. unfold ScheduleIn. set (w2 := set_Events w1 q). set (ev2 := mkEvent _ _ _ _ _ _ _ _).
  destruct (agenda_push_in _ w2 evs1 ev2 (dc_FailureInterval (withDefaults c)) Ha1) as (q' & -> & evs & Ha & Hevs);
    [lia|apply Hok|done|].
  destruct (queued_fields w2 ev2) as (Hty2 & _). cbn [obind]. eexists _, _. split; [done|]. split; [done|].
  rewrite Hevs1 in Hevs.
  assert (selected down M = ∅) as Hdn.
  { apply set_eq. intros i. rewrite elem_of_selected. split; [|by intros ?%elem_of_empty].
    intros (e & st & Hl & Hst). by rewrite (Hfresh i e st Hl) in Hst. }
  assert (∀ i e, e ∈ evs → ¬ ends "done" i e ∧ ¬ is_recover e) as Hno.
  { intros i e. rewrite Hevs, !elem_of_cons, elem_of_nil. unfold ends, is_recover.
    intros [->|[->|[]]]; rewrite ?Hty1, ?Hty2; by split; [intros [? _]|]. }
  exists M, evs. split; cbn [ds_cfg ds_srvCol ds_rr ds_processed ds_dropped]; rewrite ?Hdn; try done; try lia.
  - rewrite Hcd. cbn [newColumn col_dense app]. unfold len. rewrite Hids. lia.
  - unfold len. rewrite Hevs. done.
  - intros i e st Hl. rewrite (Hfresh i e st Hl), Hevs, !completions_cons, !decide_False; [done|..];
      (apply Hno; rewrite Hevs); [by left|by right; left].
  - intros e He Ht. destruct (Hno (eidx (ev_Source e)) e He) as [Hne _]. by destruct Hne.
  - unfold recovering. rewrite Hevs, !filter_cons_False; [done|..]; (apply (Hno 0%nat); rewrite Hevs); [by right; left|by left].
Qed.

(** A server of the model with its identifier. *)
Definition has_server m (e : EntityID) (st : SrvState) : Prop :=
  ∃ pos, col_dense (ds_srvCol m) !! pos = Some e ∧ col_data (ds_srvCol m) !! pos = Some st.

Lemma cluster_accounts k j m w M evs :
  cluster k j m w M evs →
  (∀ e st, has_server m e st →
     Load st = len (filter (ends "done" (eidx e)) (q_h (w_Events w))) ∧
     (Healthy st = false ↔ ∃ ev, ev ∈ q_h (w_Events w) ∧ ends "recover" (eidx e) ev)) ∧
  NoDup (recovering (q_h (w_Events w))).
Proof.
  intros [Hcfg Hcol Hsize Hrr Hag Hlen Hloads Hknown Hdown Hcounts Hsmall]. pose proof (agenda_heap _ _ _ Hag) as Hp. split.
  - intros e st (pos & He & Hst). assert (M !! eidx e = Some (e, st)) as HM by (apply (cref_map _ _ Hcol); eauto). split.
    + rewrite (Hloads _ _ _ HM). unfold completions, len. by rewrite Hp.
    + assert (Healthy st = false ↔ eidx e ∈ selected down M) as ->.
      { rewrite elem_of_selected. unfold down. split.
        - intros Hh. exists e, st. by rewrite Hh.
        - intros (e' & st' & Hl & Hd). rewrite HM in Hl. injection Hl as <- <-. by apply negb_true_iff. }
      rewrite <- elem_of_elements, <- Hdown. unfold recovering. rewrite list_elem_of_fmap.
      setoid_rewrite list_elem_of_filter. setoid_rewrite Hp.
      split; [intros (ev & E & Hr & Hin)|intros (ev & Hin & Hr & E)]; exists ev; by rewrite ?E.
  - rewrite <- Hp, Hdown. apply NoDup_elements.
Qed.

(** C20: the distributed system accounts for its load and its failures: for every scenario, creating
    the simulation and running it for any number of events completes without an error or a panic;
    the load of every server is the number of its requests whose completion is pending, it is down
    exactly while its one recovery is pending, and when no event is left every server is healthy
    and idle. *)
Theorem dsystem_accounts {U : Unwinding DistributedSystem} GOMAXPROCS (cfg : Runtime.Config) c n :
  cfg_Mode cfg = ModeEvent → scenario_ok c → 0 ≤ n < 2 ^ 60 →
  ∃ sim s, Runtime.New GOMAXPROCS cfg dsystem_model (configured c) = Done (Ok sim) ∧
    RunN (S (Z.to_nat n)) sim n = Some (Done (s, None)) ∧ sim_state s = StateCompleted ∧
    let m := sim_m s in let w := sim_world s in
    (∀ e st, has_server m e st →
       Load st = len (filter (ends "done" (eidx e)) (q_h (w_Events w))) ∧
       (Healthy st = false ↔ ∃ ev, ev ∈ q_h (w_Events w) ∧ ends "recover" (eidx e) ev)) ∧
    NoDup (recovering (q_h (w_Events w))) ∧
    (sim_steps s = n ∨ ∀ e st, has_server m e st → st = mkSrv true 0).
Proof.
  intros Hmode Hc Hn. unfold Runtime.New, newExecutor. rewrite Hmode. cbn [Z.eqb ModeTick ModeEvent obind].
  destruct (dsystem_Initialize_ok c (cfg_ID cfg) (cfg_Seed cfg)
    (mkMeta (cfg_ID cfg) "distributed-system" "1.0.0" (cfg_Seed cfg) ModeEvent)) as (m0 & w0 & Hi & H0); [done|].
  cbn in Hi |- *. rewrite Hi. cbn [obind]. eexists. set (sim := mkSim _ _ _ _ _ _ _ _ _).
  destruct (RunN_invariant (eventExecutor HandleEvent) (up_and_running c) Drained sim n) as (s & Hrun & Hst & HI & Hsteps & Hor).
  { done. } { done. } { lia. } { done. }
  { intros j m w Hj HI. destruct (dsystem_event_step_ok c j m w) as (m' & w' & more & Hstep & HI'); [lia|done|].
    exists m', w', more. split; [|done]. cbn. by rewrite Hstep. }
  exists s. split; [done|]. split; [exact Hrun|]. split; [done|]. destruct HI as (_ & M & evs & Hcl).
  destruct (cluster_accounts _ _ _ _ _ _ Hcl) as [Hall Hnd]. split_and!; try done.
  destruct Hor as [?|Hd]; [by left|right]. unfold Drained in Hd. rewrite Hd in Hall.
  intros e [h l] Hs. destruct (Hall e _ Hs) as [Hl Hh]. cbn in Hl, Hh. f_equal; [|done].
  destruct h; [done|]. destruct (proj1 Hh eq_refl) as (ev & Hin & _). by apply elem_of_nil in Hin.
Qed.
End runs.

Definition small : Config := mkConfig 2 fone (f64_of_Z 3) (f64_of_Z 2) fone (f64_of_Z 20).
Definition event_config : Runtime.Config := Runtime.mkConfig "d" 7 ModeEvent 0 fzero 0.

Lemma dsystem_accounts_witness :
  ∃ sim s, Runtime.New (R := Toy.runtime) 1 event_config dsystem_model (configured small) = Done (Ok sim) ∧
    RunN (S (Z.to_nat 9)) sim 9 = Some (Done (s, None)) ∧ NoDup (recovering (q_h (w_Events (sim_world s)))).
Proof.
  destruct (dsystem_accounts (R := Toy.runtime) 1 event_config small 9) as (sim & s & Hn & Hr & _ & _ & Hd & _);
    [reflexivity|split; [reflexivity|split; reflexivity..]|lia|].
  exists sim, s. split; [exact Hn|]. split; [exact Hr|exact Hd].
Defined.

(** ** Fair routing *)

Section fairness.
Context `{R : GoRuntime}.
Implicit Types (m : DistributedSystem) (M : gmap nat (EntityID * SrvState)).

(** Requests routed one after the other, while no server fails or recovers. *)
Fixpoint picks (n : nat) m : outcome (DistributedSystem * list EntityID) :=
  match n with
  | O => Done (m, [])
  | S n =>
      let! (m, r) := pick m in
      match r with
      | None => Done (m, [])
      | Some id => let! (m, ids) := picks n m in Done (m, id :: ids)
      end
  end.

(** The first element that passes a test, in a filtered interval. *)
Lemma filter_seqZ_cons (P : Z → Prop) `{!∀ z, Decision (P z)} n a d l :
  filter P (seqZ a (Z.of_nat n)) = d :: l →
  P d ∧ a ≤ d < a + Z.of_nat n ∧ (∀ x, a ≤ x < d → ¬ P x) ∧ l = filter P (seqZ (d + 1) (a + Z.of_nat n - d - 1)).
Proof.
  revert a. induction n as [|n IH]; intros a Hf; [done|].
  replace (Z.of_nat (S n)) with (Z.succ (Z.of_nat n)) in * by lia. rewrite seqZ_cons in Hf by lia.
  rewrite Z.pred_succ in Hf. rewrite filter_cons in Hf. destruct (decide (P a)) as [Ha|Hna].
  - injection Hf as <- <-. split_and!; [done|lia|lia|lia|]. do 2 f_equal; lia.
  - destruct (IH (Z.succ a) Hf) as (Hd & Hr & Hno & ->). split_and!; [done|lia|lia| |].
    + intros x Hx. destruct (decide (x = a)) as [->|]; [done|]. apply Hno. lia.
    + do 2 f_equal; lia.
Qed.

Lemma picks_ok m M l D :
  col_refines (ds_srvCol m) M → let ids := col_dense (ds_srvCol m) in
  let P d := is_Some (e ← ahead ids (ds_rr m) d; if healthy M e then Some e else None) in
  0 < len ids < 2 ^ 62 → 0 ≤ ds_rr m < len ids → 0 ≤ D ≤ len ids →
  l = filter P (seqZ (D + 1) (len ids - D)) →
  ∃ m' xs, picks (length l) (set_rr m ((ds_rr m + D) mod len ids)) = Done (m', xs) ∧
    Forall2 (λ d e, ahead ids (ds_rr m) d = Some e) l xs.
Proof.
  intros Hc ids P Hl Hrr. revert D. induction l as [|d l IH]; intros D HD Hf; cbn [length picks].
  { eexists _, []. by split. }
  replace (len ids - D) with (Z.of_nat (Z.to_nat (len ids - D))) in Hf by lia. symmetry in Hf.
  apply filter_seqZ_cons in Hf as (Hd & Hr & Hno & Hrest).
  unfold pick at 1, Column__entityIDs. cbn [set_rr ds_srvCol ds_rr]. fold ids.
  destruct (pick_loop_ok (length ids) ids (ds_srvCol m) M (ds_rr m) D Hc Hl Hrr ltac:(lia)) as (d2 & r & -> & Hd2 & Hno2 & Hr2).
  assert (∃ e, ahead ids (ds_rr m) d = Some e ∧ healthy M e = true) as (e & Ha & Hh).
  { destruct Hd as [x Hx]. apply bind_Some in Hx as (e & Ha & Hx). exists e. split; [done|]. by destruct (healthy M e). }
  assert (d = d2 ∧ r = Some e) as [-> ->].
  { destruct r as [id|].
    - destruct Hr2 as (H1 & Ha2 & Hh2). assert (d = d2) as <-; [|split; [done|congruence]].
      destruct (Z.lt_trichotomy d d2) as [Hlt|[?|Hgt]]; [|done|].
      + rewrite (Hno2 d e) in Hh by (done || lia). done.
      + destruct (Hno d2 ltac:(lia)). exists id. by rewrite Ha2; cbn; rewrite Hh2.
    - destruct Hr2 as [-> Hn]. destruct (decide (d = D + Z.of_nat (length ids))) as [->|Hne].
      + rewrite (Hn e) in Hh by (done || (unfold len in *; lia)). done.
      + rewrite (Hno2 d e) in Hh by (done || (unfold len in *; lia)). done. }
  cbn [obind]. destruct (IH d2) as (m' & xs & Hp & Hxs); [lia|rewrite Hrest; do 2 f_equal; lia|].
  change (set_rr (set_rr m _) _) with (set_rr m ((ds_rr m + d2) mod len ids)). rewrite Hp. cbn [obind].
  exists m', (e :: xs). split; [done|]. by constructor.
Qed.

Lemma picks_healthy m M :
  col_refines (ds_srvCol m) M → 0 < len (col_dense (ds_srvCol m)) < 2 ^ 62 →
  0 ≤ ds_rr m < len (col_dense (ds_srvCol m)) →
  let up := filter (λ e, healthy M e = true) (col_dense (ds_srvCol m)) in
  ∃ m' xs, picks (length up) m = Done (m', xs) ∧ xs ≡ₚ up.
Proof.
  intros Hc Hl Hrr up. pose proof (ss_NoDup _ _ _ (cinv_ss _ (cref_inv _ _ Hc))) as Hnd%NoDup_fmap_1.
  set (ids := col_dense (ds_srvCol m)) in *.
  set (P := λ d, is_Some (e ← ahead ids (ds_rr m) d; if healthy M e then Some e else None)).
  set (l := filter P (seqZ (0 + 1) (len ids - 0))).
  destruct (picks_ok m M l 0 Hc Hl Hrr ltac:(fold ids; lia) eq_refl) as (m' & xs & Hp & Hxs). fold ids in Hp, Hxs.
  rewrite Z.add_0_r, Z.mod_small in Hp by lia. change (set_rr m (ds_rr m)) with (mkDS (ds_cfg m) (ds_srvID m) (ds_srvCol m) (ds_rng m) (ds_rr m) (ds_processed m) (ds_dropped m)) in Hp.
  assert (∀ d, d ∈ l ↔ 1 ≤ d ≤ len ids ∧ ∃ e, ahead ids (ds_rr m) d = Some e ∧ healthy M e = true) as Hin.
  { intros d. unfold l. rewrite list_elem_of_filter, elem_of_seqZ. unfold P. split.
    - intros [[x Hx] Hd]. split; [lia|]. apply bind_Some in Hx as (e & Ha & Hx). exists e. split; [done|]. by destruct (healthy M e).
    - intros [Hd (e & Ha & Hh)]. split; [|lia]. exists e. by rewrite Ha; cbn; rewrite Hh. }
  assert (xs ≡ₚ up) as Hperm.
  { apply NoDup_Permutation; [|by apply NoDup_filter|].
    - apply NoDup_alt. intros i j e Hi Hj. destruct (Forall2_lookup_r _ _ _ _ _ Hxs Hi) as (d & Hdi & Ha).
      destruct (Forall2_lookup_r _ _ _ _ _ Hxs Hj) as (d' & Hdj & Ha').
      assert (d = d') as <-.
      { eapply (ahead_inj ids); [done|apply Hin, list_elem_of_lookup_2 with i; done|apply Hin, list_elem_of_lookup_2 with j; done|done|done]. }
      eapply NoDup_lookup; [|exact Hdi|exact Hdj]. apply NoDup_filter, NoDup_seqZ.
    - intros e. unfold up. rewrite list_elem_of_filter. split.
      + intros [i Hi]%list_elem_of_lookup. destruct (Forall2_lookup_r _ _ _ _ _ Hxs Hi) as (d & Hdi & Ha).
        apply list_elem_of_lookup_2, Hin in Hdi as [_ (e' & Ha' & Hh)]. rewrite Ha in Ha'. injection Ha' as <-.
        split; [done|]. by eapply list_elem_of_lookup_2.
      + intros [Hh He]. destruct (ahead_covers ids (ds_rr m) e ltac:(lia) He) as (d & Hd & Ha).
        assert (d ∈ l) as [i Hi]%list_elem_of_lookup by (apply Hin; eauto).
        destruct (Forall2_lookup_l _ _ _ _ _ Hxs Hi) as (e' & He' & Ha'). rewrite Ha in Ha'. injection Ha' as <-.
        by eapply list_elem_of_lookup_2. }
  exists m', xs. split; [|done]. rewrite <- Hperm, <- (Forall2_length _ _ _ Hxs), <- Hp. by destruct m.
Qed.
(** The health a server has in the column. *)
Definition is_up m (e : EntityID) : bool :=
  match Column__Get (ds_srvCol m) e with Done (Some st) => Healthy st | _ => false end.

(** Routing is fair: while no server fails or recovers, as many consecutive picks as there are
    healthy servers return every healthy server exactly once, wherever the cursor stands. *)
Theorem pick_fair m :
  col_inv (ds_srvCol m) → 0 < len (col_dense (ds_srvCol m)) < 2 ^ 62 →
  0 ≤ ds_rr m < len (col_dense (ds_srvCol m)) →
  let up := filter (λ e, is_up m e = true) (col_dense (ds_srvCol m)) in
  ∃ m' xs, picks (length up) m = Done (m', xs) ∧ xs ≡ₚ up.
Proof.
  intros Hc Hl Hrr up. destruct (col_represents _ Hc) as [M HM].
  assert (up = filter (λ e, healthy M e = true) (col_dense (ds_srvCol m))) as ->.
  { apply filter_ext_in. intros e _. unfold is_up, healthy. rewrite (Get_refines _ _ _ HM). by destruct (M !! eidx e) as [[]|]. }
  by apply picks_healthy.
Qed.
End fairness.

(** Three servers, the second one down. *)
Definition trio : DistributedSystem :=
  mkDS small 0 (mkCol (mkSlice [1; 2; 3; 0] 3) [1; 4294967297; 8589934593] [mkSrv true 0; mkSrv false 0; mkSrv true 2])
    (mkRNG 0) 1 0 0.

Lemma trio_inv : col_inv (ds_srvCol trio).
Proof.
  pose proof (col_run_refines [CSet 1 (mkSrv true 0); CSet 4294967297 (mkSrv false 0); CSet 8589934593 (mkSrv true 2)]
    newColumn ∅ 0 newColumn_refines) as H.
  cbn [map_run map_exec] in H. destruct H as (c & rev & Hc & Href); [vm_compute; reflexivity|].
  vm_compute in Hc. injection Hc as <- _. apply Href.
Qed.

Lemma pick_fair_witness : ∃ m' xs, picks 2 trio = Done (m', xs) ∧ xs ≡ₚ [1; 8589934593].
Proof.
  apply (pick_fair trio); [apply trio_inv|vm_compute; split; reflexivity|vm_compute; split; [discriminate|reflexivity]].
Defined.
