(* ===== verification/Logistics.v ===== *)
(** * The logistics model: [examples/logistics/logistics.go]

    Every tick assigns waiting orders to free vehicles and delivers one unit of each assigned
    order.  The three typed columns are fields of the model.  [deliver] ranges over a Go map, whose
    iteration order the language leaves open: it is an argument, which may differ at every tick. *)

From S2P Require Import Prelude Float64 FloatRound Rng SparseSet Entity GoValues Interning Component Tags Heap Events World.
From S2P Require Import Snapshot Scheduler Runtime Population ModelRuns.
Local Open Scope Z_scope.

(* examples/logistics/logistics.go:14-15 Inventory *)
Record Inventory := mkInventory { Units : Z }.

(* examples/logistics/logistics.go:17-18 Capacity *)
Record Capacity := mkCapacity { Max : Z; Load : Z }.

(* examples/logistics/logistics.go:20-21 Order *)
Record Order := mkOrder { Remaining : Z }.

(* examples/logistics/logistics.go:23-28 Config *)
Record Config := mkConfig { lc_Warehouses : Z; lc_Vehicles : Z; lc_Orders : Z }.

(* examples/logistics/logistics.go:30-41 Config.withDefaults *)
Definition withDefaults (c : Config) : Config :=
  mkConfig (if lc_Warehouses c <=? 0 then 2 else lc_Warehouses c)
    (if lc_Vehicles c <=? 0 then 5 else lc_Vehicles c)
    (if lc_Orders c <=? 0 then 20 else lc_Orders c).

Abbreviation plan := (gmap EntityID EntityID).

Section logistics.
Context `{R : GoRuntime}.

(* examples/logistics/logistics.go:43-57 Logistics *)
Record Logistics := mkLogistics {
  lg_cfg : Config;
  lg_invID : Z;
  lg_invCol : Column Inventory;
  lg_capID : Z;
  lg_capCol : Column Capacity;
  lg_ordID : Z;
  lg_ordCol : Column Order;
  lg_rng : RNG;
  lg_assignments : plan;
  lg_delivered : Z;
}.

Definition set_work (m : Logistics) capCol ordCol assignments delivered : Logistics :=
  mkLogistics (lg_cfg m) (lg_invID m) (lg_invCol m) (lg_capID m) capCol (lg_ordID m) ordCol (lg_rng m)
    assignments delivered.

(* examples/logistics/logistics.go:59-68 Logistics.Metadata *)
Definition Logistics__Metadata : ModelMetadata :=
  mkModelMeta "logistics" "Logistics" "1.0.0" "Orders are dispatched and delivered by vehicles." ModeTick.

(** The JSON decoding of the configuration is an argument. *)
(* examples/logistics/logistics.go:70-80 Logistics.Configure *)
Definition Configure (parse : string → result Config) (m : Logistics) (raw : string) : Logistics * option error :=
  let c := if decide (raw = ""%string) then Ok (mkConfig 0 0 0) else parse raw in
  match c with
  | Err e => (m, Some e)
  | Ok c => (mkLogistics (withDefaults c) (lg_invID m) (lg_invCol m) (lg_capID m) (lg_capCol m) (lg_ordID m)
               (lg_ordCol m) (lg_rng m) (lg_assignments m) (lg_delivered m), None)
  end.

(** [Order{Remaining: 1 + int(m.rng.Uint64n(5))}]. *)
Definition draw_order (r : RNG) : outcome (Order * RNG) :=
  let! (u, r) := Uint64n r 5 in Done (mkOrder (1 + i64 u), r).

(* examples/logistics/logistics.go:82-103 Logistics.Initialize *)
Definition Initialize (m : Logistics) (w : World) : outcome (Logistics * World * option error) :=
  let cfg := if lc_Vehicles (lg_cfg m) =? 0 then withDefaults (lg_cfg m) else lg_cfg m in
  let '(cs, invID) := ComponentStore__Register (w_Components w) "log.inventory" in
  let '(cs, capID) := ComponentStore__Register cs "log.capacity" in
  let '(cs, ordID) := ComponentStore__Register cs "log.order" in
  let w := set_Components w cs (w_revision w) in
  let rng := RandomStreams__StreamU64 (w_Random w) 1 in
  let! (invCol, w, rng) :=
    spawn (λ r, Done (mkInventory 1000, r)) (Z.to_nat (lc_Warehouses cfg)) (newColumn, w, rng) in
  let! (capCol, w, rng) :=
    spawn (λ r, Done (mkCapacity 3 0, r)) (Z.to_nat (lc_Vehicles cfg)) (newColumn, w, rng) in
  let! (ordCol, w, rng) := spawn draw_order (Z.to_nat (lc_Orders cfg)) (newColumn, w, rng) in
  Done (mkLogistics cfg invID invCol capID capCol ordID ordCol rng ∅ (lg_delivered m), w, None).

(** Whether an order is assigned; the vehicle that is found is not used. *)
(* examples/logistics/logistics.go:162-169 Logistics.assignmentsReverse *)
Definition assignmentsReverse (m : Logistics) (o : EntityID) : bool :=
  bool_decide (map_Exists (λ _ oo, oo = o) (lg_assignments m)).

Fixpoint free_loop (m : Logistics) (vs : list EntityID) : outcome (option EntityID) :=
  match vs with
  | [] => Done None
  | v :: vs =>
      match lg_assignments m !! v with
      | Some _ => free_loop m vs
      | None =>
          let! r := Column__Get (lg_capCol m) v in
          match r with
          | Some c => if Load c <? Max c then Done (Some v) else free_loop m vs
          | None => free_loop m vs
          end
      end
  end.

(* examples/logistics/logistics.go:150-160 Logistics.freeVehicle *)
Definition freeVehicle (m : Logistics) : outcome (option EntityID) := free_loop m (Column__entityIDs (lg_capCol m)).

(** [c, _ := m.capCol.Get(v)], the load changed by [d], and [m.capCol.Set(v, c)]. *)
Definition change_load (m : Logistics) (w : World) (v : EntityID) (d : Z) : outcome (Column Capacity * World) :=
  let! r := Column__Get (lg_capCol m) v in
  let c := default (mkCapacity 0 0) r in
  set_in (lg_capCol m) w v (mkCapacity (Max c) (i64 (Load c + d))).

(** The body of [assign] for one order. *)
Definition assign_one (s : Logistics * World) (o : EntityID) : outcome (Logistics * World) :=
  let '(m, w) := s in
  if assignmentsReverse m o then Done (m, w)
  else
    let! r := freeVehicle m in
    match r with
    | None => Done (m, w)
    | Some v =>
        let! (capCol, w) := change_load m w v 1 in
        Done (set_work m capCol (lg_ordCol m) (<[v := o]> (lg_assignments m)) (lg_delivered m), w)
    end.

(* examples/logistics/logistics.go:112-125 Logistics.assign *)
Definition Logistics__assign (m : Logistics) (w : World) : outcome (Logistics * World) :=
  ofold assign_one (m, w) (Column__entityIDs (lg_ordCol m)).

(** The body of [deliver] for one assignment. *)
Definition deliver_one (s : Logistics * World) (vo : EntityID * EntityID) : outcome (Logistics * World) :=
  let '(m, w) := s in
  let '(v, o) := vo in
  let! r := Column__Get (lg_ordCol m) o in
  match r with
  | None => Done (set_work m (lg_capCol m) (lg_ordCol m) (delete v (lg_assignments m)) (lg_delivered m), w)
  | Some ord =>
      let ord := mkOrder (i64 (Remaining ord - 1)) in
      if Remaining ord <=? 0 then
        let! (w, _) := World__Destroy w o in
        let! (ordCol, rev, _) := Column__Remove (lg_ordCol m) (w_revision w) o in
        let w := touch w rev in
        let! (capCol, w) := change_load m w v (-1) in
        Done (set_work m capCol ordCol (delete v (lg_assignments m)) (i64 (lg_delivered m + 1)), w)
      else
        let! (ordCol, w) := set_in (lg_ordCol m) w o ord in
        Done (set_work m (lg_capCol m) ordCol (lg_assignments m) (lg_delivered m), w)
  end.

(** The order in which [range] visits the entries of the map at a tick. *)
Context (range : Z → plan → list (EntityID * EntityID)).

(* examples/logistics/logistics.go:127-148 Logistics.deliver *)
Definition Logistics__deliver (m : Logistics) (w : World) : outcome (Logistics * World) :=
  ofold deliver_one (m, w) (range (Clock__Tick (w_Clock w)) (lg_assignments m)).

(* examples/logistics/logistics.go:105-110 Logistics.Step *)
Definition Logistics__Step (m : Logistics) (w : World) : outcome (Logistics * World * option error) :=
  let! (m, w) := Logistics__assign m w in
  let! (m, w) := Logistics__deliver m w in
  Done (m, w, None).

(* examples/logistics/logistics.go:171-172 Logistics.Delivered *)
Definition Delivered (m : Logistics) : Z := lg_delivered m.

(* examples/logistics/logistics.go:174-181 Logistics.Metrics *)
Definition Metrics (m : Logistics) : gmap string float64 :=
  list_to_map [("delivered"%string, f64_of_Z (lg_delivered m)); ("orders"%string, f64_of_Z (lc_Orders (lg_cfg m)));
               ("vehicles"%string, f64_of_Z (lc_Vehicles (lg_cfg m)))].

Definition logistics_model : Model Logistics :=
  mkModel Logistics__Metadata Initialize (Some Logistics__Step) None None None.

Definition configured (c : Config) : Logistics :=
  mkLogistics (withDefaults c) 0 newColumn 0 newColumn 0 newColumn (mkRNG 0) ∅ 0.
End logistics.

(** ** The invariant of the depot *)

Section depot.
Context `{R : GoRuntime}.
Implicit Types (m : Logistics) (w : World) (MC : gmap nat (EntityID * Capacity)) (MO : gmap nat (EntityID * Order)).

(** The units still to be delivered. *)
Definition units MO : Z := map_fold (λ _ it n, Remaining it.2 + n) 0 MO.

Lemma units_insert MO i it : MO !! i = None → units (<[i := it]> MO) = Remaining it.2 + units MO.
Proof. intros Hi. unfold units. rewrite map_fold_insert_L; [done| |done]. intros. lia. Qed.

Lemma units_delete MO i it : MO !! i = Some it → units MO = Remaining it.2 + units (delete i MO).
Proof. intros Hi. rewrite <- (units_insert _ i) by apply lookup_delete_eq. by rewrite insert_delete_id. Qed.

Lemma units_update MO i it it' :
  MO !! i = Some it → units (<[i := it']> MO) = units MO - Remaining it.2 + Remaining it'.2.
Proof.
  intros Hi. rewrite <- insert_delete_eq, units_insert by apply lookup_delete_eq. rewrite (units_delete _ _ _ Hi). lia.
Qed.

Lemma units_size MO : (∀ i it, MO !! i = Some it → 1 ≤ Remaining it.2) → Z.of_nat (size MO) ≤ units MO.
Proof.
  induction MO as [|i it MO Hi IH] using map_ind; intros Hpos; [done|].
  rewrite map_size_insert_None, units_insert by done.
  specialize (Hpos i it) as H1. rewrite lookup_insert_eq in H1. specialize (H1 eq_refl).
  assert (Z.of_nat (size MO) ≤ units MO); [|lia]. apply IH. intros j it' Hj. apply (Hpos j).
  rewrite lookup_insert_ne; [done|]. intros ->. congruence.
Qed.

(** The load a vehicle has under a plan. *)
Definition load_in (A : plan) (v : EntityID) : Z := match A !! v with Some _ => 1 | None => 0 end.

(** With [n] entities created in all. *)
Record depot (n : Z) m w MC MO : Prop := {
  de_room : room n (w_Entities w);
  de_small : n < 2 ^ 31 - 1 ∧ lc_Orders (lg_cfg m) ≤ n;
  de_cap : col_refines (lg_capCol m) MC;
  de_ord : col_refines (lg_ordCol m) MO;
  de_people : em_dense (w_Entities w)
    ≡ₚ col_dense (lg_invCol m) ++ col_dense (lg_capCol m) ++ col_dense (lg_ordCol m);
  de_fleet : len (col_dense (lg_invCol m)) = lc_Warehouses (lg_cfg m) ∧
    len (col_dense (lg_capCol m)) = lc_Vehicles (lg_cfg m) ∧ 0 < lc_Vehicles (lg_cfg m);
  de_remaining i o r : MO !! i = Some (o, r) → 1 ≤ Remaining r ≤ 5;
  de_plan v o : lg_assignments m !! v = Some o →
    (∃ c, MC !! eidx v = Some (v, c)) ∧ (∃ r, MO !! eidx o = Some (o, r));
  de_inj v v' o : lg_assignments m !! v = Some o → lg_assignments m !! v' = Some o → v = v';
  de_load i v c : MC !! i = Some (v, c) → Max c = 3 ∧ Load c = load_in (lg_assignments m) v;
  de_count : lg_delivered m + len (col_dense (lg_ordCol m)) = lc_Orders (lg_cfg m);
  de_delivered : 0 ≤ lg_delivered m;
}.

Lemma depot_small n m w MC MO : depot n m w MC MO →
  len (col_dense (lg_capCol m)) < 2 ^ 31 - 1 ∧ len (col_dense (lg_ordCol m)) < 2 ^ 31 - 1 ∧ 0 ≤ n.
Proof.
  intros Hd. pose proof (rm_dense _ _ (de_room _ _ _ _ _ Hd)) as Hl. pose proof (de_small _ _ _ _ _ Hd).
  unfold len in *. rewrite (de_people _ _ _ _ _ Hd), !length_app in Hl. lia.
Qed.

(** The search finds an unassigned vehicle unless every vehicle is assigned. *)
Lemma freeVehicle_ok n m w MC MO :
  depot n m w MC MO →
  ∃ r, freeVehicle m = Done r ∧
    match r with
    | Some v => (∃ c, MC !! eidx v = Some (v, c)) ∧ lg_assignments m !! v = None
    | None => ∃ v o, lg_assignments m !! v = Some o
    end.
Proof.
  intros Hd. unfold freeVehicle, Column__entityIDs. pose proof (de_cap _ _ _ _ _ Hd) as Hcap.
  assert (∀ vs, (∀ v, v ∈ vs → ∃ c, MC !! eidx v = Some (v, c)) → ∃ r, free_loop m vs = Done r ∧
    match r with
    | Some v => (∃ c, MC !! eidx v = Some (v, c)) ∧ lg_assignments m !! v = None
    | None => ∀ v, v ∈ vs → is_Some (lg_assignments m !! v)
    end) as Hloop.
  { induction vs as [|v vs IH]; intros Hvs; cbn [free_loop].
    { eexists. split; [done|]. by intros v ?%elem_of_nil. }
    destruct IH as (r & Hr & Hp); [intros v' Hv'; apply Hvs; by right|].
    destruct (Hvs v) as [c Hc]; [by left|]. destruct (lg_assignments m !! v) as [o|] eqn:Ha.
    - exists r. split; [done|]. destruct r; [done|]. intros v' [->|?]%elem_of_cons; [by eexists|auto].
    - rewrite (Get_refines _ _ _ Hcap), Hc. cbn [obind fmap option_fmap option_map snd].
      destruct (de_load _ _ _ _ _ Hd _ _ _ Hc) as [Hmax Hload]. unfold load_in in Hload. rewrite Ha in Hload.
      destruct (Z.ltb_spec (Load c) (Max c)); [|lia]. exists (Some v). eauto. }
  destruct (Hloop (col_dense (lg_capCol m))) as (r & Hr & Hp).
  { intros v. by apply col_entry. }
  exists r. split; [done|]. destruct r; [done|]. destruct (de_fleet _ _ _ _ _ Hd) as (_ & Hv & Hv0).
  destruct (col_dense (lg_capCol m)) as [|v vs]; [change (len []) with 0 in Hv; lia|]. destruct (Hp v) as [o Ho]; [by left|]. eauto.
Qed.

(** Changing the load of a vehicle. *)
Lemma change_load_ok n m w MC MO w' v c d :
  depot n m w MC MO → MC !! eidx v = Some (v, c) → -1 ≤ d ≤ 1 →
  ∃ col rev, change_load m w' v d = Done (col, touch w' rev) ∧
    col_refines col (<[eidx v := (v, mkCapacity 3 (Load c + d))]> MC) ∧ col_dense col = col_dense (lg_capCol m).
Proof.
  intros Hd Hv Hr. unfold change_load, set_in. pose proof (de_cap _ _ _ _ _ Hd) as Hcap.
  destruct (depot_small _ _ _ _ _ Hd) as (Hs & _). destruct (de_load _ _ _ _ _ Hd _ _ _ Hv) as [Hmax Hload].
  assert (0 ≤ Load c ≤ 1) as Hlc by (rewrite Hload; unfold load_in; by destruct (lg_assignments m !! v)).
  rewrite (Get_refines _ _ _ Hcap), Hv. cbn [obind fmap option_fmap option_map snd]. change (default _ (Some c)) with c.
  rewrite Hmax, i64_id by (unfold in_i64; lia).
  destruct (Set_refines (lg_capCol m) MC (w_revision w') v (mkCapacity 3 (Load c + d)) Hcap) as (col & Hset & Hcol & _ & Hdense); [lia|].
  unfold owner in Hcol. rewrite Hv in Hset, Hcol, Hdense. rewrite Hset. cbn [obind].
  exists col, (w_revision w'). split; [done|]. split; [done|]. by rewrite Hdense, app_nil_r.
Qed.

(** What a step of the two loops leaves alone. *)
Definition same_site m w m' w' : Prop :=
  lg_cfg m' = lg_cfg m ∧ lg_invCol m' = lg_invCol m ∧ w_Clock w' = w_Clock w.

Lemma same_site_trans m w m1 w1 m2 w2 : same_site m w m1 w1 → same_site m1 w1 m2 w2 → same_site m w m2 w2.
Proof. intros (? & ? & ?) (? & ? & ?). split_and!; congruence. Qed.

(** An order gets a vehicle, or all vehicles are taken. *)
Lemma assign_one_ok n m w MC MO o r :
  depot n m w MC MO → MO !! eidx o = Some (o, r) →
  ∃ m' w' MC', assign_one (m, w) o = Done (m', w') ∧ depot n m' w' MC' MO ∧ same_site m w m' w' ∧
    lg_ordCol m' = lg_ordCol m ∧ lg_assignments m' ≠ ∅.
Proof.
  intros Hd Ho. unfold assign_one, assignmentsReverse. destruct (bool_decide _) eqn:Hb.
  { apply bool_decide_eq_true_1 in Hb as (v & o' & Hv & ->). exists m, w, MC. split_and!; try done. intros E. by rewrite E in Hv. }
  apply bool_decide_eq_false_1 in Hb. destruct (freeVehicle_ok n m w MC MO Hd) as (res & -> & Hres). cbn [obind].
  destruct res as [v|]; last first.
  { destruct Hres as (v & o' & Hv). exists m, w, MC. split_and!; try done. intros E. by rewrite E in Hv. }
  destruct Hres as [[c Hc] Hv]. destruct (change_load_ok n m w MC MO w v c 1 Hd Hc) as (col & rev & -> & Hcol & Hdense); [lia|].
  cbn [obind]. eexists _, _, _. split; [done|].
  destruct Hd as [Hroom Hsmall Hcap Hord Hpeople Hveh Hrem Hplan Hinj Hload Hcount Hdel]. split.
  2: { split_and!; try done. intros E. apply (insert_non_empty (lg_assignments m) v o E). }
  split; cbn [set_work lg_cfg lg_invCol lg_capCol lg_ordCol lg_assignments lg_delivered]; rewrite ?Hdense; try done.
  - intros v' o' [[<- <-]|[Hne Hl]]%lookup_insert_Some.
    + split; [eexists; by rewrite lookup_insert_eq|by eexists].
    + destruct (Hplan v' o' Hl) as [[c' Hc'] Hr]. split; [|done].
      destruct (decide (eidx v = eidx v')) as [E|E]; [|exists c'; by rewrite lookup_insert_ne].
      rewrite E in Hc. rewrite Hc in Hc'. by injection Hc'.
  - intros v1 v2 o' [[<- <-]|[Hne Hl]]%lookup_insert_Some [[<- E]|[Hne2 Hl2]]%lookup_insert_Some; try done.
    + destruct Hb. by exists v2, o.
    + subst o'. destruct Hb. by exists v1, o.
    + by eapply Hinj.
  - intros i v' c' [[<- [= <- <-]]|[Hne Hl]]%lookup_insert_Some; cbn [Max Load].
    + split; [done|]. destruct (Hload _ _ _ Hc) as [_ ->]. unfold load_in. by rewrite Hv, lookup_insert_eq.
    + destruct (Hload _ _ _ Hl) as [-> ->]. split; [done|]. unfold load_in. rewrite lookup_insert_ne; [done|].
      intros ->. apply Hne. apply (cref_map _ _ Hcap) in Hl as (? & _ & _ & Hi). done.
Qed.

(** After [assign] some order is under way, unless there is none. *)
Lemma assign_ok n m w MC MO :
  depot n m w MC MO →
  ∃ m' w' MC', Logistics__assign m w = Done (m', w') ∧ depot n m' w' MC' MO ∧ same_site m w m' w' ∧
    (lg_assignments m' = ∅ → MO = ∅).
Proof.
  intros Hd. unfold Logistics__assign, Column__entityIDs. pose proof (de_ord _ _ _ _ _ Hd) as Hord.
  assert (∀ os m w MC, depot n m w MC MO → (∀ o, o ∈ os → ∃ r, MO !! eidx o = Some (o, r)) →
    ∃ m' w' MC', ofold assign_one (m, w) os = Done (m', w') ∧ depot n m' w' MC' MO ∧ same_site m w m' w' ∧
      (lg_assignments m' = ∅ → os = [])) as Hloop.
  { induction os as [|o os IH]; intros m1 w1 MC1 Hd1 Hos; cbn [ofold].
    { exists m1, w1, MC1. by split_and!. }
    destruct (Hos o) as [r Hr]; [by left|].
    destruct (assign_one_ok n m1 w1 MC1 MO o r Hd1 Hr) as (m2 & w2 & MC2 & -> & Hd2 & Hs2 & _ & Hne2). cbn [obind].
    destruct (IH m2 w2 MC2 Hd2) as (m' & w' & MC' & He & Hd' & Hs' & Hem); [intros o' Ho'; apply Hos; by right|].
    exists m', w', MC'. split_and!; [done|done|by eapply same_site_trans|].
    intros E. specialize (Hem E) as ->. injection He as <- <-. done. }
  destruct (Hloop (col_dense (lg_ordCol m)) m w MC Hd) as (m' & w' & MC' & He & Hd' & Hs' & Hem).
  { intros o. by apply col_entry. }
  exists m', w', MC'. split_and!; try done. intros E. apply map_empty. intros i.
  destruct (MO !! i) as [[o r]|] eqn:Hi; [|done]. apply (cref_map _ _ Hord) in Hi as (pos & Hp & _). by rewrite (Hem E) in Hp.
Qed.

(** The last unit of an order: the order leaves the world and the vehicle is free. *)
Lemma deliver_last n m w MC MO v o c r :
  depot n m w MC MO → lg_assignments m !! v = Some o → MC !! eidx v = Some (v, c) → MO !! eidx o = Some (o, r) →
  Remaining r = 1 →
  ∃ m' w' MC', deliver_one (m, w) (v, o) = Done (m', w') ∧ depot n m' w' MC' (delete (eidx o) MO) ∧ same_site m w m' w' ∧
    lg_assignments m' = delete v (lg_assignments m).
Proof.
  intros Hd Ha Hc Ho Hr. destruct (depot_small _ _ _ _ _ Hd) as (_ & Hs & Hn). unfold deliver_one.
  pose proof Hd as [Hroom Hsmall Hcap Hord Hpeople Hveh Hrem Hplan Hinj Hload Hcount Hdel].
  rewrite (Get_refines _ _ _ Hord), Ho. cbn [obind fmap option_fmap option_map snd]. rewrite Hr. cbn [Remaining].
  change (i64 (1 - 1) <=? 0) with true. cbv iota. unfold World__Destroy.
  destruct (col_entry_dense _ _ _ _ _ Hord Ho) as [_ Hin].
  destruct (Destroy_room n (w_Entities w) (w_revision w) o Hroom) as (em & -> & Hroom' & Hem); [lia| |].
  { rewrite Hpeople, !elem_of_app. by right; right. }
  cbn [obind]. set (w1 := set_Entities w em (bump (w_revision w))).
  pose proof (Remove_refines (lg_ordCol m) MO (w_revision w1) o Hord ltac:(lia)) as Hrm. rewrite Ho in Hrm.
  destruct Hrm as (ord' & -> & Hord' & Hlen & Hperm). cbn [obind].
  destruct (change_load_ok n m w MC MO (touch w1 (bump (w_revision w1))) v c (-1) Hd Hc) as (cap' & rev & -> & Hcap' & Hdense); [lia|].
  cbn [obind]. rewrite i64_id by (unfold in_i64, len in *; lia). eexists _, _, _. split; [done|]. split; [|done].
  assert (em_dense em ≡ₚ col_dense (lg_invCol m) ++ col_dense (lg_capCol m) ++ col_dense ord') as Hpeople'.
  { apply (Permutation_cons_inv (a := o)). rewrite <- Hem, Hpeople, Hperm.
    by rewrite !app_assoc, <- Permutation_middle. }
  assert (∀ v' o', delete v (lg_assignments m) !! v' = Some o' → v' ≠ v ∧ lg_assignments m !! v' = Some o') as Hdl.
  { intros v' o' [? ?]%lookup_delete_Some. done. }
  split; cbn [set_work lg_cfg lg_invCol lg_capCol lg_ordCol lg_assignments lg_delivered]; rewrite ?Hdense; try done; try lia.
  - intros i o' r' [_ Hl]%lookup_delete_Some. by eapply Hrem.
  - intros v' o' [Hne Hl]%Hdl. destruct (Hplan v' o' Hl) as [[c' Hc'] [r' Hr']]. split.
    + exists c'. rewrite lookup_insert_ne; [done|]. intros E. rewrite <- E, Hc in Hc'. by injection Hc' as ->.
    + exists r'. rewrite lookup_delete_ne; [done|]. intros E. rewrite <- E, Ho in Hr'. injection Hr' as -> ->.
      apply Hne. by eapply Hinj.
  - intros v1 v2 o' [_ H1]%Hdl [_ H2]%Hdl. by eapply Hinj.
  - intros i v' c' [[<- [= <- <-]]|[Hne Hl]]%lookup_insert_Some; cbn [Max Load].
    + split; [done|]. destruct (Hload _ _ _ Hc) as [_ ->]. unfold load_in. by rewrite Ha, lookup_delete_eq.
    + destruct (Hload _ _ _ Hl) as [-> ->]. split; [done|]. unfold load_in. rewrite lookup_delete_ne; [done|].
      intros ->. apply Hne. apply (col_entry_dense _ _ _ _ _ Hcap Hl).
Qed.

(** Any other unit: the order has one less. *)
Lemma deliver_more n m w MC MO v o r :
  depot n m w MC MO → MO !! eidx o = Some (o, r) → 1 < Remaining r →
  ∃ m' w', deliver_one (m, w) (v, o) = Done (m', w') ∧
    depot n m' w' MC (<[eidx o := (o, mkOrder (Remaining r - 1))]> MO) ∧ same_site m w m' w' ∧
    lg_assignments m' = lg_assignments m.
Proof.
  intros Hd Ho Hr. destruct (depot_small _ _ _ _ _ Hd) as (_ & Hs & Hn). unfold deliver_one.
  pose proof Hd as [Hroom Hsmall Hcap Hord Hpeople Hveh Hrem Hplan Hinj Hload Hcount Hdel].
  pose proof (Hrem _ _ _ Ho). rewrite (Get_refines _ _ _ Hord), Ho. cbn [obind fmap option_fmap option_map snd].
  rewrite i64_id by (unfold in_i64; lia). cbn [Remaining]. destruct (Z.leb_spec (Remaining r - 1) 0); [lia|]. unfold set_in.
  destruct (Set_refines (lg_ordCol m) MO (w_revision w) o (mkOrder (Remaining r - 1)) Hord) as (col & Hset & Hcol & _ & Hdense); [lia|].
  unfold owner in Hcol. rewrite Ho in Hset, Hcol, Hdense. rewrite app_nil_r in Hdense. rewrite Hset. cbn [obind].
  eexists _, _. split; [done|]. split; [|done].
  split; cbn [set_work lg_cfg lg_invCol lg_capCol lg_ordCol lg_assignments lg_delivered]; rewrite ?Hdense; try done.
  - intros i o' r' [[<- [= <- <-]]|[_ Hl]]%lookup_insert_Some; [cbn; lia|by eapply Hrem].
  - intros v' o' Hl. destruct (Hplan v' o' Hl) as [Hv [r' Hr']]. split; [done|].
    destruct (decide (eidx o = eidx o')) as [E|E]; [|exists r'; by rewrite lookup_insert_ne].
    rewrite <- E, Ho in Hr'. injection Hr' as <- _. eexists. by rewrite lookup_insert_eq.
Qed.

(** Every assigned order loses one unit. *)
Lemma deliver_one_ok n m w MC MO v o :
  depot n m w MC MO → lg_assignments m !! v = Some o →
  ∃ m' w' MC' MO', deliver_one (m, w) (v, o) = Done (m', w') ∧ depot n m' w' MC' MO' ∧ same_site m w m' w' ∧
    units MO' = units MO - 1 ∧ ∀ v', v' ≠ v → lg_assignments m' !! v' = lg_assignments m !! v'.
Proof.
  intros Hd Ha. destruct (de_plan _ _ _ _ _ Hd v o Ha) as [[c Hc] [r Hr]].
  pose proof (de_remaining _ _ _ _ _ Hd _ _ _ Hr) as Hrem. destruct (decide (Remaining r = 1)) as [H1|Hne].
  - destruct (deliver_last n m w MC MO v o c r) as (m' & w' & MC' & He & Hd' & Hs & HA); [done..|].
    exists m', w', MC', (delete (eidx o) MO). split_and!; try done.
    + rewrite (units_delete _ _ _ Hr). cbn. lia.
    + intros v' Hv'. by rewrite HA, lookup_delete_ne.
  - destruct (deliver_more n m w MC MO v o r) as (m' & w' & He & Hd' & Hs & HA); [done|done|lia|].
    eexists m', w', MC, _. split_and!; [done|exact Hd'|done| |].
    + rewrite (units_update _ _ _ _ Hr). cbn. lia.
    + intros v' _. by rewrite HA.
Qed.

Context (range : Z → plan → list (EntityID * EntityID)).
Hypothesis range_all : ∀ t (A : plan), range t A ≡ₚ map_to_list A.

Lemma deliver_ok n m w MC MO :
  depot n m w MC MO →
  ∃ m' w' MC' MO', Logistics__deliver range m w = Done (m', w') ∧ depot n m' w' MC' MO' ∧ same_site m w m' w' ∧
    units MO' = units MO - Z.of_nat (size (lg_assignments m)).
Proof using range_all.
  assert (∀ l m w MC MO, depot n m w MC MO → NoDup l.*1 → (∀ v o, (v, o) ∈ l → lg_assignments m !! v = Some o) →
    ∃ m' w' MC' MO', ofold deliver_one (m, w) l = Done (m', w') ∧ depot n m' w' MC' MO' ∧ same_site m w m' w' ∧
      units MO' = units MO - Z.of_nat (length l)) as Hloop.
  { induction l as [|[v o] l IH]; intros m1 w1 MC1 MO1 Hd1 Hnd HA; cbn [ofold].
    { exists m1, w1, MC1, MO1. split_and!; try done. cbn. lia. }
    apply NoDup_cons in Hnd as [Hv Hnd].
    destruct (deliver_one_ok n m1 w1 MC1 MO1 v o Hd1) as (m2 & w2 & MC2 & MO2 & -> & Hd2 & Hs2 & Hu2 & HA2); [apply HA; by left|].
    cbn [obind]. destruct (IH m2 w2 MC2 MO2 Hd2 Hnd) as (m' & w' & MC' & MO' & He & Hd' & Hs' & Hu').
    { intros v' o' Hin. rewrite HA2; [apply HA; by right|]. intros ->. apply Hv. apply list_elem_of_fmap. by exists (v, o'). }
    exists m', w', MC', MO'. split_and!; [done|done|by eapply same_site_trans|]. cbn [length]. lia. }
  intros Hd. unfold Logistics__deliver. pose proof (range_all (Clock__Tick (w_Clock w)) (lg_assignments m)) as Hp.
  destruct (Hloop (range (Clock__Tick (w_Clock w)) (lg_assignments m)) m w MC MO Hd) as (m' & w' & MC' & MO' & He & Hd' & Hs' & Hu').
  { rewrite Hp. apply NoDup_fst_map_to_list. }
  { intros v o. rewrite Hp. apply elem_of_map_to_list. }
  exists m', w', MC', MO'. split_and!; try done. rewrite Hu', Hp. by rewrite length_map_to_list.
Qed.

(** A tick: what is left shrinks until nothing is left. *)
Lemma logistics_Step_ok n m w MC MO (left : Z) :
  depot n m w MC MO → units MO ≤ Z.max 0 left →
  ∃ m' w' MC' MO', Logistics__Step range m w = Done (m', w', None) ∧ depot n m' w' MC' MO' ∧ same_site m w m' w' ∧
    units MO' ≤ Z.max 0 (left - 1).
Proof using range_all.
  intros Hd Hu. unfold Logistics__Step.
  destruct (assign_ok n m w MC MO Hd) as (m1 & w1 & MC1 & -> & Hd1 & Hs1 & Hem). cbn [obind].
  destruct (deliver_ok n m1 w1 MC1 MO Hd1) as (m2 & w2 & MC2 & MO2 & -> & Hd2 & Hs2 & Hu2). cbn [obind].
  exists m2, w2, MC2, MO2. split_and!; [done|done|by eapply same_site_trans|].
  assert (∀ i it, MO !! i = Some it → 1 ≤ Remaining it.2) as Hpos by (intros i [o r] Hl; apply (de_remaining _ _ _ _ _ Hd _ _ _ Hl)).
  pose proof (units_size MO Hpos). destruct (decide (MO = ∅)) as [->|Hne].
  - change (units ∅) with 0 in *. lia.
  - assert (size (lg_assignments m1) ≠ 0%nat) as H1 by (intros E; apply Hne, Hem, map_size_empty_inv, E).
    assert (size MO ≠ 0%nat) as H2 by (intros E; apply Hne, map_size_empty_inv, E). lia.
Qed.
End depot.

(** ** Whole runs *)

Section runs.
Context `{R : GoRuntime}.
Context (range : Z → plan → list (EntityID * EntityID)).
Hypothesis range_all : ∀ t (A : plan), range t A ≡ₚ map_to_list A.
Implicit Types (m : Logistics) (w : World) (c : Config).

Definition entities c : Z := lc_Warehouses c + lc_Vehicles c + lc_Orders c.

Lemma draw_order_ok r : ∃ o r', draw_order r = Done (o, r') ∧ 1 ≤ Remaining o ≤ 5.
Proof.
  unfold draw_order. destruct (Uint64n_Done r 5) as (d & v & -> & Hv & _); [lia|]. cbn [obind].
  eexists _, _. split; [done|]. cbn. rewrite i64_id by (unfold in_i64; lia). lia.
Qed.

Lemma units_upper (MO : gmap nat (EntityID * Order)) :
  (∀ i it, MO !! i = Some it → Remaining it.2 ≤ 5) → units MO ≤ 5 * Z.of_nat (size MO).
Proof.
  induction MO as [|i it MO Hi IH] using map_ind; intros Hpos; [done|].
  rewrite map_size_insert_None, units_insert by done.
  specialize (Hpos i it) as H1. rewrite lookup_insert_eq in H1. specialize (H1 eq_refl).
  assert (units MO ≤ 5 * Z.of_nat (size MO)); [|lia]. apply IH. intros j it' Hj. apply (Hpos j).
  rewrite lookup_insert_ne; [done|]. intros ->. congruence.
Qed.

(** The invariant after [j] ticks. *)
Definition at_work c (j : Z) m w : Prop :=
  lg_cfg m = withDefaults c ∧ ∃ MC MO, depot (entities (withDefaults c)) m w MC MO ∧
    units MO ≤ Z.max 0 (5 * lc_Orders (withDefaults c) - j).

Lemma logistics_withDefaults_pos c :
  0 < lc_Warehouses (withDefaults c) ∧ 0 < lc_Vehicles (withDefaults c) ∧ 0 < lc_Orders (withDefaults c).
Proof. cbn. destruct (Z.leb_spec (lc_Warehouses c) 0), (Z.leb_spec (lc_Vehicles c) 0), (Z.leb_spec (lc_Orders c) 0); lia. Qed.

Lemma logistics_tick_ok c j m w :
  at_work c j m w →
  ∃ m' w', executor__step (tickExecutor (Logistics__Step range)) m w
    = Done (tickExecutor (Logistics__Step range), m', w', true, None) ∧ at_work c (j + 1) m' w'.
Proof using range_all.
  intros (Hc & MC & MO & Hd & Hu).
  destruct (logistics_Step_ok range range_all _ m w MC MO _ Hd Hu) as (m' & w' & MC' & MO' & Hs & Hd' & (Hc' & _) & Hu').
  exists m', (tick_clock w'). cbn [executor__step]. unfold tickExecutor__step. rewrite Hs. cbn [obind]. split; [done|].
  split; [congruence|]. exists MC', MO'. split; [by destruct Hd'|]. lia.
Qed.

Lemma logistics_Initialize_ok c id seed meta :
  entities (withDefaults c) < 2 ^ 31 - 1 →
  ∃ m w, Initialize (configured c) (set_Meta (NewWorld id seed) meta 0) = Done (m, w, None) ∧ at_work c 0 m w.
Proof.
  intros Hn. destruct (logistics_withDefaults_pos c) as (HW & HV & HO). unfold at_work, entities in *.
  unfold Initialize. cbn [configured lg_cfg lg_delivered].
  destruct (Z.eqb_spec (lc_Vehicles (withDefaults c)) 0); [lia|]. set (d := withDefaults c) in *. clearbody d.
  destruct (ComponentStore__Register _ _) as [cs1 invID]. destruct (ComponentStore__Register _ _) as [cs2 capID].
  destruct (ComponentStore__Register _ _) as [cs ordID]. set (w0 := set_Components _ cs _).
  assert (∀ V em, homed (V := V) em ∅) as Hh0 by (intros V em i e v ?%lookup_empty_Some; done).
  destruct (spawn_ok (λ _, True) (λ r, Done (mkInventory 1000, r)) (Z.to_nat (lc_Warehouses d)) 0
    newColumn ∅ w0 (RandomStreams__StreamU64 (w_Random w0) 1))
    as (inv & em1 & rev1 & r1 & MI & ids1 & -> & Hroom1 & Hd1 & Hl1 & Hc1 & _ & Hcd1 & _).
  { intros r. by exists (mkInventory 1000), r. }
  { apply New_room. } { done. } { lia. } { apply newColumn_refines. } { done. } { done. }
  cbn [obind]. destruct (spawn_ok (λ cp, cp = mkCapacity 3 0) (λ r, Done (mkCapacity 3 0, r)) (Z.to_nat (lc_Vehicles d))
    (0 + Z.of_nat (Z.to_nat (lc_Warehouses d))) newColumn ∅ (set_Entities w0 em1 rev1) r1)
    as (cap & em2 & rev2 & r2 & MC & ids2 & -> & Hroom2 & Hd2 & Hl2 & Hc2 & _ & Hcd2 & _ & HMC).
  { intros r. by exists (mkCapacity 3 0), r. }
  { done. } { lia. } { lia. } { apply newColumn_refines. } { done. } { change (len (col_dense newColumn)) with 0. lia. }
  cbn [obind]. destruct (spawn_ok (λ o, 1 ≤ Remaining o ≤ 5) draw_order (Z.to_nat (lc_Orders d))
    (0 + Z.of_nat (Z.to_nat (lc_Warehouses d)) + Z.of_nat (Z.to_nat (lc_Vehicles d))) newColumn ∅
    (set_Entities (set_Entities w0 em1 rev1) em2 rev2) r2)
    as (ord & em3 & rev3 & r3 & MO & ids3 & -> & Hroom3 & Hd3 & Hl3 & Hc3 & _ & Hcd3 & _ & HMO).
  { apply draw_order_ok. } { done. } { lia. } { lia. } { apply newColumn_refines. } { done. } { change (len (col_dense newColumn)) with 0. lia. }
  cbn [obind]. eexists _, _. split; [done|]. split; [done|]. exists MC, MO.
  cbn [newColumn col_dense app] in Hcd1, Hcd2, Hcd3. cbn [w_Entities set_Entities] in *.
  assert (len ids3 = lc_Orders d) as Hlen by (unfold len; rewrite Hl3; lia).
  assert (∀ i o r, MO !! i = Some (o, r) → 1 ≤ Remaining r ≤ 5) as Hrem by (intros i o r Hl; by destruct (HMO i o r Hl) as [?|[_ ?]]).
  split.
  - split; cbn [lg_cfg lg_invCol lg_capCol lg_ordCol lg_assignments lg_delivered configured w_Entities set_Entities];
      rewrite ?Hcd1, ?Hcd2, ?Hcd3; try done; try lia.
    + by replace (lc_Warehouses d + lc_Vehicles d + lc_Orders d) with (0 + Z.of_nat (Z.to_nat (lc_Warehouses d))
        + Z.of_nat (Z.to_nat (lc_Vehicles d)) + Z.of_nat (Z.to_nat (lc_Orders d))) by lia.
    + by rewrite Hd3, Hd2, Hd1, <- !app_assoc.
    + unfold len. rewrite Hl1, Hl2. lia.
    + intros i v c' Hl. by destruct (HMC i v c' Hl) as [?|[_ ->]].
  - pose proof (col_size _ _ Hc3) as Hsz. rewrite Hcd3 in Hsz. unfold len in Hlen.
    assert (units MO ≤ 5 * Z.of_nat (size MO)); [|lia]. apply units_upper. intros i [o r] Hl. cbn. by eapply Hrem.
Qed.

(** C21: the logistics model delivers every order: for every scenario, whatever order Go's map
    iteration takes at each tick, creating the simulation and running it for any number of ticks
    completes without an error or a panic; delivered and waiting orders add up to the configured
    ones; a vehicle has at most one order and an order at most one vehicle; the entities of the
    world are the warehouses, the vehicles and the waiting orders; and after five ticks per order
    all orders have been delivered. *)
Theorem logistics_delivers {U : Unwinding Logistics} GOMAXPROCS (cfg : Runtime.Config) c n :
  cfg_Mode cfg = ModeTick → entities (withDefaults c) < 2 ^ 31 - 1 → 0 ≤ n < 2 ^ 63 →
  ∃ sim s, Runtime.New GOMAXPROCS cfg (logistics_model range) (configured c) = Done (Ok sim) ∧
    RunN (S (Z.to_nat n)) sim n = Some (Done (s, None)) ∧ sim_steps s = n ∧
    let m := sim_m s in
    Delivered m + Column__Len (lg_ordCol m) = lc_Orders (withDefaults c) ∧
    EntityManager__Len (w_Entities (sim_world s))
      = lc_Warehouses (withDefaults c) + lc_Vehicles (withDefaults c) + Column__Len (lg_ordCol m) ∧
    (∀ v v' o, lg_assignments m !! v = Some o → lg_assignments m !! v' = Some o → v = v') ∧
    (∀ v cp, v ∈ col_dense (lg_capCol m) → Column__Get (lg_capCol m) v = Done (Some cp) → Load cp ≤ 1) ∧
    (5 * lc_Orders (withDefaults c) ≤ n → Delivered m = lc_Orders (withDefaults c)).
Proof using range_all.
  intros Hmode Hent Hn. unfold Runtime.New, newExecutor. rewrite Hmode. cbn [Z.eqb ModeTick obind logistics_model mo_Systems mo_Step].
  destruct (logistics_Initialize_ok c (cfg_ID cfg) (cfg_Seed cfg)
    (mkMeta (cfg_ID cfg) "logistics" "1.0.0" (cfg_Seed cfg) ModeTick) Hent) as (m0 & w0 & Hi & H0).
  cbn [logistics_model mo_Initialize mo_Metadata mm_ID mm_Version Logistics__Metadata]. rewrite Hi. cbn [obind]. eexists.
  set (sim := mkSim _ _ _ _ _ _ _ _ _).
  destruct (RunN_invariant (tickExecutor (Logistics__Step range)) (at_work c) (λ _, False) sim n)
    as (s & Hrun & Hst & (Hcfg & MC & MO & Hd & Hu) & Hsteps & [Hall|[]]).
  { done. } { done. } { done. } { done. }
  { intros j m w Hj HI. destruct (logistics_tick_ok c j m w HI) as (m' & w' & Hstep & HI'). by exists m', w', true. }
  exists s. split; [done|]. split; [exact Hrun|]. split; [done|].
  destruct Hd as [Hroom Hsmall Hcap Hord Hpeople Hveh Hrem Hplan Hinj Hload Hcount Hdel].
  unfold Delivered, Column__Len, EntityManager__Len, len in *. rewrite Hcfg in *.
  rewrite (cinv_data _ (cref_inv _ _ Hord)).
  split_and!; [done| |done| |].
  - rewrite (inv_count _ (rm_inv _ _ Hroom)). unfold len. rewrite Hpeople, !length_app. lia.
  - intros v cp Hv. rewrite (Get_refines _ _ _ Hcap). destruct (col_entry _ _ _ Hcap Hv) as [cp' Hl]. rewrite Hl.
    intros [= <-]. destruct (Hload _ _ _ Hl) as [_ ->]. unfold load_in. by destruct (lg_assignments (sim_m s) !! v).
  - intros H5. rewrite Hall in Hu. pose proof (col_size _ _ Hord).
    assert (Z.of_nat (size MO) ≤ units MO); [|lia]. apply units_size. intros i [o r] Hl. by apply (Hrem i o).
Qed.
End runs.

(** Two iteration orders Go allows. *)
Definition forwards (_ : Z) (A : plan) : list (EntityID * EntityID) := map_to_list A.
Definition backwards (_ : Z) (A : plan) : list (EntityID * EntityID) := reverse (map_to_list A).

Lemma forwards_all t (A : plan) : forwards t A ≡ₚ map_to_list A.
Proof. done. Qed.

Lemma backwards_all t (A : plan) : backwards t A ≡ₚ map_to_list A.
Proof. apply reverse_Permutation. Qed.

Definition small : Config := mkConfig 1 2 4.
Definition tick_config : Runtime.Config := Runtime.mkConfig "l" 3 ModeTick 0 fzero 0.

Lemma logistics_delivers_witness :
  ∃ sim s, Runtime.New (R := Toy.runtime) 1 tick_config (logistics_model backwards) (configured small) = Done (Ok sim) ∧
    RunN (S (Z.to_nat 20)) sim 20 = Some (Done (s, None)) ∧ Delivered (sim_m s) = 4.
Proof.
  destruct (logistics_delivers (R := Toy.runtime) backwards backwards_all 1 tick_config small 20)
    as (sim & s & Hn & Hr & _ & _ & _ & _ & _ & Hall); [reflexivity|reflexivity|lia|].
  exists sim, s. split; [exact Hn|]. split; [exact Hr|]. apply Hall. vm_compute. discriminate.
Defined.

(** The waiting orders and the free indices after five ticks of the same scenario and seed. *)
Definition after_five (range : Z → plan → list (EntityID * EntityID)) : option (list Z * list Z) :=
  match Runtime.New (R := Toy.runtime) 1 tick_config (logistics_model range) (configured small) with
  | Done (Ok sim) =>
      match RunN 6 sim 5 with
      | Some (Done (s, None)) => Some (Index <$> col_dense (lg_ordCol (sim_m s)), em_free (w_Entities (sim_world s)))
      | _ => None
      end
  | _ => None
  end.

(** A run is not reproducible: when two orders are completed in one tick, the order in which the
    map is visited decides where the remaining orders lie in the column and which index the next
    entity gets. *)
Theorem delivery_order_visible :
  after_five forwards = Some ([5; 6], [4; 3]) ∧ after_five backwards = Some ([6; 5], [3; 4]).
Proof. by vm_compute. Qed.
