(* ===== verification/Ecosystem.v ===== *)
(** * The ecosystem model: [examples/ecosystem/ecosystem.go]

    Plants grow, animals graze, reproduce when well fed and die at zero energy, so that entities
    are created and destroyed every tick.  The typed column of energies is a field of the model;
    entities, tags and the revision of the world are threaded through. *)

From S2P Require Import Prelude Float64 FloatRound Rng SparseSet Entity GoValues Interning Component Tags Heap Events World.
From S2P Require Import Snapshot Scheduler Runtime Population ModelRuns.
Local Open Scope Z_scope.

(* examples/ecosystem/ecosystem.go:15-16 Energy *)
Record Energy := mkEnergy { E : Z }.

(* examples/ecosystem/ecosystem.go:18-23 Config *)
Record Config := mkConfig { ec_Plants : Z; ec_Animals : Z; ec_MaxAnimals : Z }.

(* examples/ecosystem/ecosystem.go:25-36 Config.withDefaults *)
Definition withDefaults (c : Config) : Config :=
  mkConfig (if ec_Plants c <=? 0 then 40 else ec_Plants c)
    (if ec_Animals c <=? 0 then 6 else ec_Animals c)
    (if ec_MaxAnimals c <=? 0 then 15 else ec_MaxAnimals c).

Section ecosystem.
Context `{R : GoRuntime}.

(* examples/ecosystem/ecosystem.go:38-52 Ecosystem *)
Record Ecosystem := mkEco {
  eco_cfg : Config;
  eco_energyID : Z;
  eco_energyCol : Column Energy;
  eco_animalTag : Z;
  eco_plantTag : Z;
  eco_plantCursor : Z;
  eco_animalCount : Z;
  eco_plantCount : Z;
  eco_totalEnergy : Z;
}.

Definition set_col (m : Ecosystem) col : Ecosystem :=
  mkEco (eco_cfg m) (eco_energyID m) col (eco_animalTag m) (eco_plantTag m) (eco_plantCursor m)
    (eco_animalCount m) (eco_plantCount m) (eco_totalEnergy m).
Definition set_cursor (m : Ecosystem) cursor : Ecosystem :=
  mkEco (eco_cfg m) (eco_energyID m) (eco_energyCol m) (eco_animalTag m) (eco_plantTag m) cursor
    (eco_animalCount m) (eco_plantCount m) (eco_totalEnergy m).
Definition set_counts (m : Ecosystem) animals plants total : Ecosystem :=
  mkEco (eco_cfg m) (eco_energyID m) (eco_energyCol m) (eco_animalTag m) (eco_plantTag m) (eco_plantCursor m)
    animals plants total.

(* examples/ecosystem/ecosystem.go:54-63 Ecosystem.Metadata *)
Definition Ecosystem__Metadata : ModelMetadata :=
  mkModelMeta "ecosystem" "Ecosystem" "1.0.0" "Plants grow; animals graze, reproduce, and die." ModeTick.

(** The JSON decoding of the configuration is an argument. *)
(* examples/ecosystem/ecosystem.go:65-75 Ecosystem.Configure *)
Definition Configure (parse : string → result Config) (m : Ecosystem) (raw : string) : Ecosystem * option error :=
  let c := if decide (raw = ""%string) then Ok (mkConfig 0 0 0) else parse raw in
  match c with
  | Err e => (m, Some e)
  | Ok c => (mkEco (withDefaults c) (eco_energyID m) (eco_energyCol m) (eco_animalTag m) (eco_plantTag m)
               (eco_plantCursor m) (eco_animalCount m) (eco_plantCount m) (eco_totalEnergy m), None)
  end.

(** [e := w.Entities.Create()], its tag and its energy. *)
Definition birth (col : Column Energy) (w : World) (tag : Z) (energy : Z) : outcome (Column Energy * World) :=
  let! (w, e) := World__Create w in
  let! tags := TagStore__Add (w_TagStore w) e tag in
  set_in col (set_TagStore w tags) e (mkEnergy energy).

(** The two loops of [Initialize]: [n] entities with [base + stream.Uint64n(spread)] energy. *)
Fixpoint seed_entities (n : nat) (tag base spread : Z) (s : Column Energy * World * RNG)
  : outcome (Column Energy * World * RNG) :=
  match n with
  | O => Done s
  | S n =>
      let '(col, w, r) := s in
      let! (u, r) := Uint64n r spread in
      let! (col, w) := birth col w tag (base + i64 u) in
      seed_entities n tag base spread (col, w, r)
  end.

(* examples/ecosystem/ecosystem.go:77-98 Ecosystem.Initialize *)
Definition Initialize (m : Ecosystem) (w : World) : outcome (Ecosystem * World * option error) :=
  let cfg := if ec_Plants (eco_cfg m) =? 0 then withDefaults (eco_cfg m) else eco_cfg m in
  let '(cs, energyID) := ComponentStore__Register (w_Components w) "eco.energy" in
  let w := set_Components w cs (w_revision w) in
  let '(tags, animalTag) := TagRegistry__Register (w_Tags w) "animal" in
  let '(tags, plantTag) := TagRegistry__Register tags "plant" in
  let w := set_Tags w tags in
  let stream := RandomStreams__StreamU64 (w_Random w) 1 in
  let! (col, w, stream) := seed_entities (Z.to_nat (ec_Plants cfg)) plantTag 3 3 (newColumn, w, stream) in
  let! (col, w, _) := seed_entities (Z.to_nat (ec_Animals cfg)) animalTag 4 4 (col, w, stream) in
  Done (mkEco cfg energyID col animalTag plantTag (eco_plantCursor m)
          (eco_animalCount m) (eco_plantCount m) (eco_totalEnergy m), w, None).

(** The entities with a tag, in the order of the entity manager. *)
Definition tagged (w : World) (tag : Z) : outcome (list EntityID) :=
  ofold (λ out e, let! has := TagStore__Has (w_TagStore w) e tag in Done (if has then out ++ [e] else out))
    [] (EntityManager__IDs (w_Entities w)).

(* examples/ecosystem/ecosystem.go:171-179 Ecosystem.plantIDs *)
Definition plantIDs (m : Ecosystem) (w : World) : outcome (list EntityID) := tagged w (eco_plantTag m).

(* examples/ecosystem/ecosystem.go:181-189 Ecosystem.animalIDs *)
Definition animalIDs (m : Ecosystem) (w : World) : outcome (list EntityID) := tagged w (eco_animalTag m).

(** [v, _ := m.energyCol.Get(e)]. *)
Definition energy_of (col : Column Energy) (e : EntityID) : outcome Z :=
  let! r := Column__Get col e in Done (match r with Some v => E v | None => 0 end).

Definition grow (s : Column Energy * World) (p : EntityID) : outcome (Column Energy * World) :=
  let '(col, w) := s in
  let! v := energy_of col p in
  if v <? 8 then set_in col w p (mkEnergy (i64 (v + 1))) else Done (col, w).

(** An animal metabolises and grazes on the plant at the cursor. *)
Definition graze (plants : list EntityID) (s : Column Energy * World * Z) (a : EntityID)
  : outcome (Column Energy * World * Z) :=
  let '(col, w, cursor) := s in
  let! v := energy_of col a in
  let v := i64 (v - 1) in
  let! (col, w, cursor, v) :=
    if 0 <? len plants then
      let! p := index plants (Z.rem cursor (len plants)) in
      let cursor := i64 (cursor + 1) in
      let! r := Column__Get col p in
      match r with
      | Some pv =>
          if 0 <? E pv then
            let! (col, w) := set_in col w p (mkEnergy (i64 (E pv - 1))) in
            Done (col, w, cursor, i64 (v + 3))
          else Done (col, w, cursor, v)
      | None => Done (col, w, cursor, v)
      end
    else Done (col, w, cursor, v) in
  let! (col, w) := set_in col w a (mkEnergy v) in
  Done (col, w, cursor).

(** A well-fed animal has a child; a starved one is noted. *)
Definition reproduce (canReproduce : bool) (animalTag : Z) (s : Column Energy * World * list EntityID) (a : EntityID)
  : outcome (Column Energy * World * list EntityID) :=
  let '(col, w, dead) := s in
  let! v := energy_of col a in
  if v <=? 0 then Done (col, w, dead ++ [a])
  else if canReproduce && (10 <=? v) then
    let! (col, w) := set_in col w a (mkEnergy (i64 (v - 5))) in
    let! (col, w) := birth col w animalTag 5 in
    Done (col, w, dead)
  else Done (col, w, dead).

Definition wither (col : Column Energy) (dead : list EntityID) (p : EntityID) : outcome (list EntityID) :=
  let! r := Column__Get col p in
  match r with
  | Some v => if E v <=? 0 then Done (dead ++ [p]) else Done dead
  | None => Done dead
  end.

Definition bury (s : Column Energy * World) (e : EntityID) : outcome (Column Energy * World) :=
  let '(col, w) := s in
  let! (w, _) := World__Destroy w e in
  let w := set_TagStore w (TagStore__RemoveEntity (w_TagStore w) e) in
  let! (col, rev, _) := Column__Remove col (w_revision w) e in
  Done (col, touch w rev).

(* examples/ecosystem/ecosystem.go:100-160 Ecosystem.Step *)
Definition Ecosystem__Step (m : Ecosystem) (w : World) : outcome (Ecosystem * World * option error) :=
  let! plants := plantIDs m w in
  let! (col, w) := ofold grow (eco_energyCol m, w) plants in
  let! animals := animalIDs m w in
  let! (col, w, cursor) := ofold (graze plants) (col, w, eco_plantCursor m) animals in
  let canReproduce := len animals <? ec_MaxAnimals (eco_cfg m) in
  let! (col, w, dead) := ofold (reproduce canReproduce (eco_animalTag m)) (col, w, []) animals in
  let! dead := ofold (wither col) dead plants in
  let! (col, w) := ofold bury (col, w) dead in
  let m := set_cursor (set_col m col) cursor in
  let! animals := animalIDs m w in
  let! plants := plantIDs m w in
  let total := Column__Each col (λ total _ v, i64 (total + E v)) 0 in
  Done (set_counts m (len animals) (len plants) total, w, None).

(* examples/ecosystem/ecosystem.go:162-169 Ecosystem.Metrics *)
Definition Metrics (m : Ecosystem) : gmap string float64 :=
  list_to_map [("animals"%string, f64_of_Z (eco_animalCount m)); ("plants"%string, f64_of_Z (eco_plantCount m));
               ("total_energy"%string, f64_of_Z (eco_totalEnergy m))].

Definition ecosystem_model : Model Ecosystem :=
  mkModel Ecosystem__Metadata Initialize (Some Ecosystem__Step) None None None.

Definition configured (c : Config) : Ecosystem := mkEco (withDefaults c) 0 newColumn 0 0 0 0 0 0.
End ecosystem.

(** ** The invariant of the population *)

Section population.
Context `{R : GoRuntime}.
Context (at_ pt : Z) (tags_ok : 0 ≤ at_ ∧ 0 ≤ pt ∧ at_ ≠ pt).
Implicit Types (w : World) (col : Column Energy) (M : gmap nat (EntityID * Energy)).

Definition has_tag w (tag : Z) (e : EntityID) : bool := tags_rel (w_TagStore w) e tag.
Definition plants_of w : list EntityID := filter (λ e, has_tag w pt e = true) (em_dense (w_Entities w)).
Definition animals_of w : list EntityID := filter (λ e, has_tag w at_ e = true) (em_dense (w_Entities w)).

(** Every entity has an energy and is either a plant or an animal; the dead have no tags. *)
Record nature (k : Z) col w M : Prop := {
  na_room : room k (w_Entities w);
  na_small : 0 ≤ k < 2 ^ 31 - 1;
  na_col : col_refines col M;
  na_people : em_dense (w_Entities w) ≡ₚ col_dense col;
  na_kinds e : e ∈ em_dense (w_Entities w) → has_tag w pt e = negb (has_tag w at_ e);
  na_clean e t : 0 ≤ t → has_tag w t e = true → e ∈ em_dense (w_Entities w);
}.

(** The energies satisfy [P]. *)
Definition fits (P : EntityID → Z → Prop) M : Prop := ∀ e v, M !! eidx e = Some (e, v) → P e (E v).

Lemma tagged_ok w tag : 0 ≤ tag → tagged w tag = Done (filter (λ e, has_tag w tag e = true) (em_dense (w_Entities w))).
Proof using Type.
  intros Ht. unfold tagged, EntityManager__IDs.
  assert (∀ l out, ofold (λ out e, let! has := TagStore__Has (w_TagStore w) e tag in Done (if has then out ++ [e] else out)) out l
    = Done (out ++ filter (λ e, has_tag w tag e = true) l)) as H; [|apply (H _ [])].
  induction l as [|e l IH]; intros out; cbn [ofold]; [by rewrite app_nil_r|].
  rewrite Has_correct by done. cbn [obind]. rewrite IH, filter_cons. unfold has_tag.
  destruct (tags_rel (w_TagStore w) e tag); cbn; [by rewrite <- app_assoc|done].
Qed.

Lemma entity_entry k col w M e :
  nature k col w M → e ∈ em_dense (w_Entities w) ↔ ∃ v, M !! eidx e = Some (e, v).
Proof using Type.
  intros Hn. rewrite (na_people _ _ _ _ Hn). split; [apply col_entry, Hn|].
  intros [v Hv]. by apply (col_entry_dense _ _ _ _ _ (na_col _ _ _ _ Hn) Hv).
Qed.

Lemma energy_of_ok k col w M e v : nature k col w M → M !! eidx e = Some (e, v) → energy_of col e = Done (E v).
Proof using Type. intros Hn Hv. unfold energy_of. by rewrite (Get_refines _ _ _ (na_col _ _ _ _ Hn)), Hv. Qed.

Lemma nature_len k col w M : nature k col w M → len (col_dense col) < 2 ^ 31 - 1.
Proof using Type.
  intros Hn. pose proof (rm_dense _ _ (na_room _ _ _ _ Hn)). pose proof (na_small _ _ _ _ Hn).
  unfold len in *. rewrite (na_people _ _ _ _ Hn) in *. lia.
Qed.

(** Writing the energy of an entity. *)
Lemma set_energy k col w M e v x :
  nature k col w M → M !! eidx e = Some (e, v) →
  ∃ col', set_in col w e (mkEnergy x) = Done (col', touch w (w_revision w)) ∧
    nature k col' (touch w (w_revision w)) (<[eidx e := (e, mkEnergy x)]> M).
Proof using Type.
  intros Hn Hv. pose proof (nature_len _ _ _ _ Hn). unfold set_in.
  destruct (Set_refines col M (w_revision w) e (mkEnergy x) (na_col _ _ _ _ Hn)) as (col' & Hs & Hc & _ & Hd); [done|].
  unfold owner in Hc. rewrite Hv in Hs, Hc, Hd. rewrite app_nil_r in Hd. rewrite Hs. cbn [obind].
  exists col'. split; [done|]. destruct Hn. split; try done. by rewrite Hd.
Qed.

Lemma updated M e v v' e' x :
  M !! eidx e = Some (e, v) → <[eidx e := (e, v')]> M !! eidx e' = Some (e', x) →
  (e' = e ∧ x = v') ∨ (e' ≠ e ∧ M !! eidx e' = Some (e', x)).
Proof using Type.
  intros Hv [[_ [= <- <-]]|[Hne Hl]]%lookup_insert_Some; [by left|right]. split; [congruence|done].
Qed.

Lemma updated_is_Some M e v v' e' :
  M !! eidx e = Some (e, v) → (∃ x, M !! eidx e' = Some (e', x)) → ∃ x, <[eidx e := (e, v')]> M !! eidx e' = Some (e', x).
Proof using Type.
  intros Hv [x Hx]. destruct (decide (eidx e = eidx e')) as [Heq|Hne]; [|exists x; by rewrite lookup_insert_ne].
  rewrite <- Heq, Hv in Hx. injection Hx as -> ->. exists v'. by rewrite lookup_insert_eq.
Qed.

Lemma fits_updated (P Q : EntityID → Z → Prop) M e v x :
  fits P M → M !! eidx e = Some (e, v) → (∀ e' y, e' ≠ e → P e' y → Q e' y) → Q e x →
  fits Q (<[eidx e := (e, mkEnergy x)]> M).
Proof using Type.
  intros HP Hv HQ Hx e' v' Hl. destruct (updated _ _ _ _ _ _ Hv Hl) as [[-> ->]|[Hne Hl']]; [done|]. by apply HQ, HP.
Qed.

(** ** Growth and grazing *)

(** Plants between [lo] and 8, animals between [lo] and [hi]. *)
Definition within w (lo hi : Z) (e : EntityID) (x : Z) : Prop :=
  lo ≤ x ∧ if has_tag w pt e then x ≤ 8 else x ≤ hi.

Definition same_life w w' : Prop := w_Entities w' = w_Entities w ∧ w_TagStore w' = w_TagStore w.

Lemma grow_all k hi ps col w M :
  nature k col w M → fits (within w 1 hi) M →
  (∀ p, p ∈ ps → has_tag w pt p = true ∧ ∃ v, M !! eidx p = Some (p, v)) →
  ∃ col' w' M', ofold grow (col, w) ps = Done (col', w') ∧ same_life w w' ∧ nature k col' w' M' ∧ fits (within w' 1 hi) M'.
Proof using Type.
  revert col w M. induction ps as [|p ps IH]; intros col w M Hn Hf Hps; cbn [ofold].
  { exists col, w, M. by split_and!. }
  destruct (Hps p) as [Hp [v Hv]]; [by left|]. unfold grow at 1. rewrite (energy_of_ok _ _ _ _ _ _ Hn Hv). cbn [obind].
  pose proof (Hf p v Hv) as [Hlo Hhi]. rewrite Hp in Hhi. destruct (Z.ltb_spec (E v) 8).
  - rewrite i64_id by (unfold in_i64; lia). destruct (set_energy k col w M p v (E v + 1) Hn Hv) as (col1 & -> & Hn1). cbn [obind].
    destruct (IH col1 (touch w (w_revision w)) _ Hn1) as (col' & w' & M' & He & Hs & Hn' & Hf').
    + eapply fits_updated; [exact Hf|done|done|]. unfold within. change (has_tag (touch w _) pt p) with (has_tag w pt p).
      rewrite Hp. lia.
    + intros p' Hp'. destruct (Hps p') as [Ht Hx]; [by right|]. split; [done|]. by eapply updated_is_Some.
    + exists col', w', M'. by split_and!.
  - cbn [obind]. apply (IH col w M); [done|done|]. intros p' Hp'. apply Hps. by right.
Qed.

(** While the animals in [rest] have not eaten yet. *)
Definition midday w (hi : Z) (rest : list EntityID) (e : EntityID) (x : Z) : Prop :=
  if has_tag w pt e then 0 ≤ x ≤ 8 else if decide (e ∈ rest) then 1 ≤ x ≤ hi else 0 ≤ x ≤ hi + 2.

Lemma midday_feed w hi a rest M v x :
  fits (midday w hi (a :: rest)) M → has_tag w pt a = false → a ∉ rest → M !! eidx a = Some (a, v) → 0 ≤ x ≤ hi + 2 →
  fits (midday w hi rest) (<[eidx a := (a, mkEnergy x)]> M).
Proof using Type.
  intros Hf Ha Hr Hv Hx. eapply fits_updated; [exact Hf|done| |].
  - intros e' y Hne. unfold midday. destruct (has_tag w pt e'); [done|].
    destruct (decide (e' ∈ rest)) as [Hin|Hin]; [by rewrite decide_True by (by right)|].
    by rewrite decide_False by (by intros [?|?]%elem_of_cons).
  - unfold midday. by rewrite Ha, decide_False.
Qed.

Lemma graze_ok k hi plants a rest col w M cursor :
  nature k col w M → fits (midday w hi (a :: rest)) M → has_tag w pt a = false → a ∉ rest →
  a ∈ em_dense (w_Entities w) → (∀ p, p ∈ plants → has_tag w pt p = true ∧ p ∈ em_dense (w_Entities w)) →
  0 ≤ cursor < 2 ^ 62 → 0 ≤ hi < 2 ^ 62 →
  ∃ col' w' M' cursor', graze plants (col, w, cursor) a = Done (col', w', cursor') ∧ same_life w w' ∧
    nature k col' w' M' ∧ fits (midday w' hi rest) M' ∧ cursor ≤ cursor' ≤ cursor + 1.
Proof using Type.
  intros Hn Hf Ha Hr Hin Hps Hcur Hhi. unfold graze.
  apply (entity_entry _ _ _ _ _ Hn) in Hin as [v Hv]. rewrite (energy_of_ok _ _ _ _ _ _ Hn Hv). cbn [obind].
  pose proof (Hf a v Hv) as Hva. unfold midday in Hva. rewrite Ha, decide_True in Hva by by left.
  rewrite (i64_id (E v - 1)) by (unfold in_i64; lia).
  assert (∀ cur', cursor ≤ cur' ≤ cursor + 1 → ∃ col' w' M' cursor',
    (let! (col, w) := set_in col w a (mkEnergy (E v - 1)) in Done (col, w, cur')) = Done (col', w', cursor') ∧ same_life w w' ∧
    nature k col' w' M' ∧ fits (midday w' hi rest) M' ∧ cursor ≤ cursor' ≤ cursor + 1) as Hhungry.
  { intros cur' Hc'. destruct (set_energy k col w M a v (E v - 1) Hn Hv) as (col1 & -> & Hn1). cbn [obind].
    eexists _, _, _, cur'. split_and!; [done|done|exact Hn1| |lia|lia]. eapply midday_feed; [exact Hf|done|done|exact Hv|lia]. }
  destruct (Z.ltb_spec 0 (len plants)); [|by apply Hhungry; lia].
  rewrite Z.rem_mod_nonneg by lia. pose proof (Z.mod_pos_bound cursor (len plants) ltac:(lia)).
  destruct (index_in_range plants (cursor mod len plants)) as [p Hp]; [lia|]. rewrite Hp. cbn [obind].
  apply index_Done in Hp as [_ Hp%list_elem_of_lookup_2]. rewrite (i64_id (cursor + 1)) by (unfold in_i64; lia).
  destruct (Hps p Hp) as [Hpt Hpin]. apply (entity_entry _ _ _ _ _ Hn) in Hpin as [pv Hpv].
  rewrite (Get_refines _ _ _ (na_col _ _ _ _ Hn)), Hpv. cbn [obind fmap option_fmap option_map snd].
  pose proof (Hf p pv Hpv) as Hvp. unfold midday in Hvp. rewrite Hpt in Hvp.
  destruct (Z.ltb_spec 0 (E pv)); [|cbn [obind]; apply Hhungry; lia].
  rewrite !i64_id by (unfold in_i64; lia).
  destruct (set_energy k col w M p pv (E pv - 1) Hn Hpv) as (col1 & -> & Hn1). cbn [obind].
  destruct (updated_is_Some M p pv (mkEnergy (E pv - 1)) a Hpv ltac:(by eexists)) as [v1 Hv1].
  destruct (set_energy k col1 _ _ a v1 (E v - 1 + 3) Hn1 Hv1) as (col2 & -> & Hn2). cbn [obind].
  eexists _, _, _, (cursor + 1). split_and!; [done|done|exact Hn2| |lia|lia].
  eapply midday_feed; [|done|done|exact Hv1|lia].
  eapply fits_updated; [exact Hf|done|done|]. unfold midday, has_tag. cbn [w_TagStore touch set_Components].
  unfold has_tag in Hpt. rewrite Hpt. lia.
Qed.

Lemma graze_all k hi plants l col w M cursor :
  nature k col w M → fits (midday w hi l) M → NoDup l →
  (∀ a, a ∈ l → has_tag w pt a = false ∧ a ∈ em_dense (w_Entities w)) →
  (∀ p, p ∈ plants → has_tag w pt p = true ∧ p ∈ em_dense (w_Entities w)) →
  0 ≤ cursor → cursor + len l < 2 ^ 62 → 0 ≤ hi < 2 ^ 62 →
  ∃ col' w' M' cursor', ofold (graze plants) (col, w, cursor) l = Done (col', w', cursor') ∧ same_life w w' ∧
    nature k col' w' M' ∧ fits (midday w' hi []) M' ∧ cursor ≤ cursor' ≤ cursor + len l.
Proof using Type.
  revert col w M cursor. induction l as [|a l IH]; intros col w M cursor Hn Hf Hnd Hl Hps Hc0 Hc Hhi; cbn [ofold].
  { exists col, w, M, cursor. split_and!; try done. unfold len. cbn. lia. }
  apply NoDup_cons in Hnd as [Ha Hnd]. rewrite len_cons in Hc. destruct (Hl a) as [Hat Hain]; [by left|]. pose proof (len_nonneg l).
  destruct (graze_ok k hi plants a l col w M cursor) as (col1 & w1 & M1 & c1 & -> & [He1 Ht1] & Hn1 & Hf1 & Hc1); [done..|lia|done|].
  cbn [obind]. assert (∀ tag e, has_tag w1 tag e = has_tag w tag e) as Htag by (intros; unfold has_tag; by rewrite Ht1).
  destruct (IH col1 w1 M1 c1 Hn1 Hf1 Hnd) as (col' & w' & M' & c' & He & [He' Ht'] & Hn' & Hf' & Hc'); [| |lia|lia|done|].
  - intros e Hin. rewrite Htag, He1. apply Hl. by right.
  - intros p Hp. rewrite Htag, He1. by apply Hps.
  - exists col', w', M', c'. rewrite len_cons. split_and!; try done; [split; congruence|lia|lia].
Qed.

(** ** Births *)

(** [id] was born with [tag]. *)
Record born w w' (tag : Z) (id : EntityID) : Prop := {
  bo_dense : em_dense (w_Entities w') = em_dense (w_Entities w) ++ [id];
  bo_fresh : id ∉ em_dense (w_Entities w);
  bo_old e t : 0 ≤ t → e ≠ id → has_tag w' t e = has_tag w t e;
  bo_new t : 0 ≤ t → has_tag w' t id = (t =? tag);
}.

Lemma born_select w w' tag id t :
  born w w' tag id → 0 ≤ t →
  filter (λ e, has_tag w' t e = true) (em_dense (w_Entities w'))
  = filter (λ e, has_tag w t e = true) (em_dense (w_Entities w)) ++ (if t =? tag then [id] else []).
Proof using Type.
  intros [Hd Hfr Ho Hne] Ht. rewrite Hd, filter_app. f_equal.
  - apply filter_ext_in. intros e He. rewrite Ho; [done|done|]. by intros ->.
  - rewrite filter_cons, (Hne t Ht). by destruct (t =? tag).
Qed.

Lemma birth_ok k col w M tag x :
  nature k col w M → k + 1 < 2 ^ 31 - 1 → tag = at_ ∨ tag = pt →
  ∃ col' w' id, birth col w tag x = Done (col', w') ∧ nature (k + 1) col' w' (<[eidx id := (id, mkEnergy x)]> M) ∧
    M !! eidx id = None ∧ born w w' tag id.
Proof using tags_ok.
  intros Hn Hk Htag. pose proof (nature_len _ _ _ _ Hn) as Hlen. destruct tags_ok as (Ha & Hp & Hap).
  assert (0 ≤ tag) as Ht by (destruct Htag; lia). pose proof Hn as [Hroom Hsmall Hcol Hpeople Hkinds Hclean].
  unfold birth, World__Create. destruct (Create_room k (w_Entities w) (w_revision w) Hroom Hsmall) as (em & id & -> & Hroom' & Hd & Hnew).
  cbn [obind]. destruct (Add_correct (w_TagStore (set_Entities w em (bump (w_revision w)))) id tag Ht) as (ts & -> & Hts).
  cbn [obind w_TagStore set_Entities] in *. set (w1 := set_TagStore _ ts).
  assert (id ∉ em_dense (w_Entities w)) as Hfresh by (intros Hin; by apply (Hnew id)).
  assert (M !! eidx id = None) as Hnone.
  { destruct (M !! eidx id) as [[e v]|] eqn:He; [|done]. apply (col_entry_dense _ _ _ _ _ Hcol) in He as [Hi He].
    rewrite <- Hpeople in He. by apply Hnew in He. }
  unfold set_in. destruct (Set_refines col M (w_revision w1) id (mkEnergy x) Hcol Hlen) as (col' & Hs & Hc' & _ & Hdense).
  unfold owner in Hc'. rewrite Hnone in Hs, Hc', Hdense. rewrite Hs. cbn [obind].
  set (w' := touch w1 _). assert (born w w' tag id) as Hborn.
  { split; [done|done| |].
    - intros e t Ht0 Hne. unfold has_tag. change (w_TagStore w') with ts. rewrite Hts by done. by rewrite bool_decide_eq_false_2.
    - intros t Ht0. unfold has_tag. change (w_TagStore w') with ts. rewrite Hts, bool_decide_eq_true_2 by done. cbn.
      destruct (tags_rel (w_TagStore w) id t) eqn:Hold; [|apply orb_false_r]. by apply Hclean in Hold. }
  exists col', w', id. split; [done|]. split; [|done]. destruct Hborn as [Hbd _ Hbo Hbn].
  split; try done; try lia.
  - by rewrite Hbd, Hdense, Hpeople.
  - intros e. rewrite Hbd, elem_of_app, list_elem_of_singleton. destruct (decide (e = id)) as [->|Hne].
    + intros _. rewrite !Hbn by done. destruct Htag as [-> | ->].
      * rewrite Z.eqb_refl. by destruct (Z.eqb_spec pt at_).
      * rewrite Z.eqb_refl. by destruct (Z.eqb_spec at_ pt).
    + intros [Hin|?]; [|done]. rewrite !Hbo by done. by apply Hkinds.
  - intros e t Ht0 Htt. rewrite Hbd, elem_of_app, list_elem_of_singleton. destruct (decide (e = id)) as [->|Hne]; [by right|left].
    rewrite Hbo in Htt by done. by eapply Hclean.
Qed.

(** The animals visited so far: the starved are listed, the well fed have children. *)
Record evening (k hi : Z) col w M (dead rest : list EntityID) : Prop := {
  ev_nature : nature k col w M;
  ev_fits : fits (within w 0 (hi + 2)) M;
  ev_starved e v : M !! eidx e = Some (e, v) → has_tag w at_ e = true → E v ≤ 0 → e ∈ dead ∨ e ∈ rest;
  ev_nodup : NoDup (dead ++ rest);
  ev_animals a : a ∈ dead ++ rest → a ∈ animals_of w;
}.

Lemma evening_skip k hi col w M dead a rest :
  evening k hi col w M dead (a :: rest) → (∀ v, M !! eidx a = Some (a, v) → 0 < E v) → evening k hi col w M dead rest.
Proof using Type.
  clear tags_ok.
  intros [Hn Hf Hs Hnd Han] Ha. split; [done|done| | |].
  - intros e v Hl Ht Hle. destruct (Hs e v Hl Ht Hle) as [?|[->|?]%elem_of_cons]; [by left| |by right]. specialize (Ha v Hl). lia.
  - rewrite NoDup_app in *. rewrite NoDup_cons in Hnd. destruct Hnd as (H1 & H2 & H3 & H4). split_and!; [done| |done].
    intros x Hx Hr. apply (H2 x Hx). by right.
  - intros e He. apply Han. rewrite elem_of_app, elem_of_cons in *. tauto.
Qed.

Lemma elem_of_animals w e : e ∈ animals_of w ↔ has_tag w at_ e = true ∧ e ∈ em_dense (w_Entities w).
Proof using Type. unfold animals_of. by rewrite list_elem_of_filter. Qed.

(** A well-fed animal gives five units of its energy to a child. *)
Lemma litter_ok k hi a rest col w M dead v :
  evening k hi col w M dead rest → k + 1 < 2 ^ 31 - 1 → 3 ≤ hi → M !! eidx a = Some (a, v) →
  has_tag w pt a = false → 10 ≤ E v ≤ hi + 2 →
  ∃ col1 col2 w2 M2, set_in col w a (mkEnergy (E v - 5)) = Done (col1, touch w (w_revision w)) ∧
    birth col1 (touch w (w_revision w)) at_ 5 = Done (col2, w2) ∧ evening (k + 1) hi col2 w2 M2 dead rest ∧
    plants_of w2 = plants_of w ∧ len (animals_of w2) = len (animals_of w) + 1.
Proof using tags_ok.
  intros Hskip Hk Hhi Hv Hpt Hge. pose proof (ev_nature _ _ _ _ _ _ _ Hskip) as Hn.
  destruct (set_energy k col w M a v (E v - 5) Hn Hv) as (col1 & Hset & Hn1).
  destruct (birth_ok k col1 (touch w (w_revision w)) _ at_ 5 Hn1 Hk (or_introl eq_refl)) as (col2 & w2 & id & Hbi & Hn2 & Hnone & Hb).
  exists col1, col2, w2, (<[eidx id:=(id, mkEnergy 5)]> (<[eidx a:=(a, mkEnergy (E v - 5))]> M)). split; [done|]. split; [done|].
  destruct tags_ok as (Ha0 & Hp0 & Hap). pose proof Hb as [Hbd Hbf Hbo Hbn]. cbn [touch w_Entities set_Components] in Hbd, Hbf.
  destruct Hskip as [_ Hf Hs Hnd Han].
  assert (∀ e x, <[eidx id:=(id, mkEnergy 5)]> (<[eidx a:=(a, mkEnergy (E v - 5))]> M) !! eidx e = Some (e, x) →
    (e = id ∧ x = mkEnergy 5) ∨ (e ≠ id ∧ e = a ∧ x = mkEnergy (E v - 5)) ∨ (e ≠ id ∧ e ≠ a ∧ M !! eidx e = Some (e, x))) as Hcases.
  { intros e x [[_ [= <- <-]]|[Hne Hl]]%lookup_insert_Some; [by left|right].
    assert (e ≠ id) by congruence. destruct (updated _ _ _ _ _ _ Hv Hl) as [[-> ->]|[? ?]]; [by left|by right]. }
  split_and!.
  + split; [done| | |done|].
    * intros e x Hl. unfold within. destruct (Hcases e x Hl) as [[-> ->]|[(Hne & -> & ->)|(Hne & Hna & Hl')]].
      -- rewrite Hbn by done. destruct (Z.eqb_spec pt at_); [done|]. cbn. lia.
      -- rewrite Hbo by done. change (has_tag (touch w _) pt a) with (has_tag w pt a). rewrite Hpt. cbn. lia.
      -- rewrite Hbo by done. change (has_tag (touch w _) pt e) with (has_tag w pt e). by apply Hf.
    * intros e x Hl Ht Hle. destruct (Hcases e x Hl) as [[-> ->]|[(Hne & -> & ->)|(Hne & Hna & Hl')]]; [cbn in Hle; lia..|].
      rewrite Hbo in Ht by done. by eapply Hs.
    * intros e He. apply Han, elem_of_animals in He as [Ht He]. apply elem_of_animals. rewrite Hbd, elem_of_app.
      assert (e ≠ id) by (by intros ->). rewrite Hbo by done. by split; [|left].
  + unfold plants_of. rewrite (born_select _ _ _ _ pt Hb Hp0). destruct (Z.eqb_spec pt at_); [done|]. by rewrite app_nil_r.
  + unfold animals_of. rewrite (born_select _ _ _ _ at_ Hb Ha0), Z.eqb_refl, len_app. done.
Qed.

Lemma reproduce_ok k hi can a rest col w M dead :
  evening k hi col w M dead (a :: rest) → (can = true → k + 1 < 2 ^ 31 - 1) → 3 ≤ hi < 2 ^ 62 →
  ∃ col' w' M' dead' (b : Z), reproduce can at_ (col, w, dead) a = Done (col', w', dead') ∧
    evening (k + b) hi col' w' M' dead' rest ∧ 0 ≤ b ≤ (if can : bool then 1 else 0) ∧
    plants_of w' = plants_of w ∧ len (animals_of w') = len (animals_of w) + b.
Proof using tags_ok.
  intros Hev Hk Hhi. destruct (proj1 (elem_of_animals w a) (ev_animals _ _ _ _ _ _ _ Hev a ltac:(rewrite elem_of_app; right; by left))) as [Hat Hin].
  pose proof (ev_nature _ _ _ _ _ _ _ Hev) as Hn. pose proof (na_kinds _ _ _ _ Hn a Hin) as Hpt. rewrite Hat in Hpt. cbn in Hpt.
  apply (entity_entry _ _ _ _ _ Hn) in Hin as [v Hv]. pose proof (ev_fits _ _ _ _ _ _ _ Hev a v Hv) as [Hlo Hup]. rewrite Hpt in Hup.
  unfold reproduce. rewrite (energy_of_ok _ _ _ _ _ _ Hn Hv). cbn [obind]. destruct (Z.leb_spec (E v) 0) as [Hdead|Halive].
  - exists col, w, M, (dead ++ [a]), 0. split; [done|]. rewrite !Z.add_0_r. split_and!; try done; [|by destruct can].
    destruct Hev as [_ Hf Hs Hnd Han]. split; try done.
    + intros e x Hl Ht Hle. rewrite elem_of_app, list_elem_of_singleton. destruct (Hs e x Hl Ht Hle) as [?|[->|?]%elem_of_cons]; tauto.
    + by rewrite <- app_assoc.
    + rewrite <- app_assoc. exact Han.
  - assert (evening k hi col w M dead rest) as Hskip.
    { eapply evening_skip; [exact Hev|]. intros x Hx. rewrite Hv in Hx. by injection Hx as <-. }
    destruct (can && (10 <=? E v)) eqn:Hc.
    2: { exists col, w, M, dead, 0. split; [done|]. rewrite !Z.add_0_r. split_and!; try done. by destruct can. }
    apply andb_true_iff in Hc as [-> Hge%Z.leb_le]. rewrite i64_id by (unfold in_i64; lia).
    destruct (litter_ok k hi a rest col w M dead v) as (col1 & col2 & w2 & M2 & -> & Hbi & Hev2 & Hp2 & Ha2); [done|by apply Hk|lia|done|done|lia|].
    cbn [obind]. rewrite Hbi. cbn [obind]. exists col2, w2, M2, dead, 1. by split_and!.
Qed.

Lemma reproduce_all k hi can l col w M dead :
  evening k hi col w M dead l → k + (if can : bool then len l else 0) < 2 ^ 31 - 1 → 3 ≤ hi < 2 ^ 62 →
  ∃ col' w' M' dead' (b : Z), ofold (reproduce can at_) (col, w, dead) l = Done (col', w', dead') ∧
    evening (k + b) hi col' w' M' dead' [] ∧ 0 ≤ b ≤ (if can : bool then len l else 0) ∧
    plants_of w' = plants_of w ∧ len (animals_of w') = len (animals_of w) + b.
Proof using tags_ok.
  revert k col w M dead. induction l as [|a l IH]; intros k col w M dead Hev Hk Hhi; cbn [ofold].
  { exists col, w, M, dead, 0. rewrite !Z.add_0_r. split_and!; try done. by destruct can. }
  rewrite len_cons in *. pose proof (len_nonneg l).
  destruct (reproduce_ok k hi can a l col w M dead Hev) as (col1 & w1 & M1 & dead1 & b1 & -> & Hev1 & Hb1 & Hp1 & Ha1); [intros ->; lia|done|].
  cbn [obind]. destruct (IH (k + b1) col1 w1 M1 dead1 Hev1) as (col' & w' & M' & dead' & b & He & Hev' & Hb & Hp & Ha);
    [destruct can; lia|done|].
  exists col', w', M', dead', (b1 + b). rewrite Z.add_assoc. split_and!; [done|done|lia|destruct can; lia|congruence|lia].
Qed.

(** ** Death *)

Definition starved M (e : EntityID) : bool := match M !! eidx e with Some (_, v) => E v <=? 0 | None => false end.

Lemma wither_all col M ps dead :
  col_refines col M → ofold (wither col) dead ps = Done (dead ++ filter (λ p, starved M p = true) ps).
Proof using Type.
  intros Hc. revert dead. induction ps as [|p ps IH]; intros dead; cbn [ofold]; [by rewrite app_nil_r|].
  unfold wither at 1. rewrite (Get_refines _ _ _ Hc), filter_cons. cbn [obind].
  destruct (decide (starved M p = true)) as [Hs|Hs]; unfold starved in Hs;
    destruct (M !! eidx p) as [[e v]|]; try done; cbn [fmap option_fmap option_map snd].
  - rewrite Hs. cbn [obind]. by rewrite IH, <- app_assoc.
  - apply not_true_is_false in Hs. rewrite Hs. cbn [obind]. by rewrite IH.
  - cbn [obind]. by rewrite IH.
Qed.

Lemma bury_ok k col w M e :
  nature k col w M → e ∈ em_dense (w_Entities w) →
  ∃ col' w', bury (col, w) e = Done (col', w') ∧ nature k col' w' (delete (eidx e) M) ∧
    em_dense (w_Entities w) ≡ₚ e :: em_dense (w_Entities w') ∧
    ∀ e' t, has_tag w' t e' = negb (bool_decide (e' = e)) && has_tag w t e'.
Proof using Type.
  intros Hn Hin. pose proof (nature_len _ _ _ _ Hn) as Hlen. pose proof Hn as [Hroom Hsmall Hcol Hpeople Hkinds Hclean].
  unfold bury, World__Destroy. destruct (Destroy_room k (w_Entities w) (w_revision w) e Hroom Hsmall Hin) as (em & -> & Hroom' & Hem).
  cbn [obind]. set (w1 := set_TagStore _ _). apply (entity_entry _ _ _ _ _ Hn) in Hin as Hx. destruct Hx as [v Hv].
  pose proof (Remove_refines col M (w_revision w1) e Hcol ltac:(lia)) as Hrm. rewrite Hv in Hrm.
  destruct Hrm as (col' & -> & Hcol' & _ & Hperm). cbn [obind]. eexists _, _. split; [done|].
  assert (∀ e' t, has_tag (touch w1 (bump (w_revision w1))) t e' = negb (bool_decide (e' = e)) && has_tag w t e') as Htag.
  { intros e' t. apply RemoveEntity_correct. }
  pose proof (NoDup_fmap_1 _ _ (ss_NoDup _ _ _ (inv_ss _ (rm_inv _ _ Hroom)))) as Hnd. rewrite Hem in Hnd. apply NoDup_cons in Hnd as [Hout _].
  split; [|done]. split; try done.
  - cbn. apply (Permutation_cons_inv (a := e)). by rewrite <- Hem, Hpeople, Hperm.
  - intros e' He'. cbn in He'. assert (e' ≠ e) by (by intros ->). rewrite !Htag, bool_decide_eq_false_2 by done. cbn.
    apply Hkinds. rewrite Hem. by right.
  - intros e' t Ht Htt. rewrite Htag in Htt. apply andb_true_iff in Htt as [Hne%negb_true_iff%bool_decide_eq_false_1 Htt].
    cbn. specialize (Hclean e' t Ht Htt). rewrite Hem in Hclean. by apply elem_of_cons in Hclean as [?|?].
Qed.

Lemma bury_all k dead col w M :
  nature k col w M → NoDup dead → (∀ e, e ∈ dead → e ∈ em_dense (w_Entities w)) →
  ∃ col' w' M', ofold bury (col, w) dead = Done (col', w') ∧ nature k col' w' M' ∧
    (∀ e v, M' !! eidx e = Some (e, v) → M !! eidx e = Some (e, v)) ∧
    em_dense (w_Entities w) ≡ₚ dead ++ em_dense (w_Entities w') ∧
    ∀ e t, e ∉ dead → has_tag w' t e = has_tag w t e.
Proof using Type.
  clear tags_ok.
  revert col w M. induction dead as [|e dead IH]; intros col w M Hn Hnd Hin; cbn [ofold].
  { exists col, w, M. by split_and!. }
  apply NoDup_cons in Hnd as [He Hnd].
  destruct (bury_ok k col w M e Hn) as (col1 & w1 & -> & Hn1 & Hp1 & Ht1); [apply Hin; by left|]. cbn [obind].
  destruct (IH col1 w1 _ Hn1 Hnd) as (col' & w' & M' & Heq & Hn' & HM & Hp & Ht).
  { intros e' He'. specialize (Hin e' ltac:(by right)). rewrite Hp1 in Hin. by apply elem_of_cons in Hin as [->|?]. }
  exists col', w', M'. split_and!; [done|done| |by rewrite Hp1, Hp|].
  - intros e' v Hl. apply HM in Hl. by apply lookup_delete_Some in Hl as [_ ?].
  - intros e' t Hne. rewrite elem_of_cons in Hne. rewrite Ht by tauto. rewrite Ht1, bool_decide_eq_false_2; [done|]. tauto.
Qed.

(** The survivors with a tag. *)
Lemma survivors k col w' M' w dead t :
  nature k col w' M' → NoDup (em_dense (w_Entities w)) → em_dense (w_Entities w) ≡ₚ dead ++ em_dense (w_Entities w') →
  (∀ e t, e ∉ dead → has_tag w' t e = has_tag w t e) →
  len (filter (λ e, has_tag w' t e = true) (em_dense (w_Entities w')))
  ≤ len (filter (λ e, has_tag w t e = true) (em_dense (w_Entities w))).
Proof using Type.
  clear tags_ok.
  intros Hn Hnd Hp Ht. rewrite Hp in Hnd. apply NoDup_app in Hnd as (_ & Hdis & _). unfold len. rewrite Hp, filter_app, length_app.
  rewrite (filter_ext_in (λ e, has_tag w' t e = true) (λ e, has_tag w t e = true)); [lia|].
  intros e He. rewrite Ht; [done|]. intros Hd. by apply (Hdis e).
Qed.

Lemma elem_of_plants w e : e ∈ plants_of w ↔ has_tag w pt e = true ∧ e ∈ em_dense (w_Entities w).
Proof using Type. unfold plants_of. by rewrite list_elem_of_filter. Qed.

(** From the evening to the next morning: the starved are gone. *)
Lemma night_ok k hi col w M dead :
  evening k hi col w M dead [] → NoDup (em_dense (w_Entities w)) →
  ∃ all col' w' M', ofold (wither col) dead (plants_of w) = Done all ∧ ofold bury (col, w) all = Done (col', w') ∧
    nature k col' w' M' ∧ fits (within w' 1 (hi + 2)) M' ∧
    len (animals_of w') ≤ len (animals_of w) ∧ len (plants_of w') ≤ len (plants_of w).
Proof using Type.
  intros [Hn Hf Hs Hnd Han] Hem. rewrite app_nil_r in Hnd. setoid_rewrite app_nil_r in Han.
  rewrite (wither_all col M _ _ (na_col _ _ _ _ Hn)).
  set (all := dead ++ filter (λ p, starved M p = true) (plants_of w)).
  assert (∀ e, e ∈ all → e ∈ em_dense (w_Entities w)) as Hin.
  { intros e [He|He]%elem_of_app; [by apply Han, elem_of_animals in He as [_ ?]|].
    apply list_elem_of_filter in He as [_ He]. by apply elem_of_plants in He as [_ ?]. }
  assert (NoDup all) as Hall.
  { apply NoDup_app. split_and!; [done| |by apply NoDup_filter, NoDup_filter].
    intros e He Hp. apply Han, elem_of_animals in He as [Hat He]. apply list_elem_of_filter in Hp as [_ [Hpt _]%elem_of_plants].
    rewrite (na_kinds _ _ _ _ Hn e He), Hat in Hpt. done. }
  destruct (bury_all k all col w M Hn Hall Hin) as (col' & w' & M' & Hbury & Hn' & HM & Hp & Ht).
  exists all, col', w', M'. split_and!; [done|done|done| |by eapply survivors|by eapply survivors].
  intros e v Hl. assert (e ∉ all) as Hne.
  { assert (e ∈ em_dense (w_Entities w')) as Hlive by (apply (entity_entry _ _ _ _ _ Hn'); by eexists).
    rewrite Hp in Hem. apply NoDup_app in Hem as (_ & Hdis & _). intros Hd. by apply (Hdis e). }
  apply HM in Hl. pose proof (Hf e v Hl) as [Hlo Hhi]. unfold within. rewrite Ht by done. split; [|done].
  destruct (Z.le_gt_cases 1 (E v)) as [|Hle]; [done|]. exfalso. apply Hne, elem_of_app.
  assert (e ∈ em_dense (w_Entities w)) as Hlive by (apply (entity_entry _ _ _ _ _ Hn); by eexists).
  pose proof (na_kinds _ _ _ _ Hn e Hlive) as Hk. destruct (has_tag w at_ e) eqn:Hat.
  - left. destruct (Hs e v Hl Hat) as [?|?%elem_of_nil]; [lia|done|done].
  - right. apply list_elem_of_filter. rewrite elem_of_plants. unfold starved. rewrite Hl. split; [apply Z.leb_le; lia|done].
Qed.

(** From the morning to the evening: plants grow and animals graze. *)
Lemma day_ok k hi col w M cursor :
  nature k col w M → fits (within w 1 hi) M → 3 ≤ hi < 2 ^ 62 → 0 ≤ cursor → cursor + len (animals_of w) < 2 ^ 62 →
  ∃ col1 w1 col2 w2 M2 cur, ofold grow (col, w) (plants_of w) = Done (col1, w1) ∧ tagged w1 at_ = Done (animals_of w) ∧
    ofold (graze (plants_of w)) (col1, w1, cursor) (animals_of w) = Done (col2, w2, cur) ∧
    evening k hi col2 w2 M2 [] (animals_of w) ∧ same_life w w2 ∧ cursor ≤ cur ≤ cursor + len (animals_of w).
Proof using tags_ok.
  intros Hn Hf Hhi Hc0 Hc. destruct tags_ok as (Ha0 & Hp0 & Hap).
  destruct (grow_all k hi (plants_of w) col w M Hn Hf) as (col1 & w1 & M1 & Hg & [He1 Ht1] & Hn1 & Hf1).
  { intros p [Hp Hin]%elem_of_plants. split; [done|]. by apply (entity_entry _ _ _ _ _ Hn). }
  assert (∀ t e, has_tag w1 t e = has_tag w t e) as Htag1 by (intros; unfold has_tag; by rewrite Ht1).
  pose proof (NoDup_fmap_1 _ _ (ss_NoDup _ _ _ (inv_ss _ (rm_inv _ _ (na_room _ _ _ _ Hn))))) as Hnd.
  assert (∀ a, a ∈ animals_of w → has_tag w pt a = false ∧ a ∈ em_dense (w_Entities w)) as Hanim.
  { intros a [Ha Hin]%elem_of_animals. split_and!; [|done]. by rewrite (na_kinds _ _ _ _ Hn a Hin), Ha. }
  destruct (graze_all k hi (plants_of w) (animals_of w) col1 w1 M1 cursor Hn1) as (col2 & w2 & M2 & cur & Hz & [He2 Ht2] & Hn2 & Hf2 & Hcur);
    [|by apply NoDup_filter| | |done|done|lia|].
  { intros e v Hl. pose proof (Hf1 e v Hl) as [Hlo Hup]. unfold midday. destruct (has_tag w1 pt e) eqn:Hpe; [lia|].
    rewrite decide_True; [lia|]. apply elem_of_animals. rewrite <- Htag1, <- He1.
    assert (e ∈ em_dense (w_Entities w1)) as Hin by (apply (entity_entry _ _ _ _ _ Hn1); by eexists).
    split; [|done]. rewrite (na_kinds _ _ _ _ Hn1 e Hin) in Hpe. by apply negb_false_iff. }
  { intros a Ha. rewrite Htag1, He1. by apply Hanim. }
  { intros p Hp. rewrite Htag1, He1. by apply elem_of_plants. }
  assert (∀ t e, has_tag w2 t e = has_tag w t e) as Htag2 by (intros; rewrite <- Htag1; unfold has_tag; by rewrite Ht2).
  exists col1, w1, col2, w2, M2, cur. split_and!; try done; [| |split; congruence|lia|lia].
  - rewrite tagged_ok by done. f_equal. rewrite He1. apply filter_ext_in. intros. by rewrite Htag1.
  - split; [done| | |by apply NoDup_filter|].
    + intros e v Hl. specialize (Hf2 e v Hl). unfold midday in Hf2. unfold within.
      destruct (has_tag w2 pt e); [lia|]. rewrite decide_False in Hf2; [lia|]. by intros ?%elem_of_nil.
    + intros e v Hl Ht _. right. apply elem_of_animals. rewrite <- Htag2, <- He1, <- He2. split; [done|].
      apply (entity_entry _ _ _ _ _ Hn2). by eexists.
    + intros a [Ha Hin]%elem_of_animals. apply elem_of_animals. by rewrite Htag2, He2, He1.
Qed.

(** A tick. *)
Lemma ecosystem_Step_ok k hi m w M :
  eco_animalTag m = at_ → eco_plantTag m = pt → nature k (eco_energyCol m) w M → fits (within w 1 hi) M →
  3 ≤ hi < 2 ^ 62 → 0 ≤ eco_plantCursor m → eco_plantCursor m + len (animals_of w) < 2 ^ 62 →
  k + (if len (animals_of w) <? ec_MaxAnimals (eco_cfg m) then len (animals_of w) else 0) < 2 ^ 31 - 1 →
  ∃ m' w' M' (b : Z), Ecosystem__Step m w = Done (m', w', None) ∧
    nature (k + b) (eco_energyCol m') w' M' ∧ fits (within w' 1 (hi + 2)) M' ∧
    0 ≤ b ≤ (if len (animals_of w) <? ec_MaxAnimals (eco_cfg m) then len (animals_of w) else 0) ∧
    len (animals_of w') ≤ len (animals_of w) + b ∧ len (plants_of w') ≤ len (plants_of w) ∧
    eco_cfg m' = eco_cfg m ∧ eco_animalTag m' = at_ ∧ eco_plantTag m' = pt ∧
    eco_plantCursor m ≤ eco_plantCursor m' ≤ eco_plantCursor m + len (animals_of w) ∧
    eco_animalCount m' = len (animals_of w') ∧ eco_plantCount m' = len (plants_of w').
Proof using tags_ok.
  intros Hat Hpt Hn Hf Hhi Hc0 Hc Hk. pose proof tags_ok as (Ha0 & Hp0 & Hap). unfold Ecosystem__Step, plantIDs, animalIDs.
  rewrite Hpt, Hat, tagged_ok by done. cbn [obind]. fold (plants_of w).
  destruct (day_ok k hi (eco_energyCol m) w M (eco_plantCursor m) Hn Hf Hhi Hc0 Hc)
    as (col1 & w1 & col2 & w2 & M2 & cur & -> & Hta & Hz & Hev & [He2 Ht2] & Hcur).
  cbn [obind]. rewrite Hta. cbn [obind]. rewrite Hz. cbn [obind].
  destruct (reproduce_all k hi (len (animals_of w) <? ec_MaxAnimals (eco_cfg m)) _ _ _ _ _ Hev Hk Hhi)
    as (col3 & w3 & M3 & dead & b & -> & Hev3 & Hb & Hp3 & Ha3). cbn [obind].
  assert (plants_of w2 = plants_of w ∧ animals_of w2 = animals_of w) as [Epl Ean].
  { unfold plants_of, animals_of, has_tag. by rewrite He2, Ht2. }
  rewrite Epl in Hp3. rewrite Ean in Ha3.
  destruct (night_ok _ _ _ _ _ _ Hev3) as (all & col' & w' & M' & Hw & Hbury & Hn' & Hf' & Hla & Hlp).
  { apply (NoDup_fmap_1 eidx). eapply ss_NoDup, inv_ss, rm_inv, na_room, Hev3. }
  rewrite <- Hp3, Hw. cbn [obind]. rewrite Hbury. cbn [obind set_cursor set_col eco_animalTag eco_plantTag].
  rewrite Hat, Hpt, !tagged_ok by done. cbn [obind]. fold (plants_of w'). fold (animals_of w').
  eexists _, w', M', b. split; [done|]. cbn [set_counts set_cursor set_col eco_energyCol eco_cfg eco_animalTag eco_plantTag eco_plantCursor
    eco_animalCount eco_plantCount]. split_and!; try done; lia.
Qed.

(** The seeding loops. *)
Lemma seed_ok n tag base spread k col w M r :
  nature k col w M → fits (within w 1 8) M → tag = at_ ∨ tag = pt → 1 ≤ base → 0 < spread → base + spread ≤ 9 →
  k + Z.of_nat n < 2 ^ 31 - 1 →
  ∃ col' w' M' r', seed_entities n tag base spread (col, w, r) = Done (col', w', r') ∧
    nature (k + Z.of_nat n) col' w' M' ∧ fits (within w' 1 8) M' ∧
    len (plants_of w') = len (plants_of w) + (if pt =? tag then Z.of_nat n else 0) ∧
    len (animals_of w') = len (animals_of w) + (if at_ =? tag then Z.of_nat n else 0).
Proof using tags_ok.
  intros Hn Hf Htag Hb Hs Hbs. revert k col w M r Hn Hf.
  induction n as [|n IH]; intros k col w M r Hn Hf Hk; cbn [seed_entities].
  { exists col, w, M, r. rewrite Z.add_0_r. split_and!; try done; [destruct (pt =? tag)|destruct (at_ =? tag)]; lia. }
  destruct (Uint64n_Done r spread) as (d & u & -> & Hu & _); [lia|]. cbn [obind].
  rewrite (i64_id u) by (unfold in_i64; lia).
  destruct (birth_ok k col w M tag (base + u) Hn) as (col1 & w1 & id & -> & Hn1 & Hnone & Hbo); [lia|done|]. cbn [obind].
  destruct tags_ok as (Ha0 & Hp0 & _).
  destruct (IH (k + 1) col1 w1 _ (after r (S d)) Hn1) as (col' & w' & M' & r' & -> & Hn' & Hf' & Hp & Ha); [|lia|].
  { intros e v Hl. unfold within. destruct Hbo as [_ _ Hold _].
    apply lookup_insert_Some in Hl as [[_ [= <- <-]]|[Hne Hl]]; [split; cbn [E]; [lia|destruct (has_tag w1 pt id); lia]|].
    rewrite Hold by (done || congruence). by apply Hf. }
  exists col', w', M', r'. replace (k + Z.of_nat (S n)) with (k + 1 + Z.of_nat n) by lia. split_and!; [done..| |].
  - rewrite Hp. unfold plants_of at 1. rewrite (born_select _ _ _ _ pt Hbo Hp0), len_app. fold (plants_of w).
    destruct (pt =? tag); [change (len [id]) with 1|change (len (@nil EntityID)) with 0]; lia.
  - rewrite Ha. unfold animals_of at 1. rewrite (born_select _ _ _ _ at_ Hbo Ha0), len_app. fold (animals_of w).
    destruct (at_ =? tag); [change (len [id]) with 1|change (len (@nil EntityID)) with 0]; lia.
Qed.

End population.

(** ** Runs *)

Section runs.
Context `{R : GoRuntime}.

Lemma ecosystem_withDefaults_pos c :
  1 ≤ ec_Plants (withDefaults c) ∧ 1 ≤ ec_Animals (withDefaults c) ∧ 1 ≤ ec_MaxAnimals (withDefaults c).
Proof. cbn. destruct (Z.leb_spec (ec_Plants c) 0), (Z.leb_spec (ec_Animals c) 0), (Z.leb_spec (ec_MaxAnimals c) 0); lia. Qed.

(** The population cannot exceed this many animals. *)
Definition animal_bound (c : Config) : Z := Z.max (ec_Animals c) (2 * (ec_MaxAnimals c - 1)).

(** The state after [j] ticks: the animals have tag 0 and the plants tag 1. *)
Record thrives (c : Config) (j : Z) (m : Ecosystem) (w : World) : Prop := {
  th_cfg : eco_cfg m = c;
  th_animal : eco_animalTag m = 0;
  th_plant : eco_plantTag m = 1;
  th_nature : ∃ M, nature 0 1 (ec_Plants c + ec_Animals c + j * ec_MaxAnimals c) (eco_energyCol m) w M ∧
                fits (within 1 w 1 (8 + 2 * j)) M;
  th_animals : len (animals_of 0 w) ≤ animal_bound c;
  th_plants : len (plants_of 1 w) ≤ ec_Plants c;
  th_cursor : 0 ≤ eco_plantCursor m ≤ j * animal_bound c;
  th_counts : 0 < j → eco_animalCount m = len (animals_of 0 w) ∧ eco_plantCount m = len (plants_of 1 w);
}.

(** The configuration can run for [n] ticks: at most [MaxAnimals] entities are born per tick. *)
Definition lasts (c : Config) (n : Z) : Prop := ec_Plants c + ec_Animals c + n * ec_MaxAnimals c < 2 ^ 31 - 1.

Lemma nature_more at_ pt k k' col w M : nature at_ pt k col w M → k ≤ k' → k' < 2 ^ 31 - 1 → nature at_ pt k' col w M.
Proof.
  intros [[Hi Hn Hd Hv] Hs Hc Hp Hk Hcl] Hle Hlt. split; try done; [|lia]. split; [done|lia|lia|].
  intros i v Hl. specialize (Hv i v Hl). lia.
Qed.

Lemma bounded_run c n j :
  1 ≤ ec_Plants c → 1 ≤ ec_Animals c → 1 ≤ ec_MaxAnimals c → lasts c n → 0 ≤ j < n →
  (j + 1) * ec_MaxAnimals c ≤ n * ec_MaxAnimals c ∧ j + 1 < 2 ^ 31 ∧ 0 ≤ animal_bound c ∧ (j + 1) * animal_bound c < 2 ^ 62.
Proof.
  unfold lasts, animal_bound. intros HP HA HM Hn Hj.
  assert ((j + 1) * ec_MaxAnimals c ≤ n * ec_MaxAnimals c) by (apply Z.mul_le_mono_nonneg_r; lia).
  assert (j + 1 ≤ (j + 1) * ec_MaxAnimals c) by nia.
  assert ((j + 1) * ec_Animals c ≤ (2 ^ 31 - 1) * (2 ^ 31 - 1)) by (apply Z.mul_le_mono_nonneg; lia).
  split_and!; lia.
Qed.

Lemma ecosystem_tick_ok c n j m w :
  1 ≤ ec_Plants c → 1 ≤ ec_Animals c → 1 ≤ ec_MaxAnimals c → lasts c n → 0 ≤ j < n → thrives c j m w →
  ∃ m' w', executor__step (tickExecutor Ecosystem__Step) m w = Done (tickExecutor Ecosystem__Step, m', w', true, None) ∧
    thrives c (j + 1) m' w'.
Proof.
  intros HP HA HM Hn Hj [Hcfg Hat Hpt (M & Hnat & Hf) Han Hpl Hcur Hcounts]. unfold lasts in Hn.
  destruct (bounded_run c n j HP HA HM Hn Hj) as (Hmul & Hj31 & Hab & Habj). pose proof (len_nonneg (animals_of 0 w)).
  destruct (ecosystem_Step_ok 0 1 ltac:(lia) (ec_Plants c + ec_Animals c + j * ec_MaxAnimals c) (8 + 2 * j) m w M)
    as (m' & w' & M' & b & He & Hn' & Hf' & Hb' & Ha' & Hp' & Hcfg' & Hat' & Hpt' & Hcur' & Hca & Hcp); try done; try lia.
  { rewrite Hcfg. destruct (Z.ltb_spec (len (animals_of 0 w)) (ec_MaxAnimals c)); lia. }
  rewrite Hcfg in Hb'. exists m', (tick_clock w'). cbn [executor__step]. unfold tickExecutor__step. rewrite He. cbn [obind].
  split; [done|].
  assert (b ≤ ec_MaxAnimals c ∧ len (animals_of 0 w) + b ≤ animal_bound c) as [HbM Hba].
  { unfold animal_bound in *. destruct (Z.ltb_spec (len (animals_of 0 w)) (ec_MaxAnimals c)); lia. }
  change (animals_of 0 w') with (animals_of 0 (tick_clock w')) in *. change (plants_of 1 w') with (plants_of 1 (tick_clock w')) in *.
  split; try done; try lia; [congruence|]. exists M'. split; [|by replace (8 + 2 * (j + 1)) with (8 + 2 * j + 2) by lia].
  eapply nature_more; [by destruct Hn'|lia|lia].
Qed.

Lemma ecosystem_Initialize_ok c id seed meta :
  ec_Plants (withDefaults c) + ec_Animals (withDefaults c) < 2 ^ 31 - 1 →
  ∃ m w, Initialize (configured c) (set_Meta (NewWorld id seed) meta 0) = Done (m, w, None) ∧
    thrives (withDefaults c) 0 m w.
Proof.
  intros Hn. destruct (ecosystem_withDefaults_pos c) as (HP & HA & HM). unfold Initialize. cbn [configured eco_cfg eco_plantCursor].
  destruct (Z.eqb_spec (ec_Plants (withDefaults c)) 0); [lia|]. set (d := withDefaults c) in *. clearbody d.
  destruct (ComponentStore__Register _ _) as [cs energyID].
  change (TagRegistry__Register (w_Tags (set_Components (set_Meta (NewWorld id seed) meta 0) cs
    (w_revision (set_Meta (NewWorld id seed) meta 0)))) "animal")
    with (mkTR ["animal"%string] (<["animal"%string := 0]> ∅), 0). cbv beta iota.
  change (TagRegistry__Register (mkTR ["animal"%string] (<["animal"%string := 0]> ∅)) "plant")
    with (mkTR ["animal"%string; "plant"%string] (<["plant"%string := 1]> (<["animal"%string := 0]> ∅)), 1). cbv beta iota.
  set (w0 := set_Tags _ _).
  assert (nature 0 1 0 newColumn w0 ∅) as Hn0.
  { split; [apply New_room|done|apply newColumn_refines|done|by intros e ?%elem_of_nil|].
    intros e t Ht. unfold has_tag. done. }
  destruct (seed_ok 0 1 ltac:(lia) (Z.to_nat (ec_Plants d)) 1 3 3 0 newColumn w0 ∅ (RandomStreams__StreamU64 (w_Random w0) 1) Hn0)
    as (col1 & w1 & M1 & r1 & -> & Hn1 & Hf1 & Hp1 & Ha1); [by intros e v ?%lookup_empty_Some|by right|lia..|].
  cbn [obind]. destruct (seed_ok 0 1 ltac:(lia) (Z.to_nat (ec_Animals d)) 0 4 4 _ col1 w1 M1 r1 Hn1 Hf1)
    as (col2 & w2 & M2 & r2 & -> & Hn2 & Hf2 & Hp2 & Ha2); [by left|lia..|].
  cbn [obind]. eexists _, w2. split; [done|].
  change (len (plants_of 1 w0)) with 0 in Hp1. change (len (animals_of 0 w0)) with 0 in Ha1. cbn [Z.eqb Pos.eqb] in *.
  split; cbn [eco_cfg eco_animalTag eco_plantTag eco_plantCursor eco_energyCol configured]; try done; unfold animal_bound; try lia.
  exists M2. split; [|done].
  by replace (ec_Plants d + ec_Animals d + 0 * ec_MaxAnimals d)
    with (0 + Z.of_nat (Z.to_nat (ec_Plants d)) + Z.of_nat (Z.to_nat (ec_Animals d))) by lia.
Qed.

(** C22: the ecosystem model keeps its population in bounds: for every scenario and number of
    ticks for which the entity indices last, creating the simulation and running it completes
    without an error or a panic; then every entity is either a plant or an animal, not both, and
    has an energy; a plant has between 1 and 8 units, an animal at least 1; there are at most as
    many plants as configured, and at most twice the carrying capacity less two animals, or as
    many as there were in the beginning; and the reported counts are those of the entities. *)
Theorem ecosystem_bounded {U : Unwinding Ecosystem} GOMAXPROCS (cfg : Runtime.Config) c n :
  cfg_Mode cfg = ModeTick → 1 ≤ n → lasts (withDefaults c) n →
  ∃ sim s, Runtime.New GOMAXPROCS cfg ecosystem_model (configured c) = Done (Ok sim) ∧
    RunN (S (Z.to_nat n)) sim n = Some (Done (s, None)) ∧ sim_steps s = n ∧
    ∃ plants animals, plantIDs (sim_m s) (sim_world s) = Done plants ∧ animalIDs (sim_m s) (sim_world s) = Done animals ∧
    eco_plantCount (sim_m s) = len plants ∧ eco_animalCount (sim_m s) = len animals ∧
    plants ++ animals ≡ₚ EntityManager__IDs (w_Entities (sim_world s)) ∧
    len plants ≤ ec_Plants (withDefaults c) ∧
    len animals ≤ Z.max (ec_Animals (withDefaults c)) (2 * (ec_MaxAnimals (withDefaults c) - 1)) ∧
    (∀ p, p ∈ plants → ∃ v, Column__Get (eco_energyCol (sim_m s)) p = Done (Some v) ∧ 1 ≤ E v ≤ 8) ∧
    (∀ a, a ∈ animals → ∃ v, Column__Get (eco_energyCol (sim_m s)) a = Done (Some v) ∧ 1 ≤ E v).
Proof.
  intros Hmode Hn Hlasts. destruct (ecosystem_withDefaults_pos c) as (HP & HA & HM).
  assert (n < 2 ^ 31 - 1 ∧ ec_Plants (withDefaults c) + ec_Animals (withDefaults c) < 2 ^ 31 - 1) as [Hn31 Hinit]
    by (unfold lasts in Hlasts; nia).
  unfold Runtime.New, newExecutor. rewrite Hmode. cbn [Z.eqb ModeTick obind ecosystem_model mo_Systems mo_Step].
  destruct (ecosystem_Initialize_ok c (cfg_ID cfg) (cfg_Seed cfg)
    (mkMeta (cfg_ID cfg) "ecosystem" "1.0.0" (cfg_Seed cfg) ModeTick) Hinit) as (m0 & w0 & Hi & H0).
  cbn [ecosystem_model mo_Initialize mo_Metadata mm_ID mm_Version Ecosystem__Metadata]. rewrite Hi. cbn [obind]. eexists.
  set (sim := mkSim _ _ _ _ _ _ _ _ _).
  destruct (RunN_invariant (tickExecutor Ecosystem__Step) (thrives (withDefaults c)) (λ _, False) sim n)
    as (s & Hrun & Hst & Hth & Hsteps & [Hall|[]]).
  { done. } { done. } { lia. } { done. }
  { intros j m w Hj HI. destruct (ecosystem_tick_ok (withDefaults c) n j m w HP HA HM Hlasts Hj HI) as (m' & w' & Hstep & HI').
    by exists m', w', true. }
  exists s. split; [done|]. split; [exact Hrun|]. split; [done|].
  destruct Hth as [Hcfg Hat Hpt (M & Hnat & Hf) Han Hpl Hcur Hcounts]. destruct Hcounts as [Hca Hcp]; [lia|].
  unfold plantIDs, animalIDs. rewrite Hpt, Hat, !tagged_ok by done. fold (plants_of 1 (sim_world s)). fold (animals_of 0 (sim_world s)).
  eexists _, _. split; [done|]. split; [done|]. split_and!; [done|done| |done|done| |].
  - unfold plants_of, animals_of, EntityManager__IDs.
    rewrite (filter_ext_in (λ e, has_tag (sim_world s) 1 e = true) (λ e, ¬ has_tag (sim_world s) 0 e = true)).
    { rewrite Permutation_app_comm. apply filter_app_complement. }
    intros e He. rewrite (na_kinds _ _ _ _ _ _ Hnat e He). destruct (has_tag (sim_world s) 0 e); cbn; naive_solver.
  - intros p [Hp Hin]%elem_of_plants. apply (entity_entry _ _ _ _ _ _ _ Hnat) in Hin as [v Hv].
    exists v. rewrite (Get_refines _ _ _ (na_col _ _ _ _ _ _ Hnat)), Hv. split; [done|]. pose proof (Hf p v Hv) as [Hlo Hup].
    rewrite Hp in Hup. lia.
  - intros a [Ha Hin]%elem_of_animals. apply (entity_entry _ _ _ _ _ _ _ Hnat) in Hin as [v Hv].
    exists v. rewrite (Get_refines _ _ _ (na_col _ _ _ _ _ _ Hnat)), Hv. split; [done|]. apply (Hf a v Hv).
Qed.
End runs.

Definition meadow : Config := mkConfig 8 3 4.
Definition tick_config : Runtime.Config := Runtime.mkConfig "e" 1 ModeTick 0 fzero 0.

Lemma ecosystem_bounded_witness :
  ∃ sim s, Runtime.New (R := Toy.runtime) 1 tick_config ecosystem_model (configured meadow) = Done (Ok sim) ∧
    RunN 101 sim 100 = Some (Done (s, None)) ∧ eco_animalCount (sim_m s) ≤ 6.
Proof.
  destruct (ecosystem_bounded (R := Toy.runtime) 1 tick_config meadow 100)
    as (sim & s & Hn & Hr & _ & ps & as_ & _ & _ & _ & Hc & _ & _ & Hb & _); [reflexivity|lia|reflexivity|].
  exists sim, s. split; [exact Hn|]. split; [exact Hr|]. rewrite Hc. exact Hb.
Defined.

(** The number of animals after [n] ticks. *)
Definition animals_after (n : Z) : option Z :=
  match Runtime.New (R := Toy.runtime) 1 tick_config ecosystem_model (configured meadow) with
  | Done (Ok sim) => match RunN (S (Z.to_nat n)) sim n with Some (Done (s, None)) => Some (eco_animalCount (sim_m s)) | _ => None end
  | _ => None
  end.

(** The capacity is checked once per tick, before the births: three animals in a meadow with a
    carrying capacity of four become five. *)
Theorem carrying_capacity_exceeded :
  ec_MaxAnimals meadow = 4 ∧ animals_after 1 = Some 3 ∧ animals_after 2 = Some 5 ∧ animals_after 3 = Some 5.
Proof. by vm_compute. Qed.
