(* ===== verification/Economy.v ===== *)
(** * The economy model: [examples/economy/economy.go]

    A price series that emerges from aggregate supply and demand.  The multiplications and
    additions round separately, as they do on amd64, where Go does not fuse them. *)

From S2P Require Import Prelude Float64 FloatRound Rng SparseSet Entity GoValues Interning Component Tags Heap Events World.
From S2P Require Import Snapshot Scheduler Runtime Population ModelRuns.
Local Open Scope Z_scope.

(* examples/economy/economy.go:18-27 Config *)
Record Config := mkConfig {
  ecn_Agents : Z;
  ecn_Productivity : float64;
  ecn_Demand : float64;
  ecn_PriceAdjust : float64;
  ecn_PriceCap : float64;
  ecn_SupplyShockTick : Z;
  ecn_ShockFactor : float64;
}.

(** The constants [0.05], [0.5], [0.9], [0.2] and [0.01], correctly rounded. *)
Definition ratio (a b : Z) : float64 := fdiv (f64_of_Z a) (f64_of_Z b).
Definition cent : float64 := ratio 1 100.

(* examples/economy/economy.go:29-46 Config.withDefaults *)
Definition withDefaults (c : Config) : Config :=
  mkConfig (if ecn_Agents c <=? 0 then 100 else ecn_Agents c)
    (if fle (ecn_Productivity c) fzero then f64_of_Z 10 else ecn_Productivity c)
    (if fle (ecn_Demand c) fzero then f64_of_Z 10 else ecn_Demand c)
    (if fle (ecn_PriceAdjust c) fzero then ratio 5 100 else ecn_PriceAdjust c)
    (ecn_PriceCap c) (ecn_SupplyShockTick c)
    (if fle (ecn_ShockFactor c) fzero then ratio 5 10 else ecn_ShockFactor c).

(* examples/economy/economy.go:48-52 Agent *)
Record Agent := mkAgent { Cash : float64; Goods : float64 }.

Section economy.
Context `{R : GoRuntime}.

(* examples/economy/economy.go:54-65 Economy *)
Record Economy := mkEconomy {
  ecn_cfg : Config;
  ecn_agentID : Z;
  ecn_agentCol : Column Agent;
  ecn_price : float64;
  ecn_totalWealth : float64;
  ecn_prices : list float64;
  ecn_rng : RNG;
}.

(* examples/economy/economy.go:67-76 Economy.Metadata *)
Definition Economy__Metadata : ModelMetadata :=
  mkModelMeta "economy" "Economy" "1.0.0" "A price series emerges from aggregate supply and demand." ModeTick.

(** The JSON decoding of the configuration is an argument. *)
(* examples/economy/economy.go:78-88 Economy.Configure *)
Definition Configure (parse : string → result Config) (m : Economy) (raw : string) : Economy * option error :=
  let zero := mkConfig 0 fzero fzero fzero fzero 0 fzero in
  match (if decide (raw = ""%string) then Ok zero else parse raw) with
  | Err e => (m, Some e)
  | Ok c => (mkEconomy (withDefaults c) (ecn_agentID m) (ecn_agentCol m) (ecn_price m) (ecn_totalWealth m)
               (ecn_prices m) (ecn_rng m), None)
  end.

(* examples/economy/economy.go:90-102 Economy.Initialize *)
Definition Initialize (m : Economy) (w : World) : outcome (Economy * World * option error) :=
  let cfg := if ecn_Agents (ecn_cfg m) =? 0 then withDefaults (ecn_cfg m) else ecn_cfg m in
  let '(cs, agentID) := ComponentStore__Register (w_Components w) "econ.agent" in
  let w := set_Components w cs (w_revision w) in
  let stream := RandomStreams__StreamU64 (w_Random w) 1 in
  let! (col, w, _) := spawn (λ r, Done (mkAgent (f64_of_Z 100) (ecn_Productivity cfg), r))
    (Z.to_nat (ecn_Agents cfg)) (newColumn, w, stream) in
  Done (mkEconomy cfg agentID col fone (ecn_totalWealth m) (ecn_prices m) stream, w, None).

(** The factor on production at a tick. *)
Definition shock (cfg : Config) (tick : Z) : float64 :=
  if (0 <? ecn_SupplyShockTick cfg) && (ecn_SupplyShockTick cfg <=? tick) then ecn_ShockFactor cfg else fone.

(** Production: every agent produces with a noise of its own; supply is the sum. *)
Definition produce (cfg : Config) (factor : float64) (col : Column Agent) (r : RNG) : list float64 * float64 * RNG :=
  Column__Each col (λ '(prods, supply, r) _ _,
    let '(f, r) := Float64 r in
    let p := fmul (fmul (ecn_Productivity cfg) (fadd (ratio 9 10) (fmul (ratio 2 10) f))) factor in
    (prods ++ [p], fadd supply p, r)) ([], fzero, r).

(** The price moves with excess demand; a cap bounds it, and the floor is a cent. *)
Definition adjust (cfg : Config) (price demand supply : float64) : float64 :=
  let price := if flt fzero supply
               then fmul price (fadd fone (fdiv (fmul (ecn_PriceAdjust cfg) (fsub demand supply)) supply))
               else price in
  let price := if flt fzero (ecn_PriceCap cfg) && flt (ecn_PriceCap cfg) price then ecn_PriceCap cfg else price in
  fmax cent price.

(** The body of the loop in which the agents trade: [data], the slice [Each] reads from, is the
    one [Set] writes to. *)
Definition trade (cfg : Config) (price : float64) (prods : list float64) (dense : list EntityID)
    (s : Column Agent * World * float64) (i : Z) : outcome (Column Agent * World * float64) :=
  let '(col, w, total) := s in
  let! id := index dense i in
  let! a := index (col_data col) i in
  let! p := index prods i in
  let net := fsub p (ecn_Demand cfg) in
  let a := mkAgent (fadd (Cash a) (fmul net price)) (Goods a) in
  let! (col, w) := set_in col w id a in
  Done (col, w, fadd total (Cash a)).

(* examples/economy/economy.go:104-143 Economy.Step *)
Definition Economy__Step (m : Economy) (w : World) : outcome (Economy * World * option error) :=
  let cfg := ecn_cfg m in
  let tick := i64 (Clock__Tick (w_Clock w)) in
  let '(prods, supply, r) := produce cfg (shock cfg tick) (ecn_agentCol m) (ecn_rng m) in
  let demand := fmul (f64_of_Z (ecn_Agents cfg)) (ecn_Demand cfg) in
  let price := adjust cfg (ecn_price m) demand supply in
  let dense := col_dense (ecn_agentCol m) in
  let! (col, w, total) := ofold (trade cfg price prods dense) (ecn_agentCol m, w, fzero) (seqZ 0 (len dense)) in
  Done (mkEconomy cfg (ecn_agentID m) col price total (ecn_prices m ++ [price]) r, w, None).

(* examples/economy/economy.go:145-163 Economy.Metrics *)
Definition Metrics (m : Economy) : gmap string float64 :=
  match ecn_prices m with
  | [] => ∅
  | p0 :: _ =>
      let '(sum, lo, hi) := foldl (λ '(sum, lo, hi) p, (fadd sum p, fmin lo p, fmax hi p)) (fzero, p0, p0) (ecn_prices m) in
      list_to_map [("avg_price"%string, fdiv sum (f64_of_Z (len (ecn_prices m)))); ("final_price"%string, ecn_price m);
                   ("min_price"%string, lo); ("max_price"%string, hi); ("total_wealth"%string, ecn_totalWealth m)]
  end.

Definition economy_model : Model Economy :=
  mkModel Economy__Metadata Initialize (Some Economy__Step) None None None.

Definition configured (c : Config) : Economy := mkEconomy (withDefaults c) 0 newColumn fzero fzero [] (mkRNG 0).
End economy.

(** ** Prices *)

(** What holds of every recorded price: a number is at least a cent, and at most the cap if
    there is one. *)
Definition priced (c : Config) (p : float64) : Prop :=
  is_number p → fle cent p = true ∧ (flt fzero (ecn_PriceCap c) = true → fle p (fmax cent (ecn_PriceCap c)) = true).

Lemma cent_number : is_number cent.
Proof. vm_compute. exact I. Qed.

Lemma cent_nan p : is_number p = false → is_number (fmax cent p) = false.
Proof. destruct p; [discriminate..|vm_compute; reflexivity|discriminate]. Qed.

Lemma adjust_priced c price demand supply : priced c (adjust c price demand supply).
Proof.
  unfold priced, adjust. set (p := if flt fzero supply then _ else _). clearbody p.
  generalize cent, cent_number, cent_nan. intros ct Hc Hnan. destruct (flt fzero (ecn_PriceCap c)) eqn:Hcap; cbn [andb].
  - destruct (flt_number _ _ Hcap) as [_ Hcn]. destruct (flt (ecn_PriceCap c) p) eqn:Hp.
    + intros Hn. destruct (fmax_spec ct (ecn_PriceCap c) Hc Hcn) as (_ & Hle & _). split; [done|]. intros _. by apply fle_refl.
    + destruct (is_number p) eqn:Hpn; [|by rewrite (Hnan p Hpn)]. intros Hn. apply Is_true_true in Hpn.
      destruct (fmax_spec ct p Hc Hpn) as (Hor & Hle & _). split; [done|]. intros _.
      destruct (fmax_spec ct (ecn_PriceCap c) Hc Hcn) as (_ & Hl1 & Hl2).
      rewrite flt_fle in Hp by done. apply negb_false_iff in Hp. destruct Hor as [->| ->]; [done|].
      eapply fle_trans; [exact Hp|exact Hl2].
  - destruct (is_number p) eqn:Hpn; [|by rewrite (Hnan p Hpn)]. intros _. split; [|done]. apply Is_true_true in Hpn.
    by apply fmax_spec.
Qed.

(** The extremes reported are prices and bound the others. *)
Lemma extremes ps sum lo hi :
  is_number lo → is_number hi → Forall is_number ps →
  let '(_, lo', hi') := foldl (λ '(sum, lo, hi) p, (fadd sum p, fmin lo p, fmax hi p)) (sum, lo, hi) ps in
  (lo' = lo ∨ lo' ∈ ps) ∧ (hi' = hi ∨ hi' ∈ ps) ∧ is_number lo' ∧ is_number hi' ∧ fle lo' lo = true ∧ fle hi hi' = true ∧
  ∀ p, p ∈ ps → fle lo' p = true ∧ fle p hi' = true.
Proof.
  revert sum lo hi. induction ps as [|p ps IH]; intros sum lo hi Hlo Hhi Hps; cbn [foldl].
  { split_and!; auto using fle_refl. by intros p ?%elem_of_nil. }
  apply Forall_cons in Hps as [Hp Hps].
  destruct (fmin_spec lo p Hlo Hp) as (Hm & Hm1 & Hm2), (fmax_spec hi p Hhi Hp) as (HM & HM1 & HM2).
  assert (is_number (fmin lo p) ∧ is_number (fmax hi p)) as [Hmn HMn] by (split; [destruct Hm as [->| ->]|destruct HM as [->| ->]]; done).
  specialize (IH (fadd sum p) _ _ Hmn HMn Hps). destruct (foldl _ _ ps) as [[? lo'] hi'].
  destruct IH as (Hl & Hh & Hln & Hhn & Hle & Hge & Hall). split_and!; try done.
  - destruct Hl as [->|?]; [|right; by right]. destruct Hm as [->| ->]; [by left|right; by left].
  - destruct Hh as [->|?]; [|right; by right]. destruct HM as [->| ->]; [by left|right; by left].
  - by eapply fle_trans.
  - by eapply fle_trans.
  - intros q [->|Hq]%elem_of_cons; [|by apply Hall]. split; by eapply fle_trans.
Qed.

(** ** The market *)

Section market.
Context `{R : GoRuntime}.
Implicit Types (col : Column Agent) (w : World).

Lemma produce_len cfg factor col r : length (produce cfg factor col r).1.1 = length (zip (col_dense col) (col_data col)).
Proof.
  unfold produce, Column__Each. set (l := zip _ _). clearbody l.
  assert (∀ ps s r, length (foldl (λ s (ev : EntityID * Agent), (λ '(prods, supply, r) (_ : EntityID) (_ : Agent),
    let '(f, r) := Float64 r in
    let p := fmul (fmul (ecn_Productivity cfg) (fadd (ratio 9 10) (fmul (ratio 2 10) f))) factor in
    (prods ++ [p], fadd supply p, r)) s ev.1 ev.2) (ps, s, r) l).1.1 = (length ps + length l)%nat) as H; [|apply (H [])].
  induction l as [|e l IH]; intros ps s r'; cbn [foldl]; [cbn; lia|]. destruct (Float64 r') as [f r''].
  rewrite IH, length_app. cbn. lia.
Qed.

(** One agent trades. *)
Lemma trade_ok cfg price prods col w M total i :
  col_refines col M → len (col_dense col) < 2 ^ 31 - 1 → length prods = length (col_dense col) → 0 ≤ i < len (col_dense col) →
  ∃ col' w' M' total', trade cfg price prods (col_dense col) (col, w, total) i = Done (col', w', total') ∧
    col_refines col' M' ∧ col_dense col' = col_dense col ∧ w_Entities w' = w_Entities w.
Proof.
  intros Hc Hl Hp Hi. unfold trade. destruct (index_in_range (col_dense col) i Hi) as [id Hid]. rewrite Hid. cbn [obind].
  destruct (index_in_range (col_data col) i) as [a ->]; [unfold len; rewrite (cinv_data _ (cref_inv _ _ Hc)); exact Hi|]. cbn [obind].
  destruct (index_in_range prods i) as [p ->]; [unfold len; rewrite Hp; exact Hi|]. cbn [obind].
  set (a' := mkAgent _ _). apply index_Done in Hid as [_ Hid%list_elem_of_lookup_2].
  destruct (col_entry _ _ _ Hc Hid) as [v Hv]. unfold set_in.
  destruct (Set_refines col M (w_revision w) id a' Hc Hl) as (col' & -> & Hc' & _ & Hd). rewrite Hv, app_nil_r in Hd. cbn [obind].
  eexists col', _, _, _. split; [done|]. split; [exact Hc'|]. done.
Qed.

Lemma trade_all cfg price prods l col w M total :
  col_refines col M → len (col_dense col) < 2 ^ 31 - 1 → length prods = length (col_dense col) →
  (∀ i, i ∈ l → 0 ≤ i < len (col_dense col)) →
  ∃ col' w' M' total', ofold (trade cfg price prods (col_dense col)) (col, w, total) l = Done (col', w', total') ∧
    col_refines col' M' ∧ col_dense col' = col_dense col ∧ w_Entities w' = w_Entities w.
Proof.
  revert col w M total. induction l as [|i l IH]; intros col w M total Hc Hl Hp Hin; cbn [ofold].
  { by exists col, w, M, total. }
  destruct (trade_ok cfg price prods col w M total i Hc Hl Hp) as (col1 & w1 & M1 & t1 & -> & Hc1 & Hd1 & He1); [apply Hin; by left|].
  cbn [obind]. rewrite <- Hd1 in *.
  destruct (IH col1 w1 M1 t1 Hc1 Hl Hp) as (col' & w' & M' & t' & -> & Hc' & Hd' & He'); [intros; apply Hin; by right|].
  exists col', w', M', t'. split_and!; [done|done|done|congruence].
Qed.

(** The state after [j] ticks. *)
Record market (c : Config) (j : Z) (m : Economy) w : Prop := {
  mk_cfg : ecn_cfg m = c;
  mk_col : ∃ M, col_refines (ecn_agentCol m) M;
  mk_agents : len (col_dense (ecn_agentCol m)) = ecn_Agents c;
  mk_people : em_dense (w_Entities w) = col_dense (ecn_agentCol m);
  mk_room : em_inv (w_Entities w);
  mk_count : len (ecn_prices m) = j;
  mk_prices : Forall (priced c) (ecn_prices m);
  mk_last : last (ecn_prices m) = if j =? 0 then None else Some (ecn_price m);
}.

Lemma economy_tick_ok c j m w :
  ecn_Agents c < 2 ^ 31 - 1 → 0 ≤ j → market c j m w →
  ∃ m' w', executor__step (tickExecutor Economy__Step) m w = Done (tickExecutor Economy__Step, m', w', true, None) ∧
    market c (j + 1) m' w'.
Proof.
  intros Ha Hj [Hcfg (M & Hc) Hag Hpe Hroom Hn Hpr _]. cbn [executor__step]. unfold tickExecutor__step, Economy__Step.
  destruct (produce _ _ _ _) as [[prods supply] r] eqn:Hp.
  assert (length prods = length (col_dense (ecn_agentCol m))) as Hlp.
  { pose proof (produce_len (ecn_cfg m) (shock (ecn_cfg m) (i64 (Clock__Tick (w_Clock w)))) (ecn_agentCol m) (ecn_rng m)) as H.
    rewrite Hp in H. cbn [fst] in H. rewrite H, length_zip, (cinv_data _ (cref_inv _ _ Hc)). lia. }
  set (price := adjust _ _ _ _).
  destruct (trade_all (ecn_cfg m) price prods (seqZ 0 (len (col_dense (ecn_agentCol m)))) (ecn_agentCol m) w M fzero Hc)
    as (col' & w' & M' & t' & -> & Hc' & Hd' & He'); [lia|done|intros i ?%elem_of_seqZ; lia|].
  cbn [obind]. eexists _, (tick_clock w'). split; [done|].
  split; cbn [ecn_cfg ecn_agentCol ecn_prices ecn_price]; rewrite ?Hd'; try done.
  - by exists M'.
  - change (em_dense (w_Entities w') = col_dense (ecn_agentCol m)). by rewrite He'.
  - change (em_inv (w_Entities w')). by rewrite He'.
  - rewrite len_app, Hn. done.
  - apply Forall_app. split; [done|]. constructor; [|done]. unfold price. rewrite Hcfg. apply adjust_priced.
  - destruct (Z.eqb_spec (j + 1) 0); [lia|]. by rewrite last_snoc.
Qed.

Lemma economy_Initialize_ok c id seed meta :
  ecn_Agents (withDefaults c) < 2 ^ 31 - 1 →
  ∃ m w, Initialize (configured c) (set_Meta (NewWorld id seed) meta 0) = Done (m, w, None) ∧ market (withDefaults c) 0 m w.
Proof.
  intros Ha. assert (1 ≤ ecn_Agents (withDefaults c)) as H1 by (cbn; destruct (Z.leb_spec (ecn_Agents c) 0); lia).
  unfold Initialize. cbn [configured ecn_cfg ecn_totalWealth ecn_prices].
  destruct (Z.eqb_spec (ecn_Agents (withDefaults c)) 0); [lia|]. set (d := withDefaults c) in *. clearbody d.
  destruct (ComponentStore__Register _ _) as [cs agentID]. set (w0 := set_Components _ cs _).
  destruct (spawn_ok (λ _, True) (λ r, Done (mkAgent (f64_of_Z 100) (ecn_Productivity d), r)) (Z.to_nat (ecn_Agents d)) 0
    newColumn ∅ w0 (RandomStreams__StreamU64 (w_Random w0) 1))
    as (col & em & rev & r & M & ids & -> & Hroom & Hd & Hl & Hc & _ & Hcd & _).
  { intros r. by eexists _, r. }
  { apply New_room. } { done. } { lia. } { apply newColumn_refines. } { by intros i e v ?%lookup_empty_Some. } { done. }
  cbn [obind]. eexists _, _. split; [done|]. cbn [newColumn col_dense app] in Hcd. change (em_dense (w_Entities w0)) with (@nil EntityID) in Hd.
  split; cbn [ecn_cfg ecn_agentCol ecn_prices]; rewrite ?Hcd; try done.
  - by exists M.
  - unfold len. rewrite Hl. lia.
  - apply (rm_inv _ _ Hroom).
Qed.

(** C23: the price series of the economy: for every scenario and number of ticks, creating the
    simulation and running it completes without an error or a panic; one price is recorded per
    tick, and the last one is the market price; every price that is a number is at least a cent
    and, with a cap, at most the cap (or the cent, if the cap is below it); no agent enters or
    leaves; and when all prices are numbers, the reported minimum and maximum are recorded prices
    that bound the others. *)
Theorem economy_prices {U : Unwinding Economy} GOMAXPROCS (cfg : Runtime.Config) c n :
  cfg_Mode cfg = ModeTick → ecn_Agents (withDefaults c) < 2 ^ 31 - 1 → 1 ≤ n < 2 ^ 63 →
  ∃ sim s, Runtime.New GOMAXPROCS cfg economy_model (configured c) = Done (Ok sim) ∧
    RunN (S (Z.to_nat n)) sim n = Some (Done (s, None)) ∧ sim_steps s = n ∧
    let m := sim_m s in
    len (ecn_prices m) = n ∧ last (ecn_prices m) = Some (ecn_price m) ∧
    (∀ p, p ∈ ecn_prices m → is_number p → fle cent p = true ∧
       (flt fzero (ecn_PriceCap c) = true → fle p (fmax cent (ecn_PriceCap c)) = true)) ∧
    Column__Len (ecn_agentCol m) = ecn_Agents (withDefaults c) ∧
    EntityManager__Len (w_Entities (sim_world s)) = ecn_Agents (withDefaults c) ∧
    (Forall is_number (ecn_prices m) →
       ∃ lo hi, Metrics m !! "min_price"%string = Some lo ∧ Metrics m !! "max_price"%string = Some hi ∧
         lo ∈ ecn_prices m ∧ hi ∈ ecn_prices m ∧ ∀ p, p ∈ ecn_prices m → fle lo p = true ∧ fle p hi = true).
Proof.
  intros Hmode Ha Hn. unfold Runtime.New, newExecutor. rewrite Hmode. cbn [Z.eqb ModeTick obind economy_model mo_Systems mo_Step].
  destruct (economy_Initialize_ok c (cfg_ID cfg) (cfg_Seed cfg)
    (mkMeta (cfg_ID cfg) "economy" "1.0.0" (cfg_Seed cfg) ModeTick) Ha) as (m0 & w0 & Hi & H0).
  cbn [economy_model mo_Initialize mo_Metadata mm_ID mm_Version Economy__Metadata]. rewrite Hi. cbn [obind]. eexists.
  set (sim := mkSim _ _ _ _ _ _ _ _ _).
  destruct (RunN_invariant (tickExecutor Economy__Step) (market (withDefaults c)) (λ _, False) sim n)
    as (s & Hrun & Hst & [Hcfg (M & Hc) Hag Hpe Hroom Hcount Hpr Hlast] & Hsteps & [Hall|[]]).
  { done. } { done. } { lia. } { done. }
  { intros j m w Hj HI. destruct (economy_tick_ok (withDefaults c) j m w Ha ltac:(lia) HI) as (m' & w' & Hstep & HI').
    by exists m', w', true. }
  exists s. split; [done|]. split; [exact Hrun|]. split; [done|]. rewrite Hall in *.
  split_and!; [done| | | | |].
  - rewrite Hlast. destruct (Z.eqb_spec n 0); [lia|done].
  - intros p Hp Hnum. rewrite Forall_forall in Hpr. by apply (Hpr p Hp).
  - unfold Column__Len, len in *. by rewrite (cinv_data _ (cref_inv _ _ Hc)).
  - unfold EntityManager__Len. by rewrite (inv_count _ Hroom), Hpe.
  - intros Hnum. unfold Metrics. destruct (ecn_prices (sim_m s)) as [|p0 ps] eqn:Hps; [by change (0 = n) in Hcount; lia|].
    assert (is_number p0) as Hp0 by by inversion Hnum.
    pose proof (extremes (p0 :: ps) fzero p0 p0 Hp0 Hp0 Hnum) as Hx. destruct (foldl _ _ (p0 :: ps)) as [[sum lo] hi].
    destruct Hx as (Hlo & Hhi & _ & _ & _ & _ & Hb). exists lo, hi. split; [done|]. split; [done|].
    split_and!; [| |done].
    + destruct Hlo as [->|?]; [by left|done].
    + destruct Hhi as [->|?]; [by left|done].
Qed.
End market.

Definition bazaar (productivity cap : float64) : Config := mkConfig 3 productivity fzero fzero cap 2 fzero.
Definition tick_config : Runtime.Config := Runtime.mkConfig "m" 7 ModeTick 0 fzero 0.

Lemma economy_prices_witness :
  ∃ sim s, Runtime.New (R := Toy.runtime) 1 tick_config economy_model (configured (bazaar fzero (f64_of_Z 2))) = Done (Ok sim) ∧
    RunN 51 sim 50 = Some (Done (s, None)) ∧ len (ecn_prices (sim_m s)) = 50 ∧
    (is_number (ecn_price (sim_m s)) → fle (ecn_price (sim_m s)) (f64_of_Z 2) = true).
Proof.
  destruct (economy_prices (R := Toy.runtime) 1 tick_config (bazaar fzero (f64_of_Z 2)) 50)
    as (sim & s & Hn & Hr & _ & Hlen & Hlast & Hpr & _); [reflexivity|reflexivity|lia|].
  exists sim, s. split; [exact Hn|]. split; [exact Hr|]. split; [exact Hlen|]. intros Hnum.
  apply (Hpr (ecn_price (sim_m s))); [|exact Hnum|reflexivity].
  apply last_Some in Hlast as [l ->]. apply elem_of_app. right. by left.
Defined.

(** The price after [n] ticks of a scenario. *)
Definition price_after (c : Config) (n : Z) : option float64 :=
  match Runtime.New (R := Toy.runtime) 1 tick_config economy_model (configured c) with
  | Done (Ok sim) => match RunN (S (Z.to_nat n)) sim n with Some (Done (s, None)) => Some (ecn_price (sim_m s)) | _ => None end
  | _ => None
  end.

(** The cap does not hold a price whose computation overflows: when the summed production is
    infinite, the excess demand relative to it is not a number, no comparison with the cap or
    the floor holds, and the price stays NaN for the rest of the run. *)
Theorem overflow_defeats_cap :
  is_number <$> price_after (bazaar (f64_of_Z (10 ^ 308)) (f64_of_Z 2)) 1 = Some false ∧
  is_number <$> price_after (bazaar (f64_of_Z (10 ^ 308)) (f64_of_Z 2)) 3 = Some false.
Proof. by vm_compute. Qed.
