(* ===== verification/GoText.v ===== *)
(** * Go text functions

    More of [strings] and [strconv], with the lemmas that relate splitting, cutting and trimming
    to concatenation: [strings.Split], [Cut], [Index], [LastIndex], [HasPrefix], [HasSuffix],
    [TrimPrefix], [TrimSuffix], [TrimSpace], [strconv.ParseUint]. *)

From Stdlib Require Import Ascii.
From stdpp Require Import pretty.
From S2P Require Import Prelude GoStrings.
Local Open Scope Z_scope.

(** A byte occurs in a string. *)
Fixpoint occurs (c : ascii) (s : string) : bool :=
  match s with EmptyString => false | String d s' => Ascii.eqb c d || occurs c s' end.

Lemma occurs_app c a b : occurs c (a +:+ b) = occurs c a || occurs c b.
Proof.
  induction a as [|d a IH]; [done|]. change (String d a +:+ b) with (String d (a +:+ b)). cbn.
  by rewrite IH, orb_assoc.
Qed.

(** Texts of characters of a kind. *)
Fixpoint every (P : ascii → bool) (s : string) : bool :=
  match s with EmptyString => true | String c s => P c && every P s end.

Lemma every_app P a b : every P (a +:+ b) = every P a && every P b.
Proof. induction a as [|c a IH]; [done|]. change (String c a +:+ b) with (String c (a +:+ b)). cbn. by rewrite IH, andb_assoc. Qed.

Lemma every_mono (P Q : ascii → bool) s : (∀ c, P c = true → Q c = true) → every P s = true → every Q s = true.
Proof. intros HPQ. induction s as [|c s IH]; [done|]. cbn. intros [Hc Hs]%andb_true_iff. by rewrite HPQ, IH. Qed.

(** A text without a stop character is not cut. *)
Lemma cut_any_app stop a b : every (λ c, negb (stop c)) a = true → cut_any stop (a +:+ b) = a +:+ cut_any stop b.
Proof. induction a as [|c a IH]; [done|]. change (String c a +:+ b) with (String c (a +:+ b)). cbn. intros [Hc%negb_true_iff Ha]%andb_true_iff. by rewrite Hc, IH. Qed.

Lemma app_empty_r (s : string) : s +:+ "" = s.
Proof. induction s as [|c s IH]; [done|]. change (String c s +:+ "") with (String c (s +:+ "")). by rewrite IH. Qed.

Lemma app_assoc_string (a b c : string) : a +:+ b +:+ c = (a +:+ b) +:+ c.
Proof.
  induction a as [|d a IH]; [done|].
  change (String d a +:+ b +:+ c) with (String d (a +:+ b +:+ c)). by rewrite IH.
Qed.

Lemma split_on_none sep s : occurs sep s = false → split_on sep s = [s].
Proof.
  induction s as [|c s IH]; [done|]. cbn. intros [Hc Hs]%orb_false_iff.
  rewrite Ascii.eqb_sym in Hc. by rewrite Hc, IH.
Qed.

Lemma split_on_sep sep a b :
  occurs sep a = false → split_on sep (a +:+ String sep b) = a :: split_on sep b.
Proof.
  induction a as [|c a IH]; cbn.
  - intros _. change ("" +:+ String sep b) with (String sep b). cbn. by rewrite Ascii.eqb_refl.
  - intros [Hc Ha]%orb_false_iff. change (String c a +:+ String sep b) with (String c (a +:+ String sep b)).
    cbn. rewrite Ascii.eqb_sym in Hc. by rewrite Hc, IH.
Qed.

(** [strings.Cut(s, sep)] for a one-byte separator: before, after, found. *)
Fixpoint Cut (sep : ascii) (s : string) : option (string * string) :=
  match s with
  | EmptyString => None
  | String c s' =>
      if Ascii.eqb c sep then Some (EmptyString, s')
      else match Cut sep s' with Some (a, b) => Some (String c a, b) | None => None end
  end.

Lemma Cut_sep sep a b : occurs sep a = false → Cut sep (a +:+ String sep b) = Some (a, b).
Proof.
  induction a as [|c a IH]; cbn.
  - intros _. change ("" +:+ String sep b) with (String sep b). cbn. by rewrite Ascii.eqb_refl.
  - intros [Hc Ha]%orb_false_iff. change (String c a +:+ String sep b) with (String c (a +:+ String sep b)).
    cbn. rewrite Ascii.eqb_sym in Hc. by rewrite Hc, IH.
Qed.

Lemma Cut_Some sep s a b : Cut sep s = Some (a, b) → s = a +:+ String sep b.
Proof.
  revert a b. induction s as [|c s IH]; intros a b; cbn; [done|]. destruct (Ascii.eqb_spec c sep) as [->|].
  - by intros [= <- <-].
  - destruct (Cut sep s) as [[a' b']|]; [|done]. intros [= <- <-]. by rewrite (IH a' b').
Qed.

Lemma Cut_None sep s : Cut sep s = None ↔ occurs sep s = false.
Proof.
  induction s as [|c s IH]; [done|]. cbn. rewrite (Ascii.eqb_sym sep c).
  destruct (Ascii.eqb c sep); [done|]. cbn. rewrite <- IH. by destruct (Cut sep s) as [[]|].
Qed.

(** The part before and after the last separator, for [strings.LastIndex]. *)
Fixpoint CutLast (sep : ascii) (s : string) : option (string * string) :=
  match s with
  | EmptyString => None
  | String c s' =>
      match CutLast sep s' with
      | Some (a, b) => Some (String c a, b)
      | None => if Ascii.eqb c sep then Some (EmptyString, s') else None
      end
  end.

Lemma CutLast_None sep s : occurs sep s = false → CutLast sep s = None.
Proof.
  induction s as [|c s IH]; [done|]. cbn. intros [Hc Hs]%orb_false_iff. rewrite IH by done.
  by rewrite Ascii.eqb_sym, Hc.
Qed.

Lemma CutLast_sep sep a b : occurs sep b = false → CutLast sep (a +:+ String sep b) = Some (a, b).
Proof.
  intros Hb. induction a as [|c a IH].
  - change ("" +:+ String sep b) with (String sep b). cbn. by rewrite CutLast_None, Ascii.eqb_refl.
  - change (String c a +:+ String sep b) with (String c (a +:+ String sep b)). cbn. by rewrite IH.
Qed.

Lemma CutLast_Some sep s a b : CutLast sep s = Some (a, b) → s = a +:+ String sep b ∧ occurs sep b = false.
Proof.
  revert a b. induction s as [|c s IH]; intros a b; [done|]. cbn.
  destruct (CutLast sep s) as [[a' b']|] eqn:E.
  - intros [= <- <-]. destruct (IH a' b' eq_refl) as [-> ?]. done.
  - destruct (Ascii.eqb_spec c sep) as [->|]; [|done]. intros [= <- <-]. split; [done|].
    clear IH. induction s as [|d s IH]; [done|]. cbn in *.
    destruct (CutLast sep s) as [[]|] eqn:Es; [done|]. rewrite (Ascii.eqb_sym sep d).
    destruct (Ascii.eqb d sep); [done|]. cbn. by apply IH.
Qed.

(** [strings.TrimPrefix], [None] when the prefix is absent. *)
Fixpoint strip_prefix (p s : string) : option string :=
  match p, s with
  | EmptyString, _ => Some s
  | String c p', String d s' => if Ascii.eqb c d then strip_prefix p' s' else None
  | String _ _, EmptyString => None
  end.

Lemma strip_prefix_app p s : strip_prefix p (p +:+ s) = Some s.
Proof.
  induction p as [|c p IH]; [done|]. change (String c p +:+ s) with (String c (p +:+ s)). cbn.
  by rewrite Ascii.eqb_refl.
Qed.

Lemma strip_prefix_Some p s r : strip_prefix p s = Some r → s = p +:+ r.
Proof.
  revert s. induction p as [|c p IH]; intros s; cbn; [by intros [= ->]|].
  destruct s as [|d s]; [done|]. destruct (Ascii.eqb_spec c d) as [->|]; [|done]. by intros ->%IH.
Qed.

Fixpoint rev_string (acc s : string) : string :=
  match s with EmptyString => acc | String c s' => rev_string (String c acc) s' end.

(** [strings.TrimSuffix], [None] when the suffix is absent. *)
Definition strip_suffix (suf s : string) : option string :=
  match strip_prefix (rev_string "" suf) (rev_string "" s) with
  | Some r => Some (rev_string "" r)
  | None => None
  end.

Lemma rev_string_app acc a b : rev_string acc (a +:+ b) = rev_string (rev_string acc a) b.
Proof.
  revert acc. induction a as [|c a IH]; intros acc; [done|].
  change (String c a +:+ b) with (String c (a +:+ b)). cbn. apply IH.
Qed.

Lemma rev_string_acc acc s : rev_string acc s = rev_string "" s +:+ acc.
Proof.
  revert acc. induction s as [|c s IH]; intros acc; [done|]. cbn. rewrite IH, (IH (String c "")).
  by rewrite <- app_assoc_string.
Qed.

Lemma rev_string_involutive s : rev_string "" (rev_string "" s) = s.
Proof.
  induction s as [|c s IH]; [done|]. cbn. rewrite (rev_string_acc (String c "")), rev_string_app, rev_string_acc.
  cbn. by rewrite IH.
Qed.

Lemma strip_suffix_app suf s : strip_suffix suf (s +:+ suf) = Some s.
Proof.
  unfold strip_suffix. rewrite rev_string_app, (rev_string_acc (rev_string "" s) suf), strip_prefix_app.
  by rewrite rev_string_involutive.
Qed.

(** [strings.TrimSpace] on ASCII text. *)
Definition is_space (c : ascii) : bool :=
  match N_of_ascii c with 9%N | 10%N | 11%N | 12%N | 13%N | 32%N => true | _ => false end.

Fixpoint trim_left (s : string) : string :=
  match s with String c s' => if is_space c then trim_left s' else s | EmptyString => s end.

Definition TrimSpace (s : string) : string := rev_string "" (trim_left (rev_string "" (trim_left s))).

(** Text without white space is not trimmed. *)
Fixpoint spaceless (s : string) : bool :=
  match s with String c s' => negb (is_space c) && spaceless s' | EmptyString => true end.

Lemma rev_string_spaceless acc s : spaceless acc → spaceless s → spaceless (rev_string acc s).
Proof.
  revert acc. induction s as [|c s IH]; intros acc Ha; [done|]. cbn. intros [Hc Hs]%andb_prop_elim.
  apply IH; [|done]. cbn. by apply andb_prop_intro.
Qed.

Lemma trim_left_spaceless s : spaceless s → trim_left s = s.
Proof. destruct s as [|c s]; [done|]. cbn. intros [Hc _]%andb_prop_elim. by destruct (is_space c). Qed.

Lemma TrimSpace_spaceless s : spaceless s → TrimSpace s = s.
Proof.
  intros Hs. unfold TrimSpace. rewrite (trim_left_spaceless s) by done.
  rewrite trim_left_spaceless by (by apply rev_string_spaceless). apply rev_string_involutive.
Qed.

(** [strconv.ParseUint(s, 10, 32)]. *)
Definition ParseUint32 (s : string) : option Z :=
  match parse_nat s with Some v => if v <? 2 ^ 32 then Some v else None | None => None end.

(** ** Decimal numbers: parsing undoes printing *)

Lemma digit_val_char x : (x < 10)%N → digit_val (pretty_N_char x) = Some (Z.of_N x).
Proof.
  intros Hx. assert (x = 0 ∨ x = 1 ∨ x = 2 ∨ x = 3 ∨ x = 4 ∨ x = 5 ∨ x = 6 ∨ x = 7 ∨ x = 8 ∨ x = 9)%N
    as Hc by lia. by repeat (destruct Hc as [->|Hc]; [done|]); subst.
Qed.

Lemma digits_val_go x s : digits_val 0 (pretty_N_go x s) = digits_val (Z.of_N x) s.
Proof.
  revert s. induction (N.lt_wf_0 x) as [x _ IH]; intros s.
  destruct (decide (x = 0)%N) as [->|Hx]; [by rewrite pretty_N_go_0|].
  rewrite pretty_N_go_step by lia. rewrite IH by (apply N.div_lt; lia). cbn [digits_val].
  rewrite digit_val_char by (apply N.mod_lt; lia). f_equal.
  rewrite N2Z.inj_div, N2Z.inj_mod. pose proof (Z.div_mod (Z.of_N x) 10). lia.
Qed.

Lemma pretty_N_nonempty (x : N) : pretty x ≠ ""%string.
Proof.
  unfold pretty, pretty_N. case_decide; [done|].
  assert (∀ x s, s ≠ ""%string → pretty_N_go x s ≠ ""%string) as Hgo.
  { clear. intros x. induction (N.lt_wf_0 x) as [x _ IH]; intros s Hs.
    destruct (decide (x = 0)%N) as [->|Hx]; [done|].
    rewrite pretty_N_go_step by lia. apply IH; [apply N.div_lt; lia|done]. }
  rewrite pretty_N_go_step by lia. by apply Hgo.
Qed.

Lemma parse_nat_pretty_N (x : N) : parse_nat (pretty x) = Some (Z.of_N x).
Proof.
  pose proof (pretty_N_nonempty x) as Hne. unfold parse_nat.
  assert (digits_val 0 (pretty x) = Some (Z.of_N x)) as Hd.
  { unfold pretty, pretty_N. case_decide; [by subst|]. by rewrite digits_val_go. }
  by destruct (pretty x).
Qed.

Lemma pretty_Z_nonneg (n : Z) : 0 ≤ n → pretty n = pretty (Z.to_N n).
Proof. intros Hn. destruct n as [|p|p]; [done|done|lia]. Qed.

Lemma parse_nat_pretty (n : Z) : 0 ≤ n → parse_nat (pretty n) = Some n.
Proof. intros Hn. rewrite pretty_Z_nonneg, parse_nat_pretty_N by done. f_equal. lia. Qed.

Lemma parse_nat_head s n : parse_nat s = Some n → ∃ c s' d, s = String c s' ∧ digit_val c = Some d.
Proof.
  destruct s as [|c s]; [done|]. unfold parse_nat. cbn [digits_val].
  destruct (digit_val c) as [d|] eqn:Hd; [|done]. intros _. by exists c, s, d.
Qed.

Lemma Atoi_parse_nat s n : parse_nat s = Some n → 0 ≤ n < 2 ^ 63 → Atoi s = Some n.
Proof.
  intros Hp Hn. destruct (parse_nat_head _ _ Hp) as (c & s' & d & -> & Hd). unfold Atoi.
  assert (match String c s' with
          | String "-" s' => match parse_nat s' with Some v => Some (- v)%Z | None => None end
          | String "+" s' => parse_nat s'
          | _ => parse_nat (String c s')
          end = Some n) as ->.
  { destruct c as [[] [] [] [] [] [] [] []]; try exact Hp; discriminate Hd. }
  destruct (Z.leb_spec (- 2 ^ 63) n), (Z.ltb_spec n (2 ^ 63)); try lia. done.
Qed.

Lemma Atoi_pretty (n : Z) : 0 ≤ n < 2 ^ 63 → Atoi (pretty n) = Some n.
Proof. intros Hn. apply Atoi_parse_nat; [apply parse_nat_pretty; lia|done]. Qed.
