(* ===== verification/GoFlag.v ===== *)
(** * Command lines: Go's [flag] package and the numbers it accepts

    The parser of a flag set with [flag.ExitOnError], for flags that take a value, and
    [strconv.ParseUint] and [strconv.ParseInt] with base 0, which read the numeric flags.  What the
    package prints is left out. *)

From Stdlib Require Import Ascii.
From S2P Require Import Prelude GoStrings GoText.
Local Open Scope Z_scope.

(** ** [strconv.ParseUint(s, 0, 64)] and [strconv.ParseInt(s, 0, 64)] *)

Definition lower (c : ascii) : ascii :=
  let n := N_of_ascii c in if (65 <=? n)%N && (n <=? 90)%N then ascii_of_N (n + 32) else c.

(** The value of a digit in any base, a letter standing for ten and more. *)
Definition any_digit (c : ascii) : option Z :=
  let n := Z.of_N (N_of_ascii (lower c)) in
  if (48 <=? n) && (n <=? 57) then Some (n - 48)
  else if (97 <=? n) && (n <=? 122) then Some (n - 97 + 10) else None.

Fixpoint based_digits (base acc : Z) (s : string) : option Z :=
  match s with
  | EmptyString => Some acc
  | String "_" s => based_digits base acc s
  | String c s =>
      match any_digit c with
      | Some d => if d <? base then
                    let n := acc * base + d in if 2 ^ 64 <=? n then None else based_digits base n s
                  else None
      | None => None
      end
  end.

(** Underscores separate digits, or follow a base prefix; [last] is what came before: ['^'] the
    start, ['0'] a digit, ['_'] an underscore, ['!'] anything else. *)
Fixpoint underscores (hex : bool) (last : ascii) (s : string) : bool :=
  match s with
  | EmptyString => negb (Ascii.eqb last "_")
  | String c s =>
      let digit := match any_digit c with Some d => (d <? 10) || (hex && (d <? 16)) | None => false end in
      if digit then underscores hex "0" s
      else if Ascii.eqb c "_" then if Ascii.eqb last "0" then underscores hex "_" s else false
      else if Ascii.eqb last "_" then false else underscores hex "!" s
  end.

Definition base_prefix (s : string) : Z * string :=
  match s with
  | String "0" (String p (String c rest as digits)) =>
      match lower p with
      | "b"%char => (2, digits)
      | "o"%char => (8, digits)
      | "x"%char => (16, digits)
      | _ => (8, String p digits)
      end
  | String "0" rest => (8, rest)
  | _ => (10, s)
  end.

Definition underscoreOK (s : string) : bool :=
  let s := match s with String "-" r | String "+" r => r | _ => s end in
  match s with
  | String "0" (String p rest) =>
      match lower p with
      | "b"%char | "o"%char => underscores false "0" rest
      | "x"%char => underscores true "0" rest
      | _ => underscores false "^" s
      end
  | _ => underscores false "^" s
  end.

Definition ParseUint0 (s : string) : option Z :=
  match s with
  | EmptyString => None
  | _ =>
      let '(base, digits) := base_prefix s in
      match based_digits base 0 digits with
      | Some n => if occurs "_" digits && negb (underscoreOK s) then None else Some n
      | None => None
      end
  end.

Definition ParseInt0 (s : string) : option Z :=
  let '(neg, digits) := match s with String "-" r => (true, r) | String "+" r => (false, r) | _ => (false, s) end in
  match ParseUint0 digits with
  | Some n => if neg then (if 2 ^ 63 <? n then None else Some (- n)) else (if 2 ^ 63 <=? n then None else Some n)
  | None => None
  end.

(** ** Flag sets *)

(** The name and the value of an argument after its dashes; [None] is a malformed flag. *)
Definition flag_name (s : string) : option (string * option string) :=
  match s with
  | EmptyString | String "-" _ | String "=" _ => None
  | String c rest =>
      match Cut "=" rest with
      | Some (name, value) => Some (String c name, Some value)
      | None => Some (s, None)
      end
  end.

Section flags.
Context {F : Type} (names : list string) (set_flag : F → string → string → option F).

(** [FlagSet.Parse]: the flags, or the code the process exits with; [set_flag] refuses a value that
    is malformed. *)
Fixpoint parse_flags (f : F) (args : list string) : F + Z :=
  match args with
  | [] => inl f
  | arg :: args' =>
      match arg with
      | String "-" (String c rest) =>
          let body := if Ascii.eqb c "-" then rest else String c rest in
          if Ascii.eqb c "-" && bool_decide (rest = ""%string) then inl f
          else
            match flag_name body with
            | None => inr 2
            | Some (name, value) =>
                if bool_decide (name ∈ names) then
                  match value with
                  | Some v => match set_flag f name v with Some f => parse_flags f args' | None => inr 2 end
                  | None =>
                      match args' with
                      | [] => inr 2
                      | v :: args'' => match set_flag f name v with Some f => parse_flags f args'' | None => inr 2 end
                      end
                  end
                else if bool_decide (name = "help"%string) || bool_decide (name = "h"%string) then inr 0 else inr 2
            end
      | _ => inl f
      end
  end.
End flags.

(** What is accepted: base prefixes, separated digits, values of the width; nothing else. *)
Example flag_numbers :
  ParseUint0 "0x_ff" = Some 255 ∧ ParseUint0 "1_000" = Some 1000 ∧ ParseUint0 "1__0" = None ∧ ParseUint0 "017" = Some 15 ∧
  ParseUint0 "0" = Some 0 ∧ ParseUint0 "08" = None ∧ ParseUint0 "18446744073709551616" = None ∧
  ParseInt0 "-9223372036854775808" = Some (- 2 ^ 63) ∧ ParseInt0 "9223372036854775808" = None.
Proof. by vm_compute. Qed.
