(* ===== verification/Base64.v ===== *)
(** * Base64: Go's [encoding/base64.RawStdEncoding]

    The unpadded standard alphabet, on byte slices: three bytes are four digits of six bits, and
    the decoder skips carriage returns and newlines, refuses foreign characters and a single
    trailing digit, and ignores the unused low bits of the last digit. *)

From Stdlib Require Import Ascii.
From S2P Require Import Prelude GoStrings GoText.
Local Open Scope Z_scope.

Definition is_byte (b : Z) : Prop := 0 ≤ b < 256.

Definition b64_char (d : Z) : ascii :=
  ascii_of_N (Z.to_N
    (if d <? 26 then d + 65 else if d <? 52 then d + 71 else if d <? 62 then d - 4
     else if d =? 62 then 43 else 47)).

Definition b64_digit (c : ascii) : option Z :=
  let n := Z.of_N (N_of_ascii c) in
  if (65 <=? n) && (n <=? 90) then Some (n - 65)
  else if (97 <=? n) && (n <=? 122) then Some (n - 71)
  else if (48 <=? n) && (n <=? 57) then Some (n + 4)
  else if n =? 43 then Some 62
  else if n =? 47 then Some 63
  else None.

(** The digits of a byte slice. *)
Fixpoint b64_digits (bs : list Z) : list Z :=
  match bs with
  | a :: b :: c :: bs' =>
      let v := a * 2 ^ 16 + b * 2 ^ 8 + c in
      v / 2 ^ 18 :: v / 2 ^ 12 mod 64 :: v / 2 ^ 6 mod 64 :: v mod 64 :: b64_digits bs'
  | [a; b] => let v := a * 2 ^ 16 + b * 2 ^ 8 in [v / 2 ^ 18; v / 2 ^ 12 mod 64; v / 2 ^ 6 mod 64]
  | [a] => let v := a * 2 ^ 16 in [v / 2 ^ 18; v / 2 ^ 12 mod 64]
  | [] => []
  end.

(** The bytes of a list of digits; [None] is a corrupt length. *)
Fixpoint b64_bytes (ds : list Z) : option (list Z) :=
  match ds with
  | d0 :: d1 :: d2 :: d3 :: ds' =>
      let v := d0 * 2 ^ 18 + d1 * 2 ^ 12 + d2 * 2 ^ 6 + d3 in
      (λ bs, v / 2 ^ 16 :: v / 2 ^ 8 mod 256 :: v mod 256 :: bs) <$> b64_bytes ds'
  | [d0; d1; d2] =>
      let v := d0 * 2 ^ 18 + d1 * 2 ^ 12 + d2 * 2 ^ 6 in Some [v / 2 ^ 16; v / 2 ^ 8 mod 256]
  | [d0; d1] => let v := d0 * 2 ^ 18 + d1 * 2 ^ 12 in Some [v / 2 ^ 16]
  | [_] => None
  | [] => Some []
  end.

Definition text_of (cs : list ascii) : string := foldr String EmptyString cs.

Fixpoint chars_of (s : string) : list ascii :=
  match s with EmptyString => [] | String c s' => c :: chars_of s' end.

(** [EncodeToString] and [DecodeString]. *)
Definition EncodeToString (bs : list Z) : string := text_of (b64_char <$> b64_digits bs).

Definition is_newline (c : ascii) : bool := Ascii.eqb c "010" || Ascii.eqb c "013".

Definition DecodeString (s : string) : option (list Z) :=
  mapM b64_digit (filter (λ c, is_newline c = false) (chars_of s)) ≫= b64_bytes.

(** A decidable property of the sixty-four digits, by evaluation. *)
Lemma digits_check (P : Z → Prop) `{∀ d, Decision (P d)} :
  bool_decide (Forall P (seqZ 0 64)) = true → ∀ d, 0 ≤ d < 64 → P d.
Proof.
  intros HP%bool_decide_eq_true d Hd. rewrite Forall_forall in HP. apply HP, elem_of_seqZ. lia.
Qed.

Lemma b64_digit_char d : 0 ≤ d < 64 → b64_digit (b64_char d) = Some d.
Proof. revert d. apply (digits_check (λ d, b64_digit (b64_char d) = Some d)). by vm_compute. Qed.

Lemma b64_char_plain d : 0 ≤ d < 64 →
  is_newline (b64_char d) = false ∧ Ascii.eqb "$" (b64_char d) = false ∧ Ascii.eqb "," (b64_char d) = false.
Proof.
  revert d. apply (digits_check (λ d, is_newline (b64_char d) = false ∧
    Ascii.eqb "$" (b64_char d) = false ∧ Ascii.eqb "," (b64_char d) = false)). by vm_compute.
Qed.

(** Induction three bytes at a time. *)
Lemma bytes_ind (P : list Z → Prop) :
  P [] → (∀ a, P [a]) → (∀ a b, P [a; b]) → (∀ a b c bs, P bs → P (a :: b :: c :: bs)) → ∀ bs, P bs.
Proof.
  intros H0 H1 H2 H3. fix IH 1. intros [|a [|b [|c bs]]]; [done|apply H1|apply H2|apply H3, IH].
Qed.

Lemma b64_digits_range bs : Forall is_byte bs → Forall (λ d, 0 ≤ d < 64) (b64_digits bs).
Proof.
  induction bs as [| | |a b c bs IH] using bytes_ind; intros H; unfold is_byte in *;
    repeat (apply Forall_cons in H as [? H]); cbn [b64_digits];
    repeat (apply Forall_cons; split); auto;
    Z.to_euclidean_division_equations; lia.
Qed.

Lemma b64_bytes_digits bs : Forall is_byte bs → b64_bytes (b64_digits bs) = Some bs.
Proof.
  induction bs as [| | |a b c bs IH] using bytes_ind; intros H; unfold is_byte in *;
    repeat (apply Forall_cons in H as [? H]); cbn [b64_digits b64_bytes]; [done|..].
  - do 2 f_equal. Z.to_euclidean_division_equations; lia.
  - f_equal. f_equal; [|f_equal]; Z.to_euclidean_division_equations; lia.
  - rewrite IH by done. cbn [fmap option_fmap option_map]. f_equal.
    f_equal; [|f_equal; [|f_equal]]; Z.to_euclidean_division_equations; lia.
Qed.

Lemma chars_of_text cs : chars_of (text_of cs) = cs.
Proof. induction cs as [|c cs IH]; [done|]. cbn. f_equal. exact IH. Qed.

(** Decoding undoes encoding. *)
Lemma base64_round_trip bs : Forall is_byte bs → DecodeString (EncodeToString bs) = Some bs.
Proof.
  intros Hbs. unfold DecodeString, EncodeToString. rewrite chars_of_text.
  pose proof (b64_digits_range bs Hbs) as Hds.
  assert (mapM b64_digit (filter (λ c, is_newline c = false) (b64_char <$> b64_digits bs)) = Some (b64_digits bs)) as ->.
  { induction Hds as [|d ds Hd Hds IH]; [done|]. cbn [fmap list_fmap].
    rewrite filter_cons_True by apply (b64_char_plain d Hd). cbn [mapM]. rewrite b64_digit_char by done.
    cbn [mbind option_bind]. by rewrite IH. }
  cbn [mbind option_bind]. by apply b64_bytes_digits.
Qed.

(** The encoded text has neither dollar signs nor commas. *)
Lemma EncodeToString_plain bs : Forall is_byte bs →
  occurs "$" (EncodeToString bs) = false ∧ occurs "," (EncodeToString bs) = false.
Proof.
  intros Hbs. unfold EncodeToString. pose proof (b64_digits_range bs Hbs) as Hds.
  induction Hds as [|d ds Hd Hds IH]; [done|]. cbn [fmap list_fmap text_of foldr occurs].
  destruct (b64_char_plain d Hd) as (_ & -> & ->). cbn [orb]. exact IH.
Qed.
