(* ===== verification/Identifiers.v ===== *)
(** * Identifiers as text: entity identifiers in JSON and random identifiers

    Entity identifiers go into JSON as decimal strings, since a JSON number would lose bits of a
    64-bit value ([pkg/simulation/entity.go]); simulations, users and workers are named by random
    bytes in hexadecimal ([internal/runner/manager.go], [internal/auth/service.go],
    [internal/workers/service.go]).  What [crypto/rand] delivers is an argument. *)

From Stdlib Require Import Ascii.
From stdpp Require Import pretty.
From S2P Require Import Prelude Entity GoStrings GoText Base64.
Local Open Scope Z_scope.

(** ** Entity identifiers *)

(** [encoding/json] on strings. *)
Class JsonText := {
  json_MarshalString : string → result string;
  json_UnmarshalString : string → result string;
}.

(** Text without special characters is encoded, and decoded as it was. *)
Class JsonTextLaws `{JsonText} := {
  json_text_round_trip s : (∀ c, occurs c s = true → is_Some (digit_val c)) →
    ∃ raw, json_MarshalString s = Ok raw ∧ json_UnmarshalString raw = Ok s;
}.

(** [strconv.ParseUint(s, 10, 64)]. *)
Definition ParseUint64 (s : string) : result Z :=
  match parse_nat s with
  | Some v => if v <? 2 ^ 64 then Ok v else Err (Errorf "value out of range")
  | None => Err (Errorf "invalid syntax")
  end.

Section entity_text.
Context `{JsonText}.

(* pkg/simulation/entity.go:21-23 EntityID.String *)
Definition EntityID__String (e : EntityID) : string := "entity:" +:+ pretty e.

(* pkg/simulation/entity.go:25-29 EntityID.MarshalJSON *)
Definition EntityID__MarshalJSON (e : EntityID) : result string := json_MarshalString (pretty e).

(** The identifier is left as it was on an error. *)
(* pkg/simulation/entity.go:31-43 EntityID.UnmarshalJSON *)
Definition EntityID__UnmarshalJSON (e : EntityID) (b : string) : EntityID * option error :=
  match json_UnmarshalString b with
  | Err err => (e, Some err)
  | Ok s => match ParseUint64 s with Err err => (e, Some err) | Ok v => (v, None) end
  end.
End entity_text.

(** ** Random identifiers *)

Definition hex_char (d : Z) : ascii := ascii_of_N (Z.to_N (if d <? 10 then d + 48 else d + 87)).

(** [hex.EncodeToString]. *)
Fixpoint EncodeToString (bs : list Z) : string :=
  match bs with
  | [] => EmptyString
  | b :: bs => String (hex_char (b / 16)) (String (hex_char (b mod 16)) (EncodeToString bs))
  end.

(** [rand] is what [rand.Read] fills the eight bytes with, or its error. *)
(* internal/runner/manager.go:529-535 newID *)
Definition Manager__newID (rand : result (list Z)) : string :=
  match rand with Err _ => pretty 8 | Ok b => EncodeToString b end.

(** [now] is the time of day as text. *)
(* internal/auth/service.go:91-97 newID *)
Definition Auth__newID (rand : result (list Z)) (now : string) : string :=
  match rand with Err _ => now | Ok b => EncodeToString b end.

(** An error is ignored: the four bytes are what the call has left in them. *)
(* internal/workers/service.go:120-124 newSuffix *)
Definition newSuffix (b : list Z) : string := EncodeToString b.

(** ** Properties *)

Lemma digits_val_digits acc s v : digits_val acc s = Some v → ∀ c, occurs c s = true → is_Some (digit_val c).
Proof.
  revert acc. induction s as [|a s IH]; intros acc Hv c Hc; [done|]. cbn in Hv, Hc. destruct (digit_val a) as [d|] eqn:Ed; [|done].
  apply orb_true_iff in Hc as [Hc|Hc]; [|by eapply IH]. apply Ascii.eqb_eq in Hc as ->. by exists d.
Qed.

Lemma ParseUint64_pretty e : 0 ≤ e < 2 ^ 64 → ParseUint64 (pretty e) = Ok e.
Proof. intros He. unfold ParseUint64. rewrite parse_nat_pretty by lia. destruct (Z.ltb_spec e (2 ^ 64)); [done|lia]. Qed.

(** Entity identifiers survive JSON: every 64-bit identifier is encoded, and decoding the text
    gives it back; a text that decodes is a 64-bit identifier, and one that does not leaves the
    identifier as it was. *)
Lemma EntityID_json_round_trip `{J : JsonText} {La : JsonTextLaws} e e0 :
  0 ≤ e < 2 ^ 64 → ∃ raw, EntityID__MarshalJSON e = Ok raw ∧ EntityID__UnmarshalJSON e0 raw = (e, None).
Proof.
  intros He. unfold EntityID__MarshalJSON, EntityID__UnmarshalJSON.
  destruct (json_text_round_trip (pretty e)) as (raw & Hm & Hu).
  - pose proof (parse_nat_pretty e ltac:(lia)) as Hp. unfold parse_nat in Hp. destruct (pretty e) as [|a s]; [done|].
    by eapply digits_val_digits.
  - exists raw. by rewrite Hu, ParseUint64_pretty.
Qed.

Lemma digits_val_nonneg acc s v : 0 ≤ acc → digits_val acc s = Some v → 0 ≤ v.
Proof.
  revert acc. induction s as [|c s IH]; intros acc Ha; cbn; [by intros [= <-]|]. unfold digit_val.
  destruct (_ && _) eqn:Hd; [|done]. apply andb_true_iff in Hd as [Hd _]. apply Z.leb_le in Hd. apply IH. lia.
Qed.

Lemma EntityID_json_range `{J : JsonText} e0 raw e err :
  EntityID__UnmarshalJSON e0 raw = (e, err) → match err with None => 0 ≤ e < 2 ^ 64 | Some _ => e = e0 end.
Proof.
  unfold EntityID__UnmarshalJSON, ParseUint64. destruct (json_UnmarshalString raw) as [s|]; [|by intros [= <- <-]].
  destruct (parse_nat s) as [v|] eqn:Hp; [|by intros [= <- <-]]. destruct (Z.ltb_spec v (2 ^ 64)); intros [= <- <-]; [|done].
  split; [|done]. unfold parse_nat in Hp. destruct s as [|c s]; [done|]. by eapply digits_val_nonneg in Hp.
Qed.

Lemma hex_char_inj a b : 0 ≤ a < 16 → 0 ≤ b < 16 → hex_char a = hex_char b → a = b.
Proof.
  assert (∀ d, 0 ≤ d < 16 → Z.of_N (N_of_ascii (hex_char d)) = if d <? 10 then d + 48 else d + 87) as Hval.
  { intros d Hd. unfold hex_char. destruct (Z.ltb_spec d 10); rewrite N_ascii_embedding; lia. }
  intros Ha Hb H. apply (f_equal (λ c, Z.of_N (N_of_ascii c))) in H. rewrite !Hval in H by done.
  destruct (Z.ltb_spec a 10), (Z.ltb_spec b 10); lia.
Qed.

(** Different bytes have different texts, so that random identifiers collide only when the random
    bytes do. *)
Lemma EncodeToString_inj bs bs' :
  Forall is_byte bs → Forall is_byte bs' → EncodeToString bs = EncodeToString bs' → bs = bs'.
Proof.
  intros H. revert bs'. induction H as [|b bs Hb _ IH]; intros [|b' bs'] H' E; try done.
  apply Forall_cons in H' as [Hb' H']. unfold is_byte in *. injection E as E1 E2 E.
  apply hex_char_inj in E1; [|split; [apply Z.div_pos|apply Z.div_lt_upper_bound]; lia..].
  apply hex_char_inj in E2; [|apply Z.mod_pos_bound; lia..]. f_equal; [|by apply IH].
  rewrite (Z.div_mod b 16), (Z.div_mod b' 16) by lia. congruence.
Qed.

Lemma EncodeToString_length bs : String.length (EncodeToString bs) = (2 * length bs)%nat.
Proof. induction bs as [|b bs IH]; [done|]. cbn. rewrite IH. lia. Qed.

(** Without random bytes every simulation is named alike: the fallback prints the number of bytes
    that were asked for. *)
Theorem newID_fallback_constant e e' : Manager__newID (Err e) = "8"%string ∧ Manager__newID (Err e) = Manager__newID (Err e').
Proof. done. Qed.

(** ** A concrete encoding *)

Module ToyText.
#[global] Instance text : JsonText := { json_MarshalString s := Ok s; json_UnmarshalString s := Ok s }.

#[global] Instance laws : JsonTextLaws.
Proof. split. intros s _. by exists s. Qed.
End ToyText.
