(* ===== verification/Password.v ===== *)
(** * Passwords: [internal/auth/password.go]

    Passwords are stored as PHC strings of an argon2id hash.  The key derivation function is a
    parameter (a third-party package); the formatting and parsing of the PHC string, with its
    base64 fields, are modelled in full. *)

From Stdlib Require Import Ascii.
From stdpp Require Import pretty.
From S2P Require Import Prelude GoStrings GoText Base64.
Local Open Scope Z_scope.

(* internal/auth/password.go:14-19 argonMemory *)
Definition argonMemory : Z := 64 * 1024.
Definition argonTime : Z := 3.
Definition argonThreads : Z := 4.

(** [golang.org/x/crypto/argon2.IDKey]: a deterministic function that returns [keyLen] bytes when
    it is asked for at least one round, one thread and one byte; it panics when asked for no rounds
    or no threads, and what it does when asked for no bytes is not documented. *)
Class Argon2 := {
  IDKey (password salt : list Z) (time memory threads keyLen : Z) : outcome (list Z);
  IDKey_Done p s t m h k :
    1 ≤ t → 1 ≤ h → 1 ≤ k → ∃ key, IDKey p s t m h k = Done key ∧ Forall is_byte key ∧ len key = k;
}.

#[global] Instance outcome_eq_dec {A} `{EqDecision A} : EqDecision (outcome A).
Proof. solve_decision. Defined.

(** [[]byte(s)]. *)
Definition bytes_of (s : string) : list Z := (λ c, Z.of_N (N_of_ascii c)) <$> chars_of s.

Section password.
Context `{Argon2}.

(** The encoded parameters, as [Sprintf] prints them. *)
Definition phc_params : string :=
  "m=" +:+ pretty argonMemory +:+ ",t=" +:+ pretty argonTime +:+ ",p=" +:+ pretty argonThreads.

(** [salt] is what [rand.Read] fills in. *)
(* internal/auth/password.go:21-33 HashPassword *)
Definition HashPassword (salt : result (list Z)) (password : string) : outcome (result string) :=
  match salt with
  | Err e => Done (Err e)
  | Ok salt =>
      let! hash := IDKey (bytes_of password) salt argonTime argonMemory argonThreads 32 in
      Done (Ok ("$argon2id$v=19$" +:+ phc_params +:+ "$" +:+ EncodeToString salt +:+ "$" +:+
                EncodeToString hash))
  end.

(** The loop of [parseParams]; [None] is an early return of [false]. *)
Fixpoint parse_fields (kvs : list string) (acc : Z * Z * Z) : option (Z * Z * Z) :=
  match kvs with
  | [] => Some acc
  | kv :: kvs' =>
      match Cut "=" kv with
      | None => None
      | Some (k, v) =>
          match ParseUint32 v with
          | None => None
          | Some n =>
              let '(memory, timeN, threads) := acc in
              parse_fields kvs'
                (if decide (k = "m"%string) then (u32 n, timeN, threads)
                 else if decide (k = "t"%string) then (memory, u32 n, threads)
                 else if decide (k = "p"%string) then (memory, timeN, u8 n)
                 else acc)
          end
      end
  end.

(* internal/auth/password.go:58-78 parseParams *)
Definition parseParams (s : string) : option (Z * Z * Z) :=
  match parse_fields (split_on "," s) (0, 0, 0) with
  | None => None
  | Some (memory, timeN, threads) =>
      if (0 <? memory) && (0 <? timeN) && (0 <? threads) then Some (memory, timeN, threads) else None
  end.

(** [subtle.ConstantTimeCompare(a, b) == 1]. *)
Definition ConstantTimeCompare (a b : list Z) : bool := bool_decide (a = b).

(* internal/auth/password.go:35-56 VerifyPassword *)
Definition VerifyPassword (encoded password : string) : outcome bool :=
  match split_on "$" encoded with
  | [_; kind; _; params; salt64; hash64] =>
      if decide (kind ≠ "argon2id"%string) then Done false
      else
        match parseParams params with
        | None => Done false
        | Some (memory, timeN, threads) =>
            match DecodeString salt64 with
            | None => Done false
            | Some salt =>
                match DecodeString hash64 with
                | None => Done false
                | Some want =>
                    let! got := IDKey (bytes_of password) salt timeN memory threads (u32 (len want)) in
                    Done (ConstantTimeCompare got want)
                end
            end
        end
  | _ => Done false
  end.

Lemma phc_split salt hash :
  Forall is_byte salt → Forall is_byte hash →
  split_on "$" ("$argon2id$v=19$" +:+ phc_params +:+ "$" +:+ EncodeToString salt +:+ "$" +:+ EncodeToString hash)
  = [""; "argon2id"; "v=19"; phc_params; EncodeToString salt; EncodeToString hash]%string.
Proof using Type.
  intros Hs Hh. destruct (EncodeToString_plain salt Hs) as [Hs1 _], (EncodeToString_plain hash Hh) as [Hh1 _].
  etrans; [apply (split_on_sep "$" "" ("argon2id" +:+ String "$" ("v=19" +:+ String "$" (phc_params +:+
    String "$" (EncodeToString salt +:+ String "$" (EncodeToString hash)))))); done|]. f_equal.
  etrans; [apply split_on_sep; done|]. f_equal. etrans; [apply split_on_sep; done|]. f_equal.
  etrans; [apply split_on_sep; by vm_compute|]. f_equal. etrans; [apply split_on_sep; done|]. f_equal.
  by apply split_on_none.
Qed.

Lemma parseParams_phc : parseParams phc_params = Some (argonMemory, argonTime, argonThreads).
Proof using Type. by vm_compute. Qed.

(** Accepted parameters are positive. *)
Lemma parseParams_positive s m t h : parseParams s = Some (m, t, h) → 1 ≤ m ∧ 1 ≤ t ∧ 1 ≤ h.
Proof using Type.
  unfold parseParams. destruct (parse_fields _ _) as [[[m' t'] h']|]; [|done].
  destruct (Z.ltb_spec 0 m'), (Z.ltb_spec 0 t'), (Z.ltb_spec 0 h'); try done.
  intros [= <- <- <-]. lia.
Qed.

Lemma VerifyPassword_total stored other :
  (∀ h want, split_on "$" stored !! 5%nat = Some h → DecodeString h = Some want → u32 (len want) ≠ 0) →
  ∃ b, VerifyPassword stored other = Done b.
Proof using Type.
  unfold VerifyPassword. destruct (split_on "$" stored) as [|? [|? [|? [|params [|s2 [|h [|]]]]]]]; eauto.
  intros Hh. specialize (Hh h). case_decide; [by eauto|].
  destruct (parseParams params) as [[[m t] p]|] eqn:Hp; [|by eauto].
  apply parseParams_positive in Hp as (Hm & Ht & Hp).
  destruct (DecodeString s2) as [salt|]; [|by eauto]. destruct (DecodeString h) as [want|]; [|by eauto].
  specialize (Hh want eq_refl eq_refl). pose proof (u32_range (len want)) as Hr. unfold in_u32 in Hr.
  destruct (IDKey_Done (bytes_of other) salt t m p (u32 (len want))) as (key & -> & _); [lia..|]. cbn. eauto.
Qed.

(** A stored hash accepts exactly the passwords that argon2id maps to the same key. *)
Lemma HashPassword_accepts salt password :
  Forall is_byte salt →
  ∃ encoded, HashPassword (Ok salt) password = Done (Ok encoded) ∧
    ∀ other, VerifyPassword encoded other = Done (bool_decide
      (IDKey (bytes_of other) salt argonTime argonMemory argonThreads 32
       = IDKey (bytes_of password) salt argonTime argonMemory argonThreads 32)).
Proof using Type.
  intros Hsalt.
  destruct (IDKey_Done (bytes_of password) salt argonTime argonMemory argonThreads 32)
    as (key & Hkey & Hkb & Hkl); [by vm_compute..|].
  unfold HashPassword. rewrite Hkey. cbn [obind]. eexists. split; [reflexivity|].
  intros other. unfold VerifyPassword. rewrite phc_split by done.
  rewrite decide_False by tauto. rewrite parseParams_phc, !base64_round_trip by done.
  rewrite Hkl. change (u32 32) with 32.
  destruct (IDKey_Done (bytes_of other) salt argonTime argonMemory argonThreads 32)
    as (key' & -> & _); [by vm_compute..|]. cbn [obind]. unfold ConstantTimeCompare.
  f_equal. apply bool_decide_ext. naive_solver.
Qed.

(** A stored password hash accepts the password it was made from, and any other exactly when
    argon2id maps it, with the stored salt and parameters, to the same key: formatting, splitting,
    parameter parsing and base64 lose nothing.  And whatever string is stored, verification returns
    a verdict unless its hash field is empty: parameters argon2 would panic on are refused. *)
Theorem VerifyPassword_HashPassword salt password :
  Forall is_byte salt →
  (∃ encoded, HashPassword (Ok salt) password = Done (Ok encoded) ∧
     VerifyPassword encoded password = Done true ∧
     ∀ other, VerifyPassword encoded other = Done (bool_decide
       (IDKey (bytes_of other) salt argonTime argonMemory argonThreads 32
        = IDKey (bytes_of password) salt argonTime argonMemory argonThreads 32))) ∧
  ∀ stored other,
    (∀ h want, split_on "$" stored !! 5%nat = Some h → DecodeString h = Some want → u32 (len want) ≠ 0) →
    ∃ b, VerifyPassword stored other = Done b.
Proof using Type.
  intros Hsalt. split; [|intros stored other; apply VerifyPassword_total].
  destruct (HashPassword_accepts salt password Hsalt) as (encoded & Hh & Hv).
  exists encoded. split; [done|]. split; [|done]. rewrite Hv. by rewrite bool_decide_eq_true_2.
Qed.
End password.

(** A key derivation function for evaluation: the byte sum of password and salt, repeated. *)
Module ToyArgon.
#[global] Program Instance argon : Argon2 := {
  IDKey p s t _ h k :=
    if t <? 1 then Panic "argon2: number of rounds too small"
    else if h <? 1 then Panic "argon2: parallelism degree too low"
    else Done (replicate (Z.to_nat k) (foldr Z.add 0 (p ++ s) mod 256));
}.
Next Obligation.
  intros p s t m h k Ht Hh Hk. cbn. destruct (Z.ltb_spec t 1), (Z.ltb_spec h 1); try lia.
  eexists. split; [done|]. split.
  - apply Forall_replicate. unfold is_byte. apply Z.mod_pos_bound. lia.
  - unfold len. rewrite length_replicate. lia.
Qed.
End ToyArgon.

Lemma VerifyPassword_HashPassword_witness :
  ∃ encoded, HashPassword (Ok [1; 2; 255]) "secret" = Done (Ok encoded) ∧
     VerifyPassword encoded "secret" = Done true ∧
     ∀ other, VerifyPassword encoded other = Done (bool_decide
       (IDKey (bytes_of other) [1; 2; 255] argonTime argonMemory argonThreads 32
        = IDKey (bytes_of "secret") [1; 2; 255] argonTime argonMemory argonThreads 32)).
Proof.
  apply (VerifyPassword_HashPassword [1; 2; 255] "secret"). repeat constructor; unfold is_byte; lia.
Defined.
