(* ===== verification/Sqlc.v ===== *)
(** * The database: [internal/persistence/sqlc] over the schema of [migrations]

    A table is a finite map from its primary key to rows; a query is a function on the database
    that returns its rows or an error and, when the server refuses the statement, leaves every
    table as it was.  The constraints of [migrations/0001_init.up.sql] and [0002_users.up.sql] are
    definitions of their own, one per table: primary keys, the unique user name, the foreign keys
    from simulations to models and from snapshots to simulations (with [ON DELETE CASCADE]).  The
    connection may be down, and it may break after the server has executed a statement, whose answer
    is then lost.  What PostgreSQL makes of texts and JSON documents is the class [Postgres]. *)

From S2P Require Import Prelude GoValues.
Local Open Scope Z_scope.

(** [pgtype.Timestamptz] and [pgtype.Text]: a value and whether it is not NULL. *)
Record Timestamptz := mkTs { ts_Time : Z; ts_Valid : bool }.
Record Text := mkText { tx_String : string; tx_Valid : bool }.

Definition tsNull : Timestamptz := mkTs 0 false.

(* internal/persistence/sqlc/models.go:11-21 Model *)
Record ModelRow := mkModelRow {
  mr_id : string; mr_name : string; mr_version : string; mr_description : string; mr_mode : string;
  mr_config_schema : rawJSON; mr_runtime_compat : string; mr_author : string;
  mr_created_at : Timestamptz;
}.

(* internal/persistence/sqlc/models.go:23-35 Simulation *)
Record SimulationRow := mkSimulationRow {
  sr_id : string; sr_model_id : string; sr_model_version : string; sr_seed : Z; sr_mode : string;
  sr_status : string; sr_config : rawJSON; sr_created_at : Timestamptz; sr_updated_at : Timestamptz;
  sr_completed_at : Timestamptz; sr_owner_id : Text;
}.

(* internal/persistence/sqlc/models.go:37-45 Snapshot *)
Record SnapshotRow := mkSnapshotRow {
  nr_id : string; nr_simulation_id : string; nr_schema_version : Z; nr_engine_version : string;
  nr_data : rawJSON; nr_checksum : string; nr_created_at : Timestamptz;
}.

(* internal/persistence/sqlc/models.go:47-53 User *)
Record UserRow := mkUserRow {
  ur_id : string; ur_username : string; ur_password_hash : string; ur_role : string;
  ur_created_at : Timestamptz;
}.

(** The connection to the server while a statement is sent: it works, no statement gets through, or
    the statement is executed but its answer does not come back. *)
Inductive link := Up | Down | Cut.

#[global] Instance link_eq_dec : EqDecision link.
Proof. solve_decision. Defined.

(** The tables, the time [now()] returns, and the connection. *)
Record DB := mkDB {
  db_models : gmap (string * string) ModelRow;
  db_simulations : gmap string SimulationRow;
  db_snapshots : gmap string SnapshotRow;
  db_users : gmap string UserRow;
  db_now : Z;
  db_link : link;
}.

Definition emptyDB (now : Z) : DB := mkDB ∅ ∅ ∅ ∅ now Up.

(** What the server does with values: the texts it can store (the encoding excludes some byte
    strings), the canonical form of a JSON document (an error when the text is not JSON), and the
    order of its collation. *)
Class Postgres := {
  text_ok : string → bool;
  jsonb_in : rawJSON → result rawJSON;
  collate : string → string → Prop;
  collate_dec a b :: Decision (collate a b);
  collate_trans :: Transitive collate;
  collate_total :: Total collate;
}.

(** [pgx.ErrNoRows] and the server's refusals. *)
Definition ErrNoRows : error := Errorf "no rows in result set".
Definition badText : error := Errorf "invalid byte sequence".
Definition duplicateKey (c : string) : error := Wrapped "duplicate key" (Errorf c).
Definition foreignKey (c : string) : error := Wrapped "foreign key" (Errorf c).

Definition connLost : error := Errorf "connection lost".

(** A statement that returns rows, one that returns none, and a [SELECT], over the connection. *)
Definition query {A} (db : DB) (r : DB * result A) : DB * result A :=
  match db_link db with Up => r | Down => (db, Err connLost) | Cut => (r.1, Err connLost) end.
Definition exec (db : DB) (r : DB * option error) : DB * option error :=
  match db_link db with Up => r | Down => (db, Some connLost) | Cut => (r.1, Some connLost) end.
Definition select {A} (db : DB) (r : result A) : result A :=
  match db_link db with Up => r | _ => Err connLost end.

Definition nowTs (db : DB) : Timestamptz := mkTs (db_now db) true.
Definition nullable_ok `{Postgres} (t : Text) : bool := negb (tx_Valid t) || text_ok (tx_String t).

(** [ORDER BY created_at DESC], [ORDER BY version], [ORDER BY id, version]. *)
Definition newer (a b : Timestamptz) : Prop := ts_Time b ≤ ts_Time a.

Section queries.
Context `{P : Postgres}.

(* internal/persistence/sqlc/queries.sql.go:20-29 CreateSimulationParams *)
Record CreateSimulationParams := mkCSP {
  cs_ID : string; cs_ModelID : string; cs_ModelVersion : string; cs_Seed : Z; cs_Mode : string;
  cs_Status : string; cs_Config : rawJSON; cs_OwnerID : Text;
}.

(** The primary key of the table and its reference to [models]. *)
(* migrations/0001_init.up.sql:14-27 simulations *)
Definition simulations_accept (db : DB) (row : SimulationRow) : option error :=
  if decide (db_simulations db !! sr_id row = None) then
    if decide (is_Some (db_models db !! (sr_model_id row, sr_model_version row))) then None
    else Some (foreignKey "fk_simulation_model")
  else Some (duplicateKey "simulations_pkey").

(* internal/persistence/sqlc/queries.sql.go:14-57 CreateSimulation *)
Definition q_CreateSimulation (db : DB) (arg : CreateSimulationParams) : DB * result SimulationRow :=
  query db
  (if forallb text_ok [cs_ID arg; cs_ModelID arg; cs_ModelVersion arg; cs_Mode arg; cs_Status arg]
      && nullable_ok (cs_OwnerID arg) then
     match jsonb_in (cs_Config arg) with
     | Err e => (db, Err e)
     | Ok config =>
         let row := mkSimulationRow (cs_ID arg) (cs_ModelID arg) (cs_ModelVersion arg) (cs_Seed arg)
           (cs_Mode arg) (cs_Status arg) config (nowTs db) (nowTs db) tsNull (cs_OwnerID arg) in
         match simulations_accept db row with
         | Some e => (db, Err e)
         | None =>
             (mkDB (db_models db) (<[cs_ID arg := row]> (db_simulations db)) (db_snapshots db)
                   (db_users db) (db_now db) (db_link db), Ok row)
         end
     end
   else (db, Err badText)).

(* internal/persistence/sqlc/queries.sql.go:64-69 CreateUserParams *)
Record CreateUserParams := mkCUP {
  cu_ID : string; cu_Username : string; cu_PasswordHash : string; cu_Role : string;
}.

(** The users of a name. *)
Definition users_named (db : DB) (username : string) : list UserRow :=
  filter (λ u, ur_username u = username) (map_to_list (db_users db)).*2.

(** The primary key of the table and its unique column. *)
(* migrations/0002_users.up.sql:1-7 users *)
Definition users_accept (db : DB) (row : UserRow) : option error :=
  if decide (db_users db !! ur_id row = None) then
    if decide (users_named db (ur_username row) = []) then None
    else Some (duplicateKey "users_username_key")
  else Some (duplicateKey "users_pkey").

(* internal/persistence/sqlc/queries.sql.go:59-87 CreateUser *)
Definition q_CreateUser (db : DB) (arg : CreateUserParams) : DB * result UserRow :=
  query db
  (if forallb text_ok [cu_ID arg; cu_Username arg; cu_PasswordHash arg; cu_Role arg] then
     let row := mkUserRow (cu_ID arg) (cu_Username arg) (cu_PasswordHash arg) (cu_Role arg) (nowTs db) in
     match users_accept db row with
     | Some e => (db, Err e)
     | None => (mkDB (db_models db) (db_simulations db) (db_snapshots db)
                  (<[cu_ID arg := row]> (db_users db)) (db_now db) (db_link db), Ok row)
     end
   else (db, Err badText)).

(** The snapshots [ON DELETE CASCADE] leaves when a simulation goes. *)
(* migrations/0001_init.up.sql:39-40 fk_snapshot_simulation *)
Definition cascade (db : DB) (id : string) : gmap string SnapshotRow :=
  filter (λ kv, nr_simulation_id kv.2 ≠ id) (db_snapshots db).

(* internal/persistence/sqlc/queries.sql.go:89-96 DeleteSimulation *)
Definition q_DeleteSimulation (db : DB) (id : string) : DB * option error :=
  exec db
  (if text_ok id then
     (mkDB (db_models db) (delete id (db_simulations db)) (cascade db id) (db_users db) (db_now db) (db_link db), None)
   else (db, Some badText)).

(** [:one]: the row with the key. *)
Definition one {A} (r : option A) : result A := match r with Some a => Ok a | None => Err ErrNoRows end.

(* internal/persistence/sqlc/queries.sql.go:98-124 GetModel *)
Definition q_GetModel (db : DB) (id version : string) : result ModelRow :=
  select db (if text_ok id && text_ok version then one (db_models db !! (id, version)) else Err badText).

(* internal/persistence/sqlc/queries.sql.go:126-149 GetSimulation *)
Definition q_GetSimulation (db : DB) (id : string) : result SimulationRow :=
  select db (if text_ok id then one (db_simulations db !! id) else Err badText).

(* internal/persistence/sqlc/queries.sql.go:151-170 GetSnapshot *)
Definition q_GetSnapshot (db : DB) (id : string) : result SnapshotRow :=
  select db (if text_ok id then one (db_snapshots db !! id) else Err badText).

(* internal/persistence/sqlc/queries.sql.go:172-187 GetUser *)
Definition q_GetUser (db : DB) (id : string) : result UserRow :=
  select db (if text_ok id then one (db_users db !! id) else Err badText).

(* internal/persistence/sqlc/queries.sql.go:189-204 GetUserByUsername *)
Definition q_GetUserByUsername (db : DB) (username : string) : result UserRow :=
  select db (if text_ok username then one (head (users_named db username)) else Err badText).

Definition by_version (a b : ModelRow) : Prop := collate (mr_version a) (mr_version b).

Definition by_id_version (a b : ModelRow) : Prop :=
  (collate (mr_id a) (mr_id b) ∧ ¬ collate (mr_id b) (mr_id a)) ∨
  (collate (mr_id a) (mr_id b) ∧ collate (mr_id b) (mr_id a) ∧ collate (mr_version a) (mr_version b)).

#[global] Instance by_version_dec : RelDecision by_version.
Proof using Type. intros a b. unfold by_version. apply _. Defined.
#[global] Instance by_id_version_dec : RelDecision by_id_version.
Proof using Type. intros a b. unfold by_id_version. apply _. Defined.

(* internal/persistence/sqlc/queries.sql.go:206-241 ListModelVersions *)
Definition q_ListModelVersions (db : DB) (id : string) : result (list ModelRow) :=
  select db
  (if text_ok id then
     Ok (merge_sort by_version (filter (λ m, mr_id m = id) (map_to_list (db_models db)).*2))
   else Err badText).

(* internal/persistence/sqlc/queries.sql.go:243-277 ListModels *)
Definition q_ListModels (db : DB) : result (list ModelRow) :=
  select db (Ok (merge_sort by_id_version (map_to_list (db_models db)).*2)).

Definition sim_newer (a b : SimulationRow) : Prop := newer (sr_created_at a) (sr_created_at b).
Definition snap_newer (a b : SnapshotRow) : Prop := newer (nr_created_at a) (nr_created_at b).
#[global] Instance sim_newer_dec : RelDecision sim_newer.
Proof using Type. intros a b. unfold sim_newer, newer. apply _. Defined.
#[global] Instance snap_newer_dec : RelDecision snap_newer.
Proof using Type. intros a b. unfold snap_newer, newer. apply _. Defined.

(* internal/persistence/sqlc/queries.sql.go:279-315 ListSimulations *)
Definition q_ListSimulations (db : DB) : result (list SimulationRow) :=
  select db (Ok (merge_sort sim_newer (map_to_list (db_simulations db)).*2)).

(* internal/persistence/sqlc/queries.sql.go:317-350 ListSnapshots *)
Definition q_ListSnapshots (db : DB) (simulationID : string) : result (list SnapshotRow) :=
  select db
  (if text_ok simulationID then
     Ok (merge_sort snap_newer
           (filter (λ n, nr_simulation_id n = simulationID) (map_to_list (db_snapshots db)).*2))
   else Err badText).

(* internal/persistence/sqlc/queries.sql.go:357-364 SaveSnapshotParams *)
Record SaveSnapshotParams := mkSSP {
  ss_ID : string; ss_SimulationID : string; ss_SchemaVersion : Z; ss_EngineVersion : string;
  ss_Data : rawJSON; ss_Checksum : string;
}.

(** The primary key of the table and its reference to [simulations]. *)
(* migrations/0001_init.up.sql:32-41 snapshots *)
Definition snapshots_accept (db : DB) (row : SnapshotRow) : option error :=
  if decide (db_snapshots db !! nr_id row = None) then
    if decide (is_Some (db_simulations db !! nr_simulation_id row)) then None
    else Some (foreignKey "fk_snapshot_simulation")
  else Some (duplicateKey "snapshots_pkey").

(* internal/persistence/sqlc/queries.sql.go:352-376 SaveSnapshot *)
Definition q_SaveSnapshot (db : DB) (arg : SaveSnapshotParams) : DB * option error :=
  exec db
  (if forallb text_ok [ss_ID arg; ss_SimulationID arg; ss_EngineVersion arg; ss_Checksum arg] then
     match jsonb_in (ss_Data arg) with
     | Err e => (db, Some e)
     | Ok data =>
         let row := mkSnapshotRow (ss_ID arg) (ss_SimulationID arg) (ss_SchemaVersion arg)
           (ss_EngineVersion arg) data (ss_Checksum arg) (nowTs db) in
         match snapshots_accept db row with
         | Some e => (db, Some e)
         | None => (mkDB (db_models db) (db_simulations db) (<[ss_ID arg := row]> (db_snapshots db))
                      (db_users db) (db_now db) (db_link db), None)
         end
     end
   else (db, Some badText)).

(** [status IN ('completed', 'failed', 'stopped')]. *)
Definition terminal_status (status : string) : bool :=
  bool_decide (status ∈ ["completed"; "failed"; "stopped"]%string).

Definition with_row_status (now : Timestamptz) (status : string) (r : SimulationRow) : SimulationRow :=
  mkSimulationRow (sr_id r) (sr_model_id r) (sr_model_version r) (sr_seed r) (sr_mode r) status
    (sr_config r) (sr_created_at r) now
    (if terminal_status status then now else sr_completed_at r) (sr_owner_id r).

(* internal/persistence/sqlc/queries.sql.go:378-409 UpdateSimulationStatus *)
Definition q_UpdateSimulationStatus (db : DB) (id status : string) : DB * result SimulationRow :=
  query db
  (if text_ok id && text_ok status then
     match db_simulations db !! id with
     | None => (db, Err ErrNoRows)
     | Some r =>
         let row := with_row_status (nowTs db) status r in
         (mkDB (db_models db) (<[id := row]> (db_simulations db)) (db_snapshots db) (db_users db) (db_now db)
            (db_link db), Ok row)
     end
   else (db, Err badText)).

(* internal/persistence/sqlc/queries.sql.go:423-432 UpsertModelParams *)
Record UpsertModelParams := mkUMP {
  um_ID : string; um_Name : string; um_Version : string; um_Description : string; um_Mode : string;
  um_ConfigSchema : rawJSON; um_RuntimeCompat : string; um_Author : string;
}.

(* internal/persistence/sqlc/queries.sql.go:411-446 UpsertModel *)
Definition q_UpsertModel (db : DB) (arg : UpsertModelParams) : DB * option error :=
  exec db
  (if forallb text_ok [um_ID arg; um_Name arg; um_Version arg; um_Description arg; um_Mode arg;
                       um_RuntimeCompat arg; um_Author arg] then
     match jsonb_in (um_ConfigSchema arg) with
     | Err e => (db, Some e)
     | Ok schema =>
         let key := (um_ID arg, um_Version arg) in
         let created := match db_models db !! key with Some r => mr_created_at r | None => nowTs db end in
         let row := mkModelRow (um_ID arg) (um_Name arg) (um_Version arg) (um_Description arg) (um_Mode arg)
           schema (um_RuntimeCompat arg) (um_Author arg) created in
         (mkDB (<[key := row]> (db_models db)) (db_simulations db) (db_snapshots db) (db_users db)
               (db_now db) (db_link db), None)
     end
   else (db, Some badText)).

(** ** Referential integrity *)

Record db_wf (db : DB) : Prop := {
  wf_models k r : db_models db !! k = Some r →
    k = (mr_id r, mr_version r) ∧ ts_Valid (mr_created_at r) = true;
  wf_simulations id r : db_simulations db !! id = Some r →
    id = sr_id r ∧ is_Some (db_models db !! (sr_model_id r, sr_model_version r)) ∧
    ts_Valid (sr_created_at r) = true ∧ ts_Valid (sr_updated_at r) = true;
  wf_snapshots id r : db_snapshots db !! id = Some r →
    id = nr_id r ∧ is_Some (db_simulations db !! nr_simulation_id r) ∧ ts_Valid (nr_created_at r) = true;
  wf_users id r : db_users db !! id = Some r → id = ur_id r ∧ ts_Valid (ur_created_at r) = true;
  wf_usernames id1 id2 r1 r2 : db_users db !! id1 = Some r1 → db_users db !! id2 = Some r2 →
    ur_username r1 = ur_username r2 → id1 = id2;
}.

Lemma emptyDB_wf now : db_wf (emptyDB now).
Proof using Type. split; cbn; intros *; by rewrite lookup_empty. Qed.

(** The statements that change the database; time passes and the connection comes and goes. *)
Inductive Statement :=
  | SCreateSimulation (arg : CreateSimulationParams)
  | SCreateUser (arg : CreateUserParams)
  | SDeleteSimulation (id : string)
  | SSaveSnapshot (arg : SaveSnapshotParams)
  | SUpdateStatus (id status : string)
  | SUpsertModel (arg : UpsertModelParams)
  | SPass (now : Z) (l : link).

Definition execute (db : DB) (s : Statement) : DB :=
  match s with
  | SCreateSimulation arg => (q_CreateSimulation db arg).1
  | SCreateUser arg => (q_CreateUser db arg).1
  | SDeleteSimulation id => (q_DeleteSimulation db id).1
  | SSaveSnapshot arg => (q_SaveSnapshot db arg).1
  | SUpdateStatus id status => (q_UpdateSimulationStatus db id status).1
  | SUpsertModel arg => (q_UpsertModel db arg).1
  | SPass now l => mkDB (db_models db) (db_simulations db) (db_snapshots db) (db_users db) now l
  end.

Lemma elem_of_users_named db username u :
  u ∈ users_named db username ↔ ur_username u = username ∧ ∃ id, db_users db !! id = Some u.
Proof using Type.
  unfold users_named. rewrite list_elem_of_filter, list_elem_of_fmap. split.
  - intros [Hn ([id r] & -> & Hin)]. split; [done|]. exists id. by apply elem_of_map_to_list.
  - intros [Hn [id Hid]]. split; [done|]. exists (id, u). split; [done|]. by apply elem_of_map_to_list.
Qed.

Lemma users_named_nil db username :
  users_named db username = [] ↔ ∀ id r, db_users db !! id = Some r → ur_username r ≠ username.
Proof using Type.
  split.
  - intros Hnil id r Hr Hname. assert (r ∈ users_named db username) as Hin by (apply elem_of_users_named; eauto).
    rewrite Hnil in Hin. by apply elem_of_nil in Hin.
  - intros Hall. destruct (users_named db username) as [|r l] eqn:E; [done|].
    assert (r ∈ users_named db username) as (Hname & id & Hr)%elem_of_users_named by (rewrite E; by left).
    by destruct (Hall id r Hr).
Qed.

(** Rows of a table after an insertion: the new one or an old one. *)
Local Ltac row_cases H :=
  apply lookup_insert_Some in H as [[? ?]|[? H]]; simplify_eq; cbn.

(** Whatever the connection does, the tables are those before or after the statement. *)
Lemma query_wf {A} db (r : DB * result A) : db_wf db → db_wf r.1 → db_wf (query db r).1.
Proof using Type. intros Hdb Hr. unfold query. by destruct (db_link db). Qed.
Lemma exec_wf db (r : DB * option error) : db_wf db → db_wf r.1 → db_wf (exec db r).1.
Proof using Type. intros Hdb Hr. unfold exec. by destruct (db_link db). Qed.

Lemma query_Ok {A} db (r : DB * result A) db' a : query db r = (db', Ok a) → db_link db = Up ∧ r = (db', Ok a).
Proof using Type. unfold query. by destruct (db_link db). Qed.

Lemma CreateSimulation_wf db arg : db_wf db → db_wf (q_CreateSimulation db arg).1.
Proof using Type.
  intros Hwf. apply query_wf; [done|]. destruct (_ && _); [|done]. destruct (jsonb_in _); [|done]. cbn zeta. unfold simulations_accept. cbn [sr_id sr_model_id sr_model_version].
  destruct (decide _) as [Hnew|]; [|done]. destruct (decide _) as [Hm|]; [|done].
  destruct Hwf as [Hmo Hsi Hsn Hus Hun]. split; cbn; [exact Hmo| | |exact Hus|exact Hun].
  - intros id r H. row_cases H; [done|by apply Hsi].
  - intros id r H. destruct (Hsn id r H) as (-> & Hs & Ht). split; [done|]. split; [|done].
    apply lookup_insert_is_Some. destruct (decide (cs_ID arg = nr_simulation_id r)); [by left|by right].
Qed.

Lemma CreateUser_wf db arg : db_wf db → db_wf (q_CreateUser db arg).1.
Proof using Type.
  intros Hwf. apply query_wf; [done|]. destruct (forallb _ _); [|done]. cbn zeta. unfold users_accept. cbn [ur_id ur_username].
  destruct (decide _) as [Hnew|]; [|done]. destruct (decide _) as [Hname|]; [|done].
  rewrite users_named_nil in Hname. destruct Hwf as [Hmo Hsi Hsn Hus Hun].
  split; cbn; [exact Hmo|exact Hsi|exact Hsn| |].
  - intros id r H. row_cases H; [done|by apply Hus].
  - intros id1 id2 r1 r2 H1 H2 Hn. row_cases H1; row_cases H2; try done.
    + cbn in Hn. by destruct (Hname _ _ H2).
    + cbn in Hn. by destruct (Hname _ _ H1).
    + by apply (Hun _ _ _ _ H1 H2).
Qed.

Lemma DeleteSimulation_wf db id : db_wf db → db_wf (q_DeleteSimulation db id).1.
Proof using Type.
  intros Hwf. apply exec_wf; [done|]. unfold cascade. destruct (text_ok id); [|done].
  destruct Hwf as [Hmo Hsi Hsn Hus Hun]. split; cbn; [exact Hmo| | |exact Hus|exact Hun].
  - intros i r [_ H]%lookup_delete_Some. by apply Hsi.
  - intros i r [H Hne]%map_lookup_filter_Some. destruct (Hsn i r H) as (-> & Hs & Ht).
    split; [done|]. split; [|done]. cbn in Hne. by rewrite lookup_delete_ne by congruence.
Qed.

Lemma SaveSnapshot_wf db arg : db_wf db → db_wf (q_SaveSnapshot db arg).1.
Proof using Type.
  intros Hwf. apply exec_wf; [done|]. destruct (forallb _ _); [|done]. destruct (jsonb_in _); [|done].
  cbn zeta. unfold snapshots_accept. cbn [nr_id nr_simulation_id].
  destruct (decide _) as [Hnew|]; [|done]. destruct (decide _) as [Hm|]; [|done].
  destruct Hwf as [Hmo Hsi Hsn Hus Hun]. split; cbn; [exact Hmo|exact Hsi| |exact Hus|exact Hun].
  intros id r H. row_cases H; [done|by apply Hsn].
Qed.

Lemma UpdateSimulationStatus_wf db id status : db_wf db → db_wf (q_UpdateSimulationStatus db id status).1.
Proof using Type.
  intros Hwf. apply query_wf; [done|]. destruct (_ && _); [|done].
  destruct (db_simulations db !! id) as [r|] eqn:Hr; [|done].
  destruct Hwf as [Hmo Hsi Hsn Hus Hun]. split; cbn; [exact Hmo| | |exact Hus|exact Hun].
  - intros i r' H. row_cases H; [|by apply Hsi]. destruct (Hsi _ _ Hr) as (? & ? & ? & ?). done.
  - intros i r' H. destruct (Hsn i r' H) as (-> & Hs & Ht). split; [done|]. split; [|done].
    apply lookup_insert_is_Some. destruct (decide (id = nr_simulation_id r')); [by left|by right].
Qed.

Lemma UpsertModel_wf db arg : db_wf db → db_wf (q_UpsertModel db arg).1.
Proof using Type.
  intros Hwf. apply exec_wf; [done|]. destruct (forallb _ _); [|done]. destruct (jsonb_in _); [|done].
  destruct Hwf as [Hmo Hsi Hsn Hus Hun]. split; cbn; [| |exact Hsn|exact Hus|exact Hun].
  - intros k r H. row_cases H; [|by apply Hmo]. split; [done|].
    destruct (db_models db !! _) as [r0|] eqn:E; [|done]. by apply (Hmo _ _ E).
  - intros i r H. destruct (Hsi i r H) as (-> & Hs & Ht). split; [done|]. split; [|done].
    apply lookup_insert_is_Some. destruct (decide ((um_ID arg, um_Version arg) = (sr_model_id r, sr_model_version r)));
      [by left|by right].
Qed.

Lemma execute_wf db s : db_wf db → db_wf (execute db s).
Proof using Type.
  destruct s; cbn [execute]; auto using CreateSimulation_wf, CreateUser_wf, DeleteSimulation_wf,
    SaveSnapshot_wf, UpdateSimulationStatus_wf, UpsertModel_wf.
  intros [Hmo Hsi Hsn Hus Hun]. by split.
Qed.

(** Referential integrity: after any sequence of statements on an empty database, every row
    is filed under its key, every simulation belongs to a stored model, every snapshot to a stored
    simulation, time stamps that are not nullable are set, and no two users have one name. *)
Theorem database_integrity now (ss : list Statement) : db_wf (fold_left execute ss (emptyDB now)).
Proof using Type.
  assert (∀ db, db_wf db → db_wf (fold_left execute ss db)) as Hall.
  { induction ss as [|s ss IH]; intros db Hdb; [done|]. cbn. apply IH, execute_wf, Hdb. }
  apply Hall, emptyDB_wf.
Qed.

(** Under integrity, the user of a name is found by it. *)
Lemma GetUserByUsername_row db id u :
  db_wf db → db_users db !! id = Some u → head (users_named db (ur_username u)) = Some u.
Proof using Type.
  intros Hwf Hu. destruct (users_named db (ur_username u)) as [|r l] eqn:E.
  - assert (u ∈ users_named db (ur_username u)) as Hin by (apply elem_of_users_named; eauto).
    rewrite E in Hin. by apply elem_of_nil in Hin.
  - assert (r ∈ users_named db (ur_username u)) as Hin by (rewrite E; by left).
    apply elem_of_users_named in Hin as (Hn & id' & Hr). cbn. f_equal.
    assert (id' = id) as -> by (by eapply wf_usernames). congruence.
Qed.
End queries.
