(* ===== verification/Repository.v ===== *)
(** * The persistence store: [internal/persistence/store.go]

    The repository of models, simulations, snapshots and users on top of the queries of [Sqlc],
    and that it keeps what the simulation manager relies on: the class [Persistence] of [Manager]
    with its laws. *)

From Stdlib Require Import Ascii.
From stdpp Require Import countable.
From S2P Require Import Prelude GoValues Float64 GoText World Snapshot Scheduler Runtime Registry Manager Sqlc.
Local Open Scope Z_scope.

(* internal/persistence/store.go:45-52 UserInfo *)
Record UserInfo := mkUser {
  ui_ID : string; ui_Username : string; ui_PasswordHash : string; ui_Role : string; ui_CreatedAt : Z;
}.

(* internal/persistence/store.go:280-285 tsTime *)
Definition tsTime (t : Timestamptz) : Z := if ts_Valid t then ts_Time t else 0.

(* internal/persistence/store.go:287-293 tsTimePtr *)
Definition tsTimePtr (t : Timestamptz) : option Z := if ts_Valid t then Some (ts_Time t) else None.

(* internal/persistence/store.go:295-300 textPtr *)
Definition textPtr (s : option string) : Text :=
  match s with None => mkText "" false | Some s => mkText s true end.

(* internal/persistence/store.go:302-308 textFromPtr *)
Definition textFromPtr (t : Text) : option string := if tx_Valid t then Some (tx_String t) else None.

(* internal/persistence/store.go:238-250 modelFromRow *)
Definition modelFromRow (r : ModelRow) : ModelInfo :=
  mkInfo (mr_id r) (mr_name r) (mr_version r) (mr_description r) (mr_mode r) (mr_config_schema r)
    (mr_runtime_compat r) (mr_author r) (tsTime (mr_created_at r)).

(* internal/persistence/store.go:252-266 simulationFromRow *)
Definition simulationFromRow (r : SimulationRow) : SimulationInfo :=
  mkSI (sr_id r) (sr_model_id r) (sr_model_version r) (sr_seed r) (sr_mode r) (sr_status r) (sr_config r)
    (textFromPtr (sr_owner_id r)) (tsTime (sr_created_at r)) (tsTime (sr_updated_at r))
    (tsTimePtr (sr_completed_at r)).

(* internal/persistence/store.go:268-278 snapshotFromRow *)
Definition snapshotFromRow (r : SnapshotRow) : SnapshotInfo :=
  mkSnapInfo (nr_id r) (nr_simulation_id r) (nr_schema_version r) (nr_engine_version r) (nr_data r)
    (nr_checksum r) (tsTime (nr_created_at r)).

(* internal/persistence/store.go:335-343 userFromRow *)
Definition userFromRow (r : UserRow) : UserInfo :=
  mkUser (ur_id r) (ur_username r) (ur_password_hash r) (ur_role r) (tsTime (ur_created_at r)).

(** [len(raw) == 0] is replaced by an empty JSON object. *)
Definition or_object (raw : rawJSON) : rawJSON := if decide (raw = ""%string) then "{}"%string else raw.

Definition rmap {A B} (f : A → B) (r : result A) : result B :=
  match r with Ok a => Ok (f a) | Err e => Err e end.

Section store.
Context `{P : Postgres}.

(* internal/persistence/store.go:82-98 Store.UpsertModel *)
Definition Store__UpsertModel (s : DB) (m : ModelInfo) : DB * option error :=
  q_UpsertModel s (mkUMP (mi_ID m) (mi_Name m) (mi_Version m) (mi_Description m) (mi_Mode m)
    (or_object (mi_ConfigSchema m)) (mi_RuntimeCompat m) (mi_Author m)).

(* internal/persistence/store.go:100-111 Store.ListModels *)
Definition Store__ListModels (s : DB) : result (list ModelInfo) :=
  rmap (fmap modelFromRow) (q_ListModels s).

(* internal/persistence/store.go:113-120 Store.GetModel *)
Definition Store__GetModel (s : DB) (id version : string) : result ModelInfo :=
  rmap modelFromRow (q_GetModel s id version).

(* internal/persistence/store.go:122-133 Store.ListModelVersions *)
Definition Store__ListModelVersions (s : DB) (id : string) : result (list ModelInfo) :=
  rmap (fmap modelFromRow) (q_ListModelVersions s id).

(* internal/persistence/store.go:137-157 Store.CreateSimulation *)
Definition Store__CreateSimulation (s : DB) (si : SimulationInfo) : DB * result SimulationInfo :=
  let '(s, r) := q_CreateSimulation s (mkCSP (si_ID si) (si_ModelID si) (si_ModelVersion si) (si_Seed si)
    (si_Mode si) (si_Status si) (or_object (si_Config si)) (textPtr (si_OwnerID si))) in
  (s, rmap simulationFromRow r).

(* internal/persistence/store.go:159-166 Store.GetSimulation *)
Definition Store__GetSimulation (s : DB) (id : string) : result SimulationInfo :=
  rmap simulationFromRow (q_GetSimulation s id).

(* internal/persistence/store.go:168-179 Store.ListSimulations *)
Definition Store__ListSimulations (s : DB) : result (list SimulationInfo) :=
  rmap (fmap simulationFromRow) (q_ListSimulations s).

(* internal/persistence/store.go:181-185 Store.DeleteSimulation *)
Definition Store__DeleteSimulation (s : DB) (id : string) : DB * option error := q_DeleteSimulation s id.

(* internal/persistence/store.go:187-198 Store.UpdateSimulationStatus *)
Definition Store__UpdateSimulationStatus (s : DB) (id status : string) : DB * result SimulationInfo :=
  let '(s, r) := q_UpdateSimulationStatus s id status in (s, rmap simulationFromRow r).

(* internal/persistence/store.go:202-212 Store.SaveSnapshot *)
Definition Store__SaveSnapshot (s : DB) (sn : SnapshotInfo) : DB * option error :=
  q_SaveSnapshot s (mkSSP (ni_ID sn) (ni_SimulationID sn) (ni_SchemaVersion sn) (ni_EngineVersion sn)
    (ni_Data sn) (ni_Checksum sn)).

(* internal/persistence/store.go:214-221 Store.GetSnapshot *)
Definition Store__GetSnapshot (s : DB) (id : string) : result SnapshotInfo :=
  rmap snapshotFromRow (q_GetSnapshot s id).

(* internal/persistence/store.go:223-234 Store.ListSnapshots *)
Definition Store__ListSnapshots (s : DB) (simulationID : string) : result (list SnapshotInfo) :=
  rmap (fmap snapshotFromRow) (q_ListSnapshots s simulationID).

(* internal/persistence/store.go:312-324 Store.CreateUser *)
Definition Store__CreateUser (s : DB) (u : UserInfo) : DB * result UserInfo :=
  let '(s, r) := q_CreateUser s (mkCUP (ui_ID u) (ui_Username u) (ui_PasswordHash u) (ui_Role u)) in
  (s, rmap userFromRow r).

(* internal/persistence/store.go:326-333 Store.GetUserByUsername *)
Definition Store__GetUserByUsername (s : DB) (username : string) : result UserInfo :=
  rmap userFromRow (q_GetUserByUsername s username).

(** The store as the simulation manager sees it. *)
#[global] Instance Store_persistence : Persistence DB := {
  st_UpsertModel := Store__UpsertModel;
  st_CreateSimulation := Store__CreateSimulation;
  st_UpdateSimulationStatus s id status :=
    let '(s, r) := Store__UpdateSimulationStatus s id status in
    (s, match r with Ok _ => None | Err e => Some e end);
  st_DeleteSimulation := Store__DeleteSimulation;
  st_SaveSnapshot := Store__SaveSnapshot;
}.

(** A record made by a caller, as the database returns it. *)
Lemma textFromPtr_textPtr o : textFromPtr (textPtr o) = o.
Proof using Type. by destruct o. Qed.

Lemma or_object_id raw : raw ≠ ""%string → or_object raw = raw.
Proof using Type. intros H. unfold or_object. by rewrite decide_False. Qed.

Lemma CreateSimulation_Ok s si s' si' :
  Store__CreateSimulation s si = (s', Ok si') →
  ∃ config row, jsonb_in (or_object (si_Config si)) = Ok config ∧
    db_simulations s !! si_ID si = None ∧ is_Some (db_models s !! (si_ModelID si, si_ModelVersion si)) ∧
    text_ok (si_ID si) = true ∧ db_link s = Up ∧
    s' = mkDB (db_models s) (<[si_ID si := row]> (db_simulations s)) (db_snapshots s) (db_users s) (db_now s) Up ∧
    simulationFromRow row = si' ∧
    si' = mkSI (si_ID si) (si_ModelID si) (si_ModelVersion si) (si_Seed si) (si_Mode si) (si_Status si)
            config (si_OwnerID si) (db_now s) (db_now s) None.
Proof using Type.
  unfold Store__CreateSimulation, q_CreateSimulation. cbn.
  unfold query. destruct (db_link s) eqn:Hlink; cbn; [|by intros [= _]..].
  destruct (text_ok (si_ID si)); [|done]. cbn. destruct (_ && _); [|done].
  destruct (jsonb_in _) as [config|]; [|done]. unfold simulations_accept. cbn [sr_id sr_model_id sr_model_version].
  destruct (decide _) as [Hn|]; [|done].
  destruct (decide _) as [Hm|]; [|done]. cbn. intros [= <- <-]. exists config. eexists.
  split_and!; try done. unfold simulationFromRow. cbn. by rewrite textFromPtr_textPtr.
Qed.

(** What the manager relies on holds of the store over PostgreSQL. *)
Lemma Store_laws `{RunConfigCodec} :
  (∀ raw raw', jsonb_in raw = Ok raw' → json_same raw raw') → PersistenceLaws DB.
Proof using Type.
  intros Hjson. split. intros s si s' si' Hc Hne.
  apply CreateSimulation_Ok in Hc as (config & row & Hj & _ & _ & _ & _ & _ & _ & ->). cbn.
  rewrite or_object_id in Hj by done. split; [done|by apply Hjson].
Qed.

(** A stored simulation is read back as it was returned. *)
Lemma GetSimulation_row s id row :
  text_ok id = true → db_link s = Up → db_simulations s !! id = Some row →
  Store__GetSimulation s id = Ok (simulationFromRow row).
Proof using Type. intros Ht Hl Hr. unfold Store__GetSimulation, q_GetSimulation, select. by rewrite Hl, Ht, Hr. Qed.

(** The record after a status update at time [now]. *)
Definition updated (si : SimulationInfo) (status : string) (now : Z) : SimulationInfo :=
  mkSI (si_ID si) (si_ModelID si) (si_ModelVersion si) (si_Seed si) (si_Mode si) status (si_Config si)
    (si_OwnerID si) (si_CreatedAt si) now
    (if terminal_status status then Some now else si_CompletedAt si).


(** Deleting a simulation over a working connection deletes it and, through the foreign key, all its snapshots, and
    nothing else: other simulations and their snapshots, models and users read as before. *)
Theorem DeleteSimulation_cascades s id :
  text_ok id = true → db_link s = Up →
  let s' := (Store__DeleteSimulation s id).1 in
  (Store__DeleteSimulation s id).2 = None ∧
  Store__GetSimulation s' id = Err ErrNoRows ∧
  Store__ListSnapshots s' id = Ok [] ∧
  (∀ n si, Store__GetSnapshot s' n = Ok si ↔ Store__GetSnapshot s n = Ok si ∧ ni_SimulationID si ≠ id) ∧
  (∀ other, other ≠ id → Store__GetSimulation s' other = Store__GetSimulation s other) ∧
  (∀ i v, Store__GetModel s' i v = Store__GetModel s i v) ∧
  (∀ u, Store__GetUserByUsername s' u = Store__GetUserByUsername s u).
Proof using Type.
  intros Ht Hl s'. unfold s', Store__DeleteSimulation, q_DeleteSimulation, exec, cascade. rewrite Hl, Ht. cbn. split_and!; try done.
  - unfold Store__GetSimulation, q_GetSimulation, select. cbn. rewrite Ht. cbn. by rewrite lookup_delete_eq.
  - unfold Store__ListSnapshots, q_ListSnapshots, select. cbn. rewrite Ht. cbn.
    destruct (filter _ (map_to_list _).*2) as [|r l] eqn:E; [done|].
    assert (r ∈ filter (λ n, nr_simulation_id n = id)
      (map_to_list (filter (λ kv, nr_simulation_id kv.2 ≠ id) (db_snapshots s))).*2) as Hr by (rewrite E; by left).
    apply list_elem_of_filter in Hr as [Hid ([k r'] & -> & Hin)%list_elem_of_fmap].
    apply elem_of_map_to_list, map_lookup_filter_Some in Hin as [_ Hne]. by destruct Hne.
  - intros n si. unfold Store__GetSnapshot, q_GetSnapshot, select. rewrite Hl. cbn. destruct (text_ok n); [|naive_solver]. cbn.
    destruct (filter _ (db_snapshots s) !! n) as [r|] eqn:E.
    + apply map_lookup_filter_Some in E as [Hr Hne]. rewrite Hr. cbn. cbn in Hne. split; [|naive_solver].
      intros [= <-]. done.
    + apply map_lookup_filter_None in E. cbn. split; [done|]. intros [Hs Hne].
      destruct (db_snapshots s !! n) as [r|]; [|done]. cbn in Hs. injection Hs as <-.
      destruct E as [|E]; [done|]. by destruct (E r).
  - intros other Hne. unfold Store__GetSimulation, q_GetSimulation, select. cbn. by rewrite Hl, lookup_delete_ne.
  - intros i v. unfold Store__GetModel, q_GetModel, select. cbn. by rewrite Hl.
  - intros u. unfold Store__GetUserByUsername, q_GetUserByUsername, select. cbn. by rewrite Hl.
Qed.

(** Every listing of simulations is newest first and complete. *)
Theorem ListSimulations_newest_first s :
  db_wf s → db_link s = Up → ∃ l, Store__ListSimulations s = Ok l ∧
    Sorted (λ a b, si_CreatedAt b ≤ si_CreatedAt a) l ∧
    l ≡ₚ simulationFromRow <$> (map_to_list (db_simulations s)).*2.
Proof using Type.
  intros Hwf Hl. unfold Store__ListSimulations, q_ListSimulations, select. rewrite Hl. eexists. split; [reflexivity|].
  set (rows := merge_sort sim_newer (map_to_list (db_simulations s)).*2).
  assert (rows ≡ₚ (map_to_list (db_simulations s)).*2) as Hp by apply merge_sort_Permutation.
  split; [|by rewrite Hp].
  assert (Forall (λ r, ts_Valid (sr_created_at r) = true) rows) as Hv.
  { rewrite Hp. apply Forall_forall. intros r ([id r'] & -> & Hin)%list_elem_of_fmap.
    apply elem_of_map_to_list, (wf_simulations s Hwf) in Hin as (_ & _ & Hv & _). exact Hv. }
  assert (Sorted sim_newer rows) as Hs.
  { apply Sorted_merge_sort. intros a b. unfold sim_newer, newer. lia. }
  clearbody rows. clear Hp. induction Hs as [|r rows Hs IH Hr]; [constructor|].
  apply Forall_cons in Hv as [Hv0 Hv]. cbn. constructor; [by apply IH|].
  destruct Hr as [|r' rows Hr]; [constructor|]. apply Forall_cons in Hv as [Hv1 _]. constructor.
  unfold sim_newer, newer in Hr. cbn. unfold tsTime. by rewrite Hv0, Hv1.
Qed.

(** Whether a model is accepted over a working connection does not depend on what the database
    holds. *)
Lemma UpsertModel_accepts s s' i :
  db_link s' = Up → (Store__UpsertModel s i).2 = None → (Store__UpsertModel s' i).2 = None.
Proof using Type.
  unfold Store__UpsertModel, q_UpsertModel, exec. intros ->. destruct (db_link s); [|done..].
  destruct (forallb _ _); [|done]. by destruct (jsonb_in _).
Qed.
End store.

(** ** The manager over the database *)

Section replay.
Context `{R : GoRuntime} `{K : Checksummer} {M : Type} `{P : Postgres} `{J : RunConfigCodec, !RunConfigLaws}.
Variable GOMAXPROCS : Z.
Hypothesis jsonb_same : ∀ raw raw', jsonb_in raw = Ok raw' → json_same raw raw'.

(** C24: with the PostgreSQL store, [Replay] re-runs a simulation from its beginning: however far
    the simulation created by a request has run, and whatever rows the database holds by now,
    replaying it over a working connection stops it and starts a simulation that is equal, model
    state, world, executor and configuration, to the one [Create] built, before its first step, with
    a step observer of its own if the manager has metrics.  The registry is the one of [Create] and
    names its models in ASCII, the identifier of the model has no ['@'], JSONB columns keep the JSON
    document, and the model configures itself alike from every text of the stored configuration
    document, which is [null] when the request had none.  Without a connection, [Replay] returns an
    error after it has stopped the simulation, which stays the registered one. *)
Theorem Replay_reproduces (m m1 m2 : Manager (M := M) (St := DB)) newID req info mg s0 :
  Manager__Create GOMAXPROCS m newID req = Done (m1, Ok info) →
  mgr_sims m1 !! si_ID info = Some mg → mgr_heap m1 !! mg_sim mg = Some s0 →
  newID ≠ ""%string → reg_ok (mgr_registry m) → ascii_models (mgr_registry m) → no_at (cr_ModelID req) →
  stable_config (mg_model mg) (cr_Config req) →
  mgr_registry m2 = mgr_registry m → mgr_sims m2 !! si_ID info = Some mg →
  is_Some (mgr_heap m2 !! mg_sim mg) →
  ∃ m3 err s, Replay GOMAXPROCS m2 (si_ID info) = Done (m3, err) ∧
    mgr_heap m3 !! mg_sim mg = Some s ∧ sim_state s ≠ StateRunning ∧ sim_state s ≠ StatePaused ∧
    if decide (db_link (mgr_store m2) = Up) then
      err = None ∧ ∃ mg', mgr_sims m3 !! si_ID info = Some mg' ∧
      mgr_heap m3 !! mg_sim mg' = Some (Manager__observe m2 (set_state (set_observed s0 None) StateRunning None 0))
    else is_Some err ∧ mgr_sims m3 !! si_ID info = Some mg.
Proof using All.
  intros. pose proof (Store_laws jsonb_same) as HL. case_decide as Hl.
  - edestruct (Replay_again GOMAXPROCS m newID req m1) as (m3 & mg' & s & ? & ? & ? & ? & ? & ?); try done.
    { intros i. by apply UpsertModel_accepts. }
    exists m3, None, s. split_and!; try done. by exists mg'.
  - edestruct (Replay_refused GOMAXPROCS m2 (si_ID info) mg) as (m3 & e & s & ? & ? & ? & ? & ?); try done.
    { intros i. cbn [st_UpsertModel Store_persistence]. unfold Store__UpsertModel, q_UpsertModel, exec. destruct (db_link (mgr_store m2)); [done|by eexists..]. }
    by exists m3, (Some e), s.
Qed.
End replay.

(** ** A concrete database *)

Module ToyPostgres.
Definition order (a b : string) : Prop := (encode a ≤ encode b)%positive.
#[local] Instance order_dec a b : Decision (order a b).
Proof. unfold order. apply _. Defined.
#[local] Instance order_trans : Transitive order.
Proof. intros a b c. unfold order. lia. Qed.
#[local] Instance order_total : Total order.
Proof. intros a b. unfold order. lia. Qed.

(** Texts without NUL bytes, any text but the empty one as JSON, some total order. *)
#[global] Instance server : Postgres := {
  text_ok s := negb (occurs "000"%char s);
  jsonb_in raw := if decide (raw = ""%string) then Err (Errorf "invalid input syntax for type json") else Ok raw;
  collate := order;
}.

Definition info : ModelInfo := mkInfo "toy" "Toy" "1.0" "" "tick" "" "" "" 0.
Definition db : DB := (Store__UpsertModel (emptyDB 100) info).1.
Definition sim : SimulationInfo := mkSI "s1" "toy" "1.0" 7 "tick" "created" "" (Some "alice"%string) 0 0 None.
Definition manager : Manager (R := Toy.runtime) (M := nat) (St := DB) := NewManager (emptyDB 100) ToyManager.registry.

(** A simulation created, then started. *)
Definition m1 := match Manager__Create 4 manager "s1" ToyManager.request with Done (m, _) => m | Panic _ => manager end.
Definition m2 := match Manager__Start m1 "s1" with Done (m, _) => m | Panic _ => m1 end.
Definition created : SimulationInfo :=
  match Manager__Create 4 manager "s1" ToyManager.request with
  | Done (_, Ok i) => i
  | _ => sim
  end.
Definition entry : managed (M := nat) :=
  default (mkManaged 0 (mkMV ToySim.model 0%nat None None) sim) (mgr_sims m1 !! "s1"%string).
End ToyPostgres.


Lemma DeleteSimulation_cascades_witness :
  Store__GetSimulation (Store__DeleteSimulation ToyPostgres.db "s1").1 "s1" = Err ErrNoRows.
Proof. by apply (DeleteSimulation_cascades ToyPostgres.db "s1"). Defined.

Lemma Replay_reproduces_witness :
  ∃ s0, mgr_heap ToyPostgres.m1 !! mg_sim ToyPostgres.entry = Some s0 ∧
    ∃ m3 err s, Replay 4 ToyPostgres.m2 "s1" = Done (m3, err) ∧
      mgr_heap m3 !! mg_sim ToyPostgres.entry = Some s ∧ sim_state s ≠ StateRunning ∧ sim_state s ≠ StatePaused ∧
      err = None ∧ ∃ mg', mgr_sims m3 !! "s1"%string = Some mg' ∧
      mgr_heap m3 !! mg_sim mg' = Some (Manager__observe ToyPostgres.m2 (set_state (set_observed s0 None) StateRunning None 0)).
Proof.
  destruct (mgr_heap ToyPostgres.m1 !! mg_sim ToyPostgres.entry) as [s0|] eqn:Es0; [|vm_compute in Es0; done].
  exists s0. split; [done|].
  change "s1"%string with (si_ID ToyPostgres.created).
  refine (Replay_reproduces 4 _ ToyPostgres.manager ToyPostgres.m1 ToyPostgres.m2 "s1"%string
    ToyManager.request ToyPostgres.created ToyPostgres.entry s0 _ _ _ _ _ _ _ _ _ _ _).
  - intros raw raw'. cbn. case_decide; [done|]. by intros [= ->].
  - vm_compute. reflexivity.
  - vm_compute. reflexivity.
  - exact Es0.
  - done.
  - apply reg_run_ok. by repeat constructor.
  - intros k e. cbn. rewrite lookup_insert_Some, lookup_empty. by intros [[_ <-]|[_ [=]]].
  - done.
  - intros raw' Hraw. cbn in Hraw. by subst raw'.
  - vm_compute. reflexivity.
  - vm_compute. reflexivity.
  - by eexists; vm_compute; reflexivity.
Defined.
