(* ===== verification/Auth.v ===== *)
(** * Authentication: [internal/auth/token.go] and [internal/auth/service.go]

    Access and refresh tokens, the middleware that checks them, and the service that registers
    users, logs them in and refreshes their tokens on top of the store of users.  The JWT library
    is the class [Jwt] with its laws; the readings of the clock and the random bytes are
    arguments. *)

From Stdlib Require Import Ascii.
From S2P Require Import Prelude GoStrings GoText JobQueue Base64 Password Sqlc Repository.
Local Open Scope Z_scope.

(** ** Requests and responses

    What the handlers read of a request, with the claims its context carries, and what they write:
    a status, headers, and a JSON value, an error object, or nothing. *)

(** [jwt.RegisteredClaims]; dates are nanoseconds since the epoch. *)
Record RegisteredClaims := mkRegistered {
  jc_Issuer : string; jc_Subject : string; jc_Audience : list string; jc_ExpiresAt : option Z;
  jc_NotBefore : option Z; jc_IssuedAt : option Z; jc_ID : string;
}.

(* internal/auth/token.go:19-24 Claims *)
Record Claims := mkClaims { cl_UserID : string; cl_Role : string; cl_Registered : RegisteredClaims }.

Record Request := mkRequest {
  rq_Method : string;
  rq_Path : string;
  rq_Authorization : string;
  rq_RemoteAddr : string;
  rq_Body : string;
  rq_Claims : option Claims;
}.

Inductive Body (A : Type) :=
  | BJson (a : A)
  | BError (code message : string)
  | BEmpty.
Arguments BJson {A} a.
Arguments BError {A} code message.
Arguments BEmpty {A}.

Record Response (A : Type) := mkResponse {
  rs_Status : Z; rs_Headers : list (string * string); rs_Body : Body A;
}.
Arguments mkResponse {A}.
Arguments rs_Status {A}.
Arguments rs_Headers {A}.
Arguments rs_Body {A}.

Definition json_header : string * string := ("Content-Type", "application/json").

(** An [http.Handler] over a state it may change; it may panic. *)
Definition Handler (S A : Type) : Type := S → Request → outcome (S * Response A).

(* internal/auth/token.go:13-17 RoleUser *)
Definition RoleUser : string := "USER".
Definition RoleAdmin : string := "ADMIN".

(* internal/auth/token.go:89-92 WithClaims *)
Definition WithClaims (r : Request) (c : Claims) : Request :=
  mkRequest (rq_Method r) (rq_Path r) (rq_Authorization r) (rq_RemoteAddr r) (rq_Body r) (Some c).

(* internal/auth/token.go:94-98 FromContext *)
Definition FromContext (r : Request) : option Claims := rq_Claims r.

(* internal/auth/token.go:140-144 writeUnauthorized *)
Definition writeUnauthorized {A} (msg : string) : Response A :=
  mkResponse 401 [json_header] (BError "unauthorized" msg).

(* internal/auth/token.go:146-150 writeForbidden *)
Definition writeForbidden {A} : Response A :=
  mkResponse 403 [json_header] (BError "forbidden" "insufficient role").

(* internal/auth/token.go:132-138 bearer *)
Definition bearer (r : Request) : string :=
  match strip_prefix "Bearer " (rq_Authorization r) with
  | Some rest => TrimSpace rest
  | None => ""
  end.

(** ** The JWT library

    A decoded token: whether its method is HMAC, its [alg] and [typ] headers, its claims and
    whether it was found valid. *)
Record Token := mkToken {
  tk_HMAC : bool; tk_alg : string; tk_typ : option string; tk_Claims : Claims; tk_Valid : bool;
}.

(** [jwt.NewNumericDate] truncates to seconds. *)
Definition NewNumericDate (t : Z) : Z := t - t mod second.

(** [SignedString] of an HS256 token with the given [typ] header; [ParseWithClaims] at a time, with
    a function that chooses the key. *)
Class Jwt := {
  SignedString : list Z → string → Claims → result string;
  ParseWithClaims : Z → string → (Token → result (list Z)) → result Token;
}.

Definition plain (s : string) : Prop := Forall (λ c, (N_of_ascii c < 128)%N) (chars_of s).

(** Claims made of ASCII text, as [issue] makes them. *)
Definition plain_claims (c : Claims) : Prop :=
  plain (cl_UserID c) ∧ plain (cl_Role c) ∧ plain (jc_Subject (cl_Registered c)).

(** What the library documents: ASCII claims can be signed and come back as they were, whoever
    reads them; the signed text is a token without white space; a token is accepted when the key
    function returns the key it was signed with and it has not expired; a token that is accepted
    was offered to the key function and is not expired. *)
Class JwtLaws `{Jwt} := {
  sign_total k typ c : plain_claims c → plain typ → ∃ s, SignedString k typ c = Ok s;
  sign_text k typ c s : SignedString k typ c = Ok s → s ≠ ""%string ∧ TrimSpace s = s;
  parse_content k typ c s now f t : SignedString k typ c = Ok s → plain_claims c → plain typ →
    ParseWithClaims now s f = Ok t → t = mkToken true "HS256" (Some typ) c true;
  parse_signed k typ c s now f exp : SignedString k typ c = Ok s → plain_claims c → plain typ →
    jc_ExpiresAt (cl_Registered c) = Some exp → jc_NotBefore (cl_Registered c) = None → now < exp →
    f (mkToken true "HS256" (Some typ) c false) = Ok k → ∃ t, ParseWithClaims now s f = Ok t;
  parse_unexpired now s f t : ParseWithClaims now s f = Ok t →
    (∀ exp, jc_ExpiresAt (cl_Registered (tk_Claims t)) = Some exp → now < exp) ∧
    ∃ k, f (mkToken (tk_HMAC t) (tk_alg t) (tk_typ t) (tk_Claims t) false) = Ok k;
}.

(* internal/auth/token.go:26-31 Manager *)
Record TokenManager := mkTM { tm_secret : list Z; tm_accessTTL : Z; tm_refreshTTL : Z }.

(* internal/auth/token.go:33-36 NewManager *)
Definition NewTokenManager (secret : string) (accessTTL refreshTTL : Z) : TokenManager :=
  mkTM (bytes_of secret) accessTTL refreshTTL.

Section tokens.
Context `{J : Jwt}.

(** The claims [issue] makes; [t1] and [t2] are its two readings of the clock. *)
Definition issued_claims (userID role : string) (ttl t1 t2 : Z) : Claims :=
  mkClaims userID role
    (mkRegistered "" userID [] (Some (NewNumericDate (t2 + ttl))) None (Some (NewNumericDate t1)) "").

(* internal/auth/token.go:48-61 Manager.issue *)
Definition issue (m : TokenManager) (t1 t2 : Z) (userID role kind : string) (ttl : Z) : result string :=
  let claims := issued_claims userID role ttl t1 t2 in
  SignedString (tm_secret m) kind claims.

(* internal/auth/token.go:38-41 Manager.IssueAccess *)
Definition IssueAccess (m : TokenManager) (t1 t2 : Z) (userID role : string) : result string :=
  issue m t1 t2 userID role "access" (tm_accessTTL m).

(* internal/auth/token.go:43-46 Manager.IssueRefresh *)
Definition IssueRefresh (m : TokenManager) (t1 t2 : Z) (userID role : string) : result string :=
  issue m t1 t2 userID role "refresh" (tm_refreshTTL m).

(** The function that chooses the key: the secret, for HMAC methods only. *)
Definition keyfunc (m : TokenManager) (t : Token) : result (list Z) :=
  if tk_HMAC t then Ok (tm_secret m) else Err (Errorf "auth: unexpected signing method").

(* internal/auth/token.go:63-83 Manager.Parse *)
Definition Parse (m : TokenManager) (now : Z) (tokenString kind : string) : result Claims :=
  match ParseWithClaims now tokenString (keyfunc m) with
  | Err e => Err e
  | Ok token =>
      if negb (tk_Valid token) then Err (Errorf "auth: invalid token")
      else if decide (default ""%string (tk_typ token) ≠ kind) then Err (Errorf "auth: wrong token kind")
      else Ok (tk_Claims token)
  end.

(* internal/auth/token.go:100-116 Manager.RequireAuth *)
Definition RequireAuth {S A} (m : TokenManager) (now : Z) (next : Handler S A) : Handler S A := λ s r,
  let token := bearer r in
  if decide (token = ""%string) then Done (s, writeUnauthorized "missing bearer token")
  else
    match Parse m now token "access" with
    | Err _ => Done (s, writeUnauthorized "invalid token")
    | Ok claims => next s (WithClaims r claims)
    end.

(* internal/auth/token.go:118-130 Manager.RequireRole *)
Definition RequireRole {S A} (role : string) (next : Handler S A) : Handler S A := λ s r,
  match FromContext r with
  | Some claims => if decide (cl_Role claims ≠ role) then Done (s, writeForbidden) else next s r
  | None => Done (s, writeForbidden)
  end.

(** ** The service *)

(* internal/auth/service.go:13-14 ErrInvalidCredentials *)
Definition ErrInvalidCredentials : error := Errorf "auth: invalid credentials".

(* internal/auth/service.go:16-21 TokenPair *)
Record TokenPair := mkPair { tp_AccessToken : string; tp_RefreshToken : string; tp_TokenType : string }.

Context `{A2 : Argon2} `{P : Postgres}.

(* internal/auth/service.go:44-55 Service.registerRole *)
Definition registerRole (db : DB) (salt : result (list Z)) (newID username password role : string)
  : outcome (DB * result UserInfo) :=
  let! h := HashPassword salt password in
  match h with
  | Err e => Done (db, Err e)
  | Ok hash => Done (Store__CreateUser db (mkUser newID username hash role 0))
  end.

(* internal/auth/service.go:34-37 Service.Register *)
Definition Service__Register (db : DB) (salt : result (list Z)) (newID username password : string)
  : outcome (DB * result UserInfo) := registerRole db salt newID username password RoleUser.

(* internal/auth/service.go:39-42 Service.BootstrapAdmin *)
Definition BootstrapAdmin (db : DB) (salt : result (list Z)) (newID username password : string)
  : outcome (DB * result UserInfo) := registerRole db salt newID username password RoleAdmin.

(** The readings of the clock a call makes, in order. *)
Definition clock : Type := nat → Z.

(* internal/auth/service.go:79-89 Service.issuePair *)
Definition issuePair (m : TokenManager) (t : clock) (userID role : string) : result TokenPair :=
  try! access := IssueAccess m (t 0%nat) (t 1%nat) userID role in
  try! refresh := IssueRefresh m (t 2%nat) (t 3%nat) userID role in
  Ok (mkPair access refresh "bearer").

(* internal/auth/service.go:57-64 Service.Login *)
Definition Service__Login (m : TokenManager) (t : clock) (db : DB) (username password : string)
  : outcome (result TokenPair) :=
  match Store__GetUserByUsername db username with
  | Err _ => Done (Err ErrInvalidCredentials)
  | Ok u =>
      let! ok := VerifyPassword (ui_PasswordHash u) password in
      if negb ok then Done (Err ErrInvalidCredentials) else Done (issuePair m t (ui_ID u) (ui_Role u))
  end.

(* internal/auth/service.go:66-77 Service.Refresh *)
Definition Service__Refresh (m : TokenManager) (now : Z) (t : clock) (refreshToken : string) : result TokenPair :=
  match Parse m now refreshToken "refresh" with
  | Err _ => Err ErrInvalidCredentials
  | Ok claims =>
      try! access := IssueAccess m (t 0%nat) (t 1%nat) (cl_UserID claims) (cl_Role claims) in
      Ok (mkPair access refreshToken "bearer")
  end.

(** ** Correctness *)

Context {L : JwtLaws}.

Lemma issued_plain uid role ttl t1 t2 : plain uid → plain role → plain_claims (issued_claims uid role ttl t1 t2).
Proof using Type. done. Qed.

Lemma plain_access : plain "access".
Proof using Type. by repeat constructor. Qed.
Lemma plain_refresh : plain "refresh".
Proof using Type. by repeat constructor. Qed.

(** A token is accepted exactly as the kind it was issued as and until it expires. *)
Lemma Parse_issue m t1 t2 uid role kind ttl s now kind' c :
  plain uid → plain role → plain kind → issue m t1 t2 uid role kind ttl = Ok s →
  Parse m now s kind' = Ok c ↔
  kind' = kind ∧ now < NewNumericDate (t2 + ttl) ∧ c = issued_claims uid role ttl t1 t2.
Proof using L.
  intros Hu Hr Hk Hs. pose proof (issued_plain uid role ttl t1 t2 Hu Hr) as Hp. unfold issue in Hs. cbn in Hs.
  unfold Parse. split.
  - destruct (ParseWithClaims now s (keyfunc m)) as [t|] eqn:E; [|done].
    destruct (parse_unexpired _ _ _ _ E) as [Hexp _].
    pose proof (parse_content _ _ _ _ _ _ _ Hs Hp Hk E) as ->. cbn.
    case_decide as Hkd; [done|]. intros [= <-]. split; [done|].
    split; [|done]. by apply Hexp.
  - intros (-> & Hnow & ->).
    destruct (parse_signed (tm_secret m) kind _ s now (keyfunc m) _ Hs Hp Hk eq_refl eq_refl Hnow eq_refl) as [t E].
    rewrite E. pose proof (parse_content _ _ _ _ _ _ _ Hs Hp Hk E) as ->. cbn. by case_decide.
Qed.

(** Access and refresh tokens are not interchangeable and expire: an issued access token
    parses as an access token exactly before its expiry, giving the user and role it was issued
    for, and never as a refresh token; and the other way around. *)
Theorem token_kinds m t1 t2 uid role access refresh :
  plain uid → plain role →
  IssueAccess m t1 t2 uid role = Ok access → IssueRefresh m t1 t2 uid role = Ok refresh →
  ∀ now,
  (∀ c, Parse m now access "access" = Ok c ↔
     now < NewNumericDate (t2 + tm_accessTTL m) ∧ c = issued_claims uid role (tm_accessTTL m) t1 t2) ∧
  (∀ c, Parse m now refresh "refresh" = Ok c ↔
     now < NewNumericDate (t2 + tm_refreshTTL m) ∧ c = issued_claims uid role (tm_refreshTTL m) t1 t2) ∧
  (∃ e, Parse m now access "refresh" = Err e) ∧ (∃ e, Parse m now refresh "access" = Err e).
Proof using L.
  intros Hu Hr Ha Hf now. split_and!.
  - intros c. rewrite (Parse_issue _ _ _ _ _ _ _ _ _ _ _ Hu Hr plain_access Ha). naive_solver.
  - intros c. rewrite (Parse_issue _ _ _ _ _ _ _ _ _ _ _ Hu Hr plain_refresh Hf). naive_solver.
  - destruct (Parse m now access "refresh") as [c|] eqn:E; [|by eexists].
    by apply (Parse_issue _ _ _ _ _ _ _ _ _ _ _ Hu Hr plain_access Ha) in E as (? & _).
  - destruct (Parse m now refresh "access") as [c|] eqn:E; [|by eexists].
    by apply (Parse_issue _ _ _ _ _ _ _ _ _ _ _ Hu Hr plain_refresh Hf) in E as (? & _).
Qed.

(** A bearer token in the header is the text after the prefix. *)
Lemma bearer_token r s : rq_Authorization r = "Bearer " +:+ s → TrimSpace s = s → bearer r = s.
Proof using Type. intros Hr Hs. unfold bearer. by rewrite Hr, strip_prefix_app. Qed.

(** A request with an issued access token gets through until the token expires. *)
Lemma RequireAuth_issued {S A} (next : Handler S A) m t1 t2 uid role access now s r :
  plain uid → plain role → IssueAccess m t1 t2 uid role = Ok access →
  rq_Authorization r = "Bearer " +:+ access →
  RequireAuth m now next s r =
  if now <? NewNumericDate (t2 + tm_accessTTL m)
  then next s (WithClaims r (issued_claims uid role (tm_accessTTL m) t1 t2))
  else Done (s, writeUnauthorized "invalid token").
Proof using L.
  intros Hu Hr Ha Hb. destruct (sign_text _ _ _ _ Ha) as [Hne Htrim].
  unfold RequireAuth. rewrite (bearer_token _ _ Hb Htrim), decide_False by done.
  pose proof (λ c, Parse_issue m t1 t2 uid role _ _ access now "access" c Hu Hr plain_access Ha) as Hp.
  destruct (Z.ltb_spec now (NewNumericDate (t2 + tm_accessTTL m))) as [Hlt|Hge].
  - by rewrite (proj2 (Hp _) (conj eq_refl (conj Hlt eq_refl))).
  - destruct (Parse m now access "access") as [c|]; [|done]. destruct (proj1 (Hp c) eq_refl) as (_ & ? & _). lia.
Qed.

Lemma issuePair_Ok m t uid role : plain uid → plain role →
  ∃ access refresh, issuePair m t uid role = Ok (mkPair access refresh "bearer") ∧
    IssueAccess m (t 0%nat) (t 1%nat) uid role = Ok access ∧
    IssueRefresh m (t 2%nat) (t 3%nat) uid role = Ok refresh.
Proof using L.
  intros Hu Hr. unfold issuePair.
  destruct (sign_total (tm_secret m) "access" (issued_claims uid role (tm_accessTTL m) (t 0%nat) (t 1%nat)))
    as [access Ha]; [done|apply plain_access|].
  destruct (sign_total (tm_secret m) "refresh" (issued_claims uid role (tm_refreshTTL m) (t 2%nat) (t 3%nat)))
    as [refresh Hf]; [done|apply plain_refresh|].
  exists access, refresh. assert (IssueAccess m (t 0%nat) (t 1%nat) uid role = Ok access) as Ha' by exact Ha.
  assert (IssueRefresh m (t 2%nat) (t 3%nat) uid role = Ok refresh) as Hf' by exact Hf.
  by rewrite Ha', Hf'.
Qed.

(** A registration that succeeds, taken apart. *)
Lemma registerRole_Ok db salt newID username password role db' u :
  db_wf db → registerRole db salt newID username password role = Done (db', Ok u) →
  ∃ hash, HashPassword salt password = Done (Ok hash) ∧ db_wf db' ∧
    Store__GetUserByUsername db' username = Ok u ∧
    ui_ID u = newID ∧ ui_Username u = username ∧ ui_Role u = role ∧ ui_PasswordHash u = hash ∧
    users_named db' username ≠ [].
Proof using Type.
  intros Hwf H. unfold registerRole in H. inv_bind H as h Hh. destruct h as [hash|]; [|done].
  injection H as H. exists hash. split; [done|]. unfold Store__CreateUser in H. cbn [ui_ID ui_Username ui_PasswordHash ui_Role] in H.
  set (arg := mkCUP newID username hash role) in *.
  pose proof (CreateUser_wf db arg Hwf) as Hwf'. unfold q_CreateUser, query in *.
  destruct (db_link db) eqn:Hlink; [|by injection H..].
  destruct (forallb text_ok _) eqn:Ht; [|done]. cbn zeta in *. unfold users_accept in *.
  cbn [ur_id ur_username] in *. destruct (decide _) as [Hn|]; [|done].
  destruct (decide _) as [Hnm|]; [|done]. cbn [rmap] in H. injection H as <- <-. cbn [fst] in Hwf'.
  split; [done|]. cbn [userFromRow ui_ID ui_Username ui_Role ui_PasswordHash ur_id ur_username ur_role ur_password_hash arg cu_ID cu_Username cu_Role cu_PasswordHash].
  set (row := mkUserRow newID username hash role (nowTs db)).
  assert (head (users_named (mkDB (db_models db) (db_simulations db) (db_snapshots db)
    (<[newID := row]> (db_users db)) (db_now db) Up) username) = Some row) as Hhd.
  { apply (GetUserByUsername_row _ newID row); [exact Hwf'|]. apply lookup_insert_eq. }
  split; [|split_and!; try done].
  - unfold Store__GetUserByUsername, q_GetUserByUsername, select. cbn [db_link]. cbn in Ht.
    assert (text_ok username = true) as -> by (destruct (text_ok newID), (text_ok username); done).
    by rewrite Hhd.
  - intros Hnil. by rewrite Hnil in Hhd.
Qed.

(** A name that is taken cannot be registered again. *)
Lemma registerRole_taken db salt newID username password role :
  users_named db username ≠ [] → (∃ h, HashPassword salt password = Done h) →
  ∃ e, registerRole db salt newID username password role = Done (db, Err e).
Proof using Type.
  intros Hn [h Hh]. unfold registerRole. rewrite Hh. cbn [obind].
  destruct h as [hash|e]; [|by eexists]. unfold Store__CreateUser, q_CreateUser. cbn [cu_ID cu_Username ui_ID ui_Username].
  assert (∀ r : DB * result UserRow, (∃ e, r = (db, Err e)) →
    ∃ e, Done (let '(s, r) := query db r in (s, rmap userFromRow r)) = Done (db, Err e)) as Hq.
  { intros r [e ->]. unfold query. destruct (db_link db); by eexists. }
  apply Hq. destruct (forallb _ _); [|by eexists]. cbn zeta. unfold users_accept. cbn [ur_id ur_username].
  destruct (decide _); [|by eexists]. destruct (decide (users_named _ _ = [])); [done|]. by eexists.
Qed.

(** C28: registration, login and authorisation compose: after a user registers, logging in with the
    registered password succeeds and its access token lets requests through, with the user's
    identifier and the USER role in their context, exactly until it expires; any password that
    argon2 does not map to the same key gets the error for invalid credentials; and the name is
    taken: another registration under it fails and leaves the database unchanged. *)
Theorem register_login_authorize db salt newID username password db' u :
  db_wf db → Forall is_byte salt → plain newID →
  Service__Register db (Ok salt) newID username password = Done (db', Ok u) →
  ∀ m t,
  (∃ pair, Service__Login m t db' username password = Done (Ok pair) ∧
     ∀ S A (next : Handler S A) s r now, rq_Authorization r = "Bearer " +:+ tp_AccessToken pair →
       RequireAuth m now next s r =
       if now <? NewNumericDate (t 1%nat + tm_accessTTL m)
       then next s (WithClaims r (issued_claims newID RoleUser (tm_accessTTL m) (t 0%nat) (t 1%nat)))
       else Done (s, writeUnauthorized "invalid token")) ∧
  (∀ other, IDKey (bytes_of other) salt argonTime argonMemory argonThreads 32
      ≠ IDKey (bytes_of password) salt argonTime argonMemory argonThreads 32 →
     Service__Login m t db' username other = Done (Err ErrInvalidCredentials)) ∧
  (∀ salt' id' password' role, (∃ h, HashPassword salt' password' = Done h) →
     ∃ e, registerRole db' salt' id' username password' role = Done (db', Err e)).
Proof using L.
  intros Hwf Hsalt Hid Hreg m t.
  destruct (registerRole_Ok _ _ _ _ _ _ _ _ Hwf Hreg) as (hash & Hh & Hwf' & Hget & Huid & Hun & Hur & Hup & Hnamed).
  destruct (HashPassword_accepts salt password Hsalt) as (hash' & Hh' & Hv).
  rewrite Hh in Hh'. injection Hh' as <-. subst newID username hash.
  assert (∀ other, Service__Login m t db' (ui_Username u) other =
    if bool_decide (IDKey (bytes_of other) salt argonTime argonMemory argonThreads 32
      = IDKey (bytes_of password) salt argonTime argonMemory argonThreads 32)
    then Done (issuePair m t (ui_ID u) (ui_Role u)) else Done (Err ErrInvalidCredentials)) as Hlogin.
  { intros other. unfold Service__Login. rewrite Hget, Hv. cbn [obind]. by case_bool_decide. }
  split_and!.
  - destruct (issuePair_Ok m t (ui_ID u) (ui_Role u)) as (access & refresh & Hp & Ha & _);
      [done|rewrite Hur; by repeat constructor|].
    rewrite Hlogin, bool_decide_eq_true_2, Hp by done. eexists. split; [done|].
    intros S A next s r now Hb. rewrite Hur in Ha. apply (RequireAuth_issued next _ _ _ _ _ access); try done.
    by repeat constructor.
  - intros other Hne. by rewrite Hlogin, bool_decide_eq_false_2.
  - intros salt' id' password' role Hh2. by apply registerRole_taken.
Qed.

(** A refresh token renews the access token of its user and role, until it expires; an access token
    renews nothing. *)
Theorem Refresh_keeps_identity m t1 t2 uid role access refresh now t :
  plain uid → plain role →
  IssueAccess m t1 t2 uid role = Ok access → IssueRefresh m t1 t2 uid role = Ok refresh →
  Service__Refresh m now t access = Err ErrInvalidCredentials ∧
  Service__Refresh m now t refresh =
    if now <? NewNumericDate (t2 + tm_refreshTTL m) then
      (try! a := IssueAccess m (t 0%nat) (t 1%nat) uid role in Ok (mkPair a refresh "bearer"))
    else Err ErrInvalidCredentials.
Proof using L.
  intros Hu Hr Ha Hf. unfold Service__Refresh. split.
  - destruct (Parse m now access "refresh") as [c|] eqn:E; [|done].
    by apply (Parse_issue _ _ _ _ _ _ _ _ _ _ _ Hu Hr plain_access Ha) in E as (? & _).
  - pose proof (λ c, Parse_issue m t1 t2 uid role _ _ refresh now "refresh" c Hu Hr plain_refresh Hf) as Hp.
    destruct (Z.ltb_spec now (NewNumericDate (t2 + tm_refreshTTL m))) as [Hlt|Hge].
    + by rewrite (proj2 (Hp _) (conj eq_refl (conj Hlt eq_refl))).
    + destruct (Parse m now refresh "refresh") as [c|]; [|done]. destruct (proj1 (Hp c) eq_refl) as (_ & ? & _). lia.
Qed.
End tokens.

(** ** A concrete token library: the key and the content in clear, as text *)

Module ToyJwt.
Definition content : Type :=
  list Z * string * (string * string) * (string * string * list string * option Z * option Z * option Z * string).

Definition pack (k : list Z) (typ : string) (c : Claims) : content :=
  let r := cl_Registered c in
  (k, typ, (cl_UserID c, cl_Role c),
   (jc_Issuer r, jc_Subject r, jc_Audience r, jc_ExpiresAt r, jc_NotBefore r, jc_IssuedAt r, jc_ID r)).

Definition unpack (x : content) : list Z * string * Claims :=
  let '(k, typ, (uid, role), (iss, sub, aud, exp, nbf, iat, jti)) := x in
  (k, typ, mkClaims uid role (mkRegistered iss sub aud exp nbf iat jti)).

Lemma unpack_pack k typ c : unpack (pack k typ c) = (k, typ, c).
Proof. by destruct c as [uid role []]. Qed.

#[global] Instance jwt : Jwt := {
  SignedString k typ c := Ok (ToyQueue.bits (encode (pack k typ c)));
  ParseWithClaims now s f :=
    match decode (A := content) (ToyQueue.unbits s) with
    | None => Err (Errorf "token is malformed")
    | Some x =>
        let '(k, typ, c) := unpack x in
        match f (mkToken true "HS256" (Some typ) c false) with
        | Err e => Err e
        | Ok k' =>
            if negb (bool_decide (k' = k)) then Err (Errorf "signature is invalid")
            else if match jc_ExpiresAt (cl_Registered c) with Some e => e <=? now | None => false end
                 then Err (Errorf "token is expired")
            else if match jc_NotBefore (cl_Registered c) with Some b => now <? b | None => false end
                 then Err (Errorf "token is not valid yet")
            else Ok (mkToken true "HS256" (Some typ) c true)
        end
    end;
}.

Lemma bits_spaceless p : spaceless (ToyQueue.bits p).
Proof. by induction p. Qed.

#[global] Instance laws : JwtLaws.
Proof.
  split.
  - intros k typ c _ _. by eexists.
  - intros k typ c s [= <-]. split; [by destruct (encode _)|]. apply TrimSpace_spaceless, bits_spaceless.
  - intros k typ c s now f t [= <-] _ _. cbn. rewrite ToyQueue.unbits_bits, decode_encode, unpack_pack.
    destruct (f _) as [k'|]; [|done]. destruct (negb _); [done|].
    destruct (match jc_ExpiresAt _ with Some _ => _ | None => _ end); [done|].
    destruct (match jc_NotBefore _ with Some _ => _ | None => _ end); [done|]. by intros [= <-].
  - intros k typ c s now f exp [= <-] _ _ Hexp Hnbf Hnow Hf. cbn.
    rewrite ToyQueue.unbits_bits, decode_encode, unpack_pack, Hf, Hexp, Hnbf.
    rewrite bool_decide_eq_true_2 by done. cbn. destruct (Z.leb_spec exp now); [lia|]. by eexists.
  - intros now s f t. cbn. destruct (decode _) as [x|]; [|done]. destruct (unpack x) as [[k typ] c].
    destruct (f _) as [k'|] eqn:Hf; [|done]. destruct (negb _); [done|].
    destruct (match jc_ExpiresAt _ with Some _ => _ | None => _ end) eqn:He; [done|].
    destruct (match jc_NotBefore _ with Some _ => _ | None => _ end); [done|]. intros [= <-]. cbn.
    split; [|by exists k']. intros exp Hexp. rewrite Hexp in He. by apply Z.leb_gt in He.
Qed.

Definition manager : TokenManager := NewTokenManager "secret" (15 * 60 * second) (24 * 3600 * second).
Definition db : DB := emptyDB 100.
Definition registered : outcome (DB * result UserInfo) :=
  Service__Register db (Ok [1; 2; 255]) "u1" "alice" "correct horse".
Definition db' : DB := match registered with Done (d, _) => d | Panic _ => db end.
Definition user : UserInfo :=
  match registered with Done (_, Ok u) => u | _ => mkUser "" "" "" "" 0 end.
End ToyJwt.

Lemma token_kinds_witness :
  ∃ access refresh,
    IssueAccess ToyJwt.manager 5 6 "u1" RoleUser = Ok access ∧ IssueRefresh ToyJwt.manager 5 6 "u1" RoleUser = Ok refresh ∧
    (∃ e, Parse ToyJwt.manager 7 access "refresh" = Err e) ∧ (∃ e, Parse ToyJwt.manager 7 refresh "access" = Err e).
Proof.
  do 2 eexists. split; [reflexivity|]. split; [reflexivity|].
  eapply (token_kinds ToyJwt.manager 5 6 "u1" RoleUser); [by repeat constructor..|reflexivity|reflexivity].
Defined.

Lemma register_login_authorize_witness :
  ToyJwt.registered = Done (ToyJwt.db', Ok ToyJwt.user) ∧
  Service__Login ToyJwt.manager (λ n, Z.of_nat n) ToyJwt.db' "alice" "guess" = Done (Err ErrInvalidCredentials).
Proof.
  assert (ToyJwt.registered = Done (ToyJwt.db', Ok ToyJwt.user)) as Hr by (vm_compute; reflexivity).
  split; [exact Hr|].
  apply (register_login_authorize ToyJwt.db [1; 2; 255] "u1" "alice" "correct horse" ToyJwt.db' ToyJwt.user).
  - apply emptyDB_wf.
  - repeat constructor; unfold is_byte; lia.
  - by repeat constructor.
  - exact Hr.
  - vm_compute. done.
Defined.
