(* ===== verification/Redis.v ===== *)
(** * Coordination and rate limiting: [internal/coord/redis.go] and [internal/ratelimit/ratelimit.go]

    Redis is the class [RedisServer]: its commands, and what they do to the keys that are present,
    as documented; time passes between commands and removes expired keys.  On it the wrapper of
    [coord] and the rate-limiting middleware are modelled as written, the Lua script included.  The
    wrapper is also the [Coord] the job queue is proved against. *)

From Stdlib Require Import Ascii.
From stdpp Require Import pretty.
From S2P Require Import Prelude Float64 GoStrings GoText JobQueue Auth.
Local Open Scope Z_scope.

(** A present key: its value and when it expires, in nanoseconds. *)
Record RedisEntry := mkRE { re_value : string; re_expires : option Z }.

Class RedisServer (S : Type) := {
  cmd_Ping : S → option error;
  cmd_Set : S → string → string → Z → S * option error;
  cmd_SetNX : S → string → string → Z → S * result bool;
  cmd_Exists : S → string → result Z;
  cmd_Del : S → string → S * option error;
  cmd_Incr : S → string → S * result Z;
  cmd_Expire : S → string → Z → S * option error;
  rd_pass : S → Z → S;
}.

Definition millisecond : Z := 10 ^ 6.
Definition expires_at (now ttl : Z) : option Z := if 0 <? ttl then Some (now + ttl) else None.
Definition not_expired (now : Z) (kv : string * RedisEntry) : Prop :=
  match re_expires kv.2 with Some e => now < e | None => True end.
#[global] Instance not_expired_dec now kv : Decision (not_expired now kv).
Proof. unfold not_expired. destruct (re_expires kv.2); apply _. Defined.

(** A reachable server: [rd_live] are the keys present at time [rd_now]. *)
Class RedisLaws (S : Type) `{RedisServer S} := {
  rd_now : S → Z;
  rd_live : S → gmap string RedisEntry;
  set_spec s k v ttl : 0 ≤ ttl → ttl mod millisecond = 0 →
    ∃ s', cmd_Set s k v ttl = (s', None) ∧ rd_now s' = rd_now s ∧
      rd_live s' = <[k := mkRE v (expires_at (rd_now s) ttl)]> (rd_live s);
  setnx_spec s k v ttl : 0 ≤ ttl → ttl mod millisecond = 0 →
    ∃ s', cmd_SetNX s k v ttl = (s', Ok (bool_decide (rd_live s !! k = None))) ∧ rd_now s' = rd_now s ∧
      rd_live s' = if decide (rd_live s !! k = None)
                   then <[k := mkRE v (expires_at (rd_now s) ttl)]> (rd_live s) else rd_live s;
  exists_spec s k : cmd_Exists s k = Ok (match rd_live s !! k with Some _ => 1 | None => 0 end);
  del_spec s k : ∃ s', cmd_Del s k = (s', None) ∧ rd_now s' = rd_now s ∧ rd_live s' = delete k (rd_live s);
  incr_new s k : rd_live s !! k = None →
    ∃ s', cmd_Incr s k = (s', Ok 1) ∧ rd_now s' = rd_now s ∧
      rd_live s' = <[k := mkRE (pretty 1) None]> (rd_live s);
  incr_old s k n e : rd_live s !! k = Some (mkRE (pretty n) e) → 0 ≤ n < 2 ^ 63 - 1 →
    ∃ s', cmd_Incr s k = (s', Ok (n + 1)) ∧ rd_now s' = rd_now s ∧
      rd_live s' = <[k := mkRE (pretty (n + 1)) e]> (rd_live s);
  expire_spec s k entry secs : rd_live s !! k = Some entry → 0 < secs < 2 ^ 32 →
    ∃ s', cmd_Expire s k secs = (s', None) ∧ rd_now s' = rd_now s ∧
      rd_live s' = <[k := mkRE (re_value entry) (Some (rd_now s + secs * second))]> (rd_live s);
  expire_now s k entry secs : rd_live s !! k = Some entry → secs ≤ 0 →
    ∃ s', cmd_Expire s k secs = (s', None) ∧ rd_now s' = rd_now s ∧ rd_live s' = delete k (rd_live s);
  pass_now s t : 0 ≤ t → rd_now (rd_pass s t) = rd_now s + t;
  pass_live s t : 0 ≤ t → rd_live (rd_pass s t) = filter (not_expired (rd_now s + t)) (rd_live s);
}.

(** [int64(d.Seconds())]. *)
Definition Seconds (d : Z) : float64 :=
  fadd (f64_of_Z (Z.quot d second)) (fdiv (f64_of_Z (Z.rem d second)) (f64_of_Z second)).
Definition whole_seconds (d : Z) : Z := i64_of_f64 (Seconds d).

(** [net.SplitHostPort]; [None] is an error. *)
Definition SplitHostPort (hostport : string) : option (string * string) :=
  match hostport with
  | String "["%char rest =>
      match Cut "]" rest with
      | Some (host, String ":"%char port) =>
          if occurs ":" port || occurs "[" host || occurs "[" port || occurs "]" port then None
          else Some (host, port)
      | _ => None
      end
  | _ =>
      match CutLast ":" hostport with
      | Some (host, port) =>
          if occurs ":" host || occurs "[" hostport || occurs "]" hostport then None else Some (host, port)
      | None => None
      end
  end.

Section coord.
Context {S : Type} `{Rd : RedisServer S}.

(** Connecting: the client is closed again when the server does not answer. *)
(* internal/coord/redis.go:19-27 NewRedis *)
Definition NewRedis (server : S) : result S :=
  match cmd_Ping server with
  | Some e => Err (Wrapped "coord: connect redis" e)
  | None => Ok server
  end.

(* internal/coord/redis.go:29-32 Redis.Ping *)
Definition Redis__Ping (r : S) : option error := cmd_Ping r.

(* internal/coord/redis.go:34-38 Redis.Heartbeat *)
Definition Redis__Heartbeat (r : S) (key value : string) (ttl : Z) : S * option error :=
  cmd_Set r key value ttl.

(* internal/coord/redis.go:40-44 Redis.Alive *)
Definition Redis__Alive (r : S) (key : string) : bool :=
  match cmd_Exists r key with Ok n => 0 <? n | Err _ => false end.

(* internal/coord/redis.go:46-51 Redis.Claim *)
Definition Redis__Claim (r : S) (key value : string) (ttl : Z) : S * result bool := cmd_SetNX r key value ttl.

(* internal/coord/redis.go:53-56 Redis.Release *)
Definition Redis__Release (r : S) (key : string) : S * option error := cmd_Del r key.

(* internal/coord/redis.go:58-70 Redis.RateLimit *)
Definition Redis__RateLimit (r : S) (key : string) (limit window : Z) : S * result bool :=
  let '(r, n) := cmd_Incr r key in
  match n with
  | Err e => (r, Err e)
  | Ok n =>
      let '(r, err) := if n =? 1 then cmd_Expire r key (whole_seconds window) else (r, None) in
      match err with
      | Some e => (r, Err e)
      | None => (r, Ok (n <=? limit))
      end
  end.

(* internal/ratelimit/ratelimit.go:40-45 clientIP *)
Definition clientIP (r : Request) : string :=
  match SplitHostPort (rq_RemoteAddr r) with Some (host, _) => host | None => rq_RemoteAddr r end.

(** [retryAfter] is the formatted time at which the client may try again. *)
(* internal/ratelimit/ratelimit.go:13-38 Middleware *)
Definition Middleware {T A} (limit window : Z) (keyFn : option (Request → string)) (retryAfter : string)
  (next : Handler (S * T) A) : Handler (S * T) A := λ st r,
  let key := "ratelimit:" +:+ match keyFn with Some f => f r | None => clientIP r end in
  let '(rd, ok) := Redis__RateLimit st.1 key limit window in
  match ok with
  | Err _ => next (rd, st.2) r
  | Ok false =>
      Done ((rd, st.2), mkResponse 429 [json_header; ("Retry-After"%string, retryAfter)]
                          (BError "rate_limited" "too many requests"))
  | Ok true => next (rd, st.2) r
  end.

(** The claims of the job queue, with value 1. *)
#[global] Instance Redis_coord : Coord S := {
  co_claim c k ttl := Redis__Claim c k "1" ttl;
  co_release c k := let '(c, e) := Redis__Release c k in (c, match e with Some e => Err e | None => Ok tt end);
  co_pass := rd_pass;
}.

Context `{L : !RedisLaws S}.

(** The time a present key has left. *)
Definition time_left (now : Z) (e : RedisEntry) : option Z := (λ x, x - now) <$> re_expires e.

(** The job queue's requirement: claims are present keys that expire. *)
#[global] Instance Redis_coord_laws : CoordLaws S.
Proof using L.
  refine {| co_left c := time_left (rd_now c) <$> rd_live c |}.
  - intros c k ttl Ht Hms. destruct (setnx_spec c k "1" ttl) as (c' & Hc & Hn & Hl); [lia|done|].
    exists c'. cbn. unfold Redis__Claim. rewrite Hc. split.
    + do 2 f_equal. apply bool_decide_ext. by rewrite lookup_fmap, fmap_None.
    + rewrite Hl, Hn, lookup_fmap. destruct (rd_live c !! k) as [e|]; cbn [fmap option_fmap option_map].
      * by rewrite !decide_False.
      * rewrite !decide_True by done. rewrite fmap_insert. f_equal. unfold time_left, expires_at. cbn.
        destruct (Z.ltb_spec 0 ttl); [|lia]. cbn. f_equal. lia.
  - intros c k. destruct (del_spec c k) as (c' & Hc & Hn & Hl). exists c'. cbn. unfold Redis__Release.
    rewrite Hc. split; [done|]. by rewrite Hl, Hn, fmap_delete.
  - intros c t k Ht. cbn. rewrite pass_now, pass_live by done. rewrite !lookup_fmap, map_lookup_filter.
    destruct (rd_live c !! k) as [[v [x|]]|]; cbn [fmap option_fmap option_map mbind option_bind].
    + unfold time_left. cbn [re_expires fmap option_fmap option_map]. destruct (Z.ltb_spec t (x - rd_now c)).
      * rewrite option_guard_True by (unfold not_expired; cbn; lia). cbn. do 2 f_equal. lia.
      * by rewrite option_guard_False by (unfold not_expired; cbn; lia).
    + by rewrite option_guard_True.
    + done.
Defined.

(** A heartbeat keeps a worker alive for exactly its time to live, unless it is renewed. *)
Lemma heartbeat_alive r key value ttl t :
  0 < ttl → ttl mod millisecond = 0 → 0 ≤ t →
  let '(r', err) := Redis__Heartbeat r key value ttl in
  err = None ∧ Redis__Alive (rd_pass r' t) key = (t <? ttl).
Proof using L.
  intros Httl Hms Ht. unfold Redis__Heartbeat, Redis__Alive.
  destruct (set_spec r key value ttl) as (r' & -> & Hn & Hl); [lia|done|]. split; [done|].
  rewrite exists_spec, pass_live, Hl, Hn by done. unfold expires_at. destruct (Z.ltb_spec 0 ttl); [|lia].
  destruct (Z.ltb_spec t ttl).
  - rewrite map_lookup_filter, lookup_insert_eq. cbn. by rewrite option_guard_True by (unfold not_expired; cbn; lia).
  - rewrite map_lookup_filter, lookup_insert_eq. cbn. by rewrite option_guard_False by (unfold not_expired; cbn; lia).
Qed.

(** ** The fixed window *)

Definition rate_key (ip : string) : string := "ratelimit:" +:+ ip.

(** The counter of a window that ends at [E] has reached [n]. *)
Definition counted (r : S) (key : string) (n E : Z) : Prop :=
  rd_live r !! key = Some (mkRE (pretty n) (Some E)) ∧ rd_now r < E.

Lemma counted_pass r key n E t :
  counted r key n E → 0 ≤ t → rd_now r + t < E → counted (rd_pass r t) key n E.
Proof using L.
  intros [Hl Hn] Ht HE. split; [|by rewrite pass_now].
  rewrite pass_live by done. apply map_lookup_filter_Some_2; done.
Qed.

Lemma RateLimit_first r key limit window :
  rd_live r !! key = None → 0 < whole_seconds window < 2 ^ 32 →
  ∃ r', Redis__RateLimit r key limit window = (r', Ok (1 <=? limit)) ∧ rd_now r' = rd_now r ∧
    counted r' key 1 (rd_now r + whole_seconds window * second).
Proof using L.
  intros Hn Hw. unfold Redis__RateLimit. destruct (incr_new r key Hn) as (r1 & -> & Hn1 & Hl1).
  destruct (expire_spec r1 key (mkRE (pretty 1) None) (whole_seconds window)) as (r2 & Hr2 & Hn2 & Hl2);
    [by rewrite Hl1, lookup_insert_eq|done|]. change (1 =? 1) with true. cbn [re_value] in Hl2. rewrite Hr2.
  exists r2. split; [done|]. split; [congruence|]. split.
  - rewrite Hl2, Hn1. by rewrite lookup_insert_eq.
  - rewrite Hn2, Hn1. unfold second. lia.
Qed.

Lemma RateLimit_next r key limit window n E :
  counted r key n E → 1 ≤ n < 2 ^ 63 - 1 →
  ∃ r', Redis__RateLimit r key limit window = (r', Ok (n + 1 <=? limit)) ∧ rd_now r' = rd_now r ∧
    counted r' key (n + 1) E.
Proof using L.
  intros [Hl Hn] Hr. unfold Redis__RateLimit.
  destruct (incr_old r key n (Some E) Hl) as (r1 & -> & Hn1 & Hl1); [lia|].
  destruct (Z.eqb_spec (n + 1) 1); [lia|]. exists r1. split; [done|]. split; [done|].
  split; [|lia]. by rewrite Hl1, lookup_insert_eq.
Qed.

(** A window shorter than a second is truncated to none: the counter is removed as soon as it is
    made, and no request is ever refused. *)
Theorem short_window_never_limits r key limit window :
  rd_live r !! key = None → whole_seconds window ≤ 0 →
  ∃ r', Redis__RateLimit r key limit window = (r', Ok (1 <=? limit)) ∧ rd_live r' = rd_live r.
Proof using L.
  intros Hn Hw. unfold Redis__RateLimit. destruct (incr_new r key Hn) as (r1 & -> & Hn1 & Hl1).
  destruct (expire_now r1 key (mkRE (pretty 1) None) (whole_seconds window)) as (r2 & Hr2 & Hn2 & Hl2);
    [by rewrite Hl1, lookup_insert_eq|done|]. change (1 =? 1) with true. cbv iota. rewrite Hr2.
  exists r2. split; [done|]. rewrite Hl2, Hl1. by rewrite delete_insert_id.
Qed.

Section window.
Context {T A : Type} (app : Handler T A) (limit window : Z) (retryAfter : string).

(** The application behind the middleware does not use the counters. *)
Definition lift : Handler (S * T) A := λ st r, let! (t, resp) := app st.2 r in Done ((st.1, t), resp).

(** A request served after a wait. *)
Definition serve (st : S * T) (x : Z * Request) : outcome (S * T) :=
  let! (st', _) := Middleware limit window None retryAfter lift (rd_pass st.1 x.1, st.2) x.2 in Done st'.

Definition run_app (t : T) (r : Request) : outcome T := let! (t', _) := app t r in Done t'.

Definition total_wait (xs : list (Z * Request)) : Z := foldr Z.add 0 xs.*1.

(** One request: the application runs exactly when the counter allows it. *)
Lemma serve_step r t dt req rd ok :
  Redis__RateLimit (rd_pass r dt) (rate_key (clientIP req)) limit window = (rd, Ok ok) →
  serve (r, t) (dt, req) = if ok then (let! t' := run_app t req in Done (rd, t')) else Done (rd, t).
Proof using Type.
  intros Hr. unfold serve, Middleware. cbn [fst snd]. fold (rate_key (clientIP req)). rewrite Hr.
  destruct ok; [|done]. unfold lift, run_app. cbn [fst snd]. by destruct (app t req) as [[]|].
Qed.

(** Requests of one client while a window is open. *)
Lemma window_open ip xs : ∀ r t n E t',
  counted r (rate_key ip) n E → 1 ≤ n → n + len xs < 2 ^ 63 →
  Forall (λ x, 0 ≤ x.1 ∧ clientIP x.2 = ip) xs → rd_now r + total_wait xs < E →
  ofold run_app t (take (Z.to_nat (limit - n)) xs).*2 = Done t' →
  ∃ r', ofold serve (r, t) xs = Done (r', t').
Proof using L.
  induction xs as [|[dt req] xs IH]; intros r t n E t' Hc Hn Hlen Hxs HE Happ.
  - rewrite take_nil in Happ. cbn in Happ. injection Happ as <-. by eexists.
  - apply Forall_cons in Hxs as [[Hdt Hip] Hxs]. cbn [fst snd] in Hdt, Hip.
    change (total_wait ((dt, req) :: xs)) with (dt + total_wait xs) in HE.
    rewrite len_cons in Hlen. pose proof (len_nonneg xs).
    assert (0 ≤ total_wait xs) as Hnn.
    { clear -Hxs. induction Hxs as [|x xs [Hx _] _ IH]; [done|]. unfold total_wait in *. cbn. lia. }
    pose proof (counted_pass _ _ _ _ dt Hc Hdt ltac:(lia)) as Hc1.
    destruct (RateLimit_next _ _ limit window _ _ Hc1) as (r' & Hrl & Hnow & Hc2); [lia|].
    rewrite pass_now in Hnow by done. rewrite <- Hip in Hrl.
    cbn [ofold]. rewrite (serve_step _ _ _ _ _ _ Hrl).
    destruct (Z.leb_spec (n + 1) limit) as [Hle|Hgt].
    + replace (Z.to_nat (limit - n)) with (1 + Z.to_nat (limit - (n + 1)))%nat in Happ by lia.
      cbn [take fmap list_fmap snd ofold Nat.add] in Happ. inv_bind Happ as t1 Ht1. rewrite Ht1. cbn [obind].
      apply (IH _ _ (n + 1) E); auto; lia.
    + replace (Z.to_nat (limit - n)) with 0%nat in Happ by lia. cbn in Happ. cbn [obind].
      apply (IH _ _ (n + 1) E); auto; [lia..|]. by replace (Z.to_nat (limit - (n + 1))) with 0%nat by lia.
Qed.

(** C36: the rate limit is a fixed window: of the requests one client makes before the window that
    its first request opens closes, exactly the first [limit] reach the application, in their
    order; the others are answered without running it. *)
Theorem fixed_window ip r t x xs t' :
  rd_live r !! rate_key ip = None → 0 < whole_seconds window < 2 ^ 32 → 0 ≤ limit →
  Forall (λ x, 0 ≤ x.1 ∧ clientIP x.2 = ip) (x :: xs) → total_wait xs < whole_seconds window * second →
  len (x :: xs) < 2 ^ 63 →
  ofold run_app t (take (Z.to_nat limit) (x :: xs)).*2 = Done t' →
  ∃ r', ofold serve (r, t) (x :: xs) = Done (r', t').
Proof using L.
  intros Hnone Hw Hlim Hxs Hwait Hlen Happ. destruct x as [dt req].
  apply Forall_cons in Hxs as [[Hdt Hip] Hxs]. cbn [fst snd] in Hdt, Hip. rewrite len_cons in Hlen.
  assert (rd_live (rd_pass r dt) !! rate_key ip = None) as Hnone'.
  { rewrite pass_live by done. apply map_lookup_filter_None_2. by left. }
  destruct (RateLimit_first _ _ limit window Hnone' Hw) as (r' & Hrl & Hnow & Hc).
  rewrite <- Hip in Hrl. cbn [ofold]. rewrite (serve_step _ _ _ _ _ _ Hrl).
  destruct (Z.leb_spec 1 limit) as [Hle|Hgt].
  - replace (Z.to_nat limit) with (1 + Z.to_nat (limit - 1))%nat in Happ by lia.
    cbn [take fmap list_fmap snd ofold Nat.add] in Happ. inv_bind Happ as t1 Ht1. rewrite Ht1. cbn [obind].
    eapply window_open; eauto; lia.
  - replace (Z.to_nat limit) with 0%nat in Happ by lia. cbn in Happ. cbn [obind].
    eapply window_open; eauto; [lia..|]. by replace (Z.to_nat (limit - 1)) with 0%nat by lia.
Qed.
End window.
End coord.

(** ** A concrete server *)

Module ToyRedis.
Record State := mkState { keys : gmap string RedisEntry; now : Z }.

Definition live (s : State) : gmap string RedisEntry := filter (not_expired (now s)) (keys s).
Definition store (s : State) (m : gmap string RedisEntry) : State := mkState m (now s).

(** The decimal text of a counter. *)
Definition number (s : string) : option Z := Atoi s.

#[global] Instance server : RedisServer State := {
  cmd_Ping _ := None;
  cmd_Set s k v ttl := (store s (<[k := mkRE v (expires_at (now s) ttl)]> (live s)), None);
  cmd_SetNX s k v ttl :=
    if decide (live s !! k = None)
    then (store s (<[k := mkRE v (expires_at (now s) ttl)]> (live s)), Ok true) else (s, Ok false);
  cmd_Exists s k := Ok (match live s !! k with Some _ => 1 | None => 0 end);
  cmd_Del s k := (store s (delete k (live s)), None);
  cmd_Incr s k :=
    match live s !! k with
    | None => (store s (<[k := mkRE (pretty 1) None]> (live s)), Ok 1)
    | Some e =>
        match number (re_value e) with
        | Some n => (store s (<[k := mkRE (pretty (n + 1)) (re_expires e)]> (live s)), Ok (n + 1))
        | None => (s, Err (Errorf "ERR value is not an integer or out of range"))
        end
    end;
  cmd_Expire s k secs :=
    match live s !! k with
    | None => (s, None)
    | Some e =>
        if 0 <? secs then (store s (<[k := mkRE (re_value e) (Some (now s + secs * second))]> (live s)), None)
        else (store s (delete k (live s)), None)
    end;
  rd_pass s t := mkState (keys s) (now s + t);
}.

(** Nothing stored with a later expiry, or none, is filtered again. *)
Lemma live_store s m :
  (∀ k e, m !! k = Some e → not_expired (now s) (k, e)) → live (store s m) = m.
Proof. intros Hm. unfold live. cbn. apply map_filter_id. intros k e Hk. by apply Hm. Qed.

Lemma live_alive s k e : live s !! k = Some e → not_expired (now s) (k, e).
Proof. by intros [_ H]%map_lookup_filter_Some. Qed.

Lemma live_insert s k e :
  not_expired (now s) (k, e) → live (store s (<[k := e]> (live s))) = <[k := e]> (live s).
Proof.
  intros He. apply live_store. intros k' e' [[<- <-]|[_ H]]%lookup_insert_Some; [done|by apply live_alive].
Qed.

Lemma live_delete s k : live (store s (delete k (live s))) = delete k (live s).
Proof. apply live_store. intros k' e' [_ H]%lookup_delete_Some. by apply live_alive. Qed.

Lemma not_expired_ttl s k v ttl : not_expired (now s) (k, mkRE v (expires_at (now s) ttl)).
Proof. unfold not_expired, expires_at. cbn. destruct (Z.ltb_spec 0 ttl); [lia|done]. Qed.

#[global] Instance laws : RedisLaws State.
Proof.
  refine {| rd_now := now; rd_live := live |}.
  - intros s k v ttl _ _. eexists. split; [reflexivity|]. split; [done|]. apply live_insert, not_expired_ttl.
  - intros s k v ttl _ _. cbn. destruct (decide (live s !! k = None)) as [Hn|Hn].
    + rewrite bool_decide_eq_true_2 by done. eexists. split; [done|]. split; [done|].
      apply live_insert, not_expired_ttl.
    + rewrite bool_decide_eq_false_2 by done. by eexists.
  - done.
  - intros s k. eexists. split; [reflexivity|]. split; [done|]. apply live_delete.
  - intros s k Hn. cbn. rewrite Hn. eexists. split; [done|]. split; [done|]. by apply live_insert.
  - intros s k n e Hk Hn. cbn. rewrite Hk. cbn. unfold number. rewrite Atoi_pretty by lia.
    eexists. split; [done|]. split; [done|]. apply live_insert. by apply live_alive in Hk.
  - intros s k e secs Hk Hs. cbn. rewrite Hk. destruct (Z.ltb_spec 0 secs); [|lia].
    eexists. split; [done|]. split; [done|]. apply live_insert. unfold not_expired, second. cbn. lia.
  - intros s k e secs Hk Hs. cbn. rewrite Hk. destruct (Z.ltb_spec 0 secs); [lia|].
    eexists. split; [done|]. split; [done|]. apply live_delete.
  - done.
  - intros s t Ht. cbn. unfold live. cbn. rewrite map_filter_filter_l; [done|].
    intros k e _. unfold not_expired. cbn. destruct (re_expires e); [lia|done].
Defined.

Definition minute : Z := 60 * second.
Definition request : Request := mkRequest "POST" "/api/v1/simulations" "" "192.0.2.1:1234" "" None.

(** An application that counts the requests it serves. *)
Definition app : Handler nat unit := λ n _, Done (S n, mkResponse 200 [] BEmpty).
End ToyRedis.

Lemma fixed_window_witness :
  clientIP ToyRedis.request = "192.0.2.1"%string ∧
  ∃ r', ofold (serve (S := ToyRedis.State) ToyRedis.app 2 ToyRedis.minute "") (ToyRedis.mkState ∅ 0, 0%nat)
    [(5, ToyRedis.request); (second, ToyRedis.request); (second, ToyRedis.request)] = Done (r', 2%nat).
Proof.
  split; [reflexivity|].
  apply (fixed_window ToyRedis.app 2 ToyRedis.minute "" "192.0.2.1").
  - reflexivity.
  - vm_compute. done.
  - done.
  - repeat constructor; vm_compute; done.
  - vm_compute. done.
  - vm_compute. done.
  - reflexivity.
Defined.
