(* ===== verification/RabbitMQ.v ===== *)
(** * The RabbitMQ broker: [internal/broker/rabbitmq.go]

    The broker used by the workers in production.  The AMQP client library and the server behind
    it are a parameter: [amqpE] lists the calls the code makes, with the type of their replies, and
    [AmqpClient] answers them from a state of its own.  The context of a call, its timer and the work
    of a job are calls too, so that every moment of a cancellation or of an execution is covered.
    What the code relies on is the class [AmqpLaws]: a channel that is closed stays closed, and a
    message stays with the server until this process settles its delivery or another consumer settles
    one of its own.

    To speak of every moment of a consumption, the same code is run on a client that is watched: one
    that notes the state of the server after every call, and the deliveries whose work has been
    done by then. *)

From stdpp Require Import gmultiset.
From S2P Require Import Prelude GoValues JobQueue MemoryBroker.
Local Open Scope Z_scope.

(** A message handed out by the server: the channel and the tag that identify the delivery, and
    the queue it came from. *)
Record amqp_delivery := mkAD { ad_channel : Z; ad_tag : Z; ad_queue : string; ad_body : rawJSON }.

(** What a consumer's [select] receives. *)
Inductive arrival := Cancelled (e : error) | Closed | Arrived (d : amqp_delivery).

(** The calls, with the type of their reply. *)
Inductive amqpE : Type → Type :=
  | Dial (url : string) : amqpE (result Z)
  | OpenChannel (conn : Z) : amqpE (result Z)
  | CloseConn (conn : Z) : amqpE (option error)
  | CloseChannel (ch : Z) : amqpE (option error)
  | QueueDeclare (ch : Z) (queue : string) (durable : bool) : amqpE (option error)
  | Qos (ch : Z) (prefetch : Z) : amqpE (option error)
  | BasicConsume (ch : Z) (queue : string) (autoAck : bool) : amqpE (option error)
  | Receive (ch : Z) : amqpE arrival
  | BasicPublish (ch : Z) (queue : string) (persistent : bool) (body : rawJSON) : amqpE (option error)
  | BasicAck (d : amqp_delivery) : amqpE (option error)
  | BasicNack (d : amqp_delivery) (requeue : bool) : amqpE (option error)
  | Work (job : Job) : amqpE (result rawJSON)
  | CtxErr : amqpE (option error)
  | Sleep (delay : Z) : amqpE (option error).

Class AmqpClient (S : Type) := amqp : ∀ T, S → amqpE T → S * T.
Arguments amqp {S _ T}.

Definition errChannelClosed : error := Errorf "broker: channel closed".

Section rabbitmq.
Context {S : Type} `{Am : AmqpClient S}.

(** [conn] and [ch] are set once [NewRabbitMQ] has returned, and never reset to nil. *)
(* internal/broker/rabbitmq.go:15-23 RabbitMQ *)
Record RabbitMQ := mkRabbit { rb_url : string; rb_conn : Z; rb_ch : Z }.

(* internal/broker/rabbitmq.go:34-46 RabbitMQ.dial *)
Definition dial (url : string) (s : S) : S * result (Z * Z) :=
  let '(s, conn) := amqp s (Dial url) in
  match conn with
  | Err e => (s, Err (Wrapped "broker: dial" e))
  | Ok conn =>
      let '(s, ch) := amqp s (OpenChannel conn) in
      match ch with
      | Err e => let '(s, _) := amqp s (CloseConn conn) in (s, Err (Wrapped "broker: channel" e))
      | Ok ch => (s, Ok (conn, ch))
      end
  end.

(* internal/broker/rabbitmq.go:25-32 NewRabbitMQ *)
Definition NewRabbitMQ (url : string) (s : S) : S * result RabbitMQ :=
  let '(s, r) := dial url s in
  match r with
  | Err e => (s, Err e)
  | Ok (conn, ch) => (s, Ok (mkRabbit url conn ch))
  end.

(* internal/broker/rabbitmq.go:48-69 RabbitMQ.reconnect *)
Definition reconnect (r : RabbitMQ) (s : S) : RabbitMQ * S * option error :=
  let '(s, _) := amqp s (CloseChannel (rb_ch r)) in
  let '(s, _) := amqp s (CloseConn (rb_conn r)) in
  let '(s, conn) := amqp s (Dial (rb_url r)) in
  match conn with
  | Err e => (r, s, Some e)
  | Ok conn =>
      let '(s, ch) := amqp s (OpenChannel conn) in
      match ch with
      | Err e => let '(s, _) := amqp s (CloseConn conn) in (r, s, Some e)
      | Ok ch => (mkRabbit (rb_url r) conn ch, s, None)
      end
  end.

(* internal/broker/rabbitmq.go:90-99 RabbitMQ.publishOn *)
Definition publishOn (ch : Z) (queue : string) (body : rawJSON) (s : S) : S * option error :=
  let '(s, err) := amqp s (QueueDeclare ch queue true) in
  match err with
  | Some e => (s, Some (Wrapped "broker: declare" e))
  | None => amqp s (BasicPublish ch queue true body)
  end.

(* internal/broker/rabbitmq.go:71-88 RabbitMQ.Publish *)
Definition RabbitMQ__Publish (r : RabbitMQ) (s : S) (queue : string) (body : rawJSON) : RabbitMQ * S * option error :=
  let '(s, err) := publishOn (rb_ch r) queue body s in
  match err with
  | None => (r, s, None)
  | Some err =>
      let '(s, cancelled) := amqp s CtxErr in
      match cancelled with
      | Some e => (r, s, Some e)
      | None =>
          let '(r, s, rerr) := reconnect r s in
          match rerr with
          | Some _ => (r, s, Some err)
          | None => let '(s, err) := publishOn (rb_ch r) queue body s in (r, s, err)
          end
      end
  end.

(* internal/broker/rabbitmq.go:165-179 RabbitMQ.Close *)
Definition RabbitMQ__Close (r : RabbitMQ) (s : S) : S * option error :=
  let '(s, err) := amqp s (CloseChannel (rb_ch r)) in
  let '(s, cerr) := amqp s (CloseConn (rb_conn r)) in
  (s, match err with Some e => Some e | None => cerr end).

(** ** Consumption *)

Context {A : Type}.

(** A handler works on the broker with the outside world and on a state of its own; [None] is a
    handler that does not return. *)
Definition rabbit_handler : Type :=
  RabbitMQ * S → A → amqp_delivery → option (RabbitMQ * S * amqp_delivery * A * option error).

(** A consumer at work, with the deliveries it has handed to the handler and the times it has
    waited before it reconnected. *)
Record consumer := mkCn {
  cn_broker : RabbitMQ; cn_world : S; cn_app : A; cn_handed : list amqp_delivery; cn_waits : list Z;
}.

(** The loop over the deliveries of a channel; [fuel] bounds the deliveries, and [None] is a loop
    that has not ended. *)
Fixpoint receive_loop (fuel : nat) (ch : Z) (handler : rabbit_handler) (c : consumer) : consumer * option error :=
  match fuel with
  | O => (c, None)
  | Datatypes.S fuel =>
      let '(s, m) := amqp (cn_world c) (Receive ch) in
      match m with
      | Cancelled e => (mkCn (cn_broker c) s (cn_app c) (cn_handed c) (cn_waits c), Some e)
      | Closed => (mkCn (cn_broker c) s (cn_app c) (cn_handed c) (cn_waits c), Some errChannelClosed)
      | Arrived d =>
          match handler (cn_broker c, s) (cn_app c) d with
          | None => (mkCn (cn_broker c) s (cn_app c) (cn_handed c ++ [d]) (cn_waits c), None)
          | Some (r, s, _, a, err) =>
              let s := match err with Some _ => (amqp s (BasicNack d false)).1 | None => s end in
              receive_loop fuel ch handler (mkCn r s a (cn_handed c ++ [d]) (cn_waits c))
          end
      end
  end.

Definition set_world (c : consumer) (s : S) : consumer :=
  mkCn (cn_broker c) s (cn_app c) (cn_handed c) (cn_waits c).

(* internal/broker/rabbitmq.go:131-163 RabbitMQ.consumeOnce *)
Definition consumeOnce (fuel : nat) (queue : string) (handler : rabbit_handler) (c : consumer) : consumer * option error :=
  let ch := rb_ch (cn_broker c) in
  let '(s, err) := amqp (cn_world c) (QueueDeclare ch queue true) in
  match err with
  | Some e => (set_world c s, Some (Wrapped "broker: declare" e))
  | None =>
      let '(s, err) := amqp s (Qos ch 1) in
      match err with
      | Some e => (set_world c s, Some (Wrapped "broker: qos" e))
      | None =>
          let '(s, err) := amqp s (BasicConsume ch queue false) in
          match err with
          | Some e => (set_world c s, Some (Wrapped "broker: consume" e))
          | None => receive_loop fuel ch handler (set_world c s)
          end
      end
  end.

(** What follows a failed [consumeOnce]: the wait and the reconnection.  An error is what
    [Consume] returns. *)
Definition after_failure (c : consumer) (backoff : Z) (err : error) : consumer * (Z + error) :=
  let '(s, cancelled) := amqp (cn_world c) CtxErr in
  match cancelled with
  | Some e => (set_world c s, inr e)
  | None =>
      if errors_Is err errChannelClosed then
        let '(s, cancelled) := amqp s (Sleep backoff) in
        let c := mkCn (cn_broker c) s (cn_app c) (cn_handed c) (cn_waits c ++ [backoff]) in
        match cancelled with
        | Some e => (c, inr e)
        | None =>
            let '(r, s, rerr) := reconnect (cn_broker c) (cn_world c) in
            let c := mkCn r s (cn_app c) (cn_handed c) (cn_waits c) in
            (c, inl match rerr with
                    | Some _ => if backoff <? 30 * second then i64 (backoff * 2) else backoff
                    | None => second
                    end)
        end
      else (set_world c s, inr err)
  end.

Fixpoint consume_loop (fuel : nat) (queue : string) (handler : rabbit_handler) (backoff : Z) (c : consumer)
  : consumer * option error :=
  match fuel with
  | O => (c, None)
  | Datatypes.S fuel' =>
      let '(s, cancelled) := amqp (cn_world c) CtxErr in
      match cancelled with
      | Some e => (set_world c s, Some e)
      | None =>
          let '(c, err) := consumeOnce fuel queue handler (set_world c s) in
          match err with
          | None => (c, None)
          | Some err =>
              let '(c, next) := after_failure c backoff err in
              match next with
              | inl backoff => consume_loop fuel' queue handler backoff c
              | inr e => (c, Some e)
              end
          end
      end
  end.

(* internal/broker/rabbitmq.go:101-129 RabbitMQ.Consume *)
Definition RabbitMQ__Consume (fuel : nat) (r : RabbitMQ) (s : S) (a : A) (queue : string) (handler : rabbit_handler)
  : consumer * option error :=
  consume_loop fuel queue handler second (mkCn r s a [] []).
End rabbitmq.

(** ** What the code relies on *)

(** The delivery a call settles for good. *)
Definition settles {T} (c : amqpE T) : option amqp_delivery :=
  match c with
  | BasicAck d => Some d
  | BasicNack d requeue => if requeue then None else Some d
  | _ => None
  end.

(** The channel whose messages a call waits for. *)
Definition receives {T} (c : amqpE T) : option Z := match c with Receive ch => Some ch | _ => None end.

(** The channel for which a call asks the server not to wait for acknowledgements. *)
Definition automatic {T} (c : amqpE T) : option Z :=
  match c with BasicConsume ch _ autoAck => if autoAck then Some ch else None | _ => None end.

(** Whether a call does the work of a job. *)
Definition works {T} (c : amqpE T) : bool := match c with Work _ => true | _ => false end.

(** The channel a call opens, given its reply. *)
Definition opens {T} (c : amqpE T) : T → option Z :=
  match c in amqpE T return T → option Z with
  | OpenChannel _ => λ r, match r with Ok ch => Some ch | Err _ => None end
  | _ => λ _, None
  end.

Class AmqpLaws (S : Type) `{AmqpClient S} := {
  (** The messages of a queue that the server holds, waiting or handed out to some consumer and not
      settled; and those that other consumers have settled. *)
  held : S → string → gmultiset rawJSON;
  elsewhere : S → string → gmultiset rawJSON;
  (** A delivery to this process that is not settled. *)
  outstanding : S → amqp_delivery → bool;
  channel_open : S → Z → bool;
  (** The consumer of the channel acknowledges by itself. *)
  manual : S → Z → bool;

  held_call {T} s (c : amqpE T) q :
    settles c = None → (∀ ch, receives c = Some ch → manual s ch = true) →
    held s q ⊎ elsewhere s q ⊆ held (amqp s c).1 q ⊎ elsewhere (amqp s c).1 q;
  held_settle {T} s (c : amqpE T) d q :
    settles c = Some d →
    held s q ⊎ elsewhere s q ⊆ held (amqp s c).1 q ⊎ elsewhere (amqp s c).1 q ⊎
      (if outstanding s d && negb (outstanding (amqp s c).1 d) && bool_decide (q = ad_queue d) then {[+ ad_body d +]} else ∅);
  settled_for_good {T} s (c : amqpE T) d :
    outstanding s d = false → receives c = None → outstanding (amqp s c).1 d = false;
  manual_consume s ch q : (amqp s (BasicConsume ch q false)).2 = None → manual (amqp s (BasicConsume ch q false)).1 ch = true;
  manual_stays {T} s (c : amqpE T) ch :
    automatic c ≠ Some ch → manual s ch = true → manual (amqp s c).1 ch = true;

  closed_stays {T} s (c : amqpE T) ch :
    channel_open s ch = false → opens c (amqp s c).2 ≠ Some ch → channel_open (amqp s c).1 ch = false;
  closed_declare s ch q durable :
    channel_open s ch = false →
    ∃ e, (amqp s (QueueDeclare ch q durable)).2 = Some e ∧ errors_Is e errChannelClosed = false;
  close_channel s ch : channel_open (amqp s (CloseChannel ch)).1 ch = false;
}.

(** ** Calls that settle nothing *)

Section calm.
Context {S : Type} `{Am : AmqpClient S}.
Implicit Types (s : S).

(** Calls that settle nothing, receive nothing, do no work and leave the mode of the consumers
    alone. *)
Inductive calm : S → S → Prop :=
  | calm_refl s : calm s s
  | calm_call {T} s (cmd : amqpE T) s' :
      settles cmd = None → receives cmd = None → automatic cmd = None → works cmd = false →
      calm (amqp s cmd).1 s' → calm s s'.

Lemma calm_trans s1 s2 s3 : calm s1 s2 → calm s2 s3 → calm s1 s3.
Proof. induction 1; [done|]. intros. eapply calm_call; eauto. Qed.

(** Step through the calls of a function, one [calm_call] each. *)
Ltac calm_steps :=
  repeat match goal with
  | |- context [match ?x with Ok _ => _ | Err _ => _ end] => is_var x; destruct x; cbv beta iota
  | |- context [match ?x with Some _ => _ | None => _ end] => is_var x; destruct x; cbv beta iota
  | |- context [amqp ?s ?cmd] =>
      let E := fresh "E" in destruct (amqp s cmd) eqn:E;
      eapply (calm_call s cmd); [reflexivity|reflexivity|reflexivity|reflexivity|rewrite E; cbv beta iota; cbn [fst]]
  end; cbn [fst snd]; try apply calm_refl.

Lemma reconnect_calm r s : calm s (reconnect r s).1.2.
Proof. unfold reconnect. calm_steps. Qed.

Lemma publishOn_calm ch queue body s : calm s (publishOn ch queue body s).1.
Proof. unfold publishOn. calm_steps. Qed.

Lemma Publish_calm r s queue body : calm s (RabbitMQ__Publish r s queue body).1.2.
Proof.
  unfold RabbitMQ__Publish. pose proof (publishOn_calm (rb_ch r) queue body s) as H1.
  destruct (publishOn _ _ _ _) as [s1 [err|]]; [|done]. cbn [fst] in H1. eapply calm_trans; [exact H1|]. calm_steps.
  pose proof (reconnect_calm r s0) as H2. destruct (reconnect r s0) as [[r2 s2] [rerr|]]; cbn [fst snd] in H2 |- *; [done|].
  eapply calm_trans; [exact H2|].
  pose proof (publishOn_calm (rb_ch r2) queue body s2) as H3. by destruct (publishOn _ _ _ _) as [s3 err3].
Qed.
End calm.

(** ** The job queue on RabbitMQ *)

Section jobs.
Context {S C : Type} `{Am : AmqpClient S} `{Co : Coord C} `{Kd : JobCodec}.
Abbreviation JobQ := (Queue (RabbitMQ * S) C).

#[global] Instance rabbit_publisher : Publisher (RabbitMQ * S) := λ w queue body,
  let '(r, s, err) := RabbitMQ__Publish w.1 w.2 queue body in Some ((r, s), err).

#[global] Instance rabbit_deliveries : Delivery (RabbitMQ * S) amqp_delivery := {
  dl_body := ad_body;
  dl_ack w d := let '(s, err) := amqp w.2 (BasicAck d) in ((w.1, s), d, err);
}.

(** What a worker does with a job: the work, and the publication of its result on the same broker,
    which may reconnect. *)
Definition rabbit_work (q : JobQ) (job : Job) : outcome (option (JobQ * option string)) :=
  let '(r, s) := qu_broker q in
  let '(s, res) := amqp s (Work job) in
  match res with
  | Err e => Done (Some (set_broker q (r, s), Some (Error e)))
  | Ok data =>
      match br_publish (r, s) QueueResults data with
      | Some (w, err) => Done (Some (set_broker q w, Error <$> err))
      | None => Done None
      end
  end.

(** The job queue as the handler of [Consume]. *)
Definition rabbit_jobs : rabbit_handler (S := S) (A := JobQ) := λ w q d,
  match job_delivery rabbit_work (set_broker q w) d with
  | Done (Some (q, d, err)) => Some (qu_broker q, d, q, err)
  | _ => None
  end.
End jobs.

(** ** A watched client *)

Section watched.
Context {S : Type} `{Am : AmqpClient S} `{Kd : JobCodec}.

(** The state of the server now, the delivery received last, the deliveries whose work has been done,
    those that have been acknowledged, and for every moment so far the state of the server and the deliveries done by then. *)
Record watched := mkWatched {
  wd_now : S;
  wd_current : option amqp_delivery;
  wd_finished : list amqp_delivery;
  wd_acked : list amqp_delivery;
  wd_moments : list (S * list amqp_delivery);
}.

Definition watch (s : S) : watched := mkWatched s None [] [] [].

(** Whether a delivery carries the job. *)
Definition carries (d : amqp_delivery) (job : Job) : bool :=
  match json_UnmarshalJob (ad_body d) with Ok j => bool_decide (j = job) | Err _ => false end.

Definition unreadable (d : amqp_delivery) : bool :=
  match json_UnmarshalJob (ad_body d) with Ok _ => false | Err _ => true end.

(** What a call with its reply says about deliveries: there is nothing to do for one that is not a
    job, and the work on the job of the current delivery is done when the call returns. *)
Definition note {T} (c : amqpE T) : T → option amqp_delivery * list amqp_delivery → option amqp_delivery * list amqp_delivery :=
  match c in amqpE T return T → option amqp_delivery * list amqp_delivery → option amqp_delivery * list amqp_delivery with
  | Receive _ => λ r '(cur, fin),
      match r with
      | Arrived d => (Some d, if unreadable d then fin ++ [d] else fin)
      | _ => (cur, fin)
      end
  | Work job => λ _ '(cur, fin),
      match cur with
      | Some d => if carries d job then (cur, fin ++ [d]) else (cur, fin)
      | None => (cur, fin)
      end
  | _ => λ _ x, x
  end.

Definition acks {T} (c : amqpE T) : list amqp_delivery := match c with BasicAck d => [d] | _ => [] end.

(** The client answers as before. *)
#[global] Instance watched_client : AmqpClient watched := λ T g c,
  let '(s, r) := amqp (wd_now g) c in
  let '(cur, fin) := note c r (wd_current g, wd_finished g) in
  (mkWatched s cur fin (wd_acked g ++ acks c) (wd_moments g ++ [(s, fin)]), r).
End watched.
Arguments watched S : clear implicits.

(** ** At every moment *)

Section covers.
Implicit Types (X Y U V W : gmultiset rawJSON).
Lemma cover_mono U V X Y : X ⊆ Y → U ⊆ V ⊎ X → U ⊆ V ⊎ Y.
Proof. multiset_solver. Qed.
Lemma cover_step U V W X Y : V ⊆ W ⊎ Y → U ⊆ V ⊎ X → U ⊆ W ⊎ (Y ⊎ X).
Proof. multiset_solver. Qed.
Lemma cover_kept U V W X : V ⊆ W → U ⊆ V ⊎ X → U ⊆ W ⊎ X.
Proof. multiset_solver. Qed.
Lemma cover_self U : U ⊆ U ⊎ ∅.
Proof. multiset_solver. Qed.
Lemma grows_l X Y U : X ⊆ Y → X ⊎ U ⊆ Y ⊎ U.
Proof. multiset_solver. Qed.
Lemma grows_r X Y : X ⊆ Y ⊎ X.
Proof. multiset_solver. Qed.
Lemma empty_below X : ∅ ⊆ X.
Proof. multiset_solver. Qed.
End covers.

Section moments.
Context {S C : Type} `{Am : AmqpClient S} {La : AmqpLaws S} `{Co : Coord C} `{Kd : JobCodec}.
Context (s0 : S).
Implicit Types (g : watched S) (d : amqp_delivery) (ds : list amqp_delivery).
Abbreviation JobQ := (Queue (RabbitMQ * watched S) C).

(** The bodies of deliveries that came from a queue. *)
Definition bodies (q : string) ds : gmultiset rawJSON :=
  list_to_set_disj (ad_body <$> filter (λ d, ad_queue d = q) ds).

(** What a queue held at the beginning is still held, was settled by another consumer, or came with
    a delivery that is done. *)
Definition safe (q : string) (s : S) (extra : gmultiset rawJSON) : Prop :=
  held s0 q ⊎ elsewhere s0 q ⊆ held s q ⊎ elsewhere s q ⊎ extra.

Definition moment_ok (m : S * list amqp_delivery) : Prop := ∀ q, safe q m.1 (bodies q m.2).

(** Between deliveries, or before the work of the current one is done. *)
Record pending g ds : Prop := {
  pe_moments : Forall moment_ok (wd_moments g);
  pe_finished : wd_finished g = ds;
  pe_safe q : safe q (wd_now g) (bodies q ds);
}.

(** The body of [d] once [d] has been settled. *)
Definition settled_body (s : S) d (q : string) : gmultiset rawJSON :=
  if negb (outstanding s d) && bool_decide (q = ad_queue d) then {[+ ad_body d +]} else ∅.

(** When the work of [d] is done: [d] may be settled. *)
Record settling g ds d : Prop := {
  se_moments : Forall moment_ok (wd_moments g);
  se_finished : wd_finished g = ds ++ [d];
  se_safe q : safe q (wd_now g) (settled_body (wd_now g) d q ⊎ bodies q ds);
}.

Lemma safe_mono q (s : S) X Y : X ⊆ Y → safe q s X → safe q s Y.
Proof. apply cover_mono. Qed.

Lemma safe_step q (s s' : S) X Y :
  held s q ⊎ elsewhere s q ⊆ held s' q ⊎ elsewhere s' q ⊎ Y → safe q s X → safe q s' (Y ⊎ X).
Proof. apply cover_step. Qed.

Lemma safe_kept q (s s' : S) X :
  held s q ⊎ elsewhere s q ⊆ held s' q ⊎ elsewhere s' q → safe q s X → safe q s' X.
Proof. apply cover_kept. Qed.

Lemma bodies_snoc q ds d : bodies q (ds ++ [d]) = (if bool_decide (q = ad_queue d) then {[+ ad_body d +]} else ∅) ⊎ bodies q ds.
Proof.
  unfold bodies. rewrite filter_app, fmap_app, list_to_set_disj_app, filter_cons, filter_nil.
  destruct (decide (ad_queue d = q)) as [Hq|Hq].
  - rewrite bool_decide_eq_true_2 by done. cbn [fmap list_fmap]. rewrite list_to_set_disj_cons, list_to_set_disj_nil, (right_id_L ∅ _).
    apply (comm_L _).
  - rewrite bool_decide_eq_false_2 by congruence. cbn [fmap list_fmap]. rewrite list_to_set_disj_nil. by rewrite (right_id_L ∅ _), (left_id_L ∅ _).
Qed.

Lemma settled_bodies q s ds d : settled_body s d q ⊎ bodies q ds ⊆ bodies q (ds ++ [d]).
Proof. rewrite bodies_snoc. apply grows_l. unfold settled_body. destruct (outstanding s d), (bool_decide _); first [done|apply empty_below]. Qed.

Lemma settling_pending g ds d : settling g ds d → pending g (ds ++ [d]).
Proof.
  intros [Hm Hf Hs]. split; [done|done|]. intros q.
  by eapply safe_mono, Hs; apply settled_bodies.
Qed.

Lemma pending_settling g g' ds d :
  pending g ds → (∀ q, held (wd_now g) q ⊎ elsewhere (wd_now g) q ⊆ held (wd_now g') q ⊎ elsewhere (wd_now g') q) →
  wd_finished g' = ds ++ [d] → wd_moments g' = wd_moments g ++ [(wd_now g', wd_finished g')] → settling g' ds d.
Proof.
  intros [Hm Hf Hs] Hk Hf' Hm'.
  assert (∀ q, safe q (wd_now g') (settled_body (wd_now g') d q ⊎ bodies q ds)) as Hs'.
  { intros q. eapply safe_mono; [|by eapply safe_kept, Hs]. apply grows_r. }
  split; [|done|done]. rewrite Hm'. apply Forall_app. split; [done|]. constructor; [|done]. intros q. cbn. rewrite Hf'.
  by eapply safe_mono, Hs'; apply settled_bodies.
Qed.

(** A call on the watched client, and what is noted of it. *)
Lemma watched_call {T} g (cmd : amqpE T) :
  let g' := (amqp g cmd).1 in
  wd_now g' = (amqp (wd_now g) cmd).1 ∧ (amqp g cmd).2 = (amqp (wd_now g) cmd).2 ∧
  (wd_current g', wd_finished g') = note cmd (amqp (wd_now g) cmd).2 (wd_current g, wd_finished g) ∧
  wd_moments g' = wd_moments g ++ [(wd_now g', wd_finished g')].
Proof.
  assert (amqp g cmd = let '(s, r) := amqp (wd_now g) cmd in
    let '(cur, fin) := note cmd r (wd_current g, wd_finished g) in
    (mkWatched s cur fin (wd_acked g ++ acks cmd) (wd_moments g ++ [(s, fin)]), r)) as -> by done.
  destruct (amqp (wd_now g) cmd) as [s r]. cbn [fst snd]. by destruct (note cmd r (wd_current g, wd_finished g)) as [cur fin].
Qed.

Lemma kept_call {T} (s : S) (cmd : amqpE T) q : settles cmd = None → receives cmd = None →
  held s q ⊎ elsewhere s q ⊆ held (amqp s cmd).1 q ⊎ elsewhere (amqp s cmd).1 q.
Proof. intros Hs Hr. apply held_call; [done|]. intros ch. by rewrite Hr. Qed.

Lemma note_quiet {T} (cmd : amqpE T) r x : receives cmd = None → works cmd = false → note cmd r x = x.
Proof. by destruct cmd. Qed.

(** Calls that settle and receive nothing. *)
Lemma pending_call {T} g (cmd : amqpE T) ds :
  settles cmd = None → receives cmd = None → works cmd = false → pending g ds → pending (amqp g cmd).1 ds.
Proof.
  intros Hs Hr Hw [Hm Hf Hsafe]. destruct (watched_call g cmd) as (Hn & _ & Hnote & Hmo).
  rewrite note_quiet in Hnote by done. injection Hnote as _ Hfin.
  assert (∀ q, safe q (wd_now (amqp g cmd).1) (bodies q ds)) as Hs'.
  { intros q. rewrite Hn. by eapply safe_kept, Hsafe; apply kept_call. }
  split; [|congruence|done]. rewrite Hmo. apply Forall_app. split; [done|]. constructor; [|done]. intros q. cbn.
  rewrite Hfin, Hf. apply Hs'.
Qed.

Lemma settled_grows {T} (s : S) (cmd : amqpE T) d q : receives cmd = None → settled_body s d q ⊆ settled_body (amqp s cmd).1 d q.
Proof.
  intros Hr. pose proof (settled_for_good s cmd d) as Hgone. unfold settled_body.
  destruct (outstanding s d); [apply empty_below|]. by rewrite Hgone.
Qed.

(** Once the work of [d] is done, also calls that settle it. *)
Lemma settling_call {T} g (cmd : amqpE T) ds d :
  settles cmd = None ∨ settles cmd = Some d → receives cmd = None → works cmd = false →
  settling g ds d → settling (amqp g cmd).1 ds d.
Proof.
  intros Hs Hr Hw [Hm Hf Hsafe]. destruct (watched_call g cmd) as (Hn & _ & Hnote & Hmo).
  rewrite note_quiet in Hnote by done. injection Hnote as _ Hfin.
  assert (∀ q, safe q (wd_now (amqp g cmd).1) (settled_body (wd_now (amqp g cmd).1) d q ⊎ bodies q ds)) as Hs'.
  { intros q. specialize (Hsafe q). rewrite Hn. pose proof (settled_grows (wd_now g) cmd d q Hr) as Hg. destruct Hs as [Hs|Hs].
    - eapply safe_mono; [|by eapply safe_kept, Hsafe; apply kept_call]. by apply grows_l.
    - eapply safe_mono; [|by eapply safe_step, Hsafe; apply (held_settle _ _ d)].
      rewrite (assoc_L (⊎)). apply grows_l. clear Hg Hsafe.
      pose proof (settled_for_good (wd_now g) cmd d) as Hgone. unfold settled_body.
      destruct (outstanding (wd_now g) d), (outstanding (amqp (wd_now g) cmd).1 d), (bool_decide _);
        cbn [negb andb]; first [by specialize (Hgone eq_refl Hr)|by rewrite ?(left_id_L ∅ _), ?(right_id_L ∅ _)|apply empty_below]. }
  split; [|congruence|done]. rewrite Hmo. apply Forall_app. split; [done|]. constructor; [|done]. intros q. cbn.
  rewrite Hfin, Hf. by eapply safe_mono, Hs'; apply settled_bodies.
Qed.

Lemma manual_call {T} g (cmd : amqpE T) ch : automatic cmd = None → manual (wd_now g) ch = true → manual (wd_now (amqp g cmd).1) ch = true.
Proof. intros Ha Hm. destruct (watched_call g cmd) as (-> & _). apply manual_stays; [by rewrite Ha|done]. Qed.

Lemma calm_pending g g' ds : calm g g' → pending g ds → pending g' ds.
Proof. induction 1; [done|]. intros Hp. by apply IHcalm, pending_call. Qed.
Lemma calm_settling g g' ds d : calm g g' → settling g ds d → settling g' ds d.
Proof. induction 1; [done|]. intros Hp. apply IHcalm, settling_call; auto. Qed.
Lemma calm_manual g g' ch : calm g g' → manual (wd_now g) ch = true → manual (wd_now g') ch = true.
Proof. induction 1; [done|]. intros Hp. by apply IHcalm, manual_call. Qed.

(** *** One delivery *)

(** After [Receive]: a delivery that is not a job is done, any other has become the current one. *)
Definition received g ds d : Prop :=
  if unreadable d then settling g ds d else pending g ds ∧ wd_current g = Some d.

Lemma receive_call g ch ds g' m :
  pending g ds → manual (wd_now g) ch = true → amqp g (Receive ch) = (g', m) →
  match m with Arrived d => received g' ds d | _ => pending g' ds end.
Proof.
  intros Hp Hm Hc. destruct (watched_call g (Receive ch)) as (Hn & Hr & Hnote & Hmo). rewrite Hc in *. cbn [fst snd] in *.
  assert (∀ q, held (wd_now g) q ⊎ elsewhere (wd_now g) q ⊆ held (wd_now g') q ⊎ elsewhere (wd_now g') q) as Hk.
  { intros q. rewrite Hn. apply held_call; [done|]. by intros ? [= <-]. }
  assert (wd_finished g' = ds → pending g' ds) as Hsame.
  { intros Hf. destruct Hp as [Hmom _ Hs]. assert (∀ q, safe q (wd_now g') (bodies q ds)) as Hs'.
    { intros q. by eapply safe_kept, Hs. }
    split; [|done|done]. rewrite Hmo. apply Forall_app. split; [done|]. constructor; [|done]. intros q. cbn. rewrite Hf. apply Hs'. }
  rewrite <- Hr in Hnote. cbn [note] in Hnote. pose proof (pe_finished _ _ Hp) as Hf. destruct m as [e| |d].
  - injection Hnote as _ Hfin. apply Hsame. congruence.
  - injection Hnote as _ Hfin. apply Hsame. congruence.
  - injection Hnote as Hcur Hfin. unfold received. destruct (unreadable d).
    + apply (pending_settling g); [done|done|congruence|done].
    + split; [apply Hsame; congruence|done].
Qed.

(** The work of the current delivery. *)
Lemma work_call g ds d job :
  pending g ds → wd_current g = Some d → json_UnmarshalJob (ad_body d) = Ok job → settling (amqp g (Work job)).1 ds d.
Proof.
  intros Hp Hcur Hj. destruct (watched_call g (Work job)) as (Hn & _ & Hnote & Hmo).
  cbn [note] in Hnote. rewrite Hcur in Hnote. unfold carries in Hnote. rewrite Hj, bool_decide_eq_true_2 in Hnote by done.
  injection Hnote as _ Hfin. rewrite (pe_finished _ _ Hp) in Hfin.
  apply (pending_settling g); [done| |done|done]. intros q. rewrite Hn. by apply kept_call.
Qed.

Lemma rabbit_work_ok (q : JobQ) r g ds d job ch q' werr :
  qu_broker q = (r, g) → pending g ds → wd_current g = Some d → json_UnmarshalJob (ad_body d) = Ok job →
  manual (wd_now g) ch = true →
  rabbit_work q job = Done (Some (q', werr)) →
  settling (qu_broker q').2 ds d ∧ manual (wd_now (qu_broker q').2) ch = true ∧ qu_coord q' = qu_coord q.
Proof.
  intros Hb Hp Hcur Hj Hm H. unfold rabbit_work in H. rewrite Hb in H.
  pose proof (work_call g ds d job Hp Hcur Hj) as Hs. pose proof (manual_call g (Work job) ch eq_refl Hm) as Hm1.
  destruct (amqp g (Work job)) as [g1 [data|e]]; cbn [fst] in *.
  - unfold br_publish, rabbit_publisher in H. cbn [fst snd] in H. pose proof (Publish_calm r g1 QueueResults data) as Hc.
    destruct (RabbitMQ__Publish r g1 QueueResults data) as [[r2 g2] err]. cbn [fst snd] in *. injection H as <- <-.
    cbn. split; [by eapply calm_settling|]. split; [by eapply calm_manual|done].
  - by injection H as <- <-.
Qed.

Lemma ack_ok (q : JobQ) ds d ch q' d' err :
  settling (qu_broker q).2 ds d → manual (wd_now (qu_broker q).2) ch = true → ack q d = (q', d', err) →
  settling (qu_broker q').2 ds d ∧ manual (wd_now (qu_broker q').2) ch = true ∧ qu_coord q' = qu_coord q.
Proof.
  intros Hs Hm H. unfold ack in H. cbn [dl_ack rabbit_deliveries] in H.
  pose proof (settling_call _ (BasicAck d) ds d (or_intror eq_refl) eq_refl eq_refl Hs) as Hs'.
  pose proof (manual_call _ (BasicAck d) ch eq_refl Hm) as Hm'.
  destruct (amqp (qu_broker q).2 (BasicAck d)) as [g1 e1]. by injection H as <- <- <-.
Qed.

Lemma handleFailure_ok (q : JobQ) ds d ch job err q' d' :
  settling (qu_broker q).2 ds d → manual (wd_now (qu_broker q).2) ch = true → handleFailure q d job err = Some (q', d') →
  settling (qu_broker q').2 ds d ∧ manual (wd_now (qu_broker q').2) ch = true ∧ qu_coord q' = qu_coord q.
Proof.
  intros Hs Hm H. unfold handleFailure in H. destruct (ack q d) as [[q1 d1] e1] eqn:Ha.
  destruct (ack_ok q ds d ch q1 d1 e1 Hs Hm Ha) as (Hs1 & Hm1 & Hc1).
  destruct (_ <=? _); [|by injection H as <- <-]. unfold publish in H.
  destruct (json_MarshalJob _) as [data|e]; [|by injection H as <- <-].
  unfold br_publish, rabbit_publisher in H. destruct (qu_broker q1) as [r g] eqn:Eb. cbn [fst snd] in *.
  pose proof (Publish_calm r g QueueDLQ data) as Hc.
  destruct (RabbitMQ__Publish r g QueueDLQ data) as [[r2 g2] x]. cbn [fst snd] in Hc.
  assert (q' = set_broker q1 (r2, g2)) as -> by (destruct x; by injection H as <- _).
  cbn. split; [by eapply calm_settling|]. split; [by eapply calm_manual|done].
Qed.

(** The job queue settles a delivery only after its work is done. *)
Lemma rabbit_jobs_ok r g (q : JobQ) ds d ch r' g' d' q' err :
  received g ds d → manual (wd_now g) ch = true → qu_coord q = None →
  rabbit_jobs (r, g) q d = Some (r', g', d', q', err) →
  settling g' ds d ∧ manual (wd_now g') ch = true ∧ qu_coord q' = None.
Proof.
  intros Hrec Hm Hco H. unfold rabbit_jobs in H. unfold received, unreadable in Hrec.
  destruct (job_delivery _ _ d) as [[[[q2 d2] err2]|]|] eqn:Hd; [|done..]. injection H as Hb <- <- <-.
  assert (settling (qu_broker q2).2 ds d ∧ manual (wd_now (qu_broker q2).2) ch = true ∧ qu_coord q2 = None) as Hall;
    [|by rewrite Hb in Hall]. clear Hb r' g'.
  unfold job_delivery in Hd. cbn [dl_body rabbit_deliveries] in Hd.
  destruct (json_UnmarshalJob (ad_body d)) as [job|e] eqn:Hj.
  - destruct Hrec as [Hp Hcur]. unfold claimed_before in Hd. cbn [qu_coord set_broker] in Hd. rewrite Hco in Hd.
    inv_bind Hd as x Hw. destruct x as [[q3 werr]|]; [|done].
    destruct (rabbit_work_ok (set_handled (set_broker q (r, g)) (qu_handled q ++ [job])) r g ds d job ch q3 werr eq_refl Hp Hcur Hj Hm Hw) as (Hs3 & Hm3 & Hc3).
    cbn in Hc3. rewrite Hco in Hc3. destruct werr as [werr|].
    + rewrite Hc3 in Hd. destruct (handleFailure _ d job werr) as [[q4 d4]|] eqn:Hf; [|done]. injection Hd as <- <- <-.
      destruct (handleFailure_ok (Queue__done q3) ds d ch job werr q4 d4 Hs3 Hm3 Hf) as (? & ? & Hc). split_and!; try done. by rewrite Hc.
    + injection Hd as Hd. destruct (ack_ok (Queue__done q3) ds d ch q2 d2 err2 Hs3 Hm3 Hd) as (? & ? & Hc). split_and!; try done. by rewrite Hc.
  - destruct (ack (set_broker q (r, g)) d) as [[q1 d1] e1] eqn:Ha. injection Hd as <- <- <-.
    destruct (ack_ok (set_broker q (r, g)) ds d ch q1 d1 e1 Hrec Hm Ha) as (? & ? & Hc). split_and!; try done. by rewrite Hc.
Qed.

(** *** The consumer *)

Definition consuming (c : consumer (S := watched S) (A := JobQ)) : Prop :=
  (∃ ds, pending (cn_world c) ds) ∧ qu_coord (cn_app c) = None.

Lemma receive_loop_ok fuel ch c :
  manual (wd_now (cn_world c)) ch = true → consuming c → consuming (receive_loop fuel ch rabbit_jobs c).1.
Proof.
  revert c. induction fuel as [|fuel IH]; intros c Hm [[ds Hp] Hco]; cbn [receive_loop]; [by split; [exists ds|]|].
  pose proof (manual_call (cn_world c) (Receive ch) ch eq_refl Hm) as Hm1.
  destruct (amqp (cn_world c) (Receive ch)) as [g1 m] eqn:Hr. pose proof (receive_call _ _ _ _ _ Hp Hm Hr) as Hrec.
  cbn [fst] in Hm1. destruct m as [e| |d]; [by split; [exists ds|]..|].
  destruct (rabbit_jobs _ _ d) as [[[[[r g2] d2] q2] err]|] eqn:Hh.
  - destruct (rabbit_jobs_ok _ _ _ _ _ ch _ _ _ _ _ Hrec Hm1 Hco Hh) as (Hs & Hm2 & Hc2).
    apply IH; cbn [cn_world cn_app].
    + destruct err; [|done]. by apply manual_call.
    + split; [|done]. exists (ds ++ [d]). apply settling_pending. destruct err; [|done]. apply settling_call; auto.
  - split; [|done]. unfold received in Hrec. cbn [cn_world fst]. destruct (unreadable d); [|by exists ds; apply Hrec].
    exists (ds ++ [d]). by apply settling_pending.
Qed.

Lemma set_world_ok c g : (∃ ds, pending g ds) → qu_coord (cn_app c) = None → consuming (set_world c g).
Proof. done. Qed.

Lemma consumeOnce_ok fuel queue c : consuming c → consuming (consumeOnce fuel queue rabbit_jobs c).1.
Proof.
  intros [[ds Hp] Hco]. unfold consumeOnce. set (ch := rb_ch (cn_broker c)).
  pose proof (pending_call _ (QueueDeclare ch queue true) _ eq_refl eq_refl eq_refl Hp) as H1.
  destruct (amqp (cn_world c) _) as [g1 [e|]]; cbn [fst] in H1; [by apply set_world_ok; [exists ds|]|].
  pose proof (pending_call _ (Qos ch 1) _ eq_refl eq_refl eq_refl H1) as H2.
  destruct (amqp g1 _) as [g2 [e|]]; cbn [fst] in H2; [by apply set_world_ok; [exists ds|]|].
  pose proof (pending_call _ (BasicConsume ch queue false) _ eq_refl eq_refl eq_refl H2) as H3.
  destruct (watched_call g2 (BasicConsume ch queue false)) as (Hn & Hr & _).
  pose proof (manual_consume (wd_now g2) ch queue) as Hm.
  destruct (amqp g2 (BasicConsume ch queue false)) as [g3 [e|]]; cbn [fst snd] in *; [by apply set_world_ok; [exists ds|]|].
  apply receive_loop_ok; [cbn; rewrite Hn; by apply Hm|by apply set_world_ok; [exists ds|]].
Qed.

Lemma after_failure_ok c backoff err : consuming c → consuming (after_failure c backoff err).1.
Proof.
  intros [[ds Hp] Hco]. unfold after_failure. pose proof (pending_call _ CtxErr _ eq_refl eq_refl eq_refl Hp) as H1.
  destruct (amqp (cn_world c) _) as [g1 [e|]]; cbn [fst] in H1; [by apply set_world_ok; [exists ds|]|].
  destruct (errors_Is err errChannelClosed); [|by apply set_world_ok; [exists ds|]].
  pose proof (pending_call _ (Sleep backoff) _ eq_refl eq_refl eq_refl H1) as H2.
  destruct (amqp g1 _) as [g2 [e|]]; cbn [fst] in H2; [by split; [exists ds|]|].
  cbn [cn_broker cn_world]. pose proof (calm_pending _ _ ds (reconnect_calm (cn_broker c) g2) H2) as H3.
  destruct (reconnect _ g2) as [[r g3] rerr]. by split; [exists ds|].
Qed.

Lemma consume_loop_ok fuel queue backoff c : consuming c → consuming (consume_loop fuel queue rabbit_jobs backoff c).1.
Proof.
  revert backoff c. induction fuel as [|fuel IH]; intros backoff c Hc; cbn [consume_loop]; [done|].
  destruct Hc as [[ds Hp] Hco]. pose proof (pending_call _ CtxErr _ eq_refl eq_refl eq_refl Hp) as H1.
  destruct (amqp (cn_world c) CtxErr) as [g1 [e|]]; cbn [fst] in H1; [by apply set_world_ok; [exists ds|]|].
  pose proof (consumeOnce_ok (Datatypes.S fuel) queue (set_world c g1) (set_world_ok c g1 (ex_intro _ ds H1) Hco)) as H2.
  destruct (consumeOnce _ _ _ _) as [c2 [err|]]; cbn [fst] in H2; [|done].
  pose proof (after_failure_ok c2 backoff err H2) as H3.
  destruct (after_failure c2 backoff err) as [c3 [b|e]]; cbn [fst] in H3; [|done]. by apply IH.
Qed.
End moments.

(** ** Acknowledgements *)

Section acknowledgements.
Context {S C : Type} `{Am : AmqpClient S} `{Co : Coord C} `{Kd : JobCodec}.
Implicit Types (g : watched S) (d : amqp_delivery).
Abbreviation JobQ := (Queue (RabbitMQ * watched S) C).

(** The acknowledgements so far, of a client and of the broker of a job queue. *)
Abbreviation acked_by q := (wd_acked (qu_broker q).2).

Lemma acked_call {T} g (cmd : amqpE T) : wd_acked (amqp g cmd).1 = wd_acked g ++ acks cmd.
Proof.
  unfold amqp at 1, watched_client. destruct (amqp (wd_now g) cmd) as [s r].
  by destruct (note cmd r (wd_current g, wd_finished g)).
Qed.

Lemma acked_grows {T} g (cmd : amqpE T) : wd_acked g ⊆ wd_acked (amqp g cmd).1.
Proof. rewrite acked_call. set_solver. Qed.

Lemma calm_acked g g' : calm g g' → wd_acked g ⊆ wd_acked g'.
Proof. induction 1 as [|T g cmd g' _ _ _ _ _ IH]; [done|]. by etrans; [apply (acked_grows g cmd)|]. Qed.

Lemma rabbit_work_returns (q : JobQ) job :
  ∃ q' werr, rabbit_work q job = Done (Some (q', werr)) ∧ acked_by q ⊆ acked_by q'.
Proof.
  unfold rabbit_work. destruct (qu_broker q) as [r g]. cbn [snd]. pose proof (acked_grows g (Work job)) as H1.
  destruct (amqp g (Work job)) as [g1 [data|e]]; cbn [fst] in H1; [|by eexists _, _].
  unfold br_publish, rabbit_publisher. cbn [fst snd]. pose proof (calm_acked _ _ (Publish_calm r g1 QueueResults data)) as H2.
  destruct (RabbitMQ__Publish r g1 QueueResults data) as [[r2 g2] err]. cbn [fst snd] in H2.
  eexists _, _. split; [done|]. by etrans.
Qed.

Lemma ack_acked (q q' : JobQ) d d' err : ack q d = (q', d', err) → acked_by q ⊆ acked_by q' ∧ d ∈ acked_by q'.
Proof.
  unfold ack. cbn [dl_ack rabbit_deliveries]. pose proof (acked_call (qu_broker q).2 (BasicAck d)) as H1.
  destruct (amqp (qu_broker q).2 (BasicAck d)) as [g1 e1]. cbn [fst] in H1. intros [= <- _ _]. cbn. rewrite H1. cbn [acks]. set_solver.
Qed.

Lemma handleFailure_returns (q : JobQ) d job err :
  ∃ q' d', handleFailure q d job err = Some (q', d') ∧ acked_by q ⊆ acked_by q' ∧ d ∈ acked_by q'.
Proof.
  unfold handleFailure. destruct (ack q d) as [[q1 d1] e1] eqn:Ha. apply ack_acked in Ha as [H1 H2].
  destruct (_ <=? _); [|by eexists _, _]. unfold publish. destruct (json_MarshalJob _) as [data|e]; [|by eexists _, _].
  unfold br_publish, rabbit_publisher. destruct (qu_broker q1) as [r g]. cbn [fst snd] in *.
  pose proof (calm_acked _ _ (Publish_calm r g QueueDLQ data)) as H3.
  destruct (RabbitMQ__Publish r g QueueDLQ data) as [[r2 g2] [x|]]; cbn [fst snd] in H3; eexists _, _; (split; [done|]); cbn; set_solver.
Qed.

(** The job queue acknowledges every delivery it is handed, whatever becomes of its job. *)
Lemma rabbit_jobs_returns r g (q : JobQ) d :
  ∃ r' g' d' q' err, rabbit_jobs (r, g) q d = Some (r', g', d', q', err) ∧ wd_acked g ⊆ wd_acked g' ∧ d ∈ wd_acked g'.
Proof.
  assert (∃ q' d' err, job_delivery rabbit_work (set_broker q (r, g)) d = Done (Some (q', d', err)) ∧
    wd_acked g ⊆ acked_by q' ∧ d ∈ acked_by q') as (q' & d' & err & Hd & H1 & H2).
  2: { unfold rabbit_jobs. rewrite Hd. destruct (qu_broker q') as [r' g'] eqn:Eb. by exists r', g', d', q', err. }
  assert (∀ q1 : JobQ, acked_by (set_broker q (r, g)) ⊆ acked_by q1 →
    ∃ q' d' err, Done (Some (ack q1 d)) = Done (Some (q', d', err)) ∧ wd_acked g ⊆ acked_by q' ∧ d ∈ acked_by q') as Hack.
  { intros q1 Hq1. destruct (ack q1 d) as [[q2 d2] e2] eqn:Ha. apply ack_acked in Ha as [? ?].
    eexists _, _, _. split; [done|]. cbn in Hq1. set_solver. }
  unfold job_delivery. cbn [dl_body rabbit_deliveries]. destruct (json_UnmarshalJob (ad_body d)) as [job|e].
  2: { destruct (Hack (set_broker q (r, g)) ltac:(done)) as (q2 & d2 & e2 & [= ->] & ?). by eexists _, _, _. }
  destruct (claimed_before (set_broker q (r, g)) (job_key job)) as [q1 dup] eqn:Ec.
  assert (acked_by q1 = wd_acked g) as Hq1.
  { unfold claimed_before in Ec. cbn [qu_coord set_broker] in Ec. destruct (qu_coord q) as [c|]; [|by injection Ec as <- _].
    destruct (co_claim c (job_key job) claimTTL) as [c' x]. by injection Ec as <- _. }
  destruct dup.
  { destruct (Hack q1) as (q2 & d2 & e2 & [= ->] & ?); [by rewrite Hq1|]. by eexists _, _, _. }
  destruct (rabbit_work_returns (set_handled q1 (qu_handled q1 ++ [job])) job) as (q2 & werr & -> & Hw). cbn [obind].
  cbn [qu_broker set_handled] in Hw. rewrite Hq1 in Hw. destruct werr as [werr|]; [|by apply (Hack (Queue__done q2))].
  set (q3 := Queue__done _).
  assert (acked_by q3 = acked_by q2) as Hq3 by (unfold q3; by destruct (qu_coord q2)).
  destruct (handleFailure_returns q3 d job werr) as (q4 & d4 & -> & Hsub & Hin). rewrite Hq3 in Hsub.
  eexists _, _, _. split; [done|]. set_solver.
Qed.

Definition all_acked (c : consumer (S := watched S) (A := JobQ)) : Prop := cn_handed c ⊆ wd_acked (cn_world c).

Lemma set_world_acked (c : consumer (S := watched S) (A := JobQ)) g :
  wd_acked (cn_world c) ⊆ wd_acked g → all_acked c → all_acked (set_world c g).
Proof. unfold all_acked. cbn. set_solver. Qed.

Lemma receive_loop_acked fuel ch c : all_acked c → all_acked (receive_loop fuel ch rabbit_jobs c).1.
Proof.
  revert c. induction fuel as [|fuel IH]; intros c Hc; cbn [receive_loop]; [done|].
  pose proof (acked_grows (cn_world c) (Receive ch)) as H1.
  destruct (amqp (cn_world c) (Receive ch)) as [g1 [e| |d]]; cbn [fst] in H1; [by apply set_world_acked..|].
  destruct (rabbit_jobs_returns (cn_broker c) g1 (cn_app c) d) as (r' & g' & d' & q' & err & -> & Hsub & Hin).
  apply IH. unfold all_acked in *. cbn [cn_handed cn_world].
  assert (wd_acked g' ⊆ wd_acked match err with Some _ => (amqp g' (BasicNack d false)).1 | None => g' end) as Hn.
  { destruct err; [apply acked_grows|done]. }
  set_solver.
Qed.

Lemma consumeOnce_acked fuel queue c : all_acked c → all_acked (consumeOnce fuel queue rabbit_jobs c).1.
Proof.
  intros Hc. unfold consumeOnce. set (ch := rb_ch (cn_broker c)).
  pose proof (acked_grows (cn_world c) (QueueDeclare ch queue true)) as H1.
  destruct (amqp (cn_world c) _) as [g1 [e|]]; cbn [fst] in H1; [by apply set_world_acked|].
  pose proof (acked_grows g1 (Qos ch 1)) as H2.
  destruct (amqp g1 _) as [g2 [e|]]; cbn [fst] in H2; [apply set_world_acked; [by etrans|done]|].
  pose proof (acked_grows g2 (BasicConsume ch queue false)) as H3.
  destruct (amqp g2 (BasicConsume ch queue false)) as [g3 [e|]]; cbn [fst] in H3; [|apply receive_loop_acked];
    (apply set_world_acked; [by do 2 (etrans; [done|])|done]).
Qed.

Lemma after_failure_acked c backoff err : all_acked c → all_acked (after_failure c backoff err).1.
Proof.
  intros Hc. unfold after_failure. pose proof (acked_grows (cn_world c) CtxErr) as H1.
  destruct (amqp (cn_world c) _) as [g1 [e|]]; cbn [fst] in H1; [by apply set_world_acked|].
  destruct (errors_Is err errChannelClosed); [|by apply set_world_acked].
  pose proof (acked_grows g1 (Sleep backoff)) as H2. destruct (amqp g1 _) as [g2 [e|]]; cbn [fst] in H2.
  { unfold all_acked in *. cbn. set_solver. }
  cbn [cn_broker cn_world]. pose proof (calm_acked _ _ (reconnect_calm (cn_broker c) g2)) as H3.
  destruct (reconnect _ g2) as [[r g3] rerr]. unfold all_acked in *. cbn in *. set_solver.
Qed.

Lemma consume_loop_acked fuel queue backoff c : all_acked c → all_acked (consume_loop fuel queue rabbit_jobs backoff c).1.
Proof.
  revert backoff c. induction fuel as [|fuel IH]; intros backoff c Hc; cbn [consume_loop]; [done|].
  pose proof (acked_grows (cn_world c) CtxErr) as H1.
  destruct (amqp (cn_world c) CtxErr) as [g1 [e|]]; cbn [fst] in H1; [by apply set_world_acked|].
  pose proof (consumeOnce_acked (Datatypes.S fuel) queue (set_world c g1) (set_world_acked c g1 H1 Hc)) as H2.
  destruct (consumeOnce _ _ _ _) as [c2 [err|]]; cbn [fst] in H2; [|done].
  pose proof (after_failure_acked c2 backoff err H2) as H3.
  destruct (after_failure c2 backoff err) as [c3 [b|e]]; cbn [fst] in H3; [|done]. by apply IH.
Qed.
End acknowledgements.

(** C34: jobs are delivered at least once through RabbitMQ.  While a worker without Redis consumes a
    queue, at every moment (after every single call to the server, the clock, the context or the
    work of a job; a crash of the worker at any time is a consumption that stops there), every message
    a queue held at the beginning is still held by the server, was settled by another consumer, or
    came to this worker in a delivery that is done: its work has returned, with success or with an
    error, or it is not a job.  This holds whenever the channel or the connection breaks, also when
    publishing the result reconnects in the middle of a job, and when the context is cancelled; other
    workers may consume the same queues.  And no delivery is left behind: every delivery handed to the
    job queue has been acknowledged (its message is redelivered only when the server did not get the
    acknowledgement). *)
Theorem jobs_delivered_at_least_once {S C : Type} `{Am : AmqpClient S} {La : AmqpLaws S} `{Co : Coord C} `{Kd : JobCodec}
    fuel r (s : S) (q0 : Queue (RabbitMQ * watched S) C) queue :
  qu_coord q0 = None →
  let c := (RabbitMQ__Consume fuel r (watch s) q0 queue rabbit_jobs).1 in
  (∀ s' done q, (s', done) ∈ wd_moments (cn_world c) →
     held s q ⊎ elsewhere s q ⊆ held s' q ⊎ elsewhere s' q ⊎ bodies q done) ∧
  ∀ d, d ∈ cn_handed c → d ∈ wd_acked (cn_world c).
Proof.
  intros Hco c. split.
  2: { apply (consume_loop_acked fuel queue second (mkCn r (watch s) q0 [] [])). intros d Hd. by apply elem_of_nil in Hd. }
  intros s' done q Hin.
  destruct (consume_loop_ok s fuel queue second (mkCn r (watch s) q0 [] [])) as [[ds Hp] _].
  { split; [|done]. exists []. split; [constructor|done|]. intros q'. apply cover_self. }
  pose proof (pe_moments _ _ _ Hp) as Hm. rewrite Forall_forall in Hm. by apply (Hm (s', done) Hin q).
Qed.

(** ** Reconnection *)

Section reconnection.
Context {S : Type} `{Am : AmqpClient S} {La : AmqpLaws S} {A : Type}.
Implicit Types (s : S) (c : consumer (S := S) (A := A)).

Lemma consumeOnce_closed fuel queue (handler : rabbit_handler (S := S) (A := A)) c :
  channel_open (cn_world c) (rb_ch (cn_broker c)) = false →
  ∃ s' e, consumeOnce fuel queue handler c = (set_world c s', Some e) ∧ errors_Is e errChannelClosed = false.
Proof.
  intros Hcl. unfold consumeOnce. destruct (closed_declare _ _ queue true Hcl) as (e & He & Hne).
  destruct (amqp (cn_world c) _) as [s' x]. cbn [snd] in He. subst x. eexists s', _. split; [done|].
  cbn [errors_Is]. by rewrite decide_False by done.
Qed.

(** A failed reconnection leaves the consumer on the channel that was closed. *)
Lemma reconnect_failed r s r' s' e :
  reconnect r s = (r', s', Some e) → r' = r ∧ channel_open s' (rb_ch r) = false.
Proof.
  unfold reconnect. pose proof (close_channel s (rb_ch r)) as H1. destruct (amqp s (CloseChannel _)) as [s1 x1]. cbn [fst] in H1.
  pose proof (closed_stays s1 (CloseConn (rb_conn r)) _ H1 ltac:(done)) as H2. destruct (amqp s1 _) as [s2 x2]. cbn [fst] in H2.
  pose proof (closed_stays s2 (Dial (rb_url r)) _ H2 ltac:(done)) as H3. destruct (amqp s2 _) as [s3 [conn|e3]]; cbn [fst] in H3.
  2: { by intros [= -> ->]. }
  pose proof (closed_stays s3 (OpenChannel conn) _ H3) as H4. destruct (amqp s3 _) as [s4 [ch|e4]]; [done|]. cbn [fst snd opens] in H4.
  pose proof (closed_stays s4 (CloseConn conn) _ (H4 ltac:(done)) ltac:(done)) as H5. destruct (amqp s4 _) as [s5 x5]. by intros [= -> ->].
Qed.

Lemma receive_loop_waits fuel ch (handler : rabbit_handler (S := S) (A := A)) c : cn_waits (receive_loop fuel ch handler c).1 = cn_waits c.
Proof.
  revert c. induction fuel as [|fuel IH]; intros c; cbn [receive_loop]; [done|].
  destruct (amqp (cn_world c) (Receive ch)) as [s1 [e| |d]]; [done..|]. destruct (handler _ _ _) as [[[[[r s2] d2] a] err]|]; [by rewrite IH|done].
Qed.

Lemma consumeOnce_waits fuel queue (handler : rabbit_handler (S := S) (A := A)) c : cn_waits (consumeOnce fuel queue handler c).1 = cn_waits c.
Proof.
  unfold consumeOnce. destruct (amqp (cn_world c) _) as [s1 [e|]]; [done|]. destruct (amqp s1 _) as [s2 [e|]]; [done|].
  destruct (amqp s2 _) as [s3 [e|]]; [done|]. by rewrite receive_loop_waits.
Qed.

(** Nothing is consumed any more once a reconnection has failed: the next turn of the loop tries
    to declare the queue on the closed channel, and [Consume] returns that error. *)
Theorem failed_reconnect_is_final fuel queue (handler : rabbit_handler (S := S) (A := A)) backoff c :
  channel_open (cn_world c) (rb_ch (cn_broker c)) = false →
  ∃ c' e, consume_loop (Datatypes.S fuel) queue handler backoff c = (c', Some e) ∧
    cn_handed c' = cn_handed c ∧ cn_waits c' = cn_waits c.
Proof.
  intros Hcl. cbn [consume_loop]. pose proof (closed_stays (cn_world c) CtxErr _ Hcl ltac:(done)) as H1.
  destruct (amqp (cn_world c) CtxErr) as [s1 [e|]]; cbn [fst] in H1; [by eexists _, e|].
  destruct (consumeOnce_closed (Datatypes.S fuel) queue handler (set_world c s1) H1) as (s2 & e & He & Hne).
  rewrite He. unfold after_failure. cbn [cn_world set_world]. destruct (amqp s2 CtxErr) as [s3 [e3|]]; [by eexists _, e3|].
  rewrite Hne. by eexists _, e.
Qed.

(** The wait before a reconnection is always one second: the doubled backoff of a failed
    reconnection is never waited for. *)
Theorem backoff_never_grows fuel r s (a : A) queue (handler : rabbit_handler (S := S) (A := A)) :
  Forall (λ d, d = second) (cn_waits (RabbitMQ__Consume fuel r s a queue handler).1).
Proof.
  assert (∀ fuel backoff c, backoff = second ∨ channel_open (cn_world c) (rb_ch (cn_broker c)) = false →
    Forall (λ d, d = second) (cn_waits c) → Forall (λ d, d = second) (cn_waits (consume_loop fuel queue handler backoff c).1)) as H.
  { clear. induction fuel as [|fuel IH]; intros backoff c Hor Hc; [done|]. destruct Hor as [->|Hcl].
    2: { destruct (failed_reconnect_is_final fuel queue handler backoff c Hcl) as (c' & e & -> & _ & Hw). cbn. by rewrite Hw. }
    cbn [consume_loop]. destruct (amqp (cn_world c) CtxErr) as [s1 [e|]]; [done|].
    pose proof (consumeOnce_waits (Datatypes.S fuel) queue handler (set_world c s1)) as Hw.
    destruct (consumeOnce _ _ _ _) as [c2 [err|]]; cbn [fst] in *; [|by rewrite Hw].
    unfold after_failure. destruct (amqp (cn_world c2) CtxErr) as [s3 [e|]]; [by cbn; rewrite Hw|].
    destruct (errors_Is err errChannelClosed); [|by cbn; rewrite Hw].
    assert (Forall (λ d, d = second) (cn_waits c2 ++ [second])) as Hn.
    { rewrite Hw. apply Forall_app. split; [done|]. by constructor. }
    destruct (amqp s3 (Sleep second)) as [s4 [e|]]; [done|]. cbn [cn_broker cn_world].
    destruct (reconnect (cn_broker c2) s4) as [[r5 s5] [e|]] eqn:Hr; apply IH; cbn; auto.
    right. apply reconnect_failed in Hr as [-> Hcl]. done. }
  apply H; [by left|constructor].
Qed.
End reconnection.

(** ** A concrete server: queues in memory, channels that break after a given number of deliveries *)

#[global] Instance amqp_delivery_eq_dec : EqDecision amqp_delivery.
Proof. solve_decision. Defined.
#[global] Instance amqp_delivery_countable : Countable amqp_delivery.
Proof.
  apply (inj_countable' (λ d, (ad_channel d, ad_tag d, ad_queue d, ad_body d)) (λ '(a, b, c, d), mkAD a b c d)).
  by intros [].
Defined.

Module ToyRabbit.
(** [sv_breaks] counts the deliveries until the channel breaks, once for each entry. *)
Record server := mkSv {
  sv_waiting : string → list rawJSON;
  sv_unacked : gset amqp_delivery;
  sv_open : gset Z;
  sv_consumes : gmap Z string;
  sv_next : Z;
  sv_breaks : list nat;
}.

Definition of_queue (q : string) (X : gset amqp_delivery) : list rawJSON := ad_body <$> filter (λ d, ad_queue d = q) (elements X).

Definition fresh_tag (X : gset amqp_delivery) : Z := foldr Z.max 0 (ad_tag <$> elements X) + 1.

Lemma fresh_tag_above d X : d ∈ X → ad_tag d < fresh_tag X.
Proof.
  intros Hd%elem_of_elements. unfold fresh_tag. induction (elements X) as [|x l IH]; [by apply elem_of_nil in Hd|].
  cbn. apply elem_of_cons in Hd as [->|Hd]; [lia|]. specialize (IH Hd). lia.
Qed.

(** A channel closes: what it has not acknowledged returns to the head of the queues. *)
Definition close (s : server) (ch : Z) : server :=
  let X := filter (λ d, ad_channel d = ch) (sv_unacked s) in
  mkSv (λ q, of_queue q X ++ sv_waiting s q) (filter (λ d, ad_channel d ≠ ch) (sv_unacked s)) (sv_open s ∖ {[ch]})
    (sv_consumes s) (sv_next s) (sv_breaks s).

Definition set_waiting (s : server) (q : string) (l : list rawJSON) (X : gset amqp_delivery) (breaks : list nat) : server :=
  mkSv (λ q', if decide (q' = q) then l else sv_waiting s q') X (sv_open s) (sv_consumes s) (sv_next s) breaks.

Definition receive (s : server) (ch : Z) : server * arrival :=
  match sv_breaks s with
  | O :: rest => (close (mkSv (sv_waiting s) (sv_unacked s) (sv_open s) (sv_consumes s) (sv_next s) rest) ch, Closed)
  | breaks =>
      match sv_consumes s !! ch with
      | None => (s, Cancelled ErrCanceled)
      | Some q =>
          match sv_waiting s q with
          | [] => (s, Cancelled ErrCanceled)
          | body :: l =>
              let d := mkAD ch (fresh_tag (sv_unacked s)) q body in
              (set_waiting s q l ({[d]} ∪ sv_unacked s) (match breaks with n :: rest => pred n :: rest | [] => [] end), Arrived d)
          end
      end
  end.

Definition settle (s : server) (d : amqp_delivery) : server * option error :=
  (mkSv (sv_waiting s) (sv_unacked s ∖ {[d]}) (sv_open s) (sv_consumes s) (sv_next s) (sv_breaks s),
   if decide (d ∈ sv_unacked s) then None else Some ErrClosed).

Definition on_channel (s : server) (ch : Z) (s' : server) : server * option error :=
  if decide (ch ∈ sv_open s) then (s', None) else (s, Some ErrClosed).

#[global] Instance client : AmqpClient server := λ T s c,
  match c in amqpE T return server * T with
  | Dial _ => (s, Ok 0)
  | OpenChannel _ =>
      (mkSv (sv_waiting s) (sv_unacked s) ({[sv_next s]} ∪ sv_open s) (sv_consumes s) (sv_next s + 1) (sv_breaks s), Ok (sv_next s))
  | CloseConn _ => (s, None)
  | CloseChannel ch => (close s ch, None)
  | QueueDeclare ch _ _ => on_channel s ch s
  | Qos ch _ => on_channel s ch s
  | BasicConsume ch q autoAck =>
      if autoAck : bool then (s, Some (Errorf "not supported"))
      else on_channel s ch (mkSv (sv_waiting s) (sv_unacked s) (sv_open s) (<[ch := q]> (sv_consumes s)) (sv_next s) (sv_breaks s))
  | Receive ch => receive s ch
  | BasicPublish ch q _ body => on_channel s ch (set_waiting s q (sv_waiting s q ++ [body]) (sv_unacked s) (sv_breaks s))
  | BasicAck d => settle s d
  | BasicNack d requeue =>
      if requeue : bool
      then (set_waiting s (ad_queue d) (if decide (d ∈ sv_unacked s) then ad_body d :: sv_waiting s (ad_queue d) else sv_waiting s (ad_queue d))
              (sv_unacked s ∖ {[d]}) (sv_breaks s), None)
      else settle s d
  | Work job => (s, Ok (j_ID job))
  | CtxErr => (s, None)
  | Sleep _ => (s, None)
  end.

Definition holds (s : server) (q : string) : gmultiset rawJSON :=
  list_to_set_disj (sv_waiting s q) ⊎ list_to_set_disj (of_queue q (sv_unacked s)).

Lemma of_queue_add q d X : d ∉ X → list_to_set_disj (of_queue q ({[d]} ∪ X))
  =@{gmultiset rawJSON} (if decide (ad_queue d = q) then {[+ ad_body d +]} else ∅) ⊎ list_to_set_disj (of_queue q X).
Proof.
  intros Hd. unfold of_queue. rewrite (list_to_set_disj_perm _ (ad_body <$> filter (λ d, ad_queue d = q) (d :: elements X))).
  2: { by rewrite elements_union_singleton. }
  rewrite filter_cons. destruct (decide (ad_queue d = q)); [by rewrite fmap_cons, list_to_set_disj_cons|by rewrite (left_id_L ∅ (⊎))].
Qed.

Lemma of_queue_remove q d X : d ∈ X → list_to_set_disj (of_queue q X)
  =@{gmultiset rawJSON} (if decide (ad_queue d = q) then {[+ ad_body d +]} else ∅) ⊎ list_to_set_disj (of_queue q (X ∖ {[d]})).
Proof. intros Hd. rewrite <- of_queue_add by set_solver. f_equal. f_equal. apply set_eq. intros x. destruct (decide (x = d)); set_solver. Qed.

Lemma of_queue_split q (P : amqp_delivery → Prop) `{!∀ d, Decision (P d)} X :
  list_to_set_disj (of_queue q X)
  =@{gmultiset rawJSON} list_to_set_disj (of_queue q (filter P X)) ⊎ list_to_set_disj (of_queue q (filter (λ d, ¬ P d) X)).
Proof.
  rewrite <- list_to_set_disj_app. unfold of_queue. rewrite <- fmap_app, <- filter_app. apply list_to_set_disj_perm.
  rewrite <- (elements_disj_union (filter P X) (filter (λ d, ¬ P d) X)) by apply disjoint_filter_complement.
  by rewrite (filter_union_complement_L P X).
Qed.

Lemma close_holds s ch q : holds s q ⊆ holds (close s ch) q.
Proof.
  unfold holds, close. cbn [sv_waiting sv_unacked]. rewrite (of_queue_split q (λ d, ad_channel d = ch) (sv_unacked s)), list_to_set_disj_app.
  multiset_solver.
Qed.

Lemma receive_holds s ch q : holds s q ⊆ holds (receive s ch).1 q.
Proof.
  unfold receive. assert (∀ breaks, let r := match sv_consumes s !! ch with
    | None => (s, Cancelled ErrCanceled)
    | Some q => match sv_waiting s q with
                | [] => (s, Cancelled ErrCanceled)
                | body :: l =>
                    let d := mkAD ch (fresh_tag (sv_unacked s)) q body in
                    (set_waiting s q l ({[d]} ∪ sv_unacked s) breaks, Arrived d)
                end
    end in holds s q ⊆ holds r.1 q) as H.
  { intros breaks. destruct (sv_consumes s !! ch) as [q'|]; [|done]. destruct (sv_waiting s q') as [|body l] eqn:Hw; [done|].
    cbn zeta. set (d := mkAD _ _ _ _). unfold holds. cbn [fst set_waiting sv_waiting sv_unacked].
    rewrite of_queue_add. 2: { intros Hin. apply fresh_tag_above in Hin. cbn in Hin. lia. }
    cbn [ad_queue ad_body d]. destruct (decide (q = q')) as [->|Hne].
    - rewrite Hw, decide_True, list_to_set_disj_cons by done. multiset_solver.
    - rewrite decide_False by done. multiset_solver. }
  destruct (sv_breaks s) as [|[|n] rest]; [apply (H [])| |apply (H (n :: rest))]. apply (close_holds (mkSv _ _ _ _ _ _)).
Qed.

#[global] Program Instance laws : AmqpLaws server := {
  held := holds;
  elsewhere _ _ := ∅;
  outstanding s d := bool_decide (d ∈ sv_unacked s);
  channel_open s ch := bool_decide (ch ∈ sv_open s);
  manual _ _ := true;
}.
Next Obligation.
  intros T s c q Hs _. cbn beta. rewrite !(right_id_L ∅ (⊎)). destruct c; try done; cbn; unfold amqp, client, on_channel; try (case_decide; done).
  - apply close_holds.
  - destruct autoAck; [done|]. by case_decide.
  - apply receive_holds.
  - case_decide; [|done]. unfold holds. cbn. case_decide; [subst; rewrite list_to_set_disj_app|]; multiset_solver.
  - destruct requeue; [|done]. unfold holds. cbn [fst set_waiting sv_waiting sv_unacked].
    destruct (decide (d ∈ sv_unacked s)) as [Hd|Hd].
    + rewrite (of_queue_remove q d (sv_unacked s) Hd). destruct (decide (q = ad_queue d)) as [->|Hne].
      * rewrite decide_True, list_to_set_disj_cons by done. multiset_solver.
      * rewrite decide_False by congruence. multiset_solver.
    + rewrite (difference_disjoint_L (sv_unacked s) {[d]}) by set_solver. by case_decide; subst.
Qed.
Next Obligation.
  intros T s c d q Hs. cbn beta. rewrite !(right_id_L ∅ (⊎)). assert ((amqp s c).1 = (settle s d).1) as ->.
  { destruct c; try done; cbn in Hs; [by injection Hs as ->|]. destruct requeue; [done|by injection Hs as ->]. }
  unfold holds, settle. cbn [fst sv_waiting sv_unacked]. rewrite (bool_decide_eq_false_2 (d ∈ _ ∖ _)) by set_solver.
  cbn [negb]. rewrite andb_true_r. destruct (decide (d ∈ sv_unacked s)) as [Hd|Hd].
  - rewrite (of_queue_remove q d (sv_unacked s) Hd), bool_decide_eq_true_2 by done. cbn [andb].
    destruct (decide (ad_queue d = q)); [rewrite bool_decide_eq_true_2 by done|rewrite bool_decide_eq_false_2 by congruence]; multiset_solver.
  - rewrite (difference_disjoint_L (sv_unacked s) {[d]}) by set_solver. multiset_solver.
Qed.
Next Obligation.
  intros T s c d Hd Hr. apply bool_decide_eq_false in Hd. apply bool_decide_eq_false. intros Hin. apply Hd. revert Hin.
  destruct c; try done; unfold amqp, client, on_channel; try (case_decide; done); cbn.
  - set_solver.
  - destruct autoAck; [done|]. by case_decide.
  - set_solver.
  - destruct requeue; cbn; set_solver.
Qed.
Next Obligation. done. Qed.
Next Obligation. done. Qed.
Next Obligation.
  intros T s c ch Hcl Ho. apply bool_decide_eq_false in Hcl. apply bool_decide_eq_false. intros Hin. apply Hcl. revert Hin Ho.
  destruct c; try done; unfold amqp, client, on_channel; try (case_decide; done); cbn.
  - set_solver.
  - set_solver.
  - destruct autoAck; [done|]. by case_decide.
  - unfold receive. destruct (sv_breaks s) as [|[|n] rest]; [|cbn; set_solver|]; destruct (sv_consumes s !! ch0) as [q|]; try done;
      by destruct (sv_waiting s q).
  - by destruct requeue.
Qed.
Next Obligation.
  intros s ch q durable Hcl%bool_decide_eq_false. exists ErrClosed. unfold amqp, client, on_channel. by rewrite decide_False.
Qed.
Next Obligation. intros s ch. apply bool_decide_eq_false. cbn. set_solver. Qed.

(** Jobs that are their identifiers. *)
Definition codec : JobCodec := {|
  json_MarshalJob j := Ok (j_ID j);
  json_UnmarshalJob raw := Ok (mkJob raw raw "run_simulation" "" 0 1 "" 0);
|}.

(** Two jobs wait; the channel breaks after the first delivery. *)
Definition world : server :=
  mkSv (λ q, if decide (q = QueueJobs) then ["j1"%string; "j2"%string] else []) ∅ ∅ ∅ 0 [1%nat].
Definition rabbit : RabbitMQ := mkRabbit "amqp://" 0 0.
Definition queue : Queue (RabbitMQ * watched server) (gmap string Z) := NewQueue (rabbit, watch world) None 0.
End ToyRabbit.

#[local] Existing Instance ToyRabbit.codec.

(** At the last moment of a consumption in which the channel breaks, both deliveries are done. *)
Lemma jobs_delivered_at_least_once_witness :
  let s := (amqp ToyRabbit.world (OpenChannel 0)).1 in
  let c := (RabbitMQ__Consume 9 ToyRabbit.rabbit (watch s) ToyRabbit.queue QueueJobs rabbit_jobs).1 in
  ∃ s' done, last (wd_moments (cn_world c)) = Some (s', done) ∧ length done = 2%nat ∧
    held s QueueJobs ⊎ elsewhere s QueueJobs ⊆ held s' QueueJobs ⊎ elsewhere s' QueueJobs ⊎ bodies QueueJobs done.
Proof.
  intros s c. destruct (last (wd_moments (cn_world c))) as [[s' done]|] eqn:E; [|vm_compute in E; discriminate E].
  exists s', done. split; [reflexivity|]. split; [vm_compute in E; by injection E as <- <-|].
  destruct (jobs_delivered_at_least_once 9 ToyRabbit.rabbit s ToyRabbit.queue QueueJobs) as [H _]; [reflexivity|].
  apply H, last_Some_elem_of, E.
Defined.

(** A consumption in which the channel breaks once and the reconnection succeeds: both jobs are
    executed, after one wait of a second, with their deliveries done at the last moment, their results
    published and nothing left in the queue. *)
Example reconnected_consumption :
  let s := (amqp ToyRabbit.world (OpenChannel 0)).1 in
  let c := (RabbitMQ__Consume 9 ToyRabbit.rabbit (watch s) ToyRabbit.queue QueueJobs rabbit_jobs).1 in
  j_ID <$> qu_handled (cn_app c) = ["j1"%string; "j2"%string] ∧ cn_waits c = [second] ∧ rb_ch (cn_broker c) = 1 ∧
  length <$> last (snd <$> wd_moments (cn_world c)) = Some 2%nat ∧
  ToyRabbit.sv_waiting (wd_now (cn_world c)) QueueResults = ["j1"%string; "j2"%string] ∧
  ToyRabbit.sv_waiting (wd_now (cn_world c)) QueueJobs = [] ∧ elements (ToyRabbit.sv_unacked (wd_now (cn_world c))) = [].
Proof. by vm_compute. Qed.
