(* ===== verification/Workers.v ===== *)
(** * Workers: [internal/workers/runjob.go] and [internal/workers/service.go]

    A worker registers itself in Redis, renews a heartbeat, and consumes jobs: it builds the
    simulation a job describes from its own registry, runs it to its end and publishes the result
    with the final snapshot.  It is a client of the job queue, the registry, the runtime and the
    coordination keys. *)

From S2P Require Import Prelude Float64 GoValues GoText World Snapshot Scheduler Runtime Registry JobQueue.
From S2P Require Import Manager Auth Redis.
Local Open Scope Z_scope.

(* internal/queue/queue.go:46-59 RunJobPayload *)
Record RunJobPayload := mkPayload {
  pl_SimulationID : string; pl_ModelID : string; pl_ModelVersion : string; pl_Seed : Z; pl_Mode : string;
  pl_MaxTicks : Z; pl_MaxTime : float64; pl_Workers : Z; pl_Config : rawJSON;
}.

(** [encoding/json] on a payload. *)
Class PayloadCodec := { json_UnmarshalPayload : rawJSON → result RunJobPayload }.

Section runjob.
Context `{R : GoRuntime} `{K : Checksummer} {M : Type} {U : Unwinding M}.
Context {B C : Type} `{Pb : Publisher B} `{Co : Coord C} `{Rc : ResultCodec} `{Pc : PayloadCodec}.
Context (GOMAXPROCS : Z) (reg : @Registry (option (ModelValue (M := M)))).

(** The entry of a payload: the requested version when it is known, else the latest. *)
Definition job_entry (p : RunJobPayload) : result (@Entry (option (ModelValue (M := M)))) :=
  match Registry__Get reg (pl_ModelID p) with
  | None => Err (Errorf "workers: unknown model")
  | Some latest =>
      if decide (pl_ModelVersion p = ""%string) then Ok latest
      else Ok (default latest (GetVersion reg (pl_ModelID p) (pl_ModelVersion p)))
  end.

(** The model of a payload, configured. *)
Definition job_configure (mv : ModelValue (M := M)) (raw : rawJSON) : result M :=
  if decide (raw = ""%string) then Ok (mv_state mv)
  else match mv_Configure mv with
       | None => Ok (mv_state mv)
       | Some f => match f (mv_state mv) raw with
                   | (_, Some e) => Err (Wrapped "workers: configure" e)
                   | (s, None) => Ok s
                   end
       end.

Definition job_mode (mv : ModelValue (M := M)) (p : RunJobPayload) : Mode :=
  if decide (pl_Mode p = "tick"%string) then ModeTick
  else if decide (pl_Mode p = "event"%string) then ModeEvent
  else mm_Mode (mo_Metadata (mv_model mv)).

Definition job_config (mv : ModelValue (M := M)) (p : RunJobPayload) : Config :=
  mkConfig (pl_SimulationID p) (pl_Seed p) (job_mode mv p) (pl_MaxTicks p) (pl_MaxTime p) (pl_Workers p).

(** The result of a finished run: failures of the run and of the snapshot end up in it. *)
Definition job_result (job : Job) (p : RunJobPayload) (now : Z) (s : Simulation M) (runErr : option error)
  : Result :=
  let '(status, err) := match runErr with Some e => ("failed"%string, Error e) | None => ("completed"%string, ""%string) end in
  let snapshot :=
    match Simulation__Snapshot s with
    | Ok snap => match json_MarshalSnapshot snap with Ok b => b | Err _ => ""%string end
    | Err _ => ""%string
    end in
  mkResult (j_ID job) (pl_SimulationID p) status err snapshot now.

(** [fuel] bounds the turns of the run loop; [None] is a run that has not ended or a publish that
    cannot complete. *)
(* internal/workers/runjob.go:15-85 RunJob *)
Definition RunJob (fuel : nat) (now : Z) (q : Queue B C) (job : Job) : outcome (option (Queue B C * option error)) :=
  match json_UnmarshalPayload (j_Payload job) with
  | Err e => Done (Some (q, Some (Wrapped "workers: bad payload" e)))
  | Ok p =>
      match job_entry p with
      | Err e => Done (Some (q, Some e))
      | Ok entry =>
          match en_Factory entry with
          | None => Done (Some (q, Some (Errorf "workers: model has no factory")))
          | Some mv =>
              match job_configure mv (pl_Config p) with
              | Err e => Done (Some (q, Some e))
              | Ok m =>
                  let! r := New GOMAXPROCS (job_config mv p) (mv_model mv) m in
                  match r with
                  | Err e => Done (Some (q, Some (Wrapped "workers: init simulation" e)))
                  | Ok sim =>
                      match Run fuel sim with
                      | None => Done None
                      | Some (Panic why) => Panic why
                      | Some (Done (s, runErr)) => Done (PublishResult q (job_result job p now s runErr))
                      end
                  end
              end
          end
      end
  end.

(** ** The worker service *)

(* internal/workers/service.go:19-25 Info *)
Record WorkerInfo := mkWorkerInfo { wi_ID : string; wi_Hostname : string; wi_Version : string; wi_StartedAt : Z }.

(* internal/workers/service.go:27-34 NewInfo *)
Definition NewInfo (hostname suffix id version : string) (now : Z) : WorkerInfo :=
  let id := if decide (id = ""%string) then hostname +:+ "-" +:+ suffix else id in
  mkWorkerInfo id hostname version now.

(** The worker's instruments. *)
Record WorkerMetrics := mkWM { wm_ActiveJobs : Z; wm_JobsFailed : Z; wm_JobsProcessed : Z }.

(** [encoding/json] on a worker's identity. *)
Context (json_MarshalInfo : WorkerInfo → result rawJSON).
Context {D : Type} `{Rd : RedisServer D}.

(* internal/workers/service.go:39-48 Service *)
Record WorkerService := mkWS {
  ws_info : WorkerInfo; ws_coord : option D; ws_met : option WorkerMetrics;
  ws_heartbeatInterval : Z; ws_heartbeatTTL : Z;
}.

(* internal/workers/service.go:50-60 NewService *)
Definition NewWorkerService (info : WorkerInfo) (c : option D) : WorkerService :=
  mkWS info c None (5 * second) (15 * second).

(* internal/workers/service.go:62-63 Service.SetMetrics *)
Definition WorkerService__SetMetrics (s : WorkerService) (met : option WorkerMetrics) : WorkerService :=
  mkWS (ws_info s) (ws_coord s) met (ws_heartbeatInterval s) (ws_heartbeatTTL s).

Definition heartbeat_key (info : WorkerInfo) : string := "worker:heartbeat:" +:+ wi_ID info.

(* internal/workers/service.go:91-101 Service.register *)
Definition register (s : WorkerService) (c : D) : D * option error :=
  match json_MarshalInfo (ws_info s) with
  | Err e => (c, Some e)
  | Ok meta =>
      let '(c, err) := Redis__Heartbeat c ("worker:meta:" +:+ wi_ID (ws_info s)) meta 0 in
      match err with
      | Some e => (c, Some e)
      | None => Redis__Heartbeat c (heartbeat_key (ws_info s)) (wi_Version (ws_info s)) (ws_heartbeatTTL s)
      end
  end.

(** The body of the loop, at a tick of its timer. *)
(* internal/workers/service.go:103-115 Service.heartbeatLoop *)
Definition heartbeat (s : WorkerService) (c : D) : D :=
  (Redis__Heartbeat c (heartbeat_key (ws_info s)) (wi_Version (ws_info s)) (ws_heartbeatTTL s)).1.

Definition met_started (m : WorkerMetrics) : WorkerMetrics :=
  mkWM (wm_ActiveJobs m + 1) (wm_JobsFailed m) (wm_JobsProcessed m).
Definition met_ended (err : option error) (m : WorkerMetrics) : WorkerMetrics :=
  match err with
  | Some _ => mkWM (wm_ActiveJobs m - 1) (wm_JobsFailed m + 1) (wm_JobsProcessed m)
  | None => mkWM (wm_ActiveJobs m - 1) (wm_JobsFailed m) (wm_JobsProcessed m + 1)
  end.

(** The handler [Run] gives to the queue: the process function, counted.  The state is the
    instruments and whatever the process function works on. *)
Definition counted_process {Q} (process : Q → Job → outcome (option (Q * option error)))
  (st : option WorkerMetrics * Q) (job : Job) : outcome (option (option WorkerMetrics * Q * option error)) :=
  let met := met_started <$> st.1 in
  let! r := process st.2 job in
  Done (match r with
        | None => None
        | Some (q, err) => Some (met_ended err <$> met, q, err)
        end).

(** [Run] up to its first delivery: registration, then the handler for the queue. *)
(* internal/workers/service.go:65-89 Service.Run *)
Definition WorkerService__Run {Q} (s : WorkerService) (process : Q → Job → outcome (option (Q * option error)))
  : result (option D * (option WorkerMetrics * Q → Job → outcome (option (option WorkerMetrics * Q * option error)))) :=
  match ws_coord s with
  | None => Ok (None, counted_process process)
  | Some c =>
      let '(c, err) := register s c in
      match err with
      | Some e => Err e
      | None => Ok (Some c, counted_process process)
      end
  end.

(** ** The worker and the manager *)

Context `{Cf : RunConfigCodec}.

(** The request to the simulation manager that asks for the same run. *)
Definition payload_request (p : RunJobPayload) : CreateRequest :=
  mkReq (pl_SimulationID p) (pl_ModelID p) (pl_ModelVersion p) (pl_Seed p) (pl_Mode p) (pl_MaxTicks p)
    (pl_MaxTime p) (pl_Workers p) (pl_Config p) "".

Lemma job_entry_found p entry : find_entry reg (payload_request p) = Ok entry → job_entry p = Ok entry.
Proof using Type.
  unfold find_entry, job_entry. cbn. destruct (Registry__Get reg (pl_ModelID p)) as [latest|]; [|done].
  case_decide; [done|]. by destruct (GetVersion _ _ _).
Qed.

Lemma job_configure_found mv raw m : configure mv raw = Ok m → job_configure mv raw = Ok m.
Proof using Type.
  unfold configure, job_configure. case_decide; [done|]. destruct (mv_Configure mv) as [f|]; [|done].
  by destruct (f _ _) as [? []].
Qed.

Lemma job_mode_found mv p mode : request_mode mv (payload_request p) = Ok mode → job_mode mv p = mode.
Proof using Type.
  unfold request_mode, job_mode. cbn. case_decide as H1.
  { rewrite H1. by intros [= ->]. }
  case_decide; [by intros [= ->]|]. case_decide; [by intros [= ->]|done].
Qed.

(** A built simulation is ready to run with the configuration of the payload. *)
Lemma New_ready cfg mo (m : M) sim :
  New GOMAXPROCS cfg mo m = Done (Ok sim) → sim_cfg sim = cfg ∧ sim_state sim = StateIdle.
Proof using Type.
  unfold New. intros H. inv_bind H as re Hre. destruct re as [ex|]; [|done].
  inv_bind H as x Hx. destruct x as [[m' w'] [e|]]; [done|]. by injection H as <-.
Qed.

(** C30: a worker runs the simulation the manager would: whenever the manager can build a request
    with an identifier of its own, the worker that receives the same fields as a job builds the same
    simulation and does with it what [Run] does, however many turns that takes: a run that goes on
    keeps the worker busy, a run that takes the process down takes the worker down, and of a run that
    ends the worker publishes the status and the snapshot of that very run, with the job's and the
    simulation's identifiers.  In tick mode with a limit, [MaxTicks + 1] turns bring the run to an
    end.  (Without an identifier the manager would make one up, while the worker keeps the empty
    one.) *)
Theorem worker_matches_manager fuel now q job p entry mv newID sim info :
  json_UnmarshalPayload (j_Payload job) = Ok p → pl_SimulationID p ≠ ""%string →
  find_entry reg (payload_request p) = Ok entry → en_Factory entry = Some mv →
  build GOMAXPROCS entry mv newID (payload_request p) = Done (Ok (sim, info)) →
  RunJob fuel now q job =
    match Run fuel sim with
    | None => Done None
    | Some (Panic why) => Panic why
    | Some (Done (s, runErr)) =>
        Done (PublishResult q
          (mkResult (j_ID job) (si_ID info)
            match runErr with None => "completed" | Some _ => "failed" end
            match runErr with None => "" | Some e => Error e end
            (default ""%string (match Simulation__Snapshot s with
                        | Ok snap => match json_MarshalSnapshot snap with Ok b => Some b | Err _ => None end
                        | Err _ => None end)) now))
    end ∧
  (job_mode mv p = ModeTick → 0 < pl_MaxTicks p < 2 ^ 64 → is_Some (Run (S (Z.to_nat (pl_MaxTicks p))) sim)).
Proof using Type.
  intros Hp Hid Hf Hfac Hb. unfold RunJob. rewrite Hp, (job_entry_found p entry Hf), Hfac.
  unfold build in Hb. cbn [payload_request cr_Config cr_ID cr_Seed cr_MaxTicks cr_MaxTime cr_Workers] in Hb.
  destruct (configure mv (pl_Config p)) as [m|] eqn:Hc; [|done]. rewrite (job_configure_found _ _ _ Hc).
  destruct (request_mode mv (payload_request p)) as [mode|] eqn:Hm; [|done].
  rewrite decide_False in Hb by done. cbv zeta in Hb. inv_bind Hb as r Hn.
  unfold job_config. rewrite (job_mode_found _ _ _ Hm), Hn. cbn [obind].
  destruct r as [sim'|]; [|done]. cbn [wrap_err] in Hb.
  destruct (json_MarshalRunConfig _) as [raw|]; [|done]. injection Hb as -> <-. cbn [si_ID]. split.
  - destruct (Run fuel sim) as [[[s runErr]|]|]; [|done..].
    unfold job_result. by destruct runErr, (Simulation__Snapshot s) as [snap|]; try destruct (json_MarshalSnapshot snap).
  - intros Hmode Hmax. subst. destruct (New_ready _ _ _ _ Hn) as [Hcfg Hidle].
    destruct (Run_ends sim) as (end_ & Hend & _); rewrite ?Hcfg, ?Hidle; cbn; try done.
    rewrite Hcfg in Hend. by eexists.
Qed.

(** Every job a worker finishes is counted once, as processed or as failed, and no job stays
    counted as active. *)
Lemma counted_process_accounts {Q} (process : Q → Job → outcome (option (Q * option error))) m q job r :
  counted_process process (Some m, q) job = Done (Some r) →
  ∃ m' q' err, r = (Some m', q', err) ∧ process q job = Done (Some (q', err)) ∧
    wm_ActiveJobs m' = wm_ActiveJobs m ∧
    wm_JobsFailed m' = wm_JobsFailed m + match err with Some _ => 1 | None => 0 end ∧
    wm_JobsProcessed m' = wm_JobsProcessed m + match err with Some _ => 0 | None => 1 end.
Proof using Type.
  unfold counted_process. cbn. intros H. inv_bind H as x Hx. destruct x as [[q' err]|]; [|done].
  injection H as <-. destruct err; cbn; do 3 eexists; split_and!; try done; cbn; lia.
Qed.

(** ** Liveness of workers *)

Context `{Rl : !RedisLaws D}.

(** Renewals: wait, then renew. *)
Definition renew (s : WorkerService) (c : D) (wait : Z) : D := heartbeat s (rd_pass c wait).

(** The liveness key is present until the time it was last renewed for. *)
Definition renewed (s : WorkerService) (c : D) : Prop :=
  rd_live c !! heartbeat_key (ws_info s) =
  Some (mkRE (wi_Version (ws_info s)) (Some (rd_now c + ws_heartbeatTTL s))).

Lemma Heartbeat_renewed s c : 0 < ws_heartbeatTTL s → ws_heartbeatTTL s mod millisecond = 0 →
  renewed s (heartbeat s c) ∧
  (Redis__Heartbeat c (heartbeat_key (ws_info s)) (wi_Version (ws_info s)) (ws_heartbeatTTL s)).2 = None.
Proof using Rl.
  intros Ht Hms. unfold heartbeat, renewed, Redis__Heartbeat.
  destruct (set_spec c (heartbeat_key (ws_info s)) (wi_Version (ws_info s)) (ws_heartbeatTTL s))
    as (c' & -> & Hn & Hl); [lia|done|]. cbn. split; [|done].
  rewrite Hl, Hn, lookup_insert_eq. unfold expires_at. by destruct (Z.ltb_spec 0 (ws_heartbeatTTL s)); [|lia].
Qed.

Lemma renewed_alive s c t : renewed s c → 0 ≤ t →
  Redis__Alive (rd_pass c t) (heartbeat_key (ws_info s)) = (t <? ws_heartbeatTTL s).
Proof using Rl.
  intros Hr Ht. unfold Redis__Alive, renewed in *. rewrite exists_spec, pass_live by done.
  rewrite map_lookup_filter, Hr. cbn. unfold not_expired. cbn.
  destruct (Z.ltb_spec t (ws_heartbeatTTL s)).
  - by rewrite option_guard_True by lia.
  - by rewrite option_guard_False by lia.
Qed.

End runjob.

(** ** A concrete worker *)

Module ToyWorker.
(** The payload text is the requested version. *)
#[global] Instance payloads : PayloadCodec := {
  json_UnmarshalPayload raw := Ok (mkPayload "s1" "toy" raw 7 "tick" 5 fzero 1 "");
}.
#[global] Instance results : ResultCodec := {
  json_MarshalResult r := Ok (res_JobID r +:+ "/" +:+ res_SimulationID r +:+ "/" +:+ res_Status r);
}.

Definition job (version : string) : Job := mkJob "j1" "s1" "run_simulation" version 0 2 "" 0.
Definition queue : Queue Memory (gmap string Z) := NewQueue NewMemory None 0.
Definition run (version : string) : outcome (option (Queue Memory (gmap string Z) * option error)) :=
  RunJob (R := Toy.runtime) 4 ToyManager.registry 6 0 queue (job version).

(** The results on the queue after a job. *)
Definition published (version : string) : list string :=
  match run version with Done (Some (q, None)) => mem_get (qu_broker q) QueueResults | _ => [] end.

Definition payload (version : string) : RunJobPayload := mkPayload "s1" "toy" version 7 "tick" 5 fzero 1 "".
Definition entry : @Entry (option (ModelValue (R := Toy.runtime) (M := nat))) := mkEntry ToyManager.info ToyManager.factory.
Definition value : ModelValue (R := Toy.runtime) (M := nat) := mkMV ToySim.model 0%nat None None.
Definition built : outcome (result (Simulation nat * SimulationInfo)) :=
  build (R := Toy.runtime) 4 entry value "" (payload_request (payload "1.0")).
Definition info : WorkerInfo := NewInfo "host" "00ff" "" "0.1.0" 0.
End ToyWorker.

Lemma worker_matches_manager_witness :
  ∃ sim info s, ToyWorker.built = Done (Ok (sim, info)) ∧ Run 6 sim = Some (Done (s, None)) ∧
    ToyWorker.run "1.0" = Done (PublishResult ToyWorker.queue (mkResult "j1" (si_ID info) "completed" ""
      (default ""%string (match Simulation__Snapshot s with
                  | Ok snap => match json_MarshalSnapshot snap with Ok b => Some b | Err _ => None end
                  | Err _ => None end)) 0)).
Proof.
  destruct ToyWorker.built as [[[sim info]|]|] eqn:Hb; [|vm_compute in Hb; done..].
  destruct (Run 6 sim) as [[[s [e|]]|]|] eqn:Hr.
  - exfalso. injection Hb as <- <-. vm_compute in Hr. done.
  - exists sim, info, s. split; [done|]. split; [done|].
    pose proof (worker_matches_manager 4 ToyManager.registry 6 0 ToyWorker.queue (ToyWorker.job "1.0") (ToyWorker.payload "1.0")
      ToyWorker.entry ToyWorker.value "" sim info eq_refl ltac:(done) ltac:(done) eq_refl Hb) as [H _].
    rewrite Hr in H. exact H.
  - exfalso. injection Hb as <- <-. vm_compute in Hr. done.
  - exfalso. injection Hb as <- <-. vm_compute in Hr. done.
Defined.


(** A version the registry does not have: the manager refuses the request, the worker runs the
    latest version instead and reports success. *)
Theorem worker_ignores_unknown_version :
  (∃ e, find_entry ToyManager.registry (payload_request (ToyWorker.payload "9.9")) = Err e) ∧
  ToyWorker.published "9.9" = ["j1/s1/completed"%string].
Proof. split; [by eexists|]. vm_compute. reflexivity. Qed.
