(* ===== verification/Migrate.v ===== *)
(** * Database migrations: [internal/database/migrate.go]

    The embedded migration files are paired into migrations by version; [Migrate] applies the
    pending ones in order, [Rollback] undoes the latest ones, each in its own transaction that
    also keeps the table [schema_migrations].  What a script does to the schema is a parameter (the
    scripts do not touch [schema_migrations]); what the transactions do with it is modelled.  Every
    single call to the database may fail ([wire]): creating the table, the query, each of its rows,
    and the beginning, the statements and the commit of a transaction, where a call that took effect
    may also fail because its answer is lost. *)

From Stdlib Require Import Ascii.
From stdpp Require Import pretty.
From S2P Require Import Prelude GoStrings GoText.
Local Open Scope Z_scope.

(* internal/database/migrate.go:15-21 Migration *)
Record Migration := mkMig { mg_Version : Z; mg_Name : string; mg_Up : string; mg_Down : string }.

Definition unexpected : error := Errorf "unexpected migration file".

(* internal/database/migrate.go:63-83 parseName *)
Definition parseName (filename : string) : result (Z * string * string) :=
  match strip_suffix ".sql" filename with
  | None => Err unexpected
  | Some stem =>
      match CutLast "." stem with
      | None => Err unexpected
      | Some (rest, direction) =>
          match Cut "_" rest with
          | None => Err unexpected
          | Some (digits, name) =>
              match Atoi digits with
              | None => Err (Errorf "unexpected migration version")
              | Some version => Ok (version, name, direction)
              end
          end
      end
  end.

(** One file of the directory: its name and what reading it gives. *)
Definition file : Type := string * result string.

Definition add_file (byVersion : gmap Z Migration) (f : file) : result (gmap Z Migration) :=
  try! (version, name, direction) := parseName f.1 in
  let m := default (mkMig version name "" "") (byVersion !! version) in
  try! content := wrap_err "read migration" f.2 in
  Ok (<[version := if decide (direction = "up"%string)
                   then mkMig (mg_Version m) (mg_Name m) content (mg_Down m)
                   else mkMig (mg_Version m) (mg_Name m) (mg_Up m) content]> byVersion).

Definition version_le (a b : Migration) : Prop := mg_Version a ≤ mg_Version b.
#[global] Instance version_le_dec : RelDecision version_le.
Proof. intros a b. unfold version_le. apply _. Defined.

(** [entries] is the embedded directory. *)
(* internal/database/migrate.go:23-61 LoadMigrations *)
Definition LoadMigrations (entries : result (list file)) : result (list Migration) :=
  match entries with
  | Err e => Err (Wrapped "read migrations" e)
  | Ok entries =>
      try! byVersion := rfold add_file ∅ entries in
      let out := (map_to_list byVersion).*2 in
      if forallb (λ m, bool_decide (mg_Up m ≠ ""%string)) out then Ok (merge_sort version_le out)
      else Err (Errorf "migration missing up file")
  end.

(** [ORDER BY version DESC]. *)
Definition Zge (a b : Z) : Prop := b ≤ a.
#[global] Instance Zge_dec : RelDecision Zge.
Proof. intros a b. unfold Zge. apply _. Defined.
#[global] Instance Zge_antisymm : AntiSymm eq Zge.
Proof. intros a b. unfold Zge. lia. Qed.

(** A call that fails: it did not take effect, or it did and the answer was lost. *)
Inductive fault := Unsent (e : error) | Unanswered (e : error).

Definition fault_error (f : fault) : error := match f with Unsent e => e | Unanswered e => e end.

(** What happens to the next calls; those beyond the end of the list go well. *)
Definition wire : Type := list (option fault).

Definition next_call (net : wire) : wire * option fault :=
  match net with [] => ([], None) | f :: net => (net, f) end.

(** A statement whose result is of interest only if it arrives: a query, or a statement of a
    transaction that is not committed otherwise. *)
Definition ask {A} (net : wire) (r : result A) : wire * result A :=
  let '(net, f) := next_call net in
  (net, match f with Some f => Err (fault_error f) | None => r end).

(** The loop over the rows of a query: a fault is what [Scan] or, after the loop, [rows.Err] gives. *)
Fixpoint read_rows (net : wire) (rows : list Z) : wire * result (list Z) :=
  let '(net, f) := next_call net in
  match f with
  | Some f => (net, Err (fault_error f))
  | None =>
      match rows with
      | [] => (net, Ok [])
      | v :: rows =>
          let '(net, r) := read_rows net rows in (net, try! vs := r in Ok (v :: vs))
      end
  end.

Section migrate.
Context {D : Type}.

(** The schema, and the rows of [schema_migrations] if the table exists. *)
Record Database := mkDatabase { da_schema : D; da_applied : option (gmap Z string) }.

(** What a script does to the schema. *)
Context (sql_exec : D → string → result D).

(** The statements on [schema_migrations]; a version is an [INT]. *)
Definition no_table {A} : result A := Err (Errorf "relation does not exist").

Definition record_version (t : option (gmap Z string)) (v : Z) (name : string) : result (option (gmap Z string)) :=
  match t with
  | None => no_table
  | Some rows =>
      if (- 2 ^ 31 <=? v) && (v <? 2 ^ 31) then
        if decide (rows !! v = None) then Ok (Some (<[v := name]> rows)) else Err (Errorf "duplicate key")
      else Err (Errorf "integer out of range")
  end.

Definition unrecord_version (t : option (gmap Z string)) (v : Z) : result (option (gmap Z string)) :=
  match t with
  | None => no_table
  | Some rows => if (- 2 ^ 31 <=? v) && (v <? 2 ^ 31) then Ok (Some (delete v rows)) else Err (Errorf "integer out of range")
  end.

Definition recorded_versions (t : option (gmap Z string)) : result (list Z) :=
  match t with None => no_table | Some rows => Ok (map_to_list rows).*1 end.

Definition create_table (net : wire) (db : Database) : wire * Database * option error :=
  let db' := mkDatabase (da_schema db) (Some (default ∅ (da_applied db))) in
  let '(net, f) := next_call net in
  match f with
  | None => (net, db', None)
  | Some (Unsent e) => (net, db, Some (Wrapped "create schema_migrations" e))
  | Some (Unanswered e) => (net, db', Some (Wrapped "create schema_migrations" e))
  end.

(** The statements of a migration's transaction, and the database it would commit. *)
Definition tx_body (net : wire) (db : Database) (m : Migration) (up : bool) : wire * result Database :=
  let '(net, schema) := ask net (sql_exec (da_schema db) (if up then mg_Up m else mg_Down m)) in
  match wrap_err (if up then "apply migration" else "rollback migration") schema with
  | Err e => (net, Err e)
  | Ok schema =>
      let '(net, rows) := ask net (if up then record_version (da_applied db) (mg_Version m) (mg_Name m)
                                   else unrecord_version (da_applied db) (mg_Version m)) in
      (net, try! rows := wrap_err (if up then "record migration" else "unrecord migration") rows in Ok (mkDatabase schema rows))
  end.

(** A transaction that is not committed leaves the database as it was. *)
(* internal/database/migrate.go:168-194 applyOne *)
Definition applyOne (net : wire) (db : Database) (m : Migration) (up : bool) : wire * Database * option error :=
  let '(net, f) := next_call net in
  match f with
  | Some f => (net, db, Some (Wrapped "begin migration" (fault_error f)))
  | None =>
      match tx_body net db m up with
      | (net, Err e) => (net, db, Some e)
      | (net, Ok db') =>
          let '(net, f) := next_call net in
          match f with
          | None => (net, db', None)
          | Some (Unsent e) => (net, db, Some (Wrapped "commit migration" e))
          | Some (Unanswered e) => (net, db', Some (Wrapped "commit migration" e))
          end
      end
  end.

(** The loops over migrations, which stop at the first error. *)
Fixpoint apply_all (net : wire) (db : Database) (ms : list Migration) (up : bool) : Database * option error :=
  match ms with
  | [] => (db, None)
  | m :: ms' =>
      match applyOne net db m up with
      | (_, db, Some e) => (db, Some e)
      | (net, db, None) => apply_all net db ms' up
      end
  end.

(* internal/database/migrate.go:85-127 Migrate *)
Definition Migrate (entries : result (list file)) (net : wire) (db : Database) : Database * option error :=
  match LoadMigrations entries with
  | Err e => (db, Some e)
  | Ok ms =>
      match create_table net db with
      | (_, db, Some e) => (db, Some e)
      | (net, db, None) =>
          match ask net (recorded_versions (da_applied db)) with
          | (_, Err e) => (db, Some (Wrapped "read schema_migrations" e))
          | (net, Ok rows) =>
              match read_rows net rows with
              | (_, Err e) => (db, Some e)
              | (net, Ok applied) => apply_all net db (filter (λ m, mg_Version m ∉ applied) ms) true
              end
          end
      end
  end.

(* internal/database/migrate.go:129-166 Rollback *)
Definition Rollback (entries : result (list file)) (net : wire) (db : Database) (steps : Z) : Database * option error :=
  match LoadMigrations entries with
  | Err e => (db, Some e)
  | Ok ms =>
      match ask net (recorded_versions (da_applied db)) with
      | (_, Err e) => (db, Some e)
      | (net, Ok rows) =>
          match read_rows net (merge_sort Zge rows) with
          | (_, Err e) => (db, Some e)
          | (net, Ok versions) =>
              let applied := take (Z.to_nat steps) versions ≫= λ v, filter (λ m, mg_Version m = v) ms in
              apply_all net db applied false
          end
      end
  end.
End migrate.
Arguments Database D : clear implicits.

(** ** File names *)

(** [%04d]. *)
Definition pad4 (n : Z) : string :=
  let s := pretty n in
  match String.length s with
  | 1%nat => "000" +:+ s | 2%nat => "00" +:+ s | 3%nat => "0" +:+ s | _ => s
  end.

Definition filename (version : Z) (name direction : string) : string :=
  pad4 version +:+ "_" +:+ name +:+ "." +:+ direction +:+ ".sql".

Lemma digits_no_underscore acc s n : digits_val acc s = Some n → occurs "_" s = false.
Proof.
  revert acc. induction s as [|c s IH]; intros acc; [done|]. cbn [occurs digits_val].
  destruct (digit_val c) as [d|] eqn:Hd; [|done]. intros H. rewrite (IH _ H), orb_false_r.
  destruct (Ascii.eqb_spec "_" c) as [<-|]; [by vm_compute in Hd|done].
Qed.

Lemma parse_nat_zero s n : parse_nat s = Some n → parse_nat (String "0" s) = Some n.
Proof. unfold parse_nat. destruct s; [done|]. done. Qed.

Lemma pad4_parses n : 0 ≤ n → parse_nat (pad4 n) = Some n.
Proof.
  intros Hn. pose proof (parse_nat_pretty n Hn) as Hp. unfold pad4.
  destruct (String.length (pretty n)) as [|[|[|[|]]]]; try exact Hp; by repeat apply parse_nat_zero.
Qed.

(** File names are parsed back to what they were made of: any version that fits an [int],
    padded to four digits, any name, underscores and dots included, and any direction without a
    dot. *)
Theorem parseName_filename version name direction :
  0 ≤ version < 2 ^ 63 → occurs "." direction = false →
  parseName (filename version name direction) = Ok (version, name, direction).
Proof.
  intros Hv Hd. unfold parseName, filename.
  assert (pad4 version +:+ "_" +:+ name +:+ "." +:+ direction +:+ ".sql"
    = ((pad4 version +:+ String "_" name) +:+ String "." direction) +:+ ".sql") as ->.
  { by rewrite <- !app_assoc_string. }
  rewrite strip_suffix_app, CutLast_sep by done.
  pose proof (pad4_parses version ltac:(lia)) as Hp.
  rewrite Cut_sep.
  - by rewrite (Atoi_parse_nat _ _ Hp Hv).
  - unfold parse_nat in Hp. destruct (pad4 version); [done|]. by eapply digits_no_underscore.
Qed.

Lemma parseName_filename_witness : parseName "0042_add_more.things.up.sql" = Ok (42, "add_more.things", "up")%string.
Proof. apply (parseName_filename 42 "add_more.things" "up"); [lia|reflexivity]. Defined.

(** ** Loading *)

(** Migrations are filed under their versions. *)
Lemma add_file_keyed bv f bv' :
  (∀ v m, bv !! v = Some m → mg_Version m = v) → add_file bv f = Ok bv' →
  ∀ v m, bv' !! v = Some m → mg_Version m = v.
Proof.
  intros Hk. unfold add_file. destruct (parseName f.1) as [[[version name] direction]|]; [|done]. cbn.
  destruct (f.2) as [content|]; [|done]. cbn. intros [= <-] v m [[<- <-]|[_ H]]%lookup_insert_Some; [|by apply Hk].
  assert (mg_Version (default (mkMig version name "" "") (bv !! version)) = version) as Hv.
  { destruct (bv !! version) as [m|] eqn:E; [by apply Hk|done]. }
  by case_decide.
Qed.

Lemma add_files_keyed fs bv bv' :
  (∀ v m, bv !! v = Some m → mg_Version m = v) → rfold add_file bv fs = Ok bv' →
  ∀ v m, bv' !! v = Some m → mg_Version m = v.
Proof.
  revert bv. induction fs as [|f fs IH]; intros bv Hk; cbn; [by intros [= <-]|].
  destruct (add_file bv f) as [bv1|] eqn:E; [|done]. cbn. apply IH. by eapply add_file_keyed.
Qed.

Definition version_lt (a b : Migration) : Prop := mg_Version a < mg_Version b.

(** The loaded migrations are in strictly increasing order of version. *)
Lemma LoadMigrations_sorted entries ms : LoadMigrations entries = Ok ms → StronglySorted version_lt ms.
Proof.
  unfold LoadMigrations. destruct entries as [fs|]; [|done]. cbn.
  destruct (rfold add_file ∅ fs) as [bv|] eqn:E; [|done]. cbn. destruct (forallb _ _); [|done]. intros [= <-].
  assert (∀ v m, bv !! v = Some m → mg_Version m = v) as Hk.
  { apply (add_files_keyed fs ∅ bv); [|done]. intros v m. by rewrite lookup_empty. }
  assert (NoDup (mg_Version <$> merge_sort version_le (map_to_list bv).*2)) as Hnd.
  { rewrite merge_sort_Permutation.
    assert (mg_Version <$> (map_to_list bv).*2 = (map_to_list bv).*1) as ->; [|apply NoDup_fst_map_to_list].
    rewrite <- list_fmap_compose. apply list_fmap_ext. intros i [v m] Hi.
    apply list_elem_of_lookup_2, elem_of_map_to_list in Hi. cbn. by apply Hk. }
  assert (StronglySorted version_le (merge_sort version_le (map_to_list bv).*2)) as Hs.
  { apply StronglySorted_merge_sort; intros x y *; unfold version_le; lia. }
  revert Hnd Hs. generalize (merge_sort version_le (map_to_list bv).*2). intros l Hnd Hs.
  induction Hs as [|m l Hs IH Hm]; [constructor|]. cbn in Hnd. apply NoDup_cons in Hnd as [Hin Hnd].
  constructor; [by apply IH|]. rewrite Forall_forall in Hm. apply Forall_forall. intros x Hx.
  specialize (Hm x Hx). unfold version_le, version_lt in *.
  assert (mg_Version m ≠ mg_Version x); [|lia]. intros Heq. apply Hin. rewrite Heq. by apply list_elem_of_fmap_2.
Qed.

(** ** Levels: how many migrations are applied *)

Lemma filter_none {A} (P : A → Prop) `{∀ x, Decision (P x)} l : Forall (λ x, ¬ P x) l → filter P l = [].
Proof. induction 1 as [|x l Hx _ IH]; [done|]. by rewrite filter_cons_False. Qed.

(** The rows of [schema_migrations] after migrations. *)
Definition rows_of (l : list Migration) : gmap Z string :=
  fold_left (λ r m, <[mg_Version m := mg_Name m]> r) l ∅.

Lemma rows_of_snoc l m : rows_of (l ++ [m]) = <[mg_Version m := mg_Name m]> (rows_of l).
Proof. unfold rows_of. by rewrite fold_left_app. Qed.

Lemma rows_of_lookup l v : rows_of l !! v = None ↔ v ∉ mg_Version <$> l.
Proof.
  induction l as [|m l IH] using rev_ind; [split; [intros _; apply not_elem_of_nil|done]|].
  rewrite rows_of_snoc, lookup_insert_None, IH, fmap_app, elem_of_app. cbn.
  rewrite list_elem_of_singleton. naive_solver.
Qed.

Lemma rows_of_keys l : NoDup (mg_Version <$> l) → (map_to_list (rows_of l)).*1 ≡ₚ mg_Version <$> l.
Proof.
  induction l as [|m l IH] using rev_ind; [done|]. rewrite fmap_app, rows_of_snoc. cbn.
  intros (Hl & Hm & _)%NoDup_app. rewrite map_to_list_insert.
  - cbn. rewrite IH by done. by rewrite Permutation_app_comm.
  - apply rows_of_lookup. intros Hin. by apply (Hm _ Hin), list_elem_of_singleton.
Qed.

Lemma versions_NoDup l : StronglySorted version_lt l → NoDup (mg_Version <$> l).
Proof.
  induction 1 as [|m l Hs IH Hm]; cbn; [constructor|]. apply NoDup_cons. split; [|done].
  intros (x & Hx & Hin)%list_elem_of_fmap. rewrite Forall_forall in Hm. specialize (Hm x Hin).
  unfold version_lt in Hm. lia.
Qed.

Lemma versions_descending l : StronglySorted version_lt l → StronglySorted Zge (reverse (mg_Version <$> l)).
Proof.
  induction 1 as [|m l Hs IH Hm]; [constructor|]. rewrite fmap_cons, reverse_cons.
  apply StronglySorted_app_2; [|done|by repeat constructor].
  intros x1 x2 H1 ->%list_elem_of_singleton. rewrite elem_of_reverse in H1.
  apply list_elem_of_fmap in H1 as (x & -> & Hin). rewrite Forall_forall in Hm. specialize (Hm x Hin).
  unfold version_lt, Zge in *. lia.
Qed.

Lemma sort_versions l : StronglySorted version_lt l →
  merge_sort Zge (map_to_list (rows_of l)).*1 = reverse (mg_Version <$> l).
Proof.
  intros Hl. apply (StronglySorted_unique Zge).
  - apply StronglySorted_merge_sort; intros x y *; unfold Zge; lia.
  - by apply versions_descending.
  - rewrite merge_sort_Permutation, rows_of_keys by (by apply versions_NoDup). by rewrite reverse_Permutation.
Qed.

(** A version names one migration. *)
Lemma filter_version l m :
  NoDup (mg_Version <$> l) → m ∈ l → filter (λ x, mg_Version x = mg_Version m) l = [m].
Proof.
  induction l as [|x l IH]; [by intros _ ?%elem_of_nil|]. rewrite fmap_cons. intros [Hx Hl]%NoDup_cons [->|Hin]%elem_of_cons.
  - rewrite filter_cons_True by done. rewrite filter_none; [done|].
    apply Forall_forall. intros y Hy Heq. apply Hx. rewrite <- Heq. by apply list_elem_of_fmap_2.
  - rewrite filter_cons_False; [by apply IH|]. intros Heq. apply Hx. rewrite Heq. by apply list_elem_of_fmap_2.
Qed.

Lemma bind_versions ms l : NoDup (mg_Version <$> ms) → l ⊆ ms →
  (mg_Version <$> l) ≫= (λ v, filter (λ m, mg_Version m = v) ms) = l.
Proof.
  intros Hnd. induction l as [|m l IH]; intros Hsub; [done|]. rewrite fmap_cons, bind_cons.
  rewrite filter_version by (done || apply Hsub; by left). cbn [app]. f_equal. apply IH. set_solver.
Qed.

(** Rows that are read are all the rows. *)
Lemma read_rows_all net rows net' vs : read_rows net rows = (net', Ok vs) → vs = rows.
Proof.
  revert net net' vs. induction rows as [|v rows IH]; intros net net' vs; cbn [read_rows]; destruct (next_call net) as [net1 [f|]]; try done.
  - by intros [= _ <-].
  - destruct (read_rows net1 rows) as [net2 [r|]] eqn:E; [|done]. intros [= _ <-]. by rewrite (IH _ _ _ E).
Qed.

Lemma read_rows_well rows : read_rows [] rows = ([], Ok rows).
Proof. induction rows as [|v rows IH]; [done|]. cbn [read_rows next_call]. by rewrite IH. Qed.

Section levels.
Context {D : Type} (sql_exec : D → string → result D).
Context (d0 : D) (entries : result (list file)) (ms : list Migration).
Hypothesis loaded : LoadMigrations entries = Ok ms.

Definition schema_of (l : list Migration) : result D := rfold (λ d m, sql_exec d (mg_Up m)) d0 l.

(** The first [k] migrations, and no others, have taken effect and are recorded. *)
Definition at_level (k : nat) (db : Database D) : Prop :=
  (k ≤ length ms)%nat ∧ schema_of (take k ms) = Ok (da_schema db) ∧
  default ∅ (da_applied db) = rows_of (take k ms).

Lemma schema_of_snoc l m : schema_of (l ++ [m]) = (try! d := schema_of l in sql_exec d (mg_Up m)).
Proof using Type.
  unfold schema_of. generalize d0. induction l as [|x l IH]; intros d; cbn.
  - by destruct (sql_exec d (mg_Up m)).
  - destruct (sql_exec d (mg_Up x)); [|done]. cbn. apply IH.
Qed.

(** A migration is recorded by none before it. *)
Lemma version_not_before k m : ms !! k = Some m → rows_of (take k ms) !! mg_Version m = None.
Proof using loaded.
  intros Hm. apply rows_of_lookup. intros (x & Hx & Hin)%list_elem_of_fmap.
  pose proof (LoadMigrations_sorted _ _ loaded) as Hs.
  rewrite <- (take_drop k ms), (drop_S ms m k Hm) in Hs.
  pose proof (StronglySorted_app_1_elem_of _ _ _ x m Hs Hin ltac:(by left)) as Hv. unfold version_lt in Hv. lia.
Qed.

Lemma pending k : filter (λ m, rows_of (take k ms) !! mg_Version m = None) ms = drop k ms.
Proof using loaded.
  trans (filter (λ m, rows_of (take k ms) !! mg_Version m = None) (take k ms ++ drop k ms)); [by rewrite take_drop|].
  rewrite filter_app, filter_none, filter_all; [done| |].
  - apply Forall_forall. intros m [i Hi]%list_elem_of_lookup. rewrite lookup_drop in Hi.
    pose proof (version_not_before _ _ Hi) as Hn. rewrite rows_of_lookup in Hn |- *.
    intros Hin. apply Hn. apply list_elem_of_fmap in Hin as (x & -> & Hin).
    apply list_elem_of_fmap_2. apply list_elem_of_lookup in Hin as [j Hj].
    apply lookup_take_Some in Hj as [Hj Hlt]. apply list_elem_of_lookup. exists j.
    apply lookup_take_Some. split; [done|lia].
  - apply Forall_forall. intros m Hm Hn. apply rows_of_lookup in Hn. by apply Hn, list_elem_of_fmap_2.
Qed.

Definition versions_fit : Prop := Forall (λ m, - 2 ^ 31 ≤ mg_Version m < 2 ^ 31) ms.

(** One migration: a failure leaves the level, or raises it by one when only the answer to the commit
    was lost; nothing else than a call, a script or a version fails. *)
Lemma applyOne_up net k m db net' db' err :
  ms !! k = Some m → at_level k db → is_Some (da_applied db) → applyOne sql_exec net db m true = (net', db', err) →
  is_Some (da_applied db') ∧ (at_level (S k) db' ∨ is_Some err ∧ at_level k db') ∧
  (net = [] → (∃ d, sql_exec (da_schema db) (mg_Up m) = Ok d) → - 2 ^ 31 ≤ mg_Version m < 2 ^ 31 → net' = [] ∧ err = None).
Proof using loaded.
  intros Hm Hk [rows Hrows] H. unfold applyOne in H. destruct (next_call net) as [net1 f1] eqn:E1.
  assert (net = [] → f1 = None ∧ net1 = []) as Hw1 by (intros ->; by injection E1 as <- <-).
  assert (∀ e, (db', err) = (db, Some e) → (net = [] → (∃ d, sql_exec (da_schema db) (mg_Up m) = Ok d) →
      - 2 ^ 31 ≤ mg_Version m < 2 ^ 31 → False) →
    is_Some (da_applied db') ∧ (at_level (S k) db' ∨ is_Some err ∧ at_level k db') ∧
    (net = [] → (∃ d, sql_exec (da_schema db) (mg_Up m) = Ok d) → - 2 ^ 31 ≤ mg_Version m < 2 ^ 31 → net' = [] ∧ err = None)) as Hstop.
  { intros e [= -> ->] Hno. split; [by eexists|]. split; [right; split; [by eexists|done]|]. intros Hn Hd Hv. by destruct (Hno Hn Hd Hv). }
  destruct f1 as [f|].
  { injection H as <- <- <-. eapply Hstop; [done|]. intros Hn. by destruct (Hw1 Hn). }
  unfold tx_body, ask in H. destruct (next_call net1) as [net2 f2] eqn:E2.
  assert (net = [] → f2 = None ∧ net2 = []) as Hw2.
  { intros Hn. destruct (Hw1 Hn) as [_ ->]. by injection E2 as <- <-. }
  destruct f2 as [f|]; cbn [wrap_err] in H.
  { injection H as <- <- <-. eapply Hstop; [done|]. intros Hn. by destruct (Hw2 Hn). }
  destruct (sql_exec (da_schema db) (mg_Up m)) as [d|] eqn:Ed; cbn [wrap_err] in H.
  2: { injection H as <- <- <-. eapply Hstop; [done|]. intros _ [d Hd]. congruence. }
  destruct (next_call net2) as [net3 f3] eqn:E3.
  assert (net = [] → f3 = None ∧ net3 = []) as Hw3.
  { intros Hn. destruct (Hw2 Hn) as [_ ->]. by injection E3 as <- <-. }
  destruct f3 as [f|]; cbn [wrap_err rbind] in H.
  { injection H as <- <- <-. eapply Hstop; [done|]. intros Hn. by destruct (Hw3 Hn). }
  pose proof Hk as (Hle & Hs & Hr). rewrite Hrows in Hr. cbn in Hr. subst rows. rewrite Hrows in H. cbn [record_version] in H.
  destruct (Z.leb_spec (- 2 ^ 31) (mg_Version m)), (Z.ltb_spec (mg_Version m) (2 ^ 31)); cbn [andb wrap_err rbind] in H;
    try (injection H as <- <- <-; eapply Hstop; [done|]; intros _ _ ?; lia).
  rewrite decide_True in H by (by apply version_not_before). cbn [wrap_err rbind] in H.
  destruct (next_call net3) as [net4 f4] eqn:E4.
  assert (net = [] → f4 = None ∧ net4 = []) as Hw4.
  { intros Hn. destruct (Hw3 Hn) as [_ ->]. by injection E4 as <- <-. }
  assert (at_level (S k) (mkDatabase d (Some (<[mg_Version m := mg_Name m]> (rows_of (take k ms)))))) as Hup.
  { split; [apply lookup_lt_Some in Hm; lia|]. rewrite (take_S_r ms k m Hm), schema_of_snoc, rows_of_snoc, Hs. done. }
  destruct f4 as [[e|e]|]; injection H as <- <- <-.
  - eapply Hstop; [done|]. intros Hn. by destruct (Hw4 Hn).
  - split; [by eexists|]. split; [by left|]. intros Hn. by destruct (Hw4 Hn).
  - split; [by eexists|]. split; [by left|]. intros Hn _ _. by destruct (Hw4 Hn).
Qed.

(** The scripts of the migrations from a level on can be run. *)
Lemma schema_of_next k m db d : ms !! k = Some m → at_level k db → schema_of ms = Ok d →
  ∃ d', sql_exec (da_schema db) (mg_Up m) = Ok d'.
Proof using Type.
  intros Hm (_ & Hs & _) Hall. rewrite <- (take_drop (S k) ms), (take_S_r ms k m Hm) in Hall.
  assert (∀ l1 l2 d, schema_of (l1 ++ l2) = Ok d → ∃ d', schema_of l1 = Ok d') as Hpre.
  { intros l1 l2. unfold schema_of. generalize d0. induction l1 as [|x l1 IH]; intros d1 d2; cbn; [by eexists|].
    destruct (sql_exec d1 (mg_Up x)); [|done]. cbn. apply IH. }
  destruct (Hpre _ _ _ Hall) as [d' Hd']. rewrite schema_of_snoc, Hs in Hd'. by exists d'.
Qed.

(** Applying the migrations from a level on reaches a level. *)
Lemma apply_up n : ∀ net k db, at_level k db → is_Some (da_applied db) → (length ms - k = n)%nat →
  let '(db', err) := apply_all sql_exec net db (drop k ms) true in
  is_Some (da_applied db') ∧
  (∃ k', (k ≤ k')%nat ∧ at_level k' db' ∧ (err = None → k' = length ms)) ∧
  (net = [] → (∃ d, schema_of ms = Ok d) → versions_fit → err = None).
Proof using loaded.
  induction n as [|n IH]; intros net k db Hk Hsome Hn.
  - rewrite drop_ge by lia. pose proof Hk as [Hle _]. cbn. split_and!; [done| |done]. exists k. split_and!; [done..|lia].
  - destruct (lookup_lt_is_Some_2 ms k) as [m Hm]; [lia|]. rewrite (drop_S ms m k Hm). cbn [apply_all].
    destruct (applyOne sql_exec net db m true) as [[net1 db1] err1] eqn:E.
    destruct (applyOne_up net k m db net1 db1 err1 Hm Hk Hsome E) as (Hs1 & Hor & Hwell).
    assert (net = [] → (∃ d, schema_of ms = Ok d) → versions_fit → net1 = [] ∧ err1 = None) as Hwell'.
    { intros Hnet [d Hd] Hfit. apply Hwell; [done| |].
      - by eapply schema_of_next.
      - by apply (Forall_lookup_1 _ _ _ _ Hfit Hm). }
    destruct err1 as [e|].
    + split_and!; [done| |by intros H1 H2 H3; destruct (Hwell' H1 H2 H3)].
      destruct Hor as [Hk1|[_ Hk1]]; [exists (S k)|exists k]; split_and!; done || lia.
    + destruct Hor as [Hk1|[[? ?] _]]; [|done]. specialize (IH net1 (S k) db1 Hk1 Hs1 ltac:(lia)).
      destruct (apply_all _ net1 db1 _ _) as [db' err]. destruct IH as (H1 & (k' & H2 & H3 & H4) & H5). split_and!; [done| |].
      * exists k'. split_and!; [lia|done|done].
      * intros Hnet Hd Hfit. by apply H5; [apply Hwell'| |].
Qed.

Lemma recorded_keys (r : gmap Z string) v : v ∉ (map_to_list r).*1 ↔ r !! v = None.
Proof using Type.
  rewrite eq_None_not_Some. apply not_iff_compat. split.
  - intros ([v' n] & -> & Hin)%list_elem_of_fmap. apply elem_of_map_to_list in Hin. by exists n.
  - intros [n Hn]. apply list_elem_of_fmap. exists (v, n). split; [done|]. by apply elem_of_map_to_list.
Qed.

Lemma pending_unrecorded k : filter (λ m, mg_Version m ∉ (map_to_list (rows_of (take k ms))).*1) ms = drop k ms.
Proof using loaded.
  rewrite <- (pending k). apply list_filter_iff. intros m. by rewrite recorded_keys.
Qed.

Lemma Migrate_level k net db :
  at_level k db →
  let '(db', err) := Migrate sql_exec entries net db in
  (∃ k', (k ≤ k')%nat ∧ at_level k' db' ∧ (err = None → k' = length ms ∧ is_Some (da_applied db'))) ∧
  (net = [] → (∃ d, schema_of ms = Ok d) → versions_fit → err = None).
Proof using loaded.
  intros Hk. unfold Migrate. rewrite loaded.
  set (db1 := mkDatabase (da_schema db) (Some (default ∅ (da_applied db)))).
  assert (at_level k db1) as Hk1 by (destruct Hk as (? & ? & ?); by split_and!).
  unfold create_table. fold db1. destruct (next_call net) as [net1 f1] eqn:E1.
  assert (net = [] → f1 = None ∧ net1 = []) as Hw1 by (intros ->; by injection E1 as <- <-).
  destruct f1 as [[e|e]|]; [split; [by exists k|by intros Hn; destruct (Hw1 Hn)]..|].
  unfold ask. destruct (next_call net1) as [net2 f2] eqn:E2.
  assert (net = [] → f2 = None ∧ net2 = []) as Hw2.
  { intros Hn. destruct (Hw1 Hn) as [_ ->]. by injection E2 as <- <-. }
  destruct f2 as [f|]; [split; [by exists k|by intros Hn; destruct (Hw2 Hn)]|]. cbn [recorded_versions da_applied db1].
  destruct (read_rows net2 _) as [net3 [vs|e]] eqn:E3.
  2: { split; [by exists k|]. intros Hn. destruct (Hw2 Hn) as [_ ->]. by rewrite read_rows_well in E3. }
  assert (net = [] → net3 = []) as Hw3.
  { intros Hn. destruct (Hw2 Hn) as [_ ->]. rewrite read_rows_well in E3. by injection E3. }
  apply read_rows_all in E3 as ->. pose proof Hk as (_ & _ & ->). rewrite pending_unrecorded.
  pose proof (apply_up (length ms - k)%nat net3 k db1 Hk1 ltac:(by eexists) eq_refl) as H.
  destruct (apply_all _ _ _ _ _) as [db' err]. destruct H as (H1 & (k' & H2 & H3 & H4) & H5). split.
  - exists k'. split_and!; [done|done|]. intros Hok. split; [by apply H4|done].
  - intros Hn. apply H5. by apply Hw3.
Qed.

(** At the last level nothing is left to do, whatever fails. *)
Lemma Migrate_again net db :
  at_level (length ms) db → is_Some (da_applied db) → (Migrate sql_exec entries net db).1 = db.
Proof using loaded.
  intros Hk Hsome. unfold Migrate. rewrite loaded.
  assert (mkDatabase (da_schema db) (Some (default ∅ (da_applied db))) = db) as Hdb.
  { destruct db as [schema rows]. cbn in *. by destruct Hsome as [r ->]. }
  unfold create_table. rewrite Hdb. destruct (next_call net) as [net1 [[e|e]|]]; [done..|].
  destruct (ask net1 _) as [net2 [rows|e]] eqn:E2; [|done]. destruct (read_rows net2 rows) as [net3 [vs|e]] eqn:E3; [|done].
  apply read_rows_all in E3 as ->. unfold ask in E2. destruct (next_call net1) as [net4 [f|]]; [done|]. injection E2 as _ E2.
  destruct Hsome as [r Hr]. rewrite Hr in E2. injection E2 as <-. destruct Hk as (_ & _ & Hrows). rewrite Hr in Hrows. cbn in Hrows. subst r.
  by rewrite pending_unrecorded, drop_ge by done.
Qed.

(** C37: [Migrate] applies the pending migrations of files that load in order of version.  Started at a level (the
    first so many migrations have taken effect and exactly they are recorded), it leaves the database
    at a level, not lower, whatever fails: a script, a version that does not fit, or any single call
    to the database, the commit whose answer is lost included.  It reports success only at the last
    level; there a later run changes nothing, whatever fails in it.  And it does report success when no
    call fails, the scripts can be run one after the other and the versions fit. *)
Theorem Migrate_reaches_level k net db :
  at_level k db →
  let '(db', err) := Migrate sql_exec entries net db in
  (∃ k', (k ≤ k')%nat ∧ at_level k' db' ∧ (err = None → k' = length ms)) ∧
  (err = None → ∀ net', (Migrate sql_exec entries net' db').1 = db') ∧
  (net = [] → (∃ d, schema_of ms = Ok d) → versions_fit → err = None).
Proof using loaded.
  intros Hk. pose proof (Migrate_level k net db Hk) as H. destruct (Migrate _ _ _ _) as [db' err].
  destruct H as [(k' & H1 & H2 & H3) H4]. split_and!; [|intros Hok net'|done].
  - exists k'. split_and!; [done|done|]. by intros [? _]%H3.
  - destruct (H3 Hok) as [-> Hsome]. by apply Migrate_again.
Qed.

(** Undoing: [down] scripts restore the schema their [up] scripts changed, versions fit, and no call
    fails. *)
Hypothesis downs_undo : ∀ m d d', m ∈ ms → sql_exec d (mg_Up m) = Ok d' → sql_exec d' (mg_Down m) = Ok d.
Hypothesis fit : versions_fit.

Lemma applyOne_down k m db : ms !! k = Some m → at_level (S k) db → is_Some (da_applied db) →
  ∃ db', applyOne sql_exec [] db m false = ([], db', None) ∧ at_level k db' ∧ is_Some (da_applied db').
Proof using loaded downs_undo fit.
  intros Hm (Hle & Hs & Hr) [rows Hrows]. unfold applyOne, tx_body, ask. cbn [next_call].
  rewrite (take_S_r ms k m Hm), schema_of_snoc in Hs. destruct (schema_of (take k ms)) as [d|] eqn:Ed; [|done].
  cbn in Hs. rewrite (downs_undo m d _ (list_elem_of_lookup_2 _ _ _ Hm) Hs). cbn [wrap_err rbind next_call].
  rewrite Hrows. rewrite Hrows, (take_S_r ms k m Hm), rows_of_snoc in Hr. cbn in Hr. subst rows.
  pose proof (Forall_lookup_1 _ _ _ _ fit Hm) as Hv. cbn in Hv. unfold unrecord_version.
  destruct (Z.leb_spec (- 2 ^ 31) (mg_Version m)), (Z.ltb_spec (mg_Version m) (2 ^ 31)); try lia. cbn [andb wrap_err rbind].
  rewrite delete_insert_id by (by apply version_not_before).
  eexists. split; [done|]. split; [|by eexists]. split; [lia|]. done.
Qed.

Lemma apply_down n : ∀ k db, (n ≤ k)%nat → at_level k db → is_Some (da_applied db) →
  ∃ db', apply_all sql_exec [] db (take n (reverse (take k ms))) false = (db', None) ∧
    at_level (k - n) db' ∧ is_Some (da_applied db').
Proof using loaded downs_undo fit.
  induction n as [|n IH]; intros k db Hn Hk Hsome.
  - exists db. rewrite take_0, Nat.sub_0_r. done.
  - destruct k as [|k]; [lia|]. destruct (lookup_lt_is_Some_2 ms k) as [m Hm]; [destruct Hk; lia|].
    rewrite (take_S_r ms k m Hm), reverse_snoc. cbn [take apply_all].
    destruct (applyOne_down k m db Hm Hk Hsome) as (db1 & -> & H1 & H2).
    destruct (IH k db1) as (db' & -> & H3 & H4); [lia|done|done|]. exists db'. done.
Qed.

(** What [Rollback] undoes. *)
Lemma Rollback_selects k db steps : at_level k db → is_Some (da_applied db) →
  Rollback sql_exec entries [] db steps = apply_all sql_exec [] db (take (Z.to_nat steps) (reverse (take k ms))) false.
Proof using loaded.
  intros (_ & _ & Hr) [rows Hrows]. rewrite Hrows in Hr. cbn in Hr. subst rows.
  pose proof (LoadMigrations_sorted _ _ loaded) as Hs.
  assert (StronglySorted version_lt (take k ms)) as Hst.
  { rewrite <- (take_drop k ms) in Hs. by eapply StronglySorted_app_1_l. }
  unfold Rollback, ask. cbn [next_call]. rewrite loaded, Hrows. cbn [recorded_versions].
  rewrite read_rows_well, sort_versions, <- fmap_reverse, <- fmap_take by done.
  rewrite bind_versions; [done|by apply versions_NoDup|].
  intros m Hm. apply elem_of_take in Hm as (i & Hm & _). apply list_elem_of_lookup_2 in Hm. rewrite elem_of_reverse in Hm.
  apply elem_of_take in Hm as (j & Hm & _). by eapply list_elem_of_lookup_2.
Qed.

(** [Rollback] undoes the latest migrations, last first: from a level it goes down by the given
    number of steps, or to the beginning when there are fewer, and the schema and the records are
    those of that level; so rolling everything back restores the schema [Migrate] started from. *)
Theorem Rollback_undoes k db steps :
  at_level k db → is_Some (da_applied db) →
  ∃ db', Rollback sql_exec entries [] db steps = (db', None) ∧
    at_level (k - Z.to_nat steps) db' ∧
    (Z.of_nat k ≤ steps → da_schema db' = d0 ∧ da_applied db' = Some ∅).
Proof using loaded downs_undo fit.
  intros Hk Hsome. rewrite (Rollback_selects k db steps Hk Hsome).
  assert (∃ n, take (Z.to_nat steps) (reverse (take k ms)) = take n (reverse (take k ms)) ∧ (n ≤ k)%nat ∧
    (k - n = k - Z.to_nat steps)%nat) as (n & -> & Hn & Hkn).
  { exists (Nat.min (Z.to_nat steps) k). split_and!; [|lia..].
    destruct (Nat.le_ge_cases (Z.to_nat steps) k); [by rewrite Nat.min_l|]. rewrite Nat.min_r by done.
    rewrite (take_ge (reverse (take k ms)) (Z.to_nat steps)), (take_ge (reverse (take k ms)) k); [done|..];
      rewrite length_reverse, length_take; lia. }
  destruct (apply_down n k db Hn Hk Hsome) as (db' & -> & Hk' & [rows Hrows]). exists db'. split; [done|].
  rewrite Hkn in Hk'. split; [done|]. intros Hall. replace (k - Z.to_nat steps)%nat with 0%nat in Hk' by lia.
  destruct Hk' as (_ & Hsc & Hr). rewrite Hrows in Hr |- *. rewrite take_0 in Hsc, Hr. cbn in Hsc, Hr.
  unfold rows_of in Hr. cbn in Hr. by split; congruence.
Qed.
End levels.

(** ** The migrations of the repository, on a schema that is a list of what exists *)

Module ToySchema.
Definition files : result (list file) := Ok [
  ("0001_init.down.sql", Ok "drop init"); ("0001_init.up.sql", Ok "create init");
  ("0002_users.down.sql", Ok "drop users"); ("0002_users.up.sql", Ok "create users")]%string.

(** "create x" adds an object, "drop x" removes the object it was added last. *)
Definition exec (d : list string) (script : string) : result (list string) :=
  match strip_prefix "create " script, strip_prefix "drop " script with
  | Some x, _ => Ok (x :: d)
  | _, Some x => match d with y :: d' => if decide (x = y) then Ok d' else Err (Errorf "does not exist") | [] => Err (Errorf "does not exist") end
  | _, _ => Err (Errorf "syntax error")
  end.

Definition migrations : list Migration :=
  [mkMig 1 "init" "create init" "drop init"; mkMig 2 "users" "create users" "drop users"].
Definition fresh : Database (list string) := mkDatabase [] None.
Definition migrated : Database (list string) := (Migrate exec files [] fresh).1.

Lemma loaded : LoadMigrations files = Ok migrations.
Proof. vm_compute. reflexivity. Qed.

Lemma fresh_level : at_level exec [] migrations 0 fresh.
Proof. split_and!; [cbn; lia|done|done]. Qed.

Lemma migrated_level : at_level exec [] migrations 2 migrated.
Proof. split_and!; [cbn; lia|vm_compute; reflexivity|vm_compute; reflexivity]. Qed.
End ToySchema.

(** The answer to the commit of the second migration is lost: an error at the last level. *)
Lemma Migrate_reaches_level_witness :
  let net := [None; None; None; None; None; None; None; None; None; None; Some (Unanswered ErrClosed)] in
  (Migrate ToySchema.exec ToySchema.files net ToySchema.fresh).2 = Some (Wrapped "commit migration" ErrClosed) ∧
  (∃ k, (0 ≤ k)%nat ∧ at_level ToySchema.exec [] ToySchema.migrations k (Migrate ToySchema.exec ToySchema.files net ToySchema.fresh).1) ∧
  (Migrate ToySchema.exec ToySchema.files [None; Some (Unsent ErrClosed)] ToySchema.migrated).1 = ToySchema.migrated.
Proof.
  intros net. split; [vm_compute; reflexivity|].
  pose proof (Migrate_reaches_level ToySchema.exec [] ToySchema.files ToySchema.migrations ToySchema.loaded 0) as H. split.
  - specialize (H net ToySchema.fresh ToySchema.fresh_level). destruct (Migrate _ _ net _) as [db' err].
    destruct H as [(k & H1 & H2 & _) _]. by exists k.
  - specialize (H [] ToySchema.fresh ToySchema.fresh_level).
    destruct (Migrate _ _ [] ToySchema.fresh) as [db' err] eqn:E.
    assert (err = None ∧ db' = ToySchema.migrated) as [-> ->] by (vm_compute in E; injection E as <- <-; done).
    by apply H.
Defined.

Lemma Rollback_undoes_witness :
  ∃ db', Rollback ToySchema.exec ToySchema.files [] ToySchema.migrated 2 = (db', None) ∧ da_schema db' = [].
Proof.
  destruct (Rollback_undoes ToySchema.exec [] ToySchema.files ToySchema.migrations
    ToySchema.loaded) with (k := 2%nat) (db := ToySchema.migrated) (steps := 2) as (db' & H1 & _ & H2).
  - intros m d d' Hm. repeat (apply elem_of_cons in Hm as [->|Hm]); [..|by apply elem_of_nil in Hm];
      intros [= <-]; vm_compute; reflexivity.
  - repeat constructor; cbn; lia.
  - apply ToySchema.migrated_level.
  - vm_compute. by eexists.
  - exists db'. split; [exact H1|]. apply H2. cbn. lia.
Defined.

(** A migration without a down file is loaded all the same; rolling it back runs nothing and
    forgets that it was applied; a script that cannot be run twice then fails. *)
Theorem missing_down_forgotten :
  let files := Ok [("0001_init.up.sql"%string, Ok "create init"%string)] in
  let exec d s := if decide (s = ""%string) then Ok d
                  else if decide ("init"%string ∈ d) then Err (Errorf "already exists") else ToySchema.exec d s in
  let db1 := (Migrate exec files [] ToySchema.fresh).1 in
  let '(db2, err2) := Rollback exec files [] db1 1 in
  err2 = None ∧ da_schema db2 = ["init"%string] ∧ da_applied db2 = Some ∅ ∧
  is_Some (Migrate exec files [] db2).2.
Proof. vm_compute. split_and!; [done..|by eexists]. Qed.
