(* ===== verification/Api.v ===== *)
(** * The HTTP API: [internal/api]

    The handlers, the ownership and rate-limit middleware and the table of routes, over the
    simulation manager with its database and over Redis.  Which route a request matches is decided
    by the router library; the model starts from the matched route ([Endpoint]) and applies the
    middleware of that route in its order.  JSON decoding of bodies is the class [ApiCodec]; what a
    request draws from outside (identifiers, salt, clock) is its [Env]. *)

From S2P Require Import Prelude Float64 GoValues GoStrings GoText Events World Snapshot Scheduler Runtime.
From S2P Require Import Registry JobQueue Manager Base64 Password Sqlc Repository Auth Redis.
Local Open Scope Z_scope.

(** ** Responses *)

(* internal/api/handlers.go:207-222 statusString *)
Definition statusString (s : SimState) : string :=
  match s with
  | StateRunning => "running"
  | StatePaused => "paused"
  | StateCompleted => "completed"
  | StateFailed => "failed"
  | StateStopped => "stopped"
  | StateIdle => "created"
  end.

(** A turn of the streaming loop: the client is gone, or the timer ticked and the simulation was
    observed (state, tick, steps).  A sent event has the same fields. *)
Inductive Turn := ClientGone | Tick (st : SimState) (tick steps : Z).
Record StreamEvent := mkStreamEvent { se_id : string; se_status : string; se_tick : Z; se_steps : Z }.

Definition terminal (st : SimState) : bool :=
  bool_decide (st = StateCompleted ∨ st = StateFailed ∨ st = StateStopped).

(* internal/api/handlers.go:186-204 Server.simulationStream *)
Fixpoint stream_loop (id : string) (turns : list Turn) : list StreamEvent :=
  match turns with
  | [] | ClientGone :: _ => []
  | Tick st tick steps :: turns' =>
      mkStreamEvent id (statusString st) tick steps :: (if terminal st then [] else stream_loop id turns')
  end.

(** An [*apiError], or any other error. *)
(* internal/api/response.go:12-17 apiError *)
Inductive HandlerError :=
  | apiError (Status : Z) (Code Message : string)
  | plainError (e : error).

Section responses.
Context `{R : GoRuntime}.

(** The values handlers write. *)
Inductive Payload :=
  | PModels (l : list ModelInfo)
  | PModel (i : ModelInfo)
  | PSimulation (i : SimulationInfo)
  | PSimulations (l : list SimulationInfo)
  | PStatus (status : string)
  | PSnapshot (s : Snapshot)
  | PState (s : StateReport)
  | PEvents (l : list Event)
  | PMetrics (m : MetricsReport)
  | PStream (l : list StreamEvent)
  | PUser (u : UserInfo)
  | PPair (p : TokenPair).

(* internal/api/response.go:21-25 writeJSON *)
Definition writeJSON (status : Z) (v : Payload) : Response Payload := mkResponse status [json_header] (BJson v).

Definition write_error_object (status : Z) (code message : string) : Response Payload :=
  mkResponse status [json_header] (BError code message).

(* internal/api/response.go:27-39 writeError *)
Definition writeError (err : HandlerError) : Response Payload :=
  match err with
  | apiError status code message => write_error_object status code message
  | plainError e =>
      if errors_Is e ErrNotFound then write_error_object 404 "not_found" (Error e)
      else if errors_Is e ErrAlreadyRunning || errors_Is e ErrNotRunning then write_error_object 409 "conflict" (Error e)
      else write_error_object 500 "internal" (Error e)
  end.

End responses.

(* internal/api/response.go:41-43 badRequest *)
Definition badRequest (code msg : string) : HandlerError := apiError 400 code msg.

(** What can be read of a body, and whether reading ends in the size error. *)
Definition read_body (body : string) : string * bool :=
  if (2 ^ 20 <? Z.of_nat (String.length body)) then (String.substring 0 (Z.to_nat (2 ^ 20)) body, true) else (body, false).

(** Strict decoding of the first JSON value of a text, for each type of request. *)
Class ApiCodec := {
  json_DecodeCreate : string → bool → result CreateRequest;
  json_DecodeSnapshot : string → bool → result Snapshot;
  json_DecodeCredentials : string → bool → result (string * string);
  json_DecodeRefresh : string → bool → result string;
}.

(* internal/api/response.go:45-51 decodeJSON *)
Definition decodeJSON {A} (decode : string → bool → result A) (r : Request) : result A :=
  let '(text, cut) := read_body (rq_Body r) in decode text cut.

(** What a request draws from outside; for a stream, whether the writer can flush and what the loop
    observes. *)
Record Env := mkEnv {
  ev_newID : string; ev_salt : result (list Z); ev_now : Z; ev_clock : clock; ev_retryAfter : string;
  ev_flusher : bool; ev_turns : list Turn;
}.

(** The routes, after matching. *)
Inductive SimOp :=
  | OpGet | OpDelete | OpStart | OpPause | OpResume | OpStop | OpStep | OpSnapshot | OpRestore | OpReplay
  | OpState | OpEvents | OpMetrics | OpStream.

Inductive Endpoint :=
  | Healthz
  | Register
  | Login
  | Refresh
  | ListModels
  | SyncModels
  | GetModel (id : string)
  | CreateSimulation
  | ListSimulations
  | OnSimulation (id : string) (op : SimOp).

(* internal/api/handlers.go:88-96 Server.owns *)
Definition owns (claims : option Claims) (info : SimulationInfo) : bool :=
  match claims with
  | None => true
  | Some c =>
      if decide (cl_Role c = RoleAdmin) then true
      else match si_OwnerID info with
           | Some owner => bool_decide (owner = cl_UserID c)
           | None => false
           end
  end.

Section server.
Context `{R : GoRuntime} `{K : Checksummer} {M : Type} `{P : Postgres} `{C : RunConfigCodec}.
Context `{J : Jwt} `{A2 : Argon2} {S : Type} `{Rd : RedisServer S} `{Cd : ApiCodec}.
Context (GOMAXPROCS : Z).

Abbreviation Mgr := (Manager (M := M) (St := DB)).
(** The state handlers work on: Redis, and the manager with its database and registry. *)
Abbreviation State := (S * Mgr)%type.
Abbreviation H := (Handler State Payload).

(* internal/api/server.go:25-37 Server *)
Record Server := mkServer {
  sv_tokens : option TokenManager;
  sv_redis : bool;
  sv_rateLimitPerMin : Z;
}.

(* internal/api/server.go:39-45 New *)
Definition NewServer : Server := mkServer None false 60.
(* internal/api/server.go:47-51 Server.SetAuth *)
Definition SetAuth (s : Server) (tokens : TokenManager) : Server :=
  mkServer (Some tokens) (sv_redis s) (sv_rateLimitPerMin s).
(* internal/api/server.go:53-54 Server.SetRedis *)
Definition SetRedis (s : Server) : Server := mkServer (sv_tokens s) true (sv_rateLimitPerMin s).
(* internal/api/server.go:56-57 Server.SetRateLimit *)
Definition SetRateLimit (s : Server) (n : Z) : Server := mkServer (sv_tokens s) (sv_redis s) n.

Variable s : Server.
Variable env : Env.

Definition reply (st : State) (resp : Response Payload) : outcome (State * Response Payload) := Done (st, resp).
Definition not_found : HandlerError := apiError 404 "not_found" "simulation not found".

(** ** Models *)

(* internal/api/handlers.go:19-21 Server.listModels *)
Definition listModels : H := λ st r, reply st (writeJSON 200 (PModels (List_ (mgr_registry st.2)))).

(* internal/registry/registry.go:100-108 Registry.Sync *)
Fixpoint sync_all (db : DB) (infos : list ModelInfo) : DB * option error :=
  match infos with
  | [] => (db, None)
  | info :: infos' =>
      match Store__UpsertModel db info with
      | (db, Some e) => (db, Some e)
      | (db, None) => sync_all db infos'
      end
  end.

(* internal/api/handlers.go:23-29 Server.syncModels *)
Definition syncModels : H := λ st r,
  let '(db, err) := sync_all (mgr_store st.2) (List_ (mgr_registry st.2)) in
  let st := (st.1, set_store st.2 db) in
  match err with
  | Some e => reply st (writeError (plainError e))
  | None => reply st (writeJSON 200 (PModels (List_ (mgr_registry st.2))))
  end.

(* internal/api/handlers.go:31-39 Server.getModel *)
Definition getModel (id : string) : H := λ st r,
  match Registry__Get (mgr_registry st.2) id with
  | None => reply st (writeError (apiError 404 "not_found" ("model not found: " +:+ id)))
  | Some entry => reply st (writeJSON 200 (PModel (en_Info entry)))
  end.

(** ** Simulations *)

Definition with_owner (req : CreateRequest) (owner : string) : CreateRequest :=
  mkReq (cr_ID req) (cr_ModelID req) (cr_ModelVersion req) (cr_Seed req) (cr_Mode req) (cr_MaxTicks req)
    (cr_MaxTime req) (cr_Workers req) (cr_Config req) owner.

(* internal/api/handlers.go:43-58 Server.createSimulation *)
Definition createSimulation : H := λ st r,
  match decodeJSON json_DecodeCreate r with
  | Err e => reply st (writeError (badRequest "invalid_request" (Error e)))
  | Ok req =>
      let req := match FromContext r with Some claims => with_owner req (cl_UserID claims) | None => req end in
      let! (m, res) := Manager__Create GOMAXPROCS st.2 (ev_newID env) req in
      match res with
      | Err e => reply (st.1, m) (writeError (badRequest "create_failed" (Error e)))
      | Ok info => reply (st.1, m) (writeJSON 201 (PSimulation info))
      end
  end.

(* internal/api/handlers.go:60-69 Server.listSimulations *)
Definition listSimulations : H := λ st r,
  let! infos := Manager__List st.2 in
  reply st (writeJSON 200 (PSimulations (filter (λ info, owns (FromContext r) info) infos))).

(* internal/api/handlers.go:71-78 Server.getSimulation *)
Definition getSimulation (id : string) : H := λ st r,
  let! info := Manager__Get st.2 id in
  match info with
  | None => reply st (writeError not_found)
  | Some info => reply st (writeJSON 200 (PSimulation info))
  end.

(* internal/api/handlers.go:80-86 Server.deleteSimulation *)
Definition deleteSimulation (id : string) : H := λ st r,
  let! (m, err) := Manager__Delete st.2 id in
  match err with
  | Some e => reply (st.1, m) (writeError (plainError e))
  | None => reply (st.1, m) (mkResponse 204 [] BEmpty)
  end.

(* internal/api/handlers.go:100-109 Server.action *)
Definition action (f : Mgr → string → outcome (Mgr * option error)) (code : Z) (status : string) (id : string) : H :=
  λ st r,
  let! (m, err) := f st.2 id in
  match err with
  | Some e => reply (st.1, m) (writeError (plainError e))
  | None => reply (st.1, m) (writeJSON code (PStatus status))
  end.

(* internal/api/handlers.go:111-118 Server.snapshotSimulation *)
Definition snapshotSimulation (id : string) : H := λ st r,
  let! (m, res) := Manager__Snapshot st.2 (ev_newID env) id in
  match res with
  | Err e => reply (st.1, m) (writeError (plainError e))
  | Ok snap => reply (st.1, m) (writeJSON 200 (PSnapshot snap))
  end.

(* internal/api/handlers.go:120-131 Server.restoreSimulation *)
Definition restoreSimulation (id : string) : H := λ st r,
  match decodeJSON json_DecodeSnapshot r with
  | Err e => reply st (writeError (badRequest "invalid_request" (Error e)))
  | Ok snap =>
      let! (m, err) := Manager__Restore st.2 id snap in
      match err with
      | Some e => reply (st.1, m) (writeError (badRequest "restore_failed" (Error e)))
      | None => reply (st.1, m) (writeJSON 200 (PStatus "restored"))
      end
  end.

(* internal/api/handlers.go:135-142 Server.simulationState *)
Definition simulationState (id : string) : H := λ st r,
  let! res := Manager__State st.2 id in
  match res with
  | Err e => reply st (writeError (plainError e))
  | Ok rep => reply st (writeJSON 200 (PState rep))
  end.

(* internal/runner/manager.go:463-473 Manager.Simulation *)
Definition Manager__Simulation (m : Mgr) (id : string) : outcome (option (Simulation M)) :=
  match mgr_sims m !! id with
  | None => Done None
  | Some mg => let! sim := deref m (mg_sim mg) in Done (Some sim)
  end.

(* internal/api/handlers.go:144-151 Server.simulationEvents *)
Definition simulationEvents (id : string) : H := λ st r,
  let! sim := Manager__Simulation st.2 id in
  match sim with
  | None => reply st (writeError not_found)
  | Some sim => reply st (writeJSON 200 (PEvents (EventQueue__PeekAll (w_Events (sim_world sim)))))
  end.

(* internal/api/handlers.go:153-160 Server.simulationMetrics *)
Definition simulationMetrics (id : string) : H := λ st r,
  let! res := Manager__Metrics st.2 id in
  match res with
  | Err e => reply st (writeError (plainError e))
  | Ok rep => reply st (writeJSON 200 (PMetrics rep))
  end.

Definition stream_headers : list (string * string) :=
  [("Content-Type", "text/event-stream"); ("Cache-Control", "no-cache"); ("Connection", "keep-alive")]%string.

(** The events sent over the turns of the loop, each as a [data:] line, or an error response. *)
(* internal/api/handlers.go:162-205 Server.simulationStream *)
Definition simulationStream (id : string) : H := λ st r,
  let! sim := Manager__Simulation st.2 id in
  match sim with
  | None => reply st (writeError not_found)
  | Some _ =>
      if ev_flusher env then reply st (mkResponse 200 stream_headers (BJson (PStream (stream_loop id (ev_turns env)))))
      else reply st (writeError (apiError 500 "internal" "streaming unsupported"))
  end.

(** ** Authentication *)

(* internal/api/handlers.go:226-249 Server.register *)
Definition register : H := λ st r,
  match decodeJSON json_DecodeCredentials r with
  | Err e => reply st (writeError (badRequest "invalid_request" (Error e)))
  | Ok (username, password) =>
      if decide (username = ""%string ∨ password = ""%string)
      then reply st (writeError (badRequest "invalid_request" "username and password are required"))
      else if Z.of_nat (String.length password) <? 8
      then reply st (writeError (badRequest "invalid_request" "password must be at least 8 characters"))
      else
        let! (db, res) := Service__Register (mgr_store st.2) (ev_salt env) (ev_newID env) username password in
        let st := (st.1, set_store st.2 db) in
        match res with
        | Err e => reply st (writeError (badRequest "register_failed" (Error e)))
        | Ok u => reply st (writeJSON 201 (PUser u))
        end
  end.

(** [s.auth] and [s.tokens] are set together; without them these two handlers panic. *)
Definition with_tokens {A} (f : TokenManager → outcome A) : outcome A :=
  match sv_tokens s with Some t => f t | None => Panic "nil pointer dereference" end.

(* internal/api/handlers.go:251-266 Server.login *)
Definition login : H := λ st r,
  match decodeJSON json_DecodeCredentials r with
  | Err e => reply st (writeError (badRequest "invalid_request" (Error e)))
  | Ok (username, password) =>
      with_tokens (λ tokens,
        let! res := Service__Login tokens (ev_clock env) (mgr_store st.2) username password in
        match res with
        | Err _ => reply st (writeError (apiError 401 "unauthorized" "invalid credentials"))
        | Ok tp => reply st (writeJSON 200 (PPair tp))
        end)
  end.

(* internal/api/handlers.go:268-282 Server.refresh *)
Definition refresh : H := λ st r,
  match decodeJSON json_DecodeRefresh r with
  | Err e => reply st (writeError (badRequest "invalid_request" (Error e)))
  | Ok token =>
      with_tokens (λ tokens,
        match Service__Refresh tokens (ev_now env) (ev_clock env) token with
        | Err _ => reply st (writeError (apiError 401 "unauthorized" "invalid refresh token"))
        | Ok tp => reply st (writeJSON 200 (PPair tp))
        end)
  end.

(** ** Middleware and routes *)

(* internal/api/server.go:123-135 Server.ownership *)
Definition ownership (id : string) (next : H) : H := λ st r,
  let! info := Manager__Get st.2 id in
  match info with
  | Some info => if owns (FromContext r) info then next st r else reply st (writeError not_found)
  | None => next st r
  end.

(* internal/api/server.go:137-143 Server.rateLimit *)
Definition rateLimit (next : H) : H :=
  if sv_redis s then Middleware (sv_rateLimitPerMin s) (60 * second) None (ev_retryAfter env) next else next.

(** The handler of an operation on a simulation. *)
(* internal/api/server.go:105-118 Server.routes *)
Definition on_simulation (id : string) (op : SimOp) : H :=
  match op with
  | OpGet => getSimulation id
  | OpDelete => deleteSimulation id
  | OpStart => rateLimit (action (λ m i, Manager__Start m i) 202 "started" id)
  | OpPause => action (λ m i, Manager__Pause m i) 200 "paused" id
  | OpResume => action (λ m i, Manager__Resume m i) 200 "resumed" id
  | OpStop => action (λ m i, Manager__Stop m i) 200 "stopped" id
  | OpStep => action (λ m i, Manager__Step m i) 200 "stepped" id
  | OpSnapshot => rateLimit (snapshotSimulation id)
  | OpRestore => rateLimit (restoreSimulation id)
  | OpReplay => rateLimit (action (λ m i, Replay GOMAXPROCS m i) 200 "replayed" id)
  | OpState => rateLimit (simulationState id)
  | OpEvents => simulationEvents id
  | OpMetrics => simulationMetrics id
  | OpStream => simulationStream id
  end.

Definition require_admin (next : H) : H :=
  match sv_tokens s with Some _ => RequireRole RoleAdmin next | None => next end.

(* internal/api/server.go:90-121 Server.routes *)
Definition routes (e : Endpoint) : H :=
  match e with
  | ListModels => listModels
  | SyncModels => require_admin syncModels
  | GetModel id => getModel id
  | CreateSimulation => rateLimit createSimulation
  | ListSimulations => listSimulations
  | OnSimulation id op => ownership id (on_simulation id op)
  | Healthz | Register | Login | Refresh => λ st r, reply st (mkResponse 404 [] BEmpty)
  end.

Definition public (e : Endpoint) : bool :=
  match e with Healthz | Register | Login | Refresh => true | _ => false end.

(* internal/api/server.go:59-88 Server.Router *)
Definition Router (e : Endpoint) : H :=
  match e with
  | Healthz => λ st r, reply st (writeJSON 200 (PStatus "ok"))
  | Register => register
  | Login => login
  | Refresh => refresh
  | _ => match sv_tokens s with
         | Some tokens => RequireAuth tokens (ev_now env) (routes e)
         | None => routes e
         end
  end.

(** ** Authorisation *)

(** What lets a request change the platform's state: a valid access token, and for the routes that
    say so the ADMIN role or the ownership of the simulation. *)
Definition permitted (m : Mgr) (r : Request) (e : Endpoint) : Prop :=
  match sv_tokens s with
  | None => True
  | Some tokens =>
      ∃ c, Parse tokens (ev_now env) (bearer r) "access" = Ok c ∧
        match e with
        | SyncModels => cl_Role c = RoleAdmin
        | OnSimulation id _ => ∃ mg, mgr_sims m !! id = Some mg ∧ owns (Some c) (mg_info mg) = true
        | _ => True
        end
  end.

Lemma owns_status c info status : owns c (with_status info status) = owns c info.
Proof using Type. done. Qed.

(** Rate limiting leaves the manager to the handler behind it. *)
Lemma rateLimit_frame (next : H) rd (m : Mgr) r st' resp :
  (∀ rd st' resp, next (rd, m) r = Done (st', resp) → st'.2 = m) →
  rateLimit next (rd, m) r = Done (st', resp) → st'.2 = m.
Proof using Type.
  intros Hn. unfold rateLimit. destruct (sv_redis s); [|apply Hn]. unfold Middleware.
  destruct (Redis__RateLimit _ _ _ _) as [rd' [[]|]]; [apply Hn| |apply Hn]. by intros [= <- <-].
Qed.

(** Every operation on an unknown simulation leaves the manager as it was. *)
Lemma on_missing_simulation id op rd (m : Mgr) r st' resp :
  mgr_sims m !! id = None → on_simulation id op (rd, m) r = Done (st', resp) → st'.2 = m.
Proof using Type.
  intros Hid. assert (lookup_sim m id = Err ErrNotFound) as Hl by (unfold lookup_sim; by rewrite Hid).
  assert (∀ f, f m id = Done (m, Some ErrNotFound) → ∀ code status rd st' resp,
    action f code status id (rd, m) r = Done (st', resp) → st'.2 = m) as Hact.
  { intros f Hf code status rd' st2 resp2. unfold action. cbn. rewrite Hf. by intros [= <- <-]. }
  destruct op; cbn [on_simulation]; try (apply rateLimit_frame; intros rd0 st0 resp0); try apply Hact;
    unfold getSimulation, deleteSimulation, snapshotSimulation, restoreSimulation, simulationState, simulationEvents,
      simulationMetrics, simulationStream, Manager__Get, Manager__Delete, Manager__Start, Manager__Pause, Manager__Resume, Manager__Stop,
      Manager__Step, Manager__Snapshot, Manager__Restore, Manager__State, Manager__Metrics, Manager__Simulation, Replay,
      control; cbn [fst snd]; rewrite ?Hl, ?Hid; try done; try (by intros [= <- <-]).
  destruct (decodeJSON _ _); cbn; rewrite ?Hl; by intros [= <- <-].
Qed.

(** C26: no change without permission: when a request to a route behind the authentication
    middleware changes the manager, its simulations or its database, then, if authentication is
    enabled, the request carried a valid access token, of an administrator for the synchronisation
    of models, and of an administrator or the owner for an operation on a simulation. *)
Theorem changes_need_permission e rd (m : Mgr) r st' resp :
  public e = false → Router e (rd, m) r = Done (st', resp) → st'.2 ≠ m → permitted m r e.
Proof using Type.
  intros Hpub Hr Hch. unfold permitted. destruct (sv_tokens s) as [tokens|] eqn:Ht; [|done].
  assert (Router e = RequireAuth tokens (ev_now env) (routes e)) as Heq.
  { unfold Router. rewrite Ht. by destruct e. }
  rewrite Heq in Hr. unfold RequireAuth in Hr. destruct (decide _); [by injection Hr as <- <-|].
  destruct (Parse tokens (ev_now env) (bearer r) "access") as [c|] eqn:Hp; [|by injection Hr as <- <-].
  exists c. split; [done|]. destruct e as [| | | | | | | | |id op]; try done.
  - cbn in Hr. unfold require_admin in Hr. rewrite Ht in Hr. unfold RequireRole in Hr. cbn in Hr.
    destruct (decide (cl_Role c ≠ RoleAdmin)) as [|Hn]; [by injection Hr as <- <-|]. by apply dec_stable in Hn.
  - cbn in Hr. unfold ownership, Manager__Get in Hr. cbn [fst snd] in Hr.
    destruct (mgr_sims m !! id) as [mg|] eqn:Hid.
    + exists mg. split; [done|]. inv_bind Hr as info Hi. inv_bind Hi as i Hi'. injection Hi as <-. unfold live_info in Hi'.
      inv_bind Hi' as sim Hs. injection Hi' as <-. rewrite owns_status in Hr.
      change (FromContext (WithClaims r c)) with (Some c) in Hr.
      destruct (owns (Some c) (mg_info mg)); [done|]. by injection Hr as <- <-.
    + cbn [obind] in Hr. by apply on_missing_simulation in Hr.
Qed.

(** C27: simulations of others are hidden: with authentication on, a request of a user who is
    neither administrator nor owner to any of the fourteen routes of a simulation, its stream of
    progress included, is answered "not found" and changes nothing,
    neither the manager nor the rate-limit counters; and the listing a user gets contains no
    simulation of another. *)
Theorem foreign_simulation_hidden tokens c id op rd (m : Mgr) r mg sim :
  sv_tokens s = Some tokens → bearer r ≠ ""%string → Parse tokens (ev_now env) (bearer r) "access" = Ok c →
  cl_Role c ≠ RoleAdmin →
  (mgr_sims m !! id = Some mg → mgr_heap m !! mg_sim mg = Some sim → si_OwnerID (mg_info mg) ≠ Some (cl_UserID c) →
   Router (OnSimulation id op) (rd, m) r
   = Done ((rd, m), mkResponse 404 [json_header] (BError "not_found" "simulation not found"))) ∧
  (∀ st' h infos, Router ListSimulations (rd, m) r = Done (st', mkResponse 200 h (BJson (PSimulations infos))) →
   st' = (rd, m) ∧ Forall (λ info, si_OwnerID info = Some (cl_UserID c)) infos).
Proof using Type.
  intros Ht Hb Hp Hrole.
  assert (∀ e, public e = false → Router e (rd, m) r = routes e (rd, m) (WithClaims r c)) as Heq.
  { intros e He. unfold Router. rewrite Ht. destruct e; try done; unfold RequireAuth; by rewrite decide_False, Hp. }
  assert (∀ info, owns (Some c) info = bool_decide (si_OwnerID info = Some (cl_UserID c))) as Hown.
  { intros info. unfold owns. rewrite decide_False by done. destruct (si_OwnerID info); [|done].
    apply bool_decide_ext. naive_solver. }
  rewrite !Heq by done. split.
  - intros Hid Hsim Howner. cbn. unfold ownership, Manager__Get, live_info, deref. cbn [fst snd].
    rewrite Hid, Hsim. cbn [obind]. change (FromContext (WithClaims r c)) with (Some c).
    rewrite owns_status, Hown, bool_decide_eq_false_2 by done. done.
  - intros st' h infos Hl. cbn in Hl. unfold listSimulations in Hl. inv_bind Hl as l Hl'.
    injection Hl as <- <- <-. split; [done|]. apply Forall_forall. intros info Hin.
    apply list_elem_of_filter in Hin as [Hin _].
    assert (Is_true (owns (Some c) info)) as Ho by exact Hin. rewrite Hown in Ho. by apply bool_decide_unpack in Ho.
Qed.

(** The status of a response. *)
Definition status_of (o : outcome (State * Response Payload)) : option Z :=
  match o with Done (_, resp) => Some (rs_Status resp) | Panic _ => None end.

(** The status codes of the lifecycle routes: on a known simulation, starting answers 202 unless
    it is running, pausing 200 exactly when it is running, resuming 200 exactly when it is paused,
    stopping 200 exactly when it is either, and otherwise the answer is 409; deleting a running or
    paused simulation is refused with 500; on an unknown simulation each answers 404. *)
Theorem lifecycle_status_codes id rd (m : Mgr) r :
  sv_redis s = false →
  let answer op := status_of (on_simulation id op (rd, m) r) in
  (∀ mg sim, mgr_sims m !! id = Some mg → mgr_heap m !! mg_sim mg = Some sim →
     answer OpStart = Some (if decide (sim_state sim = StateRunning) then 409 else 202) ∧
     answer OpPause = Some (if decide (sim_state sim = StateRunning) then 200 else 409) ∧
     answer OpResume = Some (if decide (sim_state sim = StatePaused) then 200 else 409) ∧
     answer OpStop = Some (if decide (sim_state sim = StateRunning ∨ sim_state sim = StatePaused) then 200 else 409) ∧
     (sim_state sim = StateRunning ∨ sim_state sim = StatePaused → answer OpDelete = Some 500)) ∧
  (mgr_sims m !! id = None →
     Forall (λ op, answer op = Some 404) [OpStart; OpPause; OpResume; OpStop; OpStep; OpDelete; OpReplay; OpSnapshot]).
Proof using Type.
  intros Hrd answer. unfold answer, on_simulation, rateLimit. rewrite Hrd.
  unfold action, deleteSimulation, snapshotSimulation, Manager__Start, Manager__Pause, Manager__Resume, Manager__Stop,
    Manager__Step, Manager__Delete, Manager__Snapshot, Replay, control, lookup_sim, deref. cbn [fst snd]. split.
  - intros mg sim Hmg Hsim. rewrite Hmg, Hsim. cbn [obind].
    unfold Simulation__Start, begin, Simulation__Pause, Simulation__Resume, Simulation__Stop.
    split_and!; by repeat case_decide.
  - intros Hid. repeat (apply Forall_cons; split; [cbv beta iota; cbn [fst snd]; rewrite Hid; done|]). constructor.
Qed.
End server.

(** ** The request timeout

    [timeout] answers 503 when the handler has written nothing after thirty seconds; its guard is
    two atomic flags.  The timer's callback and the handler's writes are sequences of atomic steps
    that may interleave. *)
Module Timeout.

(** What goes to the connection: a header, or a part of the body. *)
Inductive Sent := Header (status : Z) | Body (b : string).

(** The flags of the writer, and what has been sent. *)
(* internal/api/server.go:175-180 timeoutWriter *)
Record Writer := mkWriter { timedOut : bool; wrote : bool; sent : list Sent }.

Definition send (w : Writer) (x : Sent) : Writer := mkWriter (timedOut w) (wrote w) (sent w ++ [x]).
Definition set_wrote (w : Writer) : Writer := mkWriter (timedOut w) true (sent w).
Definition set_timedOut (w : Writer) : Writer := mkWriter true (wrote w) (sent w).

Inductive Pc := P0 | P1 | P2 | PEnd.

(** A step of the handler's [WriteHeader], from a program counter. *)
(* internal/api/server.go:182-188 timeoutWriter.WriteHeader *)
Definition WriteHeader_step (status : Z) (pc : Pc) (w : Writer) : Pc * Writer :=
  match pc with
  | P0 => (if timedOut w then PEnd else P1, w)
  | P1 => (P2, set_wrote w)
  | P2 => (PEnd, send w (Header status))
  | PEnd => (PEnd, w)
  end.

(** A step of its [Write], which fails after a timeout. *)
(* internal/api/server.go:190-196 timeoutWriter.Write *)
Definition Write_step (b : string) (pc : Pc) (w : Writer) : Pc * Writer :=
  match pc with
  | P0 => (if timedOut w then PEnd else P1, w)
  | P1 => (P2, set_wrote w)
  | P2 => (PEnd, send w (Body b))
  | PEnd => (PEnd, w)
  end.

(** The body of the answer, with [~] for the double quote. *)
Fixpoint quoted (s : string) : string :=
  match s with
  | EmptyString => EmptyString
  | String c s => String (if Ascii.eqb c (Ascii.ascii_of_nat 126) then Ascii.ascii_of_nat 34 else c) (quoted s)
  end.
Definition timeout_body : string := quoted "{~error~:{~code~:~timeout~,~message~:~request timed out~}}".

(** A step of the timer's callback; header and body go out together. *)
(* internal/api/server.go:145-173 Server.timeout *)
Definition timeout_step (pc : Pc) (w : Writer) : Pc * Writer :=
  match pc with
  | P0 => (if wrote w then PEnd else P1, w)
  | P1 => (P2, set_timedOut w)
  | P2 => (PEnd, send (send w (Header 503)) (Body timeout_body))
  | PEnd => (PEnd, w)
  end.

(** The handler makes its calls one after the other: [calls], the first of which is at [pc]. *)
Record Handler := mkHandler { calls : list Sent; pc : Pc }.

Definition handler_step (h : Handler) (w : Writer) : Handler * Writer :=
  match calls h with
  | [] => (h, w)
  | c :: rest =>
      let '(pc', w) := match c with Header status => WriteHeader_step status (pc h) w | Body b => Write_step b (pc h) w end in
      (match pc' with PEnd => mkHandler rest P0 | _ => mkHandler (c :: rest) pc' end, w)
  end.

(** A schedule: [true] is a step of the handler, [false] one of the timer. *)
Fixpoint run (sched : list bool) (h : Handler) (t : Pc) (w : Writer) : Handler * Pc * Writer :=
  match sched with
  | [] => (h, t, w)
  | true :: sched' => let '(h, w) := handler_step h w in run sched' h t w
  | false :: sched' => let '(t, w) := timeout_step t w in run sched' h t w
  end.

Definition fresh : Writer := mkWriter false false [].

(** Once the timeout has set its flag while the handler is between two calls, nothing of the
    handler is sent any more, in any schedule: what is still sent is the answer of the timeout. *)
Lemma timed_out_silences sched calls w :
  timedOut w = true →
  sent (run sched (mkHandler calls P0) P2 w).2 = sent w ∨
  sent (run sched (mkHandler calls P0) P2 w).2 = sent w ++ [Header 503; Body timeout_body].
Proof.
  assert (∀ sched calls w, timedOut w = true → sent (run sched (mkHandler calls P0) PEnd w).2 = sent w) as Hend.
  { clear. intros sched. induction sched as [|[] sched IH]; intros calls w Hw; [done| |by apply IH]. cbn.
    destruct calls as [|[status|b] rest]; cbn; rewrite ?Hw; by apply IH. }
  revert calls w. induction sched as [|[] sched IH]; intros calls w Hw; [by left| |].
  - cbn. destruct calls as [|[status|b] rest]; cbn; rewrite ?Hw; by apply IH.
  - right. cbn. rewrite Hend by done. cbn. by rewrite <- (assoc_L (++)).
Qed.

(** Once the handler has set its flag before the timeout checks it, the timeout sends nothing in
    any schedule: everything sent from then on is a call of the handler. *)
Lemma wrote_disarms sched h w x :
  wrote w = true → timedOut w = false → x ∈ sent (run sched h P0 w).2 → x ∈ sent w ∨ x ∈ calls h.
Proof.
  assert (∀ sched h t w, wrote w = true → timedOut w = false → t = P0 ∨ t = PEnd →
    x ∈ sent (run sched h t w).2 → x ∈ sent w ∨ x ∈ calls h) as Hall; [|intros; apply (Hall sched h P0 w); auto].
  clear. intros sched. induction sched as [|[] sched IH]; intros h t w Hw Ht Hpc; cbn; [by left| |].
  - unfold handler_step. destruct h as [[|c rest] pc0]; cbn; [by apply IH|]. rewrite !elem_of_cons.
    destruct c as [status|b], pc0; cbn; rewrite ?Ht; intros Hx; apply IH in Hx; try done; cbn in Hx;
      rewrite ?elem_of_app, ?list_elem_of_singleton, ?elem_of_cons in Hx; tauto.
  - destruct Hpc as [->| ->]; cbn; rewrite ?Hw; apply IH; auto.
Qed.

(** When one of the two runs to its end before the other starts, one answer is sent: the
    handler's, or the timeout's. *)
Theorem serial_timeout_single status b :
  let h := mkHandler [Header status; Body b] P0 in
  sent (run [true; true; true; true; true; true; false; false; false] h P0 fresh).2 = [Header status; Body b] ∧
  sent (run [false; false; false; true; true] h P0 fresh).2 = [Header 503; Body timeout_body].
Proof. done. Qed.

(** But check and set are separate steps: both may pass their check before either sets its flag,
    and then two headers are written. *)
Theorem interleaved_timeout_double status b :
  sent (run [true; false; true; false; true; false; true] (mkHandler [Header status; Body b] P0) P0 fresh).2
    = [Header status; Header 503; Body timeout_body].
Proof. done. Qed.
End Timeout.

(** ** A concrete server *)

Module ToyServer.
#[global] Instance codec : ApiCodec := {
  json_DecodeCreate _ _ := Ok ToyManager.request;
  json_DecodeSnapshot _ _ := Err (Errorf "EOF");
  json_DecodeCredentials body _ := Ok (body, "correct horse"%string);
  json_DecodeRefresh body _ := Ok body;
}.

Definition env : Env := mkEnv "n1" (Ok [1; 2; 255]) 7 (λ n, Z.of_nat n) "" true [Tick StateRunning 3 3; Tick StateCompleted 5 5; Tick StateCompleted 5 5].
Definition server : Server := SetAuth NewServer ToyJwt.manager.

(** The manager of [ToyPostgres] has one simulation, of alice. *)
Definition state : ToyRedis.State * Manager (R := Toy.runtime) (M := nat) (St := DB) :=
  (ToyRedis.mkState ∅ 0, ToyPostgres.m1).

Definition token (user : string) : string :=
  match IssueAccess ToyJwt.manager 5 6 user RoleUser with Ok t => t | Err _ => ""%string end.
Definition request (user : string) : Request :=
  mkRequest "POST" "" ("Bearer " +:+ token user) "192.0.2.1:1234" "" None.
Definition claims (user : string) : Claims := issued_claims user RoleUser (tm_accessTTL ToyJwt.manager) 5 6.

Definition started := Router (S := ToyRedis.State) 4 server env (OnSimulation "s1" OpStart) state (request "alice").
Definition state' := match started with Done (st, _) => st | Panic _ => state end.
Definition response := match started with Done (_, resp) => resp | Panic _ => mkResponse 0 [] BEmpty end.
End ToyServer.

Lemma changes_need_permission_witness :
  mgr_watchers ToyServer.state'.2 ≠ mgr_watchers ToyServer.state.2 ∧
  permitted ToyServer.server ToyServer.env ToyServer.state.2 (ToyServer.request "alice") (OnSimulation "s1" OpStart).
Proof.
  assert (mgr_watchers ToyServer.state'.2 ≠ mgr_watchers ToyServer.state.2) as Hch by (vm_compute; done).
  split; [exact Hch|].
  apply (changes_need_permission 4 ToyServer.server ToyServer.env (OnSimulation "s1" OpStart) (ToyRedis.mkState ∅ 0)
    ToyPostgres.m1 (ToyServer.request "alice") ToyServer.state' ToyServer.response).
  - reflexivity.
  - vm_compute. reflexivity.
  - intros Heq. apply Hch. by rewrite Heq.
Defined.

Lemma foreign_simulation_hidden_witness :
  Router (S := ToyRedis.State) 4 ToyServer.server ToyServer.env (OnSimulation "s1" OpStream) ToyServer.state
    (ToyServer.request "bob")
  = Done (ToyServer.state, mkResponse 404 [json_header] (BError "not_found" "simulation not found")).
Proof.
  destruct (mgr_heap ToyPostgres.m1 !! mg_sim ToyPostgres.entry) as [sim|] eqn:Es; [|vm_compute in Es; done].
  apply (foreign_simulation_hidden 4 ToyServer.server ToyServer.env ToyJwt.manager (ToyServer.claims "bob") "s1" OpStream
    (ToyRedis.mkState ∅ 0) ToyPostgres.m1 (ToyServer.request "bob") ToyPostgres.entry sim).
  - reflexivity.
  - vm_compute. done.
  - vm_compute. reflexivity.
  - vm_compute. done.
  - vm_compute. reflexivity.
  - exact Es.
  - vm_compute. done.
Defined.

Lemma lifecycle_status_codes_witness :
  status_of (on_simulation 4 ToyServer.server ToyServer.env "s1" OpPause ToyServer.state (ToyServer.request "alice")) = Some 409 ∧
  status_of (on_simulation 4 ToyServer.server ToyServer.env "s2" OpPause ToyServer.state (ToyServer.request "alice")) = Some 404.
Proof.
  destruct (mgr_heap ToyPostgres.m1 !! mg_sim ToyPostgres.entry) as [sim|] eqn:Es; [|vm_compute in Es; done].
  assert (sim_state sim = StateIdle) as Hi by (vm_compute in Es; injection Es as <-; done).
  split.
  - pose proof (lifecycle_status_codes 4 ToyServer.server ToyServer.env "s1" (ToyRedis.mkState ∅ 0) ToyPostgres.m1
      (ToyServer.request "alice") eq_refl) as [H _].
    destruct (H ToyPostgres.entry sim) as (_ & Hp & _); [vm_compute; reflexivity|exact Es|].
    rewrite Hi in Hp. exact Hp.
  - pose proof (lifecycle_status_codes 4 ToyServer.server ToyServer.env "s2" (ToyRedis.mkState ∅ 0) ToyPostgres.m1
      (ToyServer.request "alice") eq_refl) as [_ H].
    specialize (H ltac:(vm_compute; reflexivity)). apply Forall_cons in H as [_ H]. by apply Forall_cons in H as [H _].
Defined.

(** A simulation of someone else and one that does not exist are answered alike by some routes, but
    not by all: the error message, or even the status, tells them apart. *)
Definition answer_to (user id : string) (op : SimOp) : option (Response Payload) :=
  match Router (S := ToyRedis.State) 4 ToyServer.server ToyServer.env (OnSimulation id op) ToyServer.state (ToyServer.request user) with
  | Done (_, resp) => Some resp
  | Panic _ => None
  end.

Theorem foreign_and_missing_distinguishable :
  answer_to "bob" "s1" OpGet = answer_to "bob" "s9" OpGet ∧
  answer_to "bob" "s1" OpStop ≠ answer_to "bob" "s9" OpStop ∧
  rs_Status <$> answer_to "bob" "s1" OpRestore = Some 404 ∧ rs_Status <$> answer_to "bob" "s9" OpRestore = Some 400.
Proof. vm_compute. split_and!; done. Qed.
