(* ===== verification/Cli.v ===== *)
(** * The command-line client: [cmd/cli/main.go]

    The commands of [sim], from the arguments of the process to its output and exit code.  The
    network is an argument, a function from requests to responses; the files and the encoding of
    the creation request are arguments too.  Flag parsing and number syntax are those of the
    standard library's [flag] and [strconv].  [net/url] is the class [NetURL], with what it promises
    of simple URLs in [UrlLaws]: a URL that it refuses, one without a host and one of a foreign scheme
    are never sent.  The route table of the server ([internal/api/server.go]) is matched against the
    paths the client sends. *)

From Stdlib Require Import Ascii.
From S2P Require Import Prelude Float64 GoValues GoStrings GoText GoFlag Events World Snapshot Scheduler Runtime.
From S2P Require Import Registry JobQueue Manager Base64 Password Sqlc Repository Auth Redis Api.
Local Open Scope Z_scope.

(** ** Requests and responses *)

(** A parsed URL: the scheme, the encoded user information if there is any, the host with its port,
    and the path as the router of a server sees it. *)
Record URL := mkURL { u_Scheme : string; u_User : option string; u_Host : string; u_Path : string }.

Class NetURL := url_Parse : string → result URL.

Record HttpRequest := mkHttp { hr_Method : string; hr_URL : URL; hr_Body : option string }.
Record HttpResponse := mkHttpResp { hp_StatusCode : Z; hp_Status : string; hp_Body : result string }.

(** A command: the requests it sends, what it prints, and its error. *)
Record Run := mkRun { rn_requests : list HttpRequest; rn_stdout : list string; rn_err : option string }.

Definition refuse (msg : string) : Run := mkRun [] [] (Some msg).

(** The end of the process. *)
Record Exit := mkExit { ex_requests : list HttpRequest; ex_stdout : list string; ex_stderr : list string; ex_code : Z }.

(** The value of the [create] flags, or what the process exits with. *)
Record Flags := mkFlags { fl_model : string; fl_seed : Z; fl_n : Z }.

Section cli.
Context `{Nu : NetURL}.
Context (net : HttpRequest → result HttpResponse).
Context (readFile : string → result string).
(** [json.Marshal] of the creation request: the model, the seed and the configuration, which has
    the key [n] or is empty. *)
Context (marshalCreate : string → Z → option Z → string).

(* cmd/cli/main.go:196-206 printResponse *)
Definition printResponse (req : HttpRequest) (resp : HttpResponse) : Run :=
  match hp_Body resp with
  | Err e => mkRun [req] [] (Some (Error e))
  | Ok b => if 400 <=? hp_StatusCode resp then mkRun [req] [] (Some (hp_Status resp +:+ ": " +:+ b))
            else mkRun [req] [b] None
  end.

(** [http.Client.Do]: a URL that is not of a scheme of its own, or has no host, is refused. *)
Definition unsupported (u : URL) : option error :=
  if bool_decide (u_Scheme u ∈ ["http"; "https"]%string) then
    if bool_decide (u_Host u = ""%string) then Some (Errorf "http: no Host in request URL") else None
  else Some (Errorf "unsupported protocol scheme").

Definition Do (req : HttpRequest) : Run :=
  match unsupported (hr_URL req) with
  | Some e => refuse (Error (Wrapped (hr_Method req) e))
  | None =>
      match net req with
      | Err e => mkRun [req] [] (Some (Error e))
      | Ok resp => printResponse req resp
      end
  end.

(** [http.NewRequest], then [Do]. *)
Definition send (method url : string) (body : option string) : Run :=
  match url_Parse url with
  | Err e => refuse (Error e)
  | Ok u => Do (mkHttp method u body)
  end.

(* cmd/cli/main.go:167-174 getAndPrint *)
Definition getAndPrint (url : string) : Run := send "GET" url None.

(* cmd/cli/main.go:176-194 postAndPrint *)
Definition postAndPrint (url : string) (body : option string) : Run := send "POST" url body.

(* cmd/cli/main.go:160-165 requireID *)
Definition requireID (args : list string) (cmd : string) : string + string :=
  match args with
  | [] => inr (cmd +:+ " requires a simulation id")
  | id :: _ => inl id
  end.

(* cmd/cli/main.go:89-91 doModels *)
Definition doModels (base : string) (args : list string) : Run := getAndPrint (base +:+ "/api/v1/models").

(* cmd/cli/main.go:93-98 doModel *)
Definition doModel (base : string) (args : list string) : Run :=
  match args with
  | [] => refuse "model requires a model id"
  | id :: _ => getAndPrint (base +:+ "/api/v1/models/" +:+ id)
  end.

Definition simulation_url (base id sub : string) : string := base +:+ "/api/v1/simulations/" +:+ id +:+ "/" +:+ sub.

(* cmd/cli/main.go:100-113 doRestore *)
Definition doRestore (base : string) (args : list string) : Run :=
  match requireID args "restore" with
  | inr msg => refuse msg
  | inl id =>
      match args with
      | _ :: file :: _ =>
          match readFile file with
          | Err e => refuse (Error e)
          | Ok data => postAndPrint (simulation_url base id "restore") (Some data)
          end
      | _ => refuse "restore requires a snapshot file"
      end
  end.

(* cmd/cli/main.go:136-142 doAction *)
Definition doAction (base : string) (args : list string) (action : string) : Run :=
  match args with
  | [] => refuse (action +:+ " requires a simulation id")
  | id :: _ => postAndPrint (simulation_url base id action) None
  end.

(* cmd/cli/main.go:144-150 doGet *)
Definition doGet (base : string) (args : list string) (sub : string) : Run :=
  match requireID args sub with
  | inr msg => refuse msg
  | inl id => getAndPrint (simulation_url base id sub)
  end.

(* cmd/cli/main.go:152-158 doSnapshot *)
Definition doSnapshot (base : string) (args : list string) : Run :=
  match requireID args "snapshot" with
  | inr msg => refuse msg
  | inl id => postAndPrint (simulation_url base id "snapshot") None
  end.

(** The value of a flag of [create]; [None] is a malformed number. *)
Definition set_flag (f : Flags) (name value : string) : option Flags :=
  if decide (name = "model"%string) then Some (mkFlags value (fl_seed f) (fl_n f))
  else if decide (name = "seed"%string) then
    match ParseUint0 value with Some v => Some (mkFlags (fl_model f) v (fl_n f)) | None => None end
  else match ParseInt0 value with Some v => Some (mkFlags (fl_model f) (fl_seed f) v) | None => None end.

Definition create_flags : list string := ["model"; "seed"; "n"]%string.

(* cmd/cli/main.go:115-134 doCreate *)
Definition doCreate (base : string) (args : list string) : Run + Z :=
  match parse_flags create_flags set_flag (mkFlags "" 0 0) args with
  | inr code => inr code
  | inl f =>
      inl (if decide (fl_model f = ""%string) then refuse "--model is required"
           else postAndPrint (base +:+ "/api/v1/simulations")
                  (Some (marshalCreate (fl_model f) (fl_seed f) (if 0 <? fl_n f then Some (fl_n f) else None))))
  end.

(* cmd/cli/main.go:68-87 usage *)
Definition usage : string :=
"usage: sim <command> [args]

commands:
  models                     list registered models
  model <id>                 inspect a model
  create --model <id> [--seed n] [--n n]   create a simulation
  start   <id>               start a simulation
  pause   <id>               pause a simulation
  resume  <id>               resume a simulation
  stop    <id>               stop a simulation
  step    <id>               advance one step
  status  <id>               show simulation state
  metrics <id>               show simulation metrics
  snapshot <id>              capture a snapshot
  restore  <id> <file>       restore a snapshot from a JSON file
  replay  <id>               replay a simulation from seed

env: SIM_URL (default http://127.0.0.1:8080)".

(** The end of a command: its output, and its error on the standard error output. *)
Definition finish (r : Run) : Exit :=
  match rn_err r with
  | Some msg => mkExit (rn_requests r) (rn_stdout r) ["error: " +:+ msg] 1
  | None => mkExit (rn_requests r) (rn_stdout r) [] 0
  end.

Definition base_url (SIM_URL : string) : string := if decide (SIM_URL = ""%string) then "http://127.0.0.1:8080" else SIM_URL.

(** The command that a name stands for; [None] is an unknown one, and a code an exit at once. *)
Definition dispatch (base cmd : string) (args : list string) : option (Run + Z) :=
  if bool_decide (cmd = "models"%string) then Some (inl (doModels base args))
  else if bool_decide (cmd = "create"%string) then Some (doCreate base args)
  else if bool_decide (cmd ∈ ["start"; "pause"; "resume"; "stop"; "step"; "replay"]%string) then Some (inl (doAction base args cmd))
  else if bool_decide (cmd = "status"%string) then Some (inl (doGet base args "state"))
  else if bool_decide (cmd = "metrics"%string) then Some (inl (doGet base args "metrics"))
  else if bool_decide (cmd = "snapshot"%string) then Some (inl (doSnapshot base args))
  else if bool_decide (cmd = "restore"%string) then Some (inl (doRestore base args))
  else if bool_decide (cmd = "model"%string) then Some (inl (doModel base args))
  else None.

(** [argv] is [os.Args] without the program's name. *)
(* cmd/cli/main.go:14-66 main *)
Definition main (SIM_URL : string) (argv : list string) : Exit :=
  match argv with
  | [] => mkExit [] [] [usage] 2
  | cmd :: args =>
      match dispatch (base_url SIM_URL) cmd args with
      | Some (inl r) => finish r
      | Some (inr code) => mkExit [] [] [] code
      | None =>
          if bool_decide (cmd ∈ ["help"; "-h"; "--help"]%string) then mkExit [] [] [usage] 0
          else mkExit [] [] ["unknown command"%string; usage] 2
      end
  end.
End cli.

(** ** The routes of the server *)

(** The endpoint a simulation's path and method stand for. *)
Definition simulation_route (method sub : string) : option SimOp :=
  if bool_decide (method = "POST"%string) then
    (list_to_map [("start", OpStart); ("pause", OpPause); ("resume", OpResume); ("stop", OpStop); ("step", OpStep);
                  ("snapshot", OpSnapshot); ("restore", OpRestore); ("replay", OpReplay)]%string : gmap string SimOp) !! sub
  else if bool_decide (method = "GET"%string) then
    (list_to_map [("state", OpState); ("events", OpEvents); ("metrics", OpMetrics); ("stream", OpStream)]%string : gmap string SimOp) !! sub
  else None.

Definition by_method (method : string) (get post delete : option Endpoint) : option Endpoint :=
  if bool_decide (method = "GET"%string) then get
  else if bool_decide (method = "POST"%string) then post
  else if bool_decide (method = "DELETE"%string) then delete else None.

(** The route table, by the segments of the path: a parameter matches one segment that is not
    empty, and the root of a mounted router answers with and without a final slash.  The metrics page
    is not in it. *)
(* internal/api/server.go:67-121 Server.routes *)
Definition endpoint_of (method path : string) : option Endpoint :=
  match split_on "/" path with
  | [""; "healthz"] => by_method method (Some Healthz) None None
  | "" :: "api" :: "v1" :: rest =>
      match rest with
      | ["auth"; "register"] => by_method method None (Some Register) None
      | ["auth"; "login"] => by_method method None (Some Login) None
      | ["auth"; "refresh"] => by_method method None (Some Refresh) None
      | ["models"] | ["models"; ""] => by_method method (Some ListModels) (Some SyncModels) None
      | ["models"; id] => by_method method (Some (GetModel id)) None None
      | ["simulations"] | ["simulations"; ""] => by_method method (Some ListSimulations) (Some CreateSimulation) None
      | ["simulations"; ""; _] => None
      | ["simulations"; id] | ["simulations"; id; ""] =>
          by_method method (Some (OnSimulation id OpGet)) None (Some (OnSimulation id OpDelete))
      | ["simulations"; id; sub] => OnSimulation id <$> simulation_route method sub
      | _ => None
      end
  | _ => None
  end%string.

(** ** Simple URLs *)

(** A character that neither ends nor changes the path of a URL: none of [?], [#] and [%], and no
    control character. *)
Definition path_char (c : ascii) : bool :=
  negb (Ascii.eqb c "?" || Ascii.eqb c "#" || Ascii.eqb c "%") && (31 <? N_of_ascii c)%N && negb (N_of_ascii c =? 127)%N.

Definition host_char (c : ascii) : bool :=
  let n := N_of_ascii c in
  ((48 <=? n) && (n <=? 57) || (65 <=? n) && (n <=? 90) || (97 <=? n) && (n <=? 122) || (n =? 45) || (n =? 46))%N.

Definition port_char (c : ascii) : bool := let n := N_of_ascii c in ((48 <=? n) && (n <=? 57))%N.

(** An identifier that is a path segment of its own. *)
Definition plain (id : string) : bool :=
  negb (bool_decide (id = ""%string)) && every path_char id && negb (occurs "/" id).

(** A name of letters, digits, dashes and dots, with or without a port. *)
Definition plain_host (host : string) : bool :=
  let '(name, port) := match GoText.Cut ":" host with Some (name, port) => (name, port) | None => (host, ""%string) end in
  negb (bool_decide (name = ""%string)) && every host_char name && every port_char port.

(** A base of [SIM_URL] that is a scheme and a host, and nothing more: no path, and no final slash. *)
Definition plain_base (base : string) : bool :=
  match strip_prefix "http://" base, strip_prefix "https://" base with
  | Some host, _ => plain_host host
  | None, Some host => plain_host host
  | None, None => false
  end.

(** What [net/url] promises of such URLs; [parse_below] is about a path that goes on with any text,
    which a query or a fragment may cut short. *)
Class UrlLaws (Nu : NetURL) := {
  parse_plain scheme host path :
    scheme ∈ ["http"; "https"]%string → plain_host host = true → every path_char path = true →
    url_Parse (scheme +:+ "://" +:+ host +:+ "/" +:+ path) = Ok (mkURL scheme None host ("/" +:+ path));
  parse_below scheme host path rest u :
    scheme ∈ ["http"; "https"]%string → plain_host host = true → every path_char path = true →
    url_Parse (scheme +:+ "://" +:+ host +:+ "/" +:+ path +:+ "/" +:+ rest) = Ok u →
    ∃ rest', u_Path u = "/" +:+ path +:+ "/" +:+ rest';
}.

(** Where the server that receives a request routes it. *)
Definition routed (req : HttpRequest) : option Endpoint := endpoint_of (hr_Method req) (u_Path (hr_URL req)).

(** A request goes to the server of the base. *)
Definition goes_to (base : string) (req : HttpRequest) : Prop :=
  base = u_Scheme (hr_URL req) +:+ "://" +:+ u_Host (hr_URL req).

(** The commands on a simulation and the operations they stand for. *)
Definition operations : list (string * SimOp) :=
  [("start", OpStart); ("pause", OpPause); ("resume", OpResume); ("stop", OpStop); ("step", OpStep); ("replay", OpReplay);
   ("status", OpState); ("metrics", OpMetrics); ("snapshot", OpSnapshot)]%string.

Lemma split_segment a b : occurs "/" a = false → split_on "/" (a +:+ "/" +:+ b) = a :: split_on "/" b.
Proof. apply split_on_sep. Qed.

Lemma plain_segment id : plain id = true → id ≠ ""%string ∧ occurs "/" id = false.
Proof.
  unfold plain. intros [[H1%negb_true_iff%bool_decide_eq_false _]%andb_true_iff H2%negb_true_iff]%andb_true_iff. done.
Qed.

Lemma plain_chars id : plain id = true → every path_char id = true.
Proof. unfold plain. by intros [[_ H]%andb_true_iff _]%andb_true_iff. Qed.

Lemma plain_base_parts base : plain_base base = true →
  ∃ scheme host, scheme ∈ ["http"; "https"]%string ∧ plain_host host = true ∧ base = scheme +:+ "://" +:+ host.
Proof.
  unfold plain_base. destruct (strip_prefix "http://" base) as [host|] eqn:E1.
  - intros Hh. exists "http"%string, host. apply strip_prefix_Some in E1. split_and!; [by left|done|done].
  - destruct (strip_prefix "https://" base) as [host|] eqn:E2; [|done]. intros Hh. exists "https"%string, host.
    apply strip_prefix_Some in E2. split_and!; [by right; left|done|done].
Qed.

Lemma plain_host_nonempty host : plain_host host = true → host ≠ ""%string.
Proof. intros H ->. done. Qed.

Lemma simulation_segments id sub : plain id = true → occurs "/" sub = false →
  split_on "/" ("/api/v1/simulations/" +:+ id +:+ "/" +:+ sub) = [""; "api"; "v1"; "simulations"; id; sub]%string.
Proof.
  intros [_ Hid]%plain_segment Hs.
  change (split_on "/" ("/api/v1/simulations/" +:+ id +:+ "/" +:+ sub))
    with ("" :: split_on "/" ("api" +:+ "/" +:+ "v1" +:+ "/" +:+ "simulations" +:+ "/" +:+ id +:+ "/" +:+ sub))%string.
  rewrite !split_segment by done. by rewrite split_on_none.
Qed.

Lemma models_segments id : plain id = true → split_on "/" ("/api/v1/models/" +:+ id) = [""; "api"; "v1"; "models"; id]%string.
Proof.
  intros [_ Hid]%plain_segment.
  change (split_on "/" ("/api/v1/models/" +:+ id)) with ("" :: split_on "/" ("api" +:+ "/" +:+ "v1" +:+ "/" +:+ "models" +:+ "/" +:+ id))%string.
  rewrite !split_segment by done. by rewrite split_on_none.
Qed.

Section properties.
Context `{Ul : UrlLaws}.
Context (net : HttpRequest → result HttpResponse) (readFile : string → result string) (marshalCreate : string → Z → option Z → string).
Abbreviation sim := (main net readFile marshalCreate).

(** The process sent one request and reported its response. *)
Definition reports (e : Exit) (req : HttpRequest) : Prop :=
  ex_requests e = [req] ∧
  match net req with
  | Ok (mkHttpResp code status (Ok body)) =>
      if 400 <=? code then ex_code e = 1 ∧ ex_stdout e = [] ∧ ex_stderr e = ["error: " +:+ status +:+ ": " +:+ body]
      else ex_code e = 0 ∧ ex_stdout e = [body] ∧ ex_stderr e = []
  | _ => ex_code e = 1 ∧ ex_stdout e = []
  end.

Lemma Do_reports req : unsupported (hr_URL req) = None → reports (finish (Do net req)) req.
Proof using Type.
  intros Hu. unfold reports, Do. rewrite Hu. destruct (net req) as [[code status [body|e]]|e]; [|done..]. unfold printResponse.
  cbn [hp_Body hp_StatusCode hp_Status]. by destruct (400 <=? code).
Qed.

(** A request below a plain base is sent to the server of the base, with its path. *)
Lemma send_plain base method path body : plain_base base = true → every path_char path = true →
  ∃ u, send net method (base +:+ "/" +:+ path) body = Do net (mkHttp method u body) ∧ unsupported u = None ∧
    goes_to base (mkHttp method u body) ∧ u_Path u = "/" +:+ path.
Proof using Ul.
  intros (scheme & host & Hs & Hh & ->)%plain_base_parts Hp. unfold send.
  rewrite <- !app_assoc_string, parse_plain by done. eexists. split; [done|]. unfold unsupported. cbn [u_Scheme u_Host].
  rewrite bool_decide_eq_true_2, bool_decide_eq_false_2 by (done || by apply plain_host_nonempty). done.
Qed.

Lemma send_reports base method path body e : plain_base base = true → every path_char path = true →
  endpoint_of method ("/" +:+ path) = Some e →
  ∃ req, reports (finish (send net method (base +:+ "/" +:+ path) body)) req ∧ goes_to base req ∧ routed req = Some e ∧
    hr_Body req = body.
Proof using Ul.
  intros Hb Hp He. destruct (send_plain base method path body Hb Hp) as (u & -> & Hu & Hg & Hpath).
  eexists. split; [by apply Do_reports|]. unfold routed. cbn. by rewrite Hpath.
Qed.

(** The path of a simulation command. *)
Lemma simulation_path method id sub op :
  plain id = true → occurs "/" sub = false → sub ≠ ""%string → simulation_route method sub = Some op →
  endpoint_of method ("/" +:+ "api/v1/simulations/" +:+ id +:+ "/" +:+ sub) = Some (OnSimulation id op).
Proof using Type.
  intros Hid Hs Hne Hop. unfold endpoint_of.
  change ("/" +:+ "api/v1/simulations/" +:+ id +:+ "/" +:+ sub) with ("/api/v1/simulations/" +:+ id +:+ "/" +:+ sub).
  rewrite simulation_segments by done.
  apply plain_segment in Hid as [Hid _]. destruct id as [|c id]; [done|]. destruct sub as [|c' sub]; [done|]. by rewrite Hop.
Qed.

Lemma simulation_reports base method id sub op body :
  plain_base base = true → plain id = true → every path_char sub = true → occurs "/" sub = false → sub ≠ ""%string →
  simulation_route method sub = Some op →
  ∃ req, reports (finish (send net method (simulation_url base id sub) body)) req ∧ goes_to base req ∧
    routed req = Some (OnSimulation id op) ∧ hr_Body req = body.
Proof using Ul.
  intros Hb Hid Hc Hs Hne Hop. apply (send_reports base method ("api/v1/simulations/" +:+ id +:+ "/" +:+ sub)); [done| |].
  - rewrite !every_app, (plain_chars _ Hid), Hc. done.
  - by apply simulation_path.
Qed.

(** What a command on a simulation sends. *)
Lemma operation_sends base cmd op id rest : (cmd, op) ∈ operations →
  ∃ method sub, dispatch net readFile marshalCreate base cmd (id :: rest) = Some (inl (send net method (simulation_url base id sub) None)) ∧
    every path_char sub = true ∧ occurs "/" sub = false ∧ sub ≠ ""%string ∧ simulation_route method sub = Some op.
Proof using Type.
  intros Hin. unfold operations in Hin.
  repeat (apply elem_of_cons in Hin as [[= -> ->]|Hin]; [eexists _, _; split; [reflexivity|done]|]). by apply elem_of_nil in Hin.
Qed.

(** C39: the client drives the API: with [SIM_URL] unset or a scheme and a host without a path, for
    every identifier that is a path segment of its own (not empty; no slash, question mark, hash, percent
    sign or control character), every command on a simulation sends exactly one request, to that
    server, which routes it to the operation the command stands for; listing and inspecting models,
    creating with well-formed flags that name a model and restoring from a readable file likewise reach
    their endpoints, with the encoded request and the file as the body.  The response is printed and the
    exit code is 0 when its status is below 400; otherwise its status and body go to the error output
    and the exit code is 1, as it is when the network or the body of the response fails. *)
Theorem cli_drives_api SIM_URL id rest :
  plain_base (base_url SIM_URL) = true → plain id = true →
  let base := base_url SIM_URL in
  (∀ cmd op, (cmd, op) ∈ operations →
     ∃ req, reports (sim SIM_URL (cmd :: id :: rest)) req ∧ goes_to base req ∧
       routed req = Some (OnSimulation id op) ∧ hr_Body req = None) ∧
  (∃ req, reports (sim SIM_URL ("models"%string :: rest)) req ∧ goes_to base req ∧
     routed req = Some ListModels ∧ hr_Body req = None) ∧
  (∃ req, reports (sim SIM_URL ("model"%string :: id :: rest)) req ∧ goes_to base req ∧
     routed req = Some (GetModel id) ∧ hr_Body req = None) ∧
  (∀ f, parse_flags create_flags set_flag (mkFlags "" 0 0) rest = inl f → fl_model f ≠ ""%string →
     ∃ req, reports (sim SIM_URL ("create"%string :: rest)) req ∧ goes_to base req ∧ routed req = Some CreateSimulation ∧
       hr_Body req = Some (marshalCreate (fl_model f) (fl_seed f) (if 0 <? fl_n f then Some (fl_n f) else None))) ∧
  (∀ file data, readFile file = Ok data →
     ∃ req, reports (sim SIM_URL ("restore"%string :: id :: file :: rest)) req ∧ goes_to base req ∧
       routed req = Some (OnSimulation id OpRestore) ∧ hr_Body req = Some data).
Proof using Ul.
  intros Hb Hid base. unfold main. fold base in Hb |- *. split_and!.
  - intros cmd op Hin. destruct (operation_sends base cmd op id rest Hin) as (method & sub & -> & Hc & Hs & Hne & Hop).
    by apply simulation_reports.
  - by apply (send_reports base "GET" "api/v1/models").
  - apply (send_reports base "GET" ("api/v1/models/" +:+ id)); [done|by rewrite every_app, (plain_chars _ Hid)|].
    change ("/" +:+ "api/v1/models/" +:+ id) with ("/api/v1/models/" +:+ id). unfold endpoint_of. rewrite models_segments by done.
    apply plain_segment in Hid as [Hid _]. by destruct id.
  - intros f Hf Hm. change (dispatch net readFile marshalCreate base "create" rest) with (Some (doCreate net marshalCreate base rest)).
    unfold doCreate. rewrite Hf, decide_False by done. by apply (send_reports base "POST" "api/v1/simulations").
  - intros file data Hf. change (dispatch net readFile marshalCreate base "restore" (id :: file :: rest))
      with (Some (inl (A := Run) (B := Z) (doRestore net readFile base (id :: file :: rest)))).
    unfold doRestore. cbn [requireID]. rewrite Hf. by apply simulation_reports.
Qed.

(** Wrong command lines, and URLs that cannot be parsed or sent, are refused before anything is
    sent. *)
Lemma cli_refuses SIM_URL :
  ex_code (sim SIM_URL []) = 2 ∧
  (∀ cmd op, (cmd, op) ∈ operations → ex_requests (sim SIM_URL [cmd]) = [] ∧ ex_code (sim SIM_URL [cmd]) = 1) ∧
  (∀ rest code, parse_flags create_flags set_flag (mkFlags "" 0 0) rest = inr code → sim SIM_URL ("create"%string :: rest) = mkExit [] [] [] code) ∧
  (∀ method url body, match url_Parse url with Ok u => is_Some (unsupported u) | Err _ => True end →
     ex_requests (finish (send net method url body)) = [] ∧ ex_code (finish (send net method url body)) = 1).
Proof using Type.
  split_and!; [done| | |].
  - intros cmd op Hin. unfold operations in Hin. repeat (apply elem_of_cons in Hin as [[= -> ->]|Hin]; [done|]). by apply elem_of_nil in Hin.
  - intros rest code Hf. unfold main. change (dispatch net readFile marshalCreate _ "create" rest) with (Some (doCreate net marshalCreate (base_url SIM_URL) rest)).
    unfold doCreate. by rewrite Hf.
  - intros method url body Hu. unfold send, Do. destruct (url_Parse url) as [u|e]; [|done]. cbn [hr_URL].
    by destruct Hu as [e ->].
Qed.
End properties.

(** A parser of simple URLs. *)
Module ToyURL.
Definition ends_path (c : ascii) : bool := Ascii.eqb c "?" || Ascii.eqb c "#".
Definition control (c : ascii) : bool := (N_of_ascii c <=? 31)%N || (N_of_ascii c =? 127)%N.

(** The authority and the path of what follows the scheme. *)
Definition parse_rest (scheme rest : string) : URL :=
  match GoText.Cut "/" rest with
  | Some (host, path) => mkURL scheme None host ("/" +:+ cut_any ends_path path)
  | None => mkURL scheme None rest ""
  end.

#[global] Instance parser : NetURL := λ s,
  if every (λ c, negb (control c)) s then
    match strip_prefix "http://" s, strip_prefix "https://" s with
    | Some rest, _ => Ok (parse_rest "http" rest)
    | None, Some rest => Ok (parse_rest "https" rest)
    | None, None => Ok (mkURL "" None "" s)
    end
  else Err (Errorf "net/url: invalid control character in URL").

Definition host_or_port (c : ascii) : bool := host_char c || Ascii.eqb c ":".

Lemma plain_host_chars host : plain_host host = true → every host_or_port host = true.
Proof.
  unfold plain_host. destruct (GoText.Cut ":" host) as [[name port]|] eqn:E.
  - apply Cut_Some in E as ->. intros [[_ Hn]%andb_true_iff Hp]%andb_true_iff. rewrite every_app. apply andb_true_iff. split.
    + eapply every_mono, Hn. intros c Hc. unfold host_or_port. by rewrite Hc.
    + cbn [every]. eapply every_mono, Hp. intros [[] [] [] [] [] [] [] []]; done.
  - intros [[_ Hn]%andb_true_iff _]%andb_true_iff. eapply every_mono, Hn. intros c Hc. unfold host_or_port. by rewrite Hc.
Qed.

Lemma host_or_port_visible c : host_or_port c = true → negb (control c) = true.
Proof. destruct c as [[] [] [] [] [] [] [] []]; done. Qed.

Lemma path_char_visible c : path_char c = true → negb (control c) = true.
Proof. destruct c as [[] [] [] [] [] [] [] []]; done. Qed.

Lemma path_char_stays c : path_char c = true → negb (ends_path c) = true.
Proof. destruct c as [[] [] [] [] [] [] [] []]; done. Qed.

Lemma plain_host_slash host : plain_host host = true → occurs "/" host = false.
Proof.
  intros H%plain_host_chars. induction host as [|c host IH]; [done|]. cbn [every occurs] in *.
  apply andb_true_iff in H as [Hc Hh]. rewrite IH, orb_false_r by done. by destruct (Ascii.eqb_spec "/" c) as [<-|].
Qed.

Lemma parse_schemed scheme host path u : scheme ∈ ["http"; "https"]%string → plain_host host = true →
  url_Parse (scheme +:+ "://" +:+ host +:+ "/" +:+ path) = Ok u → u = mkURL scheme None host ("/" +:+ cut_any ends_path path).
Proof.
  intros Hs Hh. unfold url_Parse, parser. destruct (every _ _); [|done].
  assert (occurs "/" host = false) as Ho by (by apply plain_host_slash).
  repeat (apply elem_of_cons in Hs as [->|Hs]); [..|by apply elem_of_nil in Hs].
  - change ("http" +:+ "://" +:+ host +:+ "/" +:+ path) with ("http://" +:+ host +:+ String "/" path).
    rewrite strip_prefix_app. unfold parse_rest. rewrite Cut_sep by done. by intros [= <-].
  - change ("https" +:+ "://" +:+ host +:+ "/" +:+ path) with ("https://" +:+ host +:+ String "/" path).
    assert (strip_prefix "http://" ("https://" +:+ host +:+ String "/" path) = None) as -> by done.
    rewrite strip_prefix_app. unfold parse_rest. rewrite Cut_sep by done. by intros [= <-].
Qed.

#[global] Instance laws : UrlLaws parser.
Proof.
  split.
  - intros scheme host path Hs Hh Hp. destruct (url_Parse _) as [u|e] eqn:E.
    + rewrite (parse_schemed _ _ _ _ Hs Hh E). rewrite <- (app_empty_r path) at 1.
      rewrite cut_any_app by (eapply every_mono, Hp; apply path_char_stays). cbn. by rewrite app_empty_r.
    + exfalso. revert E. unfold url_Parse, parser. rewrite !every_app.
      rewrite (every_mono host_or_port (λ c, negb (control c)) host), (every_mono path_char (λ c, negb (control c)) path); try done.
      * repeat (apply elem_of_cons in Hs as [->|Hs]); [..|by apply elem_of_nil in Hs]; cbn [every andb]; by repeat destruct (strip_prefix _ _).
      * apply path_char_visible.
      * apply host_or_port_visible.
      * by apply plain_host_chars.
  - intros scheme host path rest u Hs Hh Hp E. rewrite (parse_schemed _ _ _ _ Hs Hh E). cbn [u_Path].
    rewrite cut_any_app by (eapply every_mono, Hp; apply path_char_stays). exists (cut_any ends_path rest). done.
Qed.
End ToyURL.

Lemma cli_drives_api_witness :
  let net req := Ok (mkHttpResp 200 "200 OK" (Ok (u_Path (hr_URL req)))) in
  ∃ req, reports net (main net (λ _, Err ErrNotFound) (λ _ _ _, "{}"%string) "" ["start"; "s1"]%string) req ∧
    goes_to "http://127.0.0.1:8080" req ∧ routed req = Some (OnSimulation "s1" OpStart) ∧ hr_Body req = None.
Proof.
  intros net. destruct (cli_drives_api net (λ _, Err ErrNotFound) (λ _ _ _, "{}"%string) "" "s1" []) as [H _]; [reflexivity|reflexivity|].
  apply H. left.
Defined.

(** A base with a final slash reaches no route, and one without a scheme is refused. *)
Example bases_matter :
  let net req := Ok (mkHttpResp (match routed req with Some _ => 200 | None => 404 end) "" (Ok ""%string)) in
  let sim base := main net (λ _, Err ErrNotFound) (λ _ _ _, "{}"%string) base ["start"; "s1"]%string in
  ex_code (sim "http://host:8080"%string) = 0 ∧ ex_code (sim "http://host:8080/"%string) = 1 ∧
  ex_requests (sim "host:8080"%string) = [].
Proof. by vm_compute. Qed.

(** The flags of [create] stop at the first argument that is not a flag. *)
Example create_flags_parsed :
  parse_flags create_flags set_flag (mkFlags "" 0 0) ["--model"; "counter"; "-seed=42"; "--n"; "1000"; "x"; "-bad"]%string
    = inl (mkFlags "counter" 42 1000) ∧
  parse_flags create_flags set_flag (mkFlags "" 0 0) ["--seed"]%string = inr 2 ∧
  parse_flags create_flags set_flag (mkFlags "" 0 0) ["-h"]%string = inr 0.
Proof. by vm_compute. Qed.

(** ** The client and authentication *)

(** A request is below the models or the simulations. *)
Definition below (req : HttpRequest) : Prop :=
  ∃ first rest, first ∈ ["models"; "simulations"]%string ∧ (rest = ""%string ∨ ∃ x, rest = "/" +:+ x) ∧
    u_Path (hr_URL req) = "/api/v1/" +:+ first +:+ rest.

Lemma split_below first rest : occurs "/" first = false → rest = ""%string ∨ (∃ x, rest = "/" +:+ x) →
  ∃ l, split_on "/" ("/api/v1/" +:+ first +:+ rest) = ("" :: "api" :: "v1" :: first :: l)%string.
Proof.
  intros Hf Hr. change (split_on "/" ("/api/v1/" +:+ first +:+ rest))
    with ("" :: split_on "/" ("api" +:+ "/" +:+ "v1" +:+ "/" +:+ first +:+ rest))%string.
  rewrite !split_segment by done. destruct Hr as [->|[x ->]].
  - rewrite app_empty_r, split_on_none by done. by eexists.
  - rewrite split_segment by done. by eexists.
Qed.

Lemma below_not_public req e : below req → routed req = Some e → public e = false.
Proof.
  unfold routed, below. intros (first & rest & Hin & Hr & ->); unfold endpoint_of.
  repeat (apply elem_of_cons in Hin as [->|Hin]); [..|by apply elem_of_nil in Hin].
  - destruct (split_below "models" rest eq_refl Hr) as [l Hl].
    rewrite Hl. unfold by_method. destruct l as [|[|c s] [|? l]]; try done; repeat case_bool_decide; try done; by intros [= <-].
  - destruct (split_below "simulations" rest eq_refl Hr) as [l Hl].
    rewrite Hl. unfold by_method. destruct l as [|[|c s] [|[|c' s'] [|? l]]]; try done; repeat case_bool_decide; try done; try by intros [= <-].
    all: destruct (simulation_route (hr_Method req) (String c' s')) as [op|]; [by intros [= <-]|done].
Qed.

Lemma Do_requests net req : rn_requests (Do net req) = match unsupported (hr_URL req) with None => [req] | Some _ => [] end.
Proof.
  unfold Do. destruct (unsupported _); [done|]. destruct (net req) as [resp|e]; [|done]. unfold printResponse.
  destruct (hp_Body resp); [|done]. by destruct (_ <=? _).
Qed.

Lemma finish_requests r : ex_requests (finish r) = rn_requests r.
Proof. unfold finish. by destruct (rn_err r). Qed.

Section requests.
Context `{Ul : UrlLaws}.
Context (net : HttpRequest → result HttpResponse).

Lemma send_below base method first rest body :
  plain_base base = true → first ∈ ["models"; "simulations"]%string → rest = ""%string ∨ (∃ x, rest = "/" +:+ x) →
  Forall below (ex_requests (finish (send net method (base +:+ "/api/v1/" +:+ first +:+ rest) body))).
Proof using Ul.
  intros (scheme & host & Hs & Hh & ->)%plain_base_parts Hf Hr. rewrite finish_requests. unfold send.
  assert (every path_char ("api/v1/" +:+ first) = true) as Hc.
  { repeat (apply elem_of_cons in Hf as [->|Hf]; [done|]). by apply elem_of_nil in Hf. }
  destruct (url_Parse _) as [u|e] eqn:E; [|constructor]. rewrite Do_requests. destruct (unsupported _); constructor; [|constructor].
  rewrite <- !app_assoc_string in E. exists first. cbn [hr_URL]. destruct Hr as [->|[x ->]].
  - exists ""%string. rewrite app_empty_r in *. split_and!; [done|by left|].
    change (scheme +:+ "://" +:+ host +:+ "/api/v1/" +:+ first) with (scheme +:+ "://" +:+ host +:+ "/" +:+ ("api/v1/" +:+ first)) in E.
    rewrite parse_plain in E by done. by injection E as <-.
  - change (scheme +:+ "://" +:+ host +:+ "/api/v1/" +:+ first +:+ "/" +:+ x)
      with (scheme +:+ "://" +:+ host +:+ "/" +:+ "api/v1/" +:+ first +:+ "/" +:+ x) in E.
    rewrite (app_assoc_string "api/v1/" first) in E. destruct (parse_below _ _ _ _ _ Hs Hh Hc E) as [x' Hx'].
    exists ("/" +:+ x'). split_and!; [done|by right; eexists|]. rewrite Hx', <- app_assoc_string. done.
Qed.

Lemma simulation_below base method id sub body : plain_base base = true →
  Forall below (ex_requests (finish (send net method (simulation_url base id sub) body))).
Proof using Ul.
  intros Hb. apply (send_below base method "simulations" ("/" +:+ id +:+ "/" +:+ sub)); [done|by right; left|by right; eexists].
Qed.

Lemma main_below readFile marshalCreate SIM_URL argv : plain_base (base_url SIM_URL) = true →
  Forall below (ex_requests (main net readFile marshalCreate SIM_URL argv)).
Proof using Ul.
  intros Hb. unfold main. destruct argv as [|cmd args]; [constructor|]. set (base := base_url SIM_URL) in *.
  assert (∀ msg, Forall below (ex_requests (finish (refuse msg)))) as Hre by constructor.
  assert (∀ method first body, first ∈ ["models"; "simulations"]%string →
    Forall below (ex_requests (finish (send net method (base +:+ "/api/v1/" +:+ first) body)))) as Hplain.
  { intros method first body Hf. rewrite <- (app_empty_r first). apply send_below; [done|done|by left]. }
  unfold dispatch. repeat case_bool_decide; unfold doModels, doModel, doAction, doGet, doSnapshot, doRestore, getAndPrint, postAndPrint.
  - by apply (Hplain "GET"%string "models"%string); left.
  - unfold doCreate. destruct (parse_flags _ _ _ args) as [f|code]; [|constructor]. destruct (decide (fl_model f = ""%string)); [apply Hre|].
    by apply (Hplain "POST"%string "simulations"%string); right; left.
  - destruct args as [|id args]; [apply Hre|by apply simulation_below].
  - destruct args as [|id args]; [apply Hre|by apply simulation_below].
  - destruct args as [|id args]; [apply Hre|by apply simulation_below].
  - destruct args as [|id args]; [apply Hre|by apply simulation_below].
  - destruct args as [|id [|file args]]; cbn [requireID]; [apply Hre..|]. destruct (readFile file); [by apply simulation_below|apply Hre].
  - destruct args as [|id args]; [apply Hre|].
    apply (send_below base "GET" "models" ("/" +:+ id)); [done|by left|by right; eexists].
  - constructor.
  - constructor.
Qed.
End requests.

Section authenticated.
Context `{R : GoRuntime} `{K : Checksummer} {M : Type} `{P : Postgres} `{C : RunConfigCodec}.
Context `{J : Jwt} `{A2 : Argon2} {S : Type} `{Rd : RedisServer S} `{Cd : ApiCodec}.

(** The request as the server sees it: the client sets no [Authorization] header, but the standard
    library does for a URL with user information. *)
Definition received (addr : string) (req : HttpRequest) : Request :=
  mkRequest (hr_Method req) (u_Path (hr_URL req)) (match u_User (hr_URL req) with Some c => "Basic " +:+ c | None => "" end) addr
    (default "" (hr_Body req)) None.

(** No command works against a server with authentication: whatever the arguments, a request of
    the client is answered 401 and changes nothing. *)
Theorem cli_refused_with_auth `{Ul : UrlLaws} GOMAXPROCS (s : Server) tokens env net readFile marshalCreate SIM_URL argv addr req e
    (st : S * Manager (M := M) (St := DB)) :
  plain_base (base_url SIM_URL) = true →
  sv_tokens s = Some tokens → req ∈ ex_requests (main net readFile marshalCreate SIM_URL argv) →
  routed req = Some e →
  ∃ resp, Router GOMAXPROCS s env e st (received addr req) = Done (st, resp) ∧ rs_Status resp = 401.
Proof.
  intros Hb Ht Hin He. pose proof (main_below net readFile marshalCreate SIM_URL argv Hb) as Hall. rewrite Forall_forall in Hall.
  pose proof (below_not_public _ _ (Hall req Hin) He) as Hp. unfold Router. rewrite Ht.
  assert (bearer (received addr req) = ""%string) as Hbe.
  { unfold bearer, received. cbn [rq_Authorization]. by destruct (u_User (hr_URL req)). }
  destruct e; try done; unfold RequireAuth; rewrite Hbe; (eexists; split; [done|done]).
Qed.
End authenticated.
