(* ===== verification/Serving.v ===== *)
(** * The served API: the middleware chain of [internal/api/server.go], [internal/observability],
    and a client at the other end

    A request as it arrives, with its method and path, goes through recovery, tracing and logging
    to the handler of its route.  The answer of the recovery middleware and of the router to an
    unknown path, what a handler that panics leaves behind, and the text of a response are
    arguments; so are the times of requests and the identifiers the request-identifier middleware
    gives them.  Requests are answered before the deadline of the timeout middleware, which is left
    out. *)

From Stdlib Require Import Ascii.
From S2P Require Import Prelude Float64 GoValues GoStrings GoText GoFlag Events World Snapshot Scheduler Runtime.
From S2P Require Import Registry JobQueue Manager Base64 Password Sqlc Repository Auth Redis Api Cli.
Local Open Scope Z_scope.

(** ** What a request leaves in the log and in the trace *)

Record LogLine := mkLog { ll_method : string; ll_path : string; ll_status : Z; ll_request_id : string }.
Record Observed := mkObserved { ob_spans : list string; ob_log : list LogLine }.

Section middleware.
Context {X A : Type} (reqID : string).

(** The span is ended by a deferred call, after a panic too. *)
(* internal/observability/tracing.go:41-49 Middleware *)
Definition Trace__Middleware (r : Request) (next : Observed → Observed * X) (o : Observed) : Observed * X :=
  let '(o, x) := next o in
  (mkObserved (ob_spans o ++ [rq_Method r +:+ " " +:+ rq_Path r]) (ob_log o), x).

(** A panic passes the logger by. *)
(* internal/api/server.go:198-213 Server.requestLogger *)
Definition requestLogger {S : Type} (r : Request) (next : Observed → Observed * outcome (S * Response A)) (o : Observed)
  : Observed * outcome (S * Response A) :=
  let '(o, x) := next o in
  match x with
  | Done (st, resp) =>
      (mkObserved (ob_spans o) (ob_log o ++ [mkLog (rq_Method r) (rq_Path r) (rs_Status resp) reqID]), Done (st, resp))
  | Panic why => (o, Panic why)
  end.
End middleware.

Section serving.
Context `{R : GoRuntime} `{K : Checksummer} {M : Type} `{P : Postgres} `{C : RunConfigCodec}.
Context `{J : Jwt} `{A2 : Argon2} {S : Type} `{Rd : RedisServer S} `{Cd : ApiCodec}.
Context (GOMAXPROCS : Z) (s : Server) (env : Env).
Abbreviation State := (S * Manager (M := M) (St := DB))%type.

(** [middleware.Recoverer], the router's answer without a route, and what a panic leaves behind. *)
Context (recovered unrouted : Response Payload) (unwound_state : State → Request → State).

Definition handler (r : Request) : Handler State Payload :=
  match endpoint_of (rq_Method r) (rq_Path r) with
  | Some e => Router GOMAXPROCS s env e
  | None => λ st _, Done (st, unrouted)
  end.

(** The chain, from the outside in, with the identifier [reqID] that [middleware.RequestID] has given
    the request and without [middleware.Timeout]. *)
(* internal/api/server.go:61-66 Server.Router *)
Definition serve (reqID : string) (o : Observed) (st : State) (r : Request) : Observed * State * Response Payload :=
  let '(o, x) := Trace__Middleware r (requestLogger reqID r (λ o, (o, handler r st r))) o in
  match x with
  | Done (st, resp) => (o, st, resp)
  | Panic _ => (o, unwound_state st r, recovered)
  end.

(** Every request is answered and leaves one span; it leaves one line in the log, with the status of
    the answer, unless its handler panicked. *)
Lemma serve_observed reqID o st r o' st' resp :
  serve reqID o st r = (o', st', resp) →
  ob_spans o' = ob_spans o ++ [rq_Method r +:+ " " +:+ rq_Path r] ∧
  match handler r st r with
  | Done x => x = (st', resp) ∧ ob_log o' = ob_log o ++ [mkLog (rq_Method r) (rq_Path r) (rs_Status resp) reqID]
  | Panic _ => st' = unwound_state st r ∧ resp = recovered ∧ ob_log o' = ob_log o
  end.
Proof using Type.
  unfold serve, Trace__Middleware, requestLogger. by destruct (handler r st r) as [[st1 resp1]|why]; intros [= <- <- <-].
Qed.

(** ** A client of the served API *)

(** The text of an answer: its status line and body, for a connection that holds. *)
Context (statusText : Z → string) (encode : Response Payload → string) (addr reqID : string) (o0 : Observed).
Definition wire (resp : Response Payload) : HttpResponse :=
  mkHttpResp (rs_Status resp) (statusText (rs_Status resp)) (Ok (encode resp)).

(** The server as the network of the client, and its state after a request. *)
Definition served (st : State) (req : HttpRequest) : Observed * State * Response Payload :=
  serve reqID o0 st (received addr req).
Definition remote (st : State) (req : HttpRequest) : result HttpResponse := Ok (wire (served st req).2).

(** What the lifecycle commands do to a simulation. *)
Definition commands : list (string * (Simulation M → Simulation M * option error)) :=
  [("start", Simulation__Start); ("pause", Simulation__Pause); ("resume", Simulation__Resume); ("stop", Simulation__Stop)]%string.

Context `{Ul : UrlLaws} (readFile : string → result string) (marshalCreate : string → Z → option Z → string).

Lemma finish_code net req : unsupported (hr_URL req) = None →
  ex_code (finish (Do net req)) = 0 ↔
  ∃ resp body, net req = Ok resp ∧ hp_Body resp = Ok body ∧ hp_StatusCode resp < 400.
Proof using Type.
  clear. intros Hu. unfold Do, finish. rewrite Hu. destruct (net req) as [[code status [body|e]]|e]; cbn.
  - unfold printResponse. cbn. destruct (Z.leb_spec 400 code); cbn; (split; [|naive_solver lia]); intros Hc; [done|by eexists _, body].
  - split; [done|]. by intros (? & ? & [= <-] & ? & ?).
  - split; [done|]. by intros (? & ? & ? & ? & ?).
Qed.

(** A lifecycle route of a server without authentication and Redis: the call is made on the
    simulation, and the answer is below 400 exactly when it succeeds. *)
Lemma lifecycle_call cmd f id rd m mg sim r :
  sv_tokens s = None → sv_redis s = false → (cmd, f) ∈ commands → rq_Claims r = None →
  mgr_sims m !! id = Some mg → mgr_heap m !! mg_sim mg = Some sim →
  ∃ op m' resp, simulation_route "POST" cmd = Some op ∧
    Router GOMAXPROCS s env (OnSimulation id op) (rd, m) r = Done ((rd, m'), resp) ∧
    mgr_heap m' = <[mg_sim mg := (f sim).1]> (mgr_heap m) ∧ mgr_sims m' = mgr_sims m ∧
    (rs_Status resp < 400 ↔ (f sim).2 = None).
Proof using Type.
  intros Ht Hrd Hin Hcl Hmg Hsim. pose proof (list_insert_id _ _ _ Hsim) as Hid.
  assert (∀ h, ownership id h (rd, m) r = h (rd, m) r) as Hown.
  { intros h. unfold ownership, Manager__Get, live_info, deref. cbn [snd]. rewrite Hmg, Hsim. cbn [obind].
    unfold FromContext. by rewrite Hcl. }
  unfold commands in Hin. repeat rewrite elem_of_cons in Hin. rewrite elem_of_nil in Hin.
  destruct Hin as [[= -> ->]|[[= -> ->]|[[= -> ->]|[[= -> ->]|[]]]]];
    unfold Simulation__Start, begin, Simulation__Pause, Simulation__Resume, Simulation__Stop; case_decide; cbn [fst snd];
    eexists _, _, _; (split; [done|]);
    unfold Router; rewrite Ht; unfold routes; rewrite Hown; unfold on_simulation, rateLimit; rewrite ?Hrd;
    unfold action, Manager__Start, Manager__Pause, Manager__Resume, Manager__Stop, control, lookup_sim, deref; cbn [fst snd];
    rewrite Hmg; cbn [obind]; rewrite Hsim; cbn [obind];
    unfold Simulation__Start, begin, Simulation__Pause, Simulation__Resume, Simulation__Stop;
    (first [rewrite decide_True by done|rewrite decide_False by done]);
    (split; [reflexivity|]); cbn; rewrite ?Hid; (split_and!; [done|done|]); split; done || lia.
Qed.

(** C40: remote control: against a served API without authentication and Redis, at the base of the
    client (a scheme and a host), a lifecycle command of the client does to the simulation it names, by
    an identifier that is a path segment of its own, what the method of that name does, and nothing
    to any other; the command exits with 0 exactly when the method succeeds. *)
Theorem remote_control SIM_URL cmd f id rd m mg sim :
  plain_base (base_url SIM_URL) = true → plain id = true → sv_tokens s = None → sv_redis s = false → (cmd, f) ∈ commands →
  mgr_sims m !! id = Some mg → mgr_heap m !! mg_sim mg = Some sim →
  let ex := main (remote (rd, m)) readFile marshalCreate SIM_URL [cmd; id] in
  ∃ req m', ex_requests ex = [req] ∧ goes_to (base_url SIM_URL) req ∧ (served (rd, m) req).1.2 = (rd, m') ∧
    mgr_heap m' = <[mg_sim mg := (f sim).1]> (mgr_heap m) ∧ mgr_sims m' = mgr_sims m ∧
    (ex_code ex = 0 ↔ (f sim).2 = None).
Proof using Ul.
  intros Hb Hid Ht Hrd Hin Hmg Hsim ex. set (base := base_url SIM_URL) in *.
  assert (occurs "/" cmd = false ∧ every path_char cmd = true ∧ cmd ≠ ""%string ∧
    ex = finish (send (remote (rd, m)) "POST" (simulation_url base id cmd) None)) as (Hs & Hc & Hne & Hex).
  { clear -Hin. unfold commands in Hin. repeat rewrite elem_of_cons in Hin. rewrite elem_of_nil in Hin.
    by destruct Hin as [[= -> ->]|[[= -> ->]|[[= -> ->]|[[= -> ->]|[]]]]]. }
  destruct (send_plain (remote (rd, m)) base "POST" ("api/v1/simulations/" +:+ id +:+ "/" +:+ cmd) None Hb) as (u & Hsend & Hu & Hg & Hpath).
  { by rewrite !every_app, (plain_chars _ Hid), Hc. }
  set (req := mkHttp "POST" u None) in *.
  destruct (lifecycle_call cmd f id rd m mg sim (received addr req) Ht Hrd Hin eq_refl Hmg Hsim)
    as (op & m' & resp & Hop & Hrouter & Hheap & Hsims & Hcode).
  assert (served (rd, m) req = ((served (rd, m) req).1.1, (rd, m'), resp)) as Hserved.
  { unfold served, serve, Trace__Middleware, requestLogger, handler. cbn [rq_Method rq_Path received req hr_Method hr_URL].
    by rewrite Hpath, (simulation_path "POST" id cmd op), Hrouter. }
  change (simulation_url base id cmd) with (base +:+ "/" +:+ "api/v1/simulations/" +:+ id +:+ "/" +:+ cmd) in Hex.
  rewrite Hsend in Hex. exists req, m'. rewrite Hex. split_and!; [|done|by rewrite Hserved|done|done|].
  - rewrite finish_requests, Do_requests. cbn [hr_URL req]. by rewrite Hu.
  - rewrite finish_code by done. unfold remote. rewrite Hserved. cbn [snd]. rewrite <- Hcode. split.
    + by intros (r' & b & [= <-] & _ & Hlt).
    + intros Hlt. by eexists _, _.
Qed.
End serving.

(** ** Witness *)

Module ToyRemote.
Definition answer : Response Payload := mkResponse 500 [] BEmpty.
Definition network := remote (S := ToyRedis.State) (M := nat) 4 NewServer ToyServer.env answer answer (λ st _, st)
  (λ _, "status"%string) (λ _, "{}"%string) "192.0.2.1:1234" "r1" (mkObserved [] []).
(** [sim] on the manager of [ToyPostgres], which has the idle simulation [s1]. *)
Definition sim (argv : list string) : Exit :=
  main (network (ToyRedis.mkState ∅ 0, ToyPostgres.m1)) (λ _, Err ErrNotFound) (λ _ _ _, "{}"%string) "" argv.
End ToyRemote.

Lemma remote_control_witness : ex_code (ToyRemote.sim ["start"; "s1"]%string) = 0 ∧ ex_code (ToyRemote.sim ["pause"; "s1"]%string) ≠ 0.
Proof.
  destruct (mgr_heap ToyPostgres.m1 !! mg_sim ToyPostgres.entry) as [sim|] eqn:Es; [|vm_compute in Es; done].
  assert (sim_state sim = StateIdle) as Hi by (vm_compute in Es; injection Es as <-; done).
  pose proof (λ cmd f, remote_control (S := ToyRedis.State) 4 NewServer ToyServer.env ToyRemote.answer ToyRemote.answer (λ st _, st)
    (λ _, "status"%string) (λ _, "{}"%string) "192.0.2.1:1234" "r1" (mkObserved [] []) (λ _, Err ErrNotFound) (λ _ _ _, "{}"%string)
    "" cmd f "s1" (ToyRedis.mkState ∅ 0) ToyPostgres.m1 ToyPostgres.entry sim eq_refl eq_refl eq_refl eq_refl) as H.
  assert (mgr_sims ToyPostgres.m1 !! "s1"%string = Some ToyPostgres.entry) as Hm by (vm_compute; reflexivity). split.
  - destruct (H "start"%string Simulation__Start) as (req & m' & _ & _ & _ & _ & _ & Hc); [by left|exact Hm|exact Es|].
    apply Hc. unfold Simulation__Start, begin. by rewrite Hi.
  - destruct (H "pause"%string Simulation__Pause) as (req & m' & _ & _ & _ & _ & _ & Hc); [by right; left|exact Hm|exact Es|].
    intros H0. apply Hc in H0. unfold Simulation__Pause in H0. by rewrite Hi in H0.
Defined.
