(* ===== verification/TestDB.v ===== *)
(** * The database of the tests: [internal/testutil/db.go]

    A pool whose connections work in a schema made for one test and dropped afterwards.  The server
    is an argument, with what it does for the two statements the helper sends. *)

From Stdlib Require Import Ascii.
From S2P Require Import Prelude GoStrings GoText Commands.
Local Open Scope Z_scope.

(** [strconv.FormatInt(n, 36)] for [0 <= n < 2^63], which has at most thirteen digits. *)
Definition digit36 (d : Z) : ascii := ascii_of_N (Z.to_N (if d <? 10 then d + 48 else d + 87)).

Fixpoint format36 (fuel : nat) (n : Z) (acc : string) : string :=
  match fuel with
  | O => acc
  | S fuel =>
      let acc := String (digit36 (n mod 36)) acc in
      if n / 36 =? 0 then acc else format36 fuel (n / 36) acc
  end.

Definition FormatInt36 (n : Z) : string := format36 13 n "".

(** The server: its schemas and what it does with a statement. *)
Class SchemaServer (S : Type) := {
  pg_schemas : S → gset string;
  pg_Exec : S → string → S * option error;
  pg_create s name : let '(s', err) := pg_Exec s ("CREATE SCHEMA " +:+ name) in
    match err with
    | None => name ∉ pg_schemas s ∧ pg_schemas s' = {[name]} ∪ pg_schemas s
    | Some _ => pg_schemas s' = pg_schemas s
    end;
  pg_drop s name : let '(s', err) := pg_Exec s ("DROP SCHEMA IF EXISTS " +:+ name +:+ " CASCADE") in
    err = None → pg_schemas s' = pg_schemas s ∖ {[name]};
}.

(** A pool, with the schema its connections work in. *)
Record Pool := mkPool { pl_url : string; pl_search_path : string; pl_MaxConns : Z }.

Section helper.
Context `{O : Outside} {S : Type} `{Sv : SchemaServer S}.

Definition schema_name (now : Z) : string := "test_" +:+ FormatInt36 now.

(** [None] is a test that is skipped. *)
(* internal/testutil/db.go:17-56 TestPool *)
Definition TestPool (getenv : string → string) (now : Z) (s : S) : S * option Pool :=
  let url := getenv "DATABASE_URL" in
  if decide (url = ""%string) then (s, None)
  else
    let schema := schema_name now in
    match pgx_ParseConfig url with
    | Some _ => (s, None)
    | None =>
        match pgx_NewWithConfig url with
        | Some _ => (s, None)
        | None =>
            match pgx_Ping url with
            | Some _ => (s, None)
            | None =>
                let '(s, err) := pg_Exec s ("CREATE SCHEMA " +:+ schema) in
                match err with Some _ => (s, None) | None => (s, Some (mkPool url schema 4)) end
            end
        end
    end.

(* internal/testutil/db.go:58-62 TestPool *)
Definition cleanup (p : Pool) (s : S) : S * option error :=
  pg_Exec s ("DROP SCHEMA IF EXISTS " +:+ pl_search_path p +:+ " CASCADE").

(** A test gets a schema nobody else has, or changes nothing; and cleaning up restores the schemas
    there were. *)
Lemma TestPool_isolated getenv now s s' p :
  TestPool getenv now s = (s', p) →
  match p with
  | None => pg_schemas s' = pg_schemas s
  | Some p => pl_search_path p ∉ pg_schemas s ∧ pg_schemas s' = {[pl_search_path p]} ∪ pg_schemas s ∧
      ∀ s2 s3, pg_schemas s2 = pg_schemas s' → cleanup p s2 = (s3, None) → pg_schemas s3 = pg_schemas s
  end.
Proof using Type.
  unfold TestPool, cleanup. intros H. destruct (decide _); [by injection H as <- <-|].
  destruct (pgx_ParseConfig _); [by injection H as <- <-|]. destruct (pgx_NewWithConfig _); [by injection H as <- <-|].
  destruct (pgx_Ping _); [by injection H as <- <-|]. pose proof (pg_create s (schema_name now)) as Hc.
  destruct (pg_Exec s _) as [s1 [e|]]; injection H as <- <-; [done|]. destruct Hc as [Hnew Hs]. cbn [pl_search_path].
  split; [done|]. split; [done|]. intros s2 s3 H2 H3. pose proof (pg_drop s2 (schema_name now)) as Hd. rewrite H3 in Hd.
  rewrite Hd, H2, Hs by done. set_solver.
Qed.
End helper.

(** ** Distinct times name distinct schemas *)

Definition digit36_val (c : ascii) : Z :=
  let n := Z.of_N (N_of_ascii c) in if n <? 58 then n - 48 else n - 87.

Fixpoint value36 (acc : Z) (s : string) : Z :=
  match s with EmptyString => acc | String c s => value36 (acc * 36 + digit36_val c) s end.

Lemma digit36_val_digit d : 0 ≤ d < 36 → digit36_val (digit36 d) = d.
Proof.
  intros Hd. unfold digit36_val, digit36. destruct (Z.ltb_spec d 10); rewrite N_ascii_embedding by lia;
    rewrite Z2N.id by lia; [destruct (Z.ltb_spec (d + 48) 58)|destruct (Z.ltb_spec (d + 87) 58)]; lia.
Qed.

Lemma value36_format fuel n s :
  0 ≤ n < 36 ^ Z.of_nat fuel → value36 0 (format36 fuel n s) = value36 n s.
Proof.
  revert n s. induction fuel as [|fuel IH]; intros n s Hn; [cbn in Hn; by replace n with 0 by lia|].
  rewrite Nat2Z.inj_succ, Z.pow_succ_r in Hn by lia. cbn [format36].
  pose proof (Z.mod_pos_bound n 36 ltac:(lia)) as Hm. pose proof (Z.div_mod n 36 ltac:(lia)) as Hdm.
  destruct (Z.eqb_spec (n / 36) 0) as [Hz|Hz].
  - cbn [value36]. rewrite digit36_val_digit by done. f_equal. lia.
  - rewrite IH by (split; [apply Z.div_pos; lia|apply Z.div_lt_upper_bound; lia]). cbn [value36].
    rewrite digit36_val_digit by done. f_equal. lia.
Qed.

(** Tests that start at different nanoseconds work in different schemas. *)
Lemma schema_name_inj a b : 0 ≤ a < 2 ^ 63 → 0 ≤ b < 2 ^ 63 → schema_name a = schema_name b → a = b.
Proof.
  intros Ha Hb H. unfold schema_name in H. assert (FormatInt36 a = FormatInt36 b) as Hf.
  { apply (f_equal (strip_prefix "test_")) in H. rewrite !strip_prefix_app in H. by injection H. }
  apply (f_equal (value36 0)) in Hf. unfold FormatInt36 in Hf.
  assert (2 ^ 63 < 36 ^ Z.of_nat 13) by (vm_compute; reflexivity). rewrite !value36_format in Hf by lia. done.
Qed.

Example schema_name_example : schema_name 1700000000000000000 = "test_cwyvpelgpse8"%string.
Proof. vm_compute. reflexivity. Qed.

(** ** A concrete server *)

Module ToySchemas.
Definition Exec (s : gset string) (sql : string) : gset string * option error :=
  match strip_prefix "CREATE SCHEMA " sql with
  | Some name => if decide (name ∈ s) then (s, Some (Errorf "schema already exists")) else ({[name]} ∪ s, None)
  | None =>
      match strip_prefix "DROP SCHEMA IF EXISTS " sql with
      | Some rest => match strip_suffix " CASCADE" rest with Some name => (s ∖ {[name]}, None) | None => (s, Some (Errorf "syntax error")) end
      | None => (s, Some (Errorf "syntax error"))
      end
  end.

#[global] Program Instance server : SchemaServer (gset string) := { pg_schemas s := s; pg_Exec := Exec }.
Next Obligation. intros s name. unfold Exec. rewrite strip_prefix_app. by case_decide. Qed.
Next Obligation.
  intros s name. unfold Exec. change (strip_prefix "CREATE SCHEMA " ("DROP SCHEMA IF EXISTS " +:+ name +:+ " CASCADE")) with (@None string).
  by rewrite strip_prefix_app, strip_suffix_app.
Qed.
End ToySchemas.
